(** * winvelviz: streamline rendering of a wind field

    Verification model of [src/code/drawField.js]: the loading loops of
    [processItem], the field sampler ([vectorField], [getXY], [outside],
    [mix]), the segment rasterizer ([onStreamlineAdded], [drawSegment],
    [getColor]), the coordinate transform ([transform]), the gradient
    mapper ([makeGradient]) and the label of [saveCanvas].

    The program is written once, over an interface of JavaScript numbers
    ([JSNumber]), and read at two instances:
    - [binary64]: IEEE 754 double precision, the numbers JavaScript has
      (Stdlib's [SpecFloat] at precision 53, round to nearest even);
    - [exact]: the real numbers extended with NaN and the two infinities,
      the same program with every rounding removed.
    Results that only follow the control flow hold at every instance;
    results about the arithmetic of the program are stated at
    [binary64], and some of them at [exact] as well. *)

From Stdlib Require Import ZArith List Bool String Ascii Lia.
From Stdlib Require Import SpecFloat.
From Stdlib Require Import Reals Lra.
Import ListNotations.

(** ** JavaScript numbers *)

(** The operations the program applies to numbers.  [ltb a b] is [a < b]
    and [leb a b] is [a <= b]; the program's [a >= b] is [leb b a] and
    [a > b] is [ltb b a] (all four are false when an operand is NaN).
    [nan] is what arithmetic makes of [undefined].  [to_index] is the
    array subscript denoted by a number used as a property key, if any. *)
Class JSNumber : Type := {
  num : Type;
  of_Z : Z -> num;
  nan : num;
  add : num -> num -> num;
  sub : num -> num -> num;
  mul : num -> num -> num;
  div : num -> num -> num;
  rem : num -> num -> num;
  neg : num -> num;
  floor : num -> num;
  ceil : num -> num;
  round : num -> num;
  sqrt : num -> num;
  ltb : num -> num -> bool;
  leb : num -> num -> bool;
  to_index : num -> option Z
}.

Declare Scope js_scope.
Delimit Scope js_scope with js.
Bind Scope js_scope with num.
Notation "a + b" := (add a b) : js_scope.
Notation "a - b" := (sub a b) : js_scope.
Notation "a * b" := (mul a b) : js_scope.
Notation "a / b" := (div a b) : js_scope.
Notation "- a" := (neg a) : js_scope.
Notation "a <? b" := (ltb a b) : js_scope.
Notation "a <=? b" := (leb a b) : js_scope.
Notation "a >? b" := (ltb b a) : js_scope.
Notation "a >=? b" := (leb b a) : js_scope.

(** A decimal literal [m / 10^k], as the parser reads it: the number
    nearest to the quotient. *)
Definition dec {N : JSNumber} (m : Z) (k : nat) : num :=
  (of_Z m / of_Z (10 ^ Z.of_nat k))%js.

(** ** Arrays of numbers *)

(** [a[k]] for a number [k]: the element when [k] denotes a subscript in
    range, [undefined] otherwise; every such read of the program feeds
    arithmetic, where [undefined] is NaN. *)
Definition js_get {N : JSNumber} (a : list num) (k : num) : num :=
  match to_index k with
  | Some i => if (i <? Z.of_nat (List.length a))%Z then nth (Z.to_nat i) a nan else nan
  | None => nan
  end.

(** [a[k] = v]: overwrite in range, extend with holes past the end.  A
    key that is no subscript would create a named property, which no
    subscript read sees: the elements are unchanged. *)
Definition js_set {N : JSNumber} (a : list num) (k : num) (v : num) : list num :=
  match to_index k with
  | Some i =>
      let n := Z.to_nat i in
      if (i <? Z.of_nat (List.length a))%Z
      then firstn n a ++ v :: skipn (S n) a
      else a ++ repeat nan (n - List.length a) ++ [v]
  | None => a
  end.

(** ** Data *)

(** [{x, y}]: a point of the field or of the canvas, or a velocity. *)
Record Point {N : JSNumber} : Type := mkPoint { px : num; py : num }.
Arguments mkPoint {N} px py.

(** One component of the dataset: [data.u] or [data.v].  [Ni] and [Nj]
    are the dimensions of the stored grid, integers. *)
Record Component {N : JSNumber} : Type := mkComponent {
  values : list num;
  Ni : Z;
  Nj : Z;
  minimum : num;
  maximum : num
}.
Arguments mkComponent {N} values Ni Nj minimum maximum.

Record Dataset {N : JSNumber} : Type := mkDataset {
  data_u : Component;
  data_v : Component
}.
Arguments mkDataset {N} data_u data_v.

(** The variables of [processItem] its inner functions close over. *)
Record Env {N : JSNumber} : Type := mkEnv {
  uMax : num;
  uMin : num;
  vMax : num;
  vMin : num;
  maxVelocity : num;
  width : Z;
  height : Z;
  vfData : list num
}.
Arguments mkEnv {N} uMax uMin vMax vMin maxVelocity width height vfData.

Record BoundingBox {N : JSNumber} : Type := mkBox {
  box_left : num;
  box_top : num;
  box_width : num;
  box_height : num
}.
Arguments mkBox {N} box_left box_top box_width box_height.

(** One stop of the gradient: [{stop, r, g, b}]. *)
Record GradientStop {N : JSNumber} : Type := mkStop {
  stop : num;
  stop_r : num;
  stop_g : num;
  stop_b : num
}.
Arguments mkStop {N} stop stop_r stop_g stop_b.

(** What the gradient returns: a stop object itself (the clamped cases)
    or a fresh [{r, g, b}] (the interpolated case). *)
Inductive Color {N : JSNumber} : Type :=
  | StopColor (s : GradientStop)
  | MixColor (r g b : num).
Arguments StopColor {N} s.
Arguments MixColor {N} r g b.

Definition col_r {N : JSNumber} (c : Color) : num :=
  match c with StopColor s => stop_r s | MixColor r _ _ => r end.
Definition col_g {N : JSNumber} (c : Color) : num :=
  match c with StopColor s => stop_g s | MixColor _ g _ => g end.
Definition col_b {N : JSNumber} (c : Color) : num :=
  match c with StopColor s => stop_b s | MixColor _ _ b => b end.

(** A stroke style: a string literal of the source, or the string
    ["rgba(" + r + ", " + g + "," + b + ", " + a + ")"] kept as its four
    numbers. *)
Inductive Style {N : JSNumber} : Type :=
  | StyleLiteral (s : string)
  | StyleRgba (r g b a : num).
Arguments StyleLiteral {N} s.
Arguments StyleRgba {N} r g b a.

(** The calls made on the 2d context, in order. *)
Inductive CanvasOp {N : JSNumber} : Type :=
  | BeginPath
  | SetStrokeStyle (s : Style)
  | MoveTo (x y : num)
  | LineTo (x y : num)
  | Stroke
  | ClosePath.
Arguments BeginPath {N}.
Arguments SetStrokeStyle {N} s.
Arguments MoveTo {N} x y.
Arguments LineTo {N} x y.
Arguments Stroke {N}.
Arguments ClosePath {N}.

(** A function that returns or throws. *)
Inductive result (A : Type) : Type :=
  | Ret (a : A)
  | Throw (msg : string).
Arguments Ret {A} a.
Arguments Throw {A} msg.

Definition bind {A B : Type} (r : result A) (k : A -> result B) : result B :=
  match r with
  | Ret a => k a
  | Throw msg => Throw msg
  end.

Notation "x <- r ;; k" := (bind r (fun x => k))
  (at level 61, r at next level, right associativity).

Definition canvasWidth {N : JSNumber} : num := of_Z 1280.
Definition canvasHeight {N : JSNumber} : num := of_Z 720.

(** ** The gradient mapper *)

Module makeGradient.

(** [mix(a, b, t)], on the three channels. *)
Definition mix {N : JSNumber} (a b : GradientStop) (t : num) : Color :=
  MixColor
    (round (stop_r a * t + (of_Z 1 - t) * stop_r b))
    (round (stop_g a * t + (of_Z 1 - t) * stop_g b))
    (round (stop_b a * t + (of_Z 1 - t) * stop_b b))%js.

(** The [for] loop of [getColor]: [from] is the stop before [rest]. *)
Fixpoint scan {N : JSNumber} (t : num) (from : GradientStop)
    (rest : list GradientStop) : result (option Color) :=
  match rest with
  | [] => Throw "This should not be possible!"
  | to :: rest' =>
      if (stop from <=? t)%js && (t <? stop to)%js
      then
        let dist := ((t - stop from) / (stop to - stop from))%js in
        Ret (Some (mix to from dist))
      else scan t to rest'
  end.

(** [getColor(t)]; [None] is [undefined], the first or last element of
    an empty array. *)
Definition getColor {N : JSNumber} (stops : list GradientStop) (t : num)
    : result (option Color) :=
  if (t <=? of_Z 0)%js then Ret (option_map StopColor (nth_error stops 0))
  else if (t >=? of_Z 1)%js
  then Ret (option_map StopColor (nth_error stops (List.length stops - 1)))
  else
    match stops with
    | [] => Throw "This should not be possible!"
    | from :: rest => scan t from rest
    end.

End makeGradient.

(** The module-level [gradient]. *)
Definition gradient_stops {N : JSNumber} : list GradientStop :=
  [ mkStop (of_Z 0) (of_Z 40) (of_Z 40) (of_Z 40);
    mkStop (dec 5 1) (of_Z 106) (of_Z 168) (of_Z 198);
    mkStop (of_Z 1) (of_Z 226) (of_Z 229) (of_Z 170) ].

Definition gradient {N : JSNumber} (t : num) : result (option Color) :=
  makeGradient.getColor gradient_stops t.

(** ** [processItem]: loading the dataset *)

(** The right-hand sides of lines 67 and 68, and of lines 120 and 121
    under the sign: a stored value is scaled to the range of its
    component and a sample is scaled back. *)
Definition normalize {N : JSNumber} (value lo hi : num) : num :=
  ((value - lo) / (hi - lo))%js.

Definition denormalize {N : JSNumber} (value lo hi : num) : num :=
  (value * (hi - lo) + lo)%js.

(** The body of the inner loop, at row [y] and column [x]. *)
Definition fill_cell {N : JSNumber} (data : Dataset) (w : Z)
    (vf : list num) (y x : Z) : list num :=
  let u := data_u data in
  let v := data_v data in
  let i := ((of_Z y * of_Z w + of_Z x) * of_Z 2)%js in
  let k := (of_Z y * of_Z w + rem (of_Z x + of_Z w / of_Z 2) (of_Z w))%js in
  let vf := js_set vf (i + of_Z 0)%js
              (normalize (js_get (values u) k) (minimum u) (maximum u)) in
  js_set vf (i + of_Z 1)%js
    (normalize (js_get (values v) k) (minimum v) (maximum v)).

(** [0, 1, ..., n-1], the values of a loop counter. *)
Definition counter (n : Z) : list Z := map Z.of_nat (seq 0 (Z.to_nat n)).

(** The two nested loops that fill [vfData]. *)
Definition fill_vfData {N : JSNumber} (data : Dataset) (w h : Z) : list num :=
  fold_left
    (fun vf y => fold_left (fun vf x => fill_cell data w vf y x) (counter w) vf)
    (counter h) [].

(** The constants [processItem] computes before it runs the integrator. *)
Definition processItem_env {N : JSNumber} (data : Dataset) : Env :=
  let u := data_u data in
  let v := data_v data in
  let w := Ni u in
  let h := (Nj u - 1)%Z in
  mkEnv (maximum u) (minimum u) (maximum v) (minimum v)
    (sqrt (maximum u * maximum u + maximum v * maximum v))%js
    w h (fill_vfData data w h).

Definition boundingBox {N : JSNumber} (env : Env) : BoundingBox :=
  mkBox (of_Z 0) (of_Z 0) (of_Z (width env)) (of_Z (height env)).

(** ** The field sampler *)

(** Checks if a point is outside of the visible area. *)
Definition outside {N : JSNumber} (env : Env) (x y : num) : bool :=
  ((x <? of_Z 0) || (x >=? of_Z (width env))
   || (y <? of_Z 0) || (y >=? of_Z (height env)))%js.

(** Reads the value at a grid point; [None] is [undefined]. *)
Definition getXY {N : JSNumber} (env : Env) (x y : num) : option Point :=
  if outside env x y then None
  else
    let idx := ((x + y * of_Z (width env)) * of_Z 2)%js in
    Some (mkPoint (js_get (vfData env) idx) (js_get (vfData env) (idx + of_Z 1)%js)).

(** Linear interpolation between two points. *)
Definition mix {N : JSNumber} (a b : Point) (ratio : num) : Point :=
  mkPoint (px a * ratio + (of_Z 1 - ratio) * px b)%js
          (py a * ratio + (of_Z 1 - ratio) * py b)%js.

(** The grid indices of [vectorField] after lines 98 to 106. *)
Definition lower_x {N : JSNumber} (p : Point) : num :=
  let lx := floor (px p) in
  let ux := ceil (px p) in
  if (lx <? of_Z 0)%js then ux else lx.

Definition upper_x {N : JSNumber} (env : Env) (p : Point) : num :=
  let ux := ceil (px p) in
  if (ux >=? of_Z (width env))%js then lower_x p else ux.

Definition lower_y {N : JSNumber} (p : Point) : num :=
  let ly := floor (py p) in
  let uy := ceil (py p) in
  if (ly <? of_Z 0)%js then uy else ly.

Definition upper_y {N : JSNumber} (env : Env) (p : Point) : num :=
  let uy := ceil (py p) in
  if (uy >? of_Z (height env))%js then lower_y p else uy.

(** [vectorField(p)]; [None] is [undefined]. *)
Definition vectorField {N : JSNumber} (env : Env) (p : Point) : option Point :=
  let lx := lower_x p in
  let ly := lower_y p in
  let ux := upper_x env p in
  let uy := upper_y env p in
  if outside env lx ly || outside env ux uy then None
  else
    match getXY env lx ly, getXY env (lx + of_Z 1)%js ly,
          getXY env lx (ly + of_Z 1)%js, getXY env (lx + of_Z 1)%js (ly + of_Z 1)%js with
    | Some tl, Some tr, Some bl, Some br =>
        let res := mix (mix tl tr (px p - lx)%js) (mix bl br (px p - lx)%js)
                       (of_Z 1 - py p + ly)%js in
        Some (mkPoint (- (px res * (uMax env - uMin env) + uMin env))%js
                      (py res * (vMax env - vMin env) + vMin env)%js)
    | _, _, _, _ => None
    end.

(** ** The coordinate transform *)

(** Turns vector field point into canvas point. *)
Definition transform {N : JSNumber} (bb : BoundingBox) (pt : Point) : Point :=
  let tx := ((px pt - box_left bb) / box_width bb)%js in
  let ty := ((py pt - box_top bb) / box_height bb)%js in
  mkPoint (round (tx * canvasWidth)%js) (round (ty * canvasHeight)%js).

(** ** The segment rasterizer *)

(** [getColor(x, y)] of [processItem]. *)
Definition getColor {N : JSNumber} (env : Env) (x y : num) : result Style :=
  match vectorField env (mkPoint x y) with
  | None => Ret (StyleLiteral "rgba(0, 0, 0, 1.)")
  | Some p =>
      let gray := (sqrt (px p * px p + py p * py p) / maxVelocity env)%js in
      c <- gradient gray ;;
      match c with
      | None => Throw "TypeError: Cannot read properties of undefined (reading 'r')"
      | Some c =>
          Ret (StyleRgba (col_r c) (col_g c) (col_b c) (dec 1 1 + gray * dec 9 1)%js)
      end
  end.

(** [drawSegment(a, b)]: the calls it appends to those made so far. *)
Definition drawSegment {N : JSNumber} (env : Env) (a b : Point)
    (ctx : list CanvasOp) : result (list CanvasOp) :=
  style <- getColor env ((px a + px b) * dec 5 1)%js ((py a + py b) * dec 5 1)%js ;;
  let a' := transform (boundingBox env) a in
  let b' := transform (boundingBox env) b in
  Ret (ctx ++ [BeginPath; SetStrokeStyle style;
               MoveTo (px a') (py a'); LineTo (px b') (py b');
               Stroke; ClosePath]).

(** The loop of [onStreamlineAdded], with [prev] the point before
    [rest]. *)
Fixpoint drawSegments {N : JSNumber} (env : Env) (prev : Point)
    (rest : list Point) (ctx : list CanvasOp) : result (list CanvasOp) :=
  match rest with
  | [] => Ret ctx
  | cur :: rest' =>
      ctx' <- drawSegment env prev cur ctx ;;
      drawSegments env cur rest' ctx'
  end.

Definition onStreamlineAdded {N : JSNumber} (env : Env) (points : list Point)
    (ctx : list CanvasOp) : result (list CanvasOp) :=
  match points with
  | [] => Ret ctx
  | first :: rest => drawSegments env first rest ctx
  end.

(** ** IEEE 754 double precision *)

Module B64.

Definition t : Type := spec_float.

Definition plus : t -> t -> t := SFadd 53 1024.
Definition minus : t -> t -> t := SFsub 53 1024.
Definition times : t -> t -> t := SFmul 53 1024.
Definition divide : t -> t -> t := SFdiv 53 1024.
Definition root : t -> t := SFsqrt 53 1024.

(** The integer [z] as a double, nearest even when it has more than 53
    bits; a zero gets the sign [s]. *)
Definition of_int (z : Z) (s : bool) : t := binary_normalize 53 1024 z 0 s.

(** The value of a finite [(-1)^s * m * 2^e] as the integer [n]
    over [2^k]: [(n, k)] with [k = 0] for an integer. *)
Definition signed (s : bool) (m : positive) : Z := cond_Zopp s (Zpos m).

(** [Math.floor]. *)
Definition floor (x : t) : t :=
  match x with
  | S754_finite s m e =>
      if (0 <=? e)%Z then x else of_int (Z.shiftr (signed s m) (- e)) s
  | _ => x
  end.

(** [Math.ceil]: minus the floor of the opposite. *)
Definition ceil (x : t) : t :=
  match x with
  | S754_finite s m e =>
      if (0 <=? e)%Z then x
      else of_int (- Z.shiftr (signed (negb s) m) (- e)) s
  | _ => x
  end.

(** [Math.round]: the floor of [x + 1/2], taken before any rounding. *)
Definition round (x : t) : t :=
  match x with
  | S754_finite s m e =>
      if (0 <=? e)%Z then x
      else of_int (Z.shiftr (2 * signed s m + 2 ^ (- e)) (- e + 1)) s
  | _ => x
  end.

(** The operator [%]: the remainder of the truncated quotient, with the
    sign of the dividend; it is always a double. *)
Definition remainder (x y : t) : t :=
  match x, y with
  | S754_nan, _ | _, S754_nan => S754_nan
  | S754_infinity _, _ => S754_nan
  | _, S754_zero _ => S754_nan
  | _, S754_infinity _ => x
  | S754_zero _, S754_finite _ _ _ => x
  | S754_finite sx mx ex, S754_finite _ my ey =>
      let e := Z.min ex ey in
      let a := Z.shiftl (Zpos mx) (ex - e) in
      let b := Z.shiftl (Zpos my) (ey - e) in
      binary_normalize 53 1024 (cond_Zopp sx (Z.rem a b)) e sx
  end.

(** A number used as a property key denotes a subscript when it is a
    non-negative integer; both zeros denote 0. *)
Definition index (x : t) : option Z :=
  match x with
  | S754_zero _ => Some 0%Z
  | S754_finite false m e =>
      if (0 <=? e)%Z then Some (Z.shiftl (Zpos m) e)
      else if (Z.land (Zpos m) (Z.ones (- e)) =? 0)%Z
           then Some (Z.shiftr (Zpos m) (- e))
           else None
  | _ => None
  end.

End B64.

#[export] Instance binary64 : JSNumber := {|
  num := B64.t;
  of_Z := fun z => B64.of_int z false;
  nan := S754_nan;
  add := B64.plus;
  sub := B64.minus;
  mul := B64.times;
  div := B64.divide;
  rem := B64.remainder;
  neg := SFopp;
  floor := B64.floor;
  ceil := B64.ceil;
  round := B64.round;
  sqrt := B64.root;
  ltb := SFltb;
  leb := SFleb;
  to_index := B64.index
|}.

(** ** Exact arithmetic *)

(** The real numbers with NaN and the two infinities: the special values
    behave as in IEEE 754, finite results are not rounded, and there is
    one zero, which divides as the positive zero does. *)
Module Exact.

Inductive t : Type :=
  | NaN
  | Inf (negative : bool)
  | Fin (r : R).

Definition Rltb (a b : R) : bool := if Rlt_dec a b then true else false.
Definition Rleb (a b : R) : bool := if Rle_dec a b then true else false.
Definition Reqb (a b : R) : bool := if Req_dec_T a b then true else false.

Definition opp (x : t) : t :=
  match x with
  | NaN => NaN
  | Inf s => Inf (negb s)
  | Fin r => Fin (- r)
  end.

Definition plus (x y : t) : t :=
  match x, y with
  | NaN, _ | _, NaN => NaN
  | Inf s, Inf s' => if Bool.eqb s s' then x else NaN
  | Inf _, Fin _ => x
  | Fin _, Inf _ => y
  | Fin a, Fin b => Fin (a + b)
  end.

Definition minus (x y : t) : t := plus x (opp y).

Definition times (x y : t) : t :=
  match x, y with
  | NaN, _ | _, NaN => NaN
  | Inf s, Inf s' => Inf (xorb s s')
  | Inf s, Fin b => if Reqb b 0 then NaN else Inf (xorb s (Rltb b 0))
  | Fin a, Inf s => if Reqb a 0 then NaN else Inf (xorb (Rltb a 0) s)
  | Fin a, Fin b => Fin (a * b)
  end.

Definition divide (x y : t) : t :=
  match x, y with
  | NaN, _ | _, NaN => NaN
  | Inf _, Inf _ => NaN
  | Inf s, Fin b => Inf (xorb s (Rltb b 0))
  | Fin a, Inf _ => Fin 0
  | Fin a, Fin b =>
      if Reqb b 0
      then if Reqb a 0 then NaN else Inf (Rltb a 0)
      else Fin (a / b)
  end.

(** The integer part towards zero. *)
Definition trunc (r : R) : Z :=
  if Rltb r 0 then (- Int_part (- r))%Z else Int_part r.

Definition remainder (x y : t) : t :=
  match x, y with
  | NaN, _ | _, NaN => NaN
  | Inf _, _ => NaN
  | Fin _, Inf _ => x
  | Fin a, Fin b =>
      if Reqb b 0 then NaN else Fin (a - b * IZR (trunc (a / b)))
  end.

Definition floor (x : t) : t :=
  match x with
  | Fin r => Fin (IZR (Int_part r))
  | _ => x
  end.

Definition ceil (x : t) : t :=
  match x with
  | Fin r => Fin (IZR (- Int_part (- r)))
  | _ => x
  end.

Definition round (x : t) : t :=
  match x with
  | Fin r => Fin (IZR (Int_part (r + / 2)))
  | _ => x
  end.

Definition root (x : t) : t :=
  match x with
  | NaN => NaN
  | Inf s => if s then NaN else x
  | Fin r => if Rltb r 0 then NaN else Fin (R_sqrt.sqrt r)
  end.

Definition lt (x y : t) : bool :=
  match x, y with
  | NaN, _ | _, NaN => false
  | Inf s, Inf s' => s && negb s'
  | Inf s, Fin _ => s
  | Fin _, Inf s => negb s
  | Fin a, Fin b => Rltb a b
  end.

Definition le (x y : t) : bool :=
  match x, y with
  | NaN, _ | _, NaN => false
  | Inf s, Inf s' => s || negb s'
  | Inf s, Fin _ => s
  | Fin _, Inf s => negb s
  | Fin a, Fin b => Rleb a b
  end.

Definition index (x : t) : option Z :=
  match x with
  | Fin r =>
      if Reqb r (IZR (Int_part r)) && (0 <=? Int_part r)%Z
      then Some (Int_part r) else None
  | _ => None
  end.

End Exact.

#[export] Instance exact : JSNumber := {|
  num := Exact.t;
  of_Z := fun z => Exact.Fin (IZR z);
  nan := Exact.NaN;
  add := Exact.plus;
  sub := Exact.minus;
  mul := Exact.times;
  div := Exact.divide;
  rem := Exact.remainder;
  neg := Exact.opp;
  floor := Exact.floor;
  ceil := Exact.ceil;
  round := Exact.round;
  sqrt := Exact.root;
  ltb := Exact.lt;
  leb := Exact.le;
  to_index := Exact.index
|}.

(** ** Vocabulary of the statements *)

(** [a == b] on numbers: both comparisons hold (so the two zeros of
    [binary64] are equal, and NaN equals nothing). *)
Definition js_eqb {N : JSNumber} (a b : num) : bool :=
  ((a <=? b) && (b <=? a))%js.

(** The positions of a stop list do not decrease: [from] is the stop
    before [rest]. *)
Fixpoint nondecreasing {N : JSNumber} (from : GradientStop)
    (rest : list GradientStop) : bool :=
  match rest with
  | [] => true
  | to :: rest' => (stop from <=? stop to)%js && nondecreasing to rest'
  end.

(** A well-formed stop list: positions non-decreasing, the first 0, the
    last 1. *)
Definition well_formed {N : JSNumber} (stops : list GradientStop) : bool :=
  match stops with
  | [] => false
  | first :: rest =>
      js_eqb (stop first) (of_Z 0) && nondecreasing first rest
      && js_eqb (stop (last rest first)) (of_Z 1)
  end.

Module B64Order.

(** Not NaN. *)
Definition is_number (x : B64.t) : bool :=
  match x with
  | S754_nan => false
  | _ => true
  end.

(** Where a double stands in the order of the comparisons: the sign
    class first, then exponent and mantissa, both turned over for the
    negative numbers.  The two zeros stand together. *)
Definition rank (x : B64.t) : Z * Z * Z :=
  match x with
  | S754_nan => (0, 0, 0)
  | S754_zero _ => (0, 0, 0)
  | S754_infinity s => (if s then -2 else 2, 0, 0)
  | S754_finite s m e => if s then (-1, - e, - Zpos m) else (1, e, Zpos m)
  end%Z.

Definition lex_lt (a b : Z * Z * Z) : Prop :=
  (fst (fst a) < fst (fst b)
   \/ (fst (fst a) = fst (fst b)
       /\ (snd (fst a) < snd (fst b)
           \/ (snd (fst a) = snd (fst b) /\ snd a < snd b))))%Z.

(** NaN, or a double with the sign plus: what a square root, a square
    and their sums and quotients are. *)
Definition plus_or_nan (x : B64.t) : bool :=
  match x with
  | S754_nan => true
  | S754_zero s => negb s
  | S754_infinity s => negb s
  | S754_finite s _ _ => negb s
  end.

(** A double that is a number and not an infinity. *)
Definition finite_or_zero (x : B64.t) : bool :=
  match x with
  | S754_finite _ _ _ | S754_zero _ => true
  | _ => false
  end.

(** The value of a double in units of [2 ^ -1074], the least positive
    double: an integer, since every double is a multiple of it. *)
Definition scaled (x : B64.t) : Z :=
  match x with
  | S754_finite s m e => cond_Zopp s (Zpos m * 2 ^ (e + 1074))
  | _ => 0
  end%Z.

End B64Order.

(** The point [drawSegment] samples: the middle of the segment. *)
Definition midpoint {N : JSNumber} (a b : Point) : Point :=
  mkPoint ((px a + px b) * dec 5 1)%js ((py a + py b) * dec 5 1)%js.

(** The calls [drawSegment] makes for a segment stroked with [style]. *)
Definition stroke_calls {N : JSNumber} (env : Env) (a b : Point) (style : Style)
    : list CanvasOp :=
  [BeginPath; SetStrokeStyle style;
   MoveTo (px (transform (boundingBox env) a)) (py (transform (boundingBox env) a));
   LineTo (px (transform (boundingBox env) b)) (py (transform (boundingBox env) b));
   Stroke; ClosePath].

(** The value the loop of [processItem] stores for the cell at column
    [x] of row [y]: the value of the source at the column half the
    width further, around the row, scaled to the range of its
    component. *)
Definition shifted_value {N : JSNumber} (c : Component) (w x y : Z) : num :=
  normalize (js_get (values c) (of_Z (y * w + (x + w / 2) mod w)))
            (minimum c) (maximum c).

(** [vf] holds the first [m] cells, counted along the rows, each cell two
    elements, and nothing else. *)
Definition filled {N : JSNumber} (data : Dataset) (w m : Z) (vf : list num) : Prop :=
  Z.of_nat (List.length vf) = (2 * m)%Z
  /\ forall x y : Z,
       (0 <= x < w)%Z -> (0 <= y)%Z -> (y * w + x < m)%Z ->
       nth (Z.to_nat (2 * (y * w + x))) vf nan = shifted_value (data_u data) w x y
       /\ nth (Z.to_nat (2 * (y * w + x) + 1)) vf nan
          = shifted_value (data_v data) w x y.

(** The number of [ctx.stroke()] calls among the calls made. *)
Definition is_stroke {N : JSNumber} (op : CanvasOp) : bool :=
  match op with
  | Stroke => true
  | _ => false
  end.

Definition count_strokes {N : JSNumber} (ctx : list CanvasOp) : nat :=
  List.length (filter is_stroke ctx).

(** *** Reading a colour string *)

(** The arguments of a functional notation such as [rgba(a, b, c, d)]:
    the texts between the parentheses, split at the commas, spaces
    dropped. *)
Fixpoint css_args_from (s cur : string) (inside : bool) : list string :=
  match s with
  | EmptyString => []
  | String c rest =>
      if inside then
        if Ascii.eqb c ")" then [cur]
        else if Ascii.eqb c "," then cur :: css_args_from rest EmptyString true
        else if Ascii.eqb c " " then css_args_from rest cur true
        else css_args_from rest (cur ++ String c EmptyString) true
      else
        if Ascii.eqb c "(" then css_args_from rest EmptyString true
        else css_args_from rest cur false
  end.

Definition css_args (s : string) : list string := css_args_from s EmptyString false.

Definition digit_of (c : ascii) : option Z :=
  let n := nat_of_ascii c in
  if ((48 <=? n) && (n <=? 57))%nat then Some (Z.of_nat (n - 48)) else None.

(** A decimal numeral, digits with at most one point, as the digits read
    as one integer and the number of digits after the point. *)
Fixpoint parse_decimal_from (s : string) (m : Z) (frac : option nat)
    : option (Z * nat) :=
  match s with
  | EmptyString => Some (m, match frac with Some k => k | None => O end)
  | String c rest =>
      if Ascii.eqb c "."
      then match frac with
           | None => parse_decimal_from rest m (Some O)
           | Some _ => None
           end
      else match digit_of c with
           | Some d => parse_decimal_from rest (10 * m + d)%Z (option_map S frac)
           | None => None
           end
  end.

Definition parse_decimal (s : string) : option (Z * nat) :=
  match s with
  | EmptyString => None
  | _ => parse_decimal_from s 0%Z None
  end.

(** The alpha of a stroke style: the fourth argument. *)
Definition style_alpha {N : JSNumber} (s : Style) : option num :=
  match s with
  | StyleRgba _ _ _ a => Some a
  | StyleLiteral l =>
      match css_args l with
      | [_; _; _; a] => option_map (fun mk => dec (fst mk) (snd mk)) (parse_decimal a)
      | _ => None
      end
  end.

(** The value stored at a grid vertex, scaled back to its range and with
    the sign of [x] turned, as [vectorField] does to what it
    interpolates. *)
Definition vertex_value {N : JSNumber} (env : Env) (x y : num) : option Point :=
  option_map
    (fun g => mkPoint (- denormalize (px g) (uMin env) (uMax env))%js
                      (denormalize (py g) (vMin env) (vMax env)))
    (getXY env x y).

(** *** Datasets of the examples *)

(** A 4 by 5 grid (so a 4 by 4 field): [u] counts the cells of the first
    four rows from 0, [v] is [u + 100]; the last row holds the maxima. *)
Definition ramp_data {N : JSNumber} : Dataset :=
  mkDataset
    (mkComponent (map of_Z (counter 16 ++ [16; 16; 16; 16]%Z)) 4 5 (of_Z 0) (of_Z 16))
    (mkComponent (map (fun z => of_Z (100 + z)) (counter 16 ++ [16; 16; 16; 16]%Z))
       4 5 (of_Z 100) (of_Z 116)).

(** A field that blows hardest against the axes: [u] is -32 everywhere
    but for one cell at 16, [v] is 0 everywhere but for one cell at 12. *)
Definition gale_data {N : JSNumber} : Dataset :=
  mkDataset
    (mkComponent (of_Z 16 :: repeat (of_Z (-32)) 19) 4 5 (of_Z (-32)) (of_Z 16))
    (mkComponent (of_Z 12 :: repeat (of_Z 0) 19) 4 5 (of_Z 0) (of_Z 12)).

(** A field whose [u] is 5 everywhere: its minimum is its maximum. *)
Definition flat_data {N : JSNumber} : Dataset :=
  mkDataset
    (mkComponent (repeat (of_Z 5) 20) 4 5 (of_Z 5) (of_Z 5))
    (mkComponent (map of_Z (counter 16 ++ [16; 16; 16; 16]%Z)) 4 5 (of_Z 0) (of_Z 16)).

(** The 4 by 4 field whose stored grids are 0.5 everywhere, with minimum
    0 and maximum 10 for both components. *)
Definition half_env {N : JSNumber} : Env :=
  mkEnv (of_Z 10) (of_Z 0) (of_Z 10) (of_Z 0)
    (sqrt (of_Z 10 * of_Z 10 + of_Z 10 * of_Z 10))%js
    4 4 (repeat (dec 5 1) 32).

(** A positive double that is neither zero nor infinite. *)
Definition positive_finite (x : B64.t) : bool :=
  match x with
  | S754_finite false _ _ => true
  | _ => false
  end.

(** The environments [processItem] builds for the example datasets. *)
Definition ramp_env {N : JSNumber} : Env := processItem_env ramp_data.
Definition gale_env {N : JSNumber} : Env := processItem_env gale_data.
Definition flat_env {N : JSNumber} : Env := processItem_env flat_data.

(** *** Integers as doubles *)

Module B64Int.

(** The number of bits of a mantissa. *)
Definition digits (p : positive) : Z := Zpos (digits2_pos p).

(** The double of a positive integer of at most 53 bits: the integer
    moved up to 53 bits. *)
Definition canon (q : positive) : spec_float :=
  S754_finite false (Z.to_pos (Zpos q * 2 ^ (53 - digits q))) (digits q - 53).

(** The quotient of [m] by [2 ^ n], rounded to the nearest integer, to
    the even one of the two when [m] is half way. *)
Definition nearest_even (m n : Z) : Z :=
  let q := (m / 2 ^ n)%Z in
  let twice := (2 * (m mod 2 ^ n))%Z in
  if (twice <? 2 ^ n)%Z then q
  else if (2 ^ n <? twice)%Z then (q + 1)%Z
  else if Z.even q then q else (q + 1)%Z.

End B64Int.

(** *** Vocabulary of the further properties *)

(** A dataset with three columns: a 3 by 3 grid, so a 3 by 2 field. *)
Definition odd_data {N : JSNumber} : Dataset :=
  mkDataset
    (mkComponent (map of_Z (counter 9)) 3 3 (of_Z 0) (of_Z 8))
    (mkComponent (map of_Z (counter 9)) 3 3 (of_Z 0) (of_Z 8)).

(** *** The label of [saveCanvas] *)

(** [item.split(".")[0]]: the text before the first point, the whole
    text when it has none.  A string is the sequence of its characters,
    one byte each as in the names of the data files. *)
Fixpoint before_dot (s : string) : string :=
  match s with
  | EmptyString => EmptyString
  | String c rest => if Ascii.eqb c "." then EmptyString else String c (before_dot rest)
  end.

(** The text has no point. *)
Fixpoint dotless (s : string) : bool :=
  match s with
  | EmptyString => true
  | String c rest => negb (Ascii.eqb c ".") && dotless rest
  end.

(** The text [saveCanvas] writes in the corner of the picture:
    [[name.substr(0, 4), name.substr(4, 2), name.substr(6, 2)].join("-")].
    [substr(start, length)] takes what there is when the text is short,
    as [substring] does. *)
Definition saveCanvas_label (item : string) : string :=
  let name := before_dot item in
  String.concat "-" [substring 0 4 name; substring 4 2 name; substring 6 2 name].

(** A stored pair of positive doubles, as a dataset above its minima
    gives. *)
Definition positive_point (p : @Point binary64) : bool :=
  positive_finite (px p) && SpecFloat.valid_binary 53 1024 (px p)
  && positive_finite (py p) && SpecFloat.valid_binary 53 1024 (py p).

(** The read at a grid point gives a pair of positive doubles. *)
Definition positive_read (env : @Env binary64) (x y : Z) : bool :=
  match getXY env (of_Z x) (of_Z y) with
  | Some q => positive_point q
  | None => false
  end.

(** The pair of indices lies in [0, width) x [0, height). *)
Definition in_grid {N : JSNumber} (env : Env) (x y : num) : bool :=
  ((of_Z 0 <=? x) && (x <? of_Z (width env))
   && (of_Z 0 <=? y) && (y <? of_Z (height env)))%js.

Module B64Axis.
Import B64Order.

(** The lower index of [vectorField] along one axis, after the
    substitution at the boundary. *)
Definition lower (x : B64.t) : B64.t :=
  if SFltb (B64.floor x) (S754_zero false) then B64.ceil x else B64.floor x.

(** The double is no index out of the grid: it passes the two tests of
    [outside] along an axis of [n] cells. *)
Definition passes (n : Z) (a : B64.t) : Prop :=
  SFltb a (S754_zero false) = false /\ SFleb (B64.of_int n false) a = false.

(** The double of the integer [k], or for 0 the zero with the sign
    minus. *)
Definition whole (k : Z) (a : B64.t) : Prop :=
  a = B64.of_int k false \/ k = 0%Z /\ a = S754_zero true.

(** NaN, or a whole number from 0 to below [n]. *)
Definition index_below (n : Z) (a : B64.t) : Prop :=
  a = S754_nan \/ exists k : Z, (0 <= k < n)%Z /\ whole k a.

End B64Axis.

(** * Results *)

(** ** The order of the doubles *)

Module B64OrderFacts.
Import B64Order.

Lemma compare_nan_l (y : B64.t) : SFcompare S754_nan y = None.
Proof. reflexivity. Qed.

Lemma compare_nan_r (x : B64.t) : SFcompare x S754_nan = None.
Proof. destruct x; reflexivity. Qed.

Ltac case_compares :=
  repeat match goal with
  | |- context [Z.compare ?a ?b] => destruct (Z.compare_spec a b)
  | |- context [Pos.compare_cont Eq ?a ?b] =>
      change (Pos.compare_cont Eq a b) with (Pos.compare a b);
      destruct (Pos.compare_spec a b)
  end.

(** [<] is the strict order of the ranks. *)
Lemma ltb_rank (x y : B64.t) :
  is_number x = true -> is_number y = true ->
  (SFltb x y = true <-> lex_lt (rank x) (rank y)).
Proof.
  unfold SFltb, lex_lt.
  destruct x as [sx | sx | | sx mx ex], y as [sy | sy | | sy my ey];
    simpl; try discriminate; intros _ _;
    try destruct sx; try destruct sy; simpl;
    case_compares; simpl; split; intros; subst;
    try discriminate; try reflexivity; try lia.
Qed.

(** [<=] adds the equality of the ranks. *)
Lemma leb_rank (x y : B64.t) :
  is_number x = true -> is_number y = true ->
  (SFleb x y = true <-> lex_lt (rank x) (rank y) \/ rank x = rank y).
Proof.
  unfold SFleb, lex_lt.
  destruct x as [sx | sx | | sx mx ex], y as [sy | sy | | sy my ey];
    simpl; try discriminate; intros _ _;
    try destruct sx; try destruct sy; simpl;
    case_compares; simpl; split; intros; subst;
    try discriminate; try reflexivity;
    try (left; lia); try (right; f_equal; f_equal; lia);
    try (exfalso; match goal with
         | H : _ \/ _ |- _ => destruct H as [H | H]; [lia | inversion H; lia]
         end).
Qed.

Lemma ltb_numbers (x y : B64.t) :
  SFltb x y = true -> is_number x = true /\ is_number y = true.
Proof.
  unfold SFltb. destruct x, y; simpl; intros; try discriminate; auto.
Qed.

Lemma leb_numbers (x y : B64.t) :
  SFleb x y = true -> is_number x = true /\ is_number y = true.
Proof.
  unfold SFleb. destruct x, y; simpl; intros; try discriminate; auto.
Qed.

Ltac ranks :=
  unfold lex_lt in *;
  repeat match goal with
  | |- context [rank ?x] =>
      let a := fresh "a" in let b := fresh "b" in let c := fresh "c" in
      destruct (rank x) as [[a b] c]
  | H : context [rank ?x] |- _ =>
      let a := fresh "a" in let b := fresh "b" in let c := fresh "c" in
      destruct (rank x) as [[a b] c]
  end;
  simpl in *.

Lemma not_leb_ltb (x y : B64.t) :
  is_number x = true -> is_number y = true ->
  SFleb x y = false -> SFltb y x = true.
Proof.
  intros Hx Hy H. apply ltb_rank; auto.
  assert (N : ~ (lex_lt (rank x) (rank y) \/ rank x = rank y)).
  { intro A. apply leb_rank in A; auto. congruence. }
  ranks. destruct (Z.eq_dec a a0), (Z.eq_dec b b0), (Z.eq_dec c c0);
    subst; try lia; exfalso; apply N; try (left; lia); right; reflexivity.
Qed.

Lemma not_ltb_leb (x y : B64.t) :
  is_number x = true -> is_number y = true ->
  SFltb x y = false -> SFleb y x = true.
Proof.
  intros Hx Hy H. apply leb_rank; auto.
  assert (N : ~ lex_lt (rank x) (rank y)).
  { intro A. apply ltb_rank in A; auto. congruence. }
  ranks. destruct (Z.eq_dec a a0), (Z.eq_dec b b0), (Z.eq_dec c c0);
    subst; try (left; lia); right; reflexivity.
Qed.

Lemma leb_ltb_trans (x y z : B64.t) :
  SFleb x y = true -> SFltb y z = true -> SFltb x z = true.
Proof.
  intros A B.
  destruct (leb_numbers _ _ A) as [Hx Hy], (ltb_numbers _ _ B) as [_ Hz].
  apply leb_rank in A; auto. apply ltb_rank in B; auto. apply ltb_rank; auto.
  destruct A as [A | A]; [| rewrite A; exact B].
  ranks. lia.
Qed.

Lemma ltb_leb_trans (x y z : B64.t) :
  SFltb x y = true -> SFleb y z = true -> SFltb x z = true.
Proof.
  intros A B.
  destruct (ltb_numbers _ _ A) as [Hx Hy], (leb_numbers _ _ B) as [_ Hz].
  apply ltb_rank in A; auto. apply leb_rank in B; auto. apply ltb_rank; auto.
  destruct B as [B | B]; [| rewrite <- B; exact A].
  ranks. lia.
Qed.

Lemma ltb_leb (x y : B64.t) : SFltb x y = true -> SFleb x y = true.
Proof.
  intros A. destruct (ltb_numbers _ _ A) as [Hx Hy].
  apply leb_rank; auto. left. apply ltb_rank; auto.
Qed.

Lemma ltb_irrefl (x : B64.t) : SFltb x x = false.
Proof.
  destruct (SFltb x x) eqn:A; auto.
  destruct (ltb_numbers _ _ A) as [Hx _].
  apply ltb_rank in A; auto. ranks. lia.
Qed.

Lemma leb_ltb_absurd (x y : B64.t) :
  SFleb x y = true -> SFltb y x = true -> False.
Proof.
  intros A B. pose proof (leb_ltb_trans _ _ _ A B) as C.
  rewrite ltb_irrefl in C. discriminate.
Qed.

End B64OrderFacts.

(** ** The gradient mapper *)

Section GradientFacts.
Import B64Order B64OrderFacts.
Local Existing Instance binary64 | 0.

Local Abbreviation stops64 := (list (@GradientStop binary64)).

Lemma last_cons {A : Type} (a d : A) (l : list A) : last (a :: l) d = last l a.
Proof.
  revert a d. induction l as [| b l IH]; intros a d; [reflexivity |].
  change (last (a :: b :: l) d) with (last (b :: l) d).
  rewrite (IH b d), (IH b a). reflexivity.
Qed.

Lemma nth_error_length_last {A : Type} (l : list A) :
  forall a : A, nth_error (a :: l) (List.length l) = Some (last l a).
Proof.
  induction l as [| b l IH]; intros a; [reflexivity |].
  rewrite last_cons. exact (IH b).
Qed.

Lemma nth_error_last {A : Type} (a : A) (l : list A) :
  nth_error (a :: l) (List.length (a :: l) - 1) = Some (last l a).
Proof.
  cbn [List.length]. rewrite Nat.sub_succ, Nat.sub_0_r.
  apply nth_error_length_last.
Qed.

Lemma one_leb_not_leb_zero (t : @num binary64) :
  (of_Z 1 <=? t)%js = true -> (t <=? of_Z 0)%js = false.
Proof.
  intros A. destruct (t <=? of_Z 0)%js eqn:B; auto.
  exfalso. apply (leb_ltb_absurd _ _ A).
  apply (leb_ltb_trans _ _ _ B). reflexivity.
Qed.

(** C6.  For every non-empty stop list, [getColor(t)] returns the first
    stop itself for every [t <= 0] and the last stop itself for every
    [t >= 1]. *)
Theorem gradient_clamps (first : @GradientStop binary64) (rest : stops64)
    (t : @num binary64) :
  ((t <=? of_Z 0)%js = true ->
   makeGradient.getColor (first :: rest) t = Ret (Some (StopColor first)))
  /\ ((t >=? of_Z 1)%js = true ->
      makeGradient.getColor (first :: rest) t
      = Ret (Some (StopColor (last rest first)))).
Proof.
  unfold makeGradient.getColor. split; intros H.
  - rewrite H. reflexivity.
  - rewrite (one_leb_not_leb_zero _ H), H, nth_error_last. reflexivity.
Qed.

(** The scan finds the pair of neighbours around [t]. *)
Lemma scan_finds (t : B64.t) (rest : stops64) :
  forall from : @GradientStop binary64,
  SFleb (stop from) t = true ->
  nondecreasing from rest = true ->
  SFltb t (stop (last rest from)) = true ->
  exists pre a b post,
    from :: rest = pre ++ a :: b :: post
    /\ SFleb (stop a) t = true /\ SFltb t (stop b) = true
    /\ makeGradient.scan t from rest
       = Ret (Some (makeGradient.mix b a ((t - stop a) / (stop b - stop a))%js)).
Proof.
  induction rest as [| to rest IH]; intros from Hle Hnd Hlt.
  - exfalso. exact (leb_ltb_absurd _ _ Hle Hlt).
  - simpl in Hnd. apply andb_true_iff in Hnd. destruct Hnd as [Hft Hnd].
    rewrite last_cons in Hlt.
    cbn [makeGradient.scan]. change (@leb binary64) with SFleb.
    change (@ltb binary64) with SFltb. rewrite Hle. cbn [andb].
    destruct (SFltb t (stop to)) eqn:Hto.
    + exists [], from, to, rest. repeat split; auto.
    + assert (Hle' : SFleb (stop to) t = true).
      { apply not_ltb_leb; auto.
        - apply (leb_numbers _ _ Hle).
        - apply (leb_numbers _ _ Hft). }
      destruct (IH to Hle' Hnd Hlt) as (pre & a & b & post & E & A & B & S).
      exists (from :: pre), a, b, post. rewrite E. repeat split; auto.
Qed.

(** X22.  On the doubles, for a well-formed stop list and every [t]
    that is a number, [getColor(t)] returns: the first stop when
    [t <= 0], the last when [t >= 1], and otherwise the mix of two
    neighbouring stops [a], [b] with [a.stop <= t < b.stop], which the
    scan finds.  The branch that throws is not reached. *)
Theorem gradient_returns_on_numbers (stops : stops64) (t : @num binary64) :
  well_formed stops = true ->
  is_number t = true ->
  ((t <=? of_Z 0)%js = true
   /\ makeGradient.getColor stops t = Ret (option_map StopColor (hd_error stops)))
  \/ ((t >=? of_Z 1)%js = true
      /\ exists first rest, stops = first :: rest
         /\ makeGradient.getColor stops t = Ret (Some (StopColor (last rest first))))
  \/ (exists pre a b post,
        stops = pre ++ a :: b :: post
        /\ (stop a <=? t)%js = true /\ (t <? stop b)%js = true
        /\ makeGradient.getColor stops t
           = Ret (Some (makeGradient.mix b a ((t - stop a) / (stop b - stop a))%js))).
Proof.
  intros Hwf Ht. destruct stops as [| first rest]; [discriminate |].
  unfold well_formed, js_eqb in Hwf.
  apply andb_true_iff in Hwf. destruct Hwf as [Hwf Hlast].
  apply andb_true_iff in Hwf. destruct Hwf as [Hfirst Hnd].
  apply andb_true_iff in Hfirst. destruct Hfirst as [Hf0 _].
  apply andb_true_iff in Hlast. destruct Hlast as [_ H1l].
  destruct (t <=? of_Z 0)%js eqn:H0.
  - left. split; auto. unfold makeGradient.getColor. rewrite H0. reflexivity.
  - destruct (t >=? of_Z 1)%js eqn:H1.
    + right; left. split; auto. exists first, rest. split; auto.
      apply gradient_clamps. exact H1.
    + right; right.
      assert (Hle : SFleb (stop first) t = true).
      { apply ltb_leb. apply (leb_ltb_trans _ _ _ Hf0).
        apply not_leb_ltb; auto. }
      assert (Hlt : SFltb t (stop (last rest first)) = true).
      { apply ltb_leb_trans with (y := @of_Z binary64 1); auto.
        apply not_leb_ltb; auto. }
      destruct (scan_finds t rest first Hle Hnd Hlt)
        as (pre & a & b & post & E & A & B & S).
      exists pre, a, b, post. repeat split; auto.
      unfold makeGradient.getColor. rewrite H0.
      change (of_Z 1 <=? t)%js with (t >=? of_Z 1)%js. rewrite H1. exact S.
Qed.

End GradientFacts.

(** ** The field sampler and the rasterizer, at every instance *)

Section ControlFlow.
Context {N : JSNumber}.

Lemma getXY_outside (env : Env) (x y : num) :
  outside env x y = true -> getXY env x y = None.
Proof. intros H. unfold getXY. rewrite H. reflexivity. Qed.

Lemma outside_left (env : Env) (x y : num) :
  (x <? of_Z 0)%js = true -> outside env x y = true.
Proof. intros H. unfold outside. rewrite H. reflexivity. Qed.

Lemma outside_above (env : Env) (x y : num) :
  (y <? of_Z 0)%js = true -> outside env x y = true.
Proof.
  intros H. unfold outside. rewrite H.
  destruct (x <? of_Z 0)%js, (x >=? of_Z (width env))%js; reflexivity.
Qed.

Lemma outside_right (env : Env) (x y : num) :
  (x >=? of_Z (width env))%js = true -> outside env x y = true.
Proof.
  intros H. unfold outside. rewrite H.
  destruct (x <? of_Z 0)%js; reflexivity.
Qed.

Lemma outside_below (env : Env) (x y : num) :
  (y >=? of_Z (height env))%js = true -> outside env x y = true.
Proof.
  intros H. unfold outside. rewrite H.
  repeat match goal with |- context [(?a <? ?b)%js] => destruct (a <? b)%js end;
  repeat match goal with |- context [(?a <=? ?b)%js] => destruct (a <=? b)%js end;
    reflexivity.
Qed.

(** The sampler needs its four corners. *)
Lemma vectorField_four_corners (env : Env) (p : Point) :
  outside env (lower_x p) (lower_y p) = true
  \/ outside env (lower_x p + of_Z 1)%js (lower_y p) = true
  \/ outside env (lower_x p) (lower_y p + of_Z 1)%js = true
  \/ outside env (lower_x p + of_Z 1)%js (lower_y p + of_Z 1)%js = true ->
  vectorField env p = None.
Proof.
  intros H. unfold vectorField.
  destruct (outside env (lower_x p) (lower_y p) || outside env (upper_x env p) (upper_y env p));
    [reflexivity |].
  destruct H as [H | [H | [H | H]]];
    rewrite (getXY_outside _ _ _ H);
    repeat match goal with
    | |- match ?g with _ => _ end = None => destruct g
    end; reflexivity.
Qed.

(** C2, amended.  When [vectorField] returns [undefined] at the middle of
    the segment, [drawSegment] still makes all its calls, and the stroke
    style is the literal ["rgba(0, 0, 0, 1.)"]: black with alpha 1. *)
Theorem drawSegment_undefined_midpoint (env : Env) (a b : Point)
    (ctx : list CanvasOp) :
  vectorField env (midpoint a b) = None ->
  drawSegment env a b ctx
  = Ret (ctx ++ stroke_calls env a b (StyleLiteral "rgba(0, 0, 0, 1.)"))
  /\ style_alpha (StyleLiteral "rgba(0, 0, 0, 1.)") = Some (dec 1 0).
Proof.
  intros H. split; [| reflexivity].
  unfold drawSegment, getColor. unfold midpoint in H. rewrite H. reflexivity.
Qed.

End ControlFlow.

(** ** Arithmetic of the doubles *)

Module B64Facts.
Import B64Order B64OrderFacts.

Lemma minus_self_finite (s : bool) (m : positive) (e : Z) :
  B64.minus (S754_finite s m e) (S754_finite s m e) = S754_zero false.
Proof.
  unfold B64.minus, SFsub. rewrite Z.sub_diag. reflexivity.
Qed.

(** Equal numbers differ by a zero, or by NaN when they are infinite. *)
Lemma minus_equal (lo hi : B64.t) :
  SFleb lo hi = true -> SFleb hi lo = true ->
  B64.minus hi lo = S754_nan \/ exists s, B64.minus hi lo = S754_zero s.
Proof.
  intros A B.
  destruct (leb_numbers _ _ A) as [Hlo Hhi].
  apply leb_rank in A; auto. apply leb_rank in B; auto.
  assert (E : rank lo = rank hi).
  { destruct A as [A | A]; auto. destruct B as [B | B]; auto.
    exfalso. clear Hlo Hhi. ranks. lia. }
  clear A B.
  destruct lo as [s | s | | s m e], hi as [s' | s' | | s' m' e'];
    try discriminate; simpl in E;
    try (destruct s; discriminate); try (destruct s'; discriminate).
  - right. destruct s, s'; eexists; reflexivity.
  - left. destruct s, s'; try discriminate; reflexivity.
  - right. exists false.
    destruct s, s'; inversion E; subst;
      try (assert (e = e') by lia; subst);
      apply minus_self_finite.
Qed.

(** Whatever is divided by a zero and multiplied by it again is NaN. *)
Lemma times_divide_zero (n : B64.t) (s : bool) :
  B64.times (B64.divide n (S754_zero s)) (S754_zero s) = S754_nan.
Proof. destruct n; reflexivity. Qed.

Lemma times_divide_nan (n : B64.t) :
  B64.times (B64.divide n S754_nan) S754_nan = S754_nan.
Proof. destruct n; reflexivity. Qed.

(** A positive finite double divided by itself is 1. *)
Lemma divide_self (m : positive) (e : Z) :
  B64.divide (S754_finite false m e) (S754_finite false m e) = B64.of_int 1 false.
Proof.
  unfold B64.divide, SFdiv, SFdiv_core_binary.
  rewrite !Z.sub_diag.
  change (fexp 53 1024 0) with (-53)%Z. change (Z.min (-53) 0) with (-53)%Z.
  change (0 - -53)%Z with 53%Z. cbv iota.
  assert (D : Z.div_eucl (Z.shiftl (Z.pos m) 53) (Z.pos m) = (2 ^ 53, 0)%Z).
  { rewrite Z.shiftl_mul_pow2 by lia.
    pose proof (Z.div_eucl_eq (Z.pos m * 2 ^ 53) (Z.pos m)) as Q.
    pose proof (Z.mod_pos_bound (Z.pos m * 2 ^ 53) (Z.pos m)) as R.
    unfold Z.modulo in R.
    destruct (Z.div_eucl (Z.pos m * 2 ^ 53) (Z.pos m)) as [q r].
    specialize (Q ltac:(lia)). specialize (R ltac:(lia)).
    assert (q = 2 ^ 53)%Z by nia. subst q. f_equal. lia. }
  rewrite D. unfold new_location.
  destruct (Z.even (Z.pos m)); reflexivity.
Qed.

End B64Facts.

(** ** The integers among the doubles *)

Module B64IntFacts.
Import B64Int.
Import B64Order B64OrderFacts.
Open Scope Z_scope.

Lemma digits_pos (p : positive) : 1 <= digits p.
Proof. unfold digits. lia. Qed.

Lemma digits_bounds (p : positive) : 2 ^ (digits p - 1) <= Zpos p < 2 ^ digits p.
Proof.
  unfold digits. induction p as [p IH | p IH |]; cbn [digits2_pos].
  - rewrite Pos2Z.inj_succ.
    replace (Z.succ (Z.pos (digits2_pos p)) - 1) with (Z.succ (Z.pos (digits2_pos p) - 1)) by lia.
    rewrite !Z.pow_succ_r by lia. lia.
  - rewrite Pos2Z.inj_succ.
    replace (Z.succ (Z.pos (digits2_pos p)) - 1) with (Z.succ (Z.pos (digits2_pos p) - 1)) by lia.
    rewrite !Z.pow_succ_r by lia. lia.
  - cbn. lia.
Qed.

Lemma digits_unique (p : positive) (d : Z) :
  2 ^ (d - 1) <= Zpos p < 2 ^ d -> digits p = d.
Proof.
  intros H. pose proof (digits_bounds p) as B. pose proof (digits_pos p) as P.
  assert (0 < d).
  { destruct (Z.ltb_spec 0 d); auto. exfalso.
    assert (2 ^ d <= 2 ^ 0) by (apply Z.pow_le_mono_r; lia). simpl in *. lia. }
  assert (digits p - 1 < d).
  { apply (Z.pow_lt_mono_r_iff 2); lia. }
  assert (d - 1 < digits p).
  { apply (Z.pow_lt_mono_r_iff 2); lia. }
  lia.
Qed.

Lemma digits_mono (p q : positive) : Zpos p <= Zpos q -> digits p <= digits q.
Proof.
  intros H. pose proof (digits_bounds p). pose proof (digits_bounds q).
  pose proof (digits_pos q).
  assert (digits p - 1 < digits q).
  { apply (Z.pow_lt_mono_r_iff 2); lia. }
  lia.
Qed.

Lemma iter_xO (p k : positive) : Zpos (Pos.iter xO p k) = Zpos p * 2 ^ Zpos k.
Proof.
  induction k as [| k IH] using Pos.peano_ind.
  - cbn. lia.
  - rewrite Pos.iter_succ, Pos2Z.inj_succ, Z.pow_succ_r by lia.
    rewrite Pos2Z.inj_xO, IH. lia.
Qed.

Lemma digits_shift (p : positive) (k : Z) :
  0 <= k -> digits (Z.to_pos (Zpos p * 2 ^ k)) = digits p + k.
Proof.
  intros H. apply digits_unique.
  pose proof (digits_bounds p) as B. pose proof (digits_pos p).
  assert (0 < 2 ^ k) by (apply Z.pow_pos_nonneg; lia).
  rewrite Z2Pos.id by lia.
  replace (digits p + k - 1) with ((digits p - 1) + k) by lia.
  rewrite !Z.pow_add_r by lia. nia.
Qed.

Lemma iter_pos_iter {A : Type} (f : A -> A) (p : positive) :
  forall x : A, SpecFloat.iter_pos f p x = Pos.iter f x p.
Proof.
  induction p as [p IH | p IH |]; intros x; cbn [SpecFloat.iter_pos Pos.iter].
  - rewrite !IH, <- Pos.iter_swap, <- Pos.iter_swap. reflexivity.
  - rewrite !IH. reflexivity.
  - reflexivity.
Qed.

Lemma shr_1_even (w : Z) :
  0 <= w ->
  shr_1 (Build_shr_record (2 * w) false false) = Build_shr_record w false false.
Proof. intros H. destruct w as [| w | w]; [reflexivity | reflexivity | lia]. Qed.

Lemma iter_shr_exact (k : positive) :
  forall w : Z, 0 <= w ->
  Pos.iter shr_1 (Build_shr_record (w * 2 ^ Zpos k) false false) k
  = Build_shr_record w false false.
Proof.
  induction k as [| k IH] using Pos.peano_ind; intros w H.
  - cbn [Pos.iter]. replace (w * 2 ^ 1) with (2 * w) by lia.
    apply shr_1_even, H.
  - rewrite Pos.iter_succ_r, Pos2Z.inj_succ, Z.pow_succ_r by lia.
    replace (w * (2 * 2 ^ Z.pos k)) with (2 * (w * 2 ^ Z.pos k)) by lia.
    rewrite shr_1_even by (apply Z.mul_nonneg_nonneg; [lia | apply Z.pow_nonneg; lia]).
    apply IH, H.
Qed.

(** A mantissa of 53 bits with an exponent in range is not rounded. *)
Lemma round_aux_canonical (s : bool) (m : positive) (e : Z) :
  digits m = 53 -> -1074 <= e <= 971 ->
  binary_round_aux 53 1024 s (Zpos m) e loc_Exact = S754_finite s m e.
Proof.
  unfold digits. intros D E.
  unfold binary_round_aux, shr_fexp, fexp, SpecFloat.emin, Zdigits2, shr_record_of_loc.
  rewrite D.
  replace (Z.max (53 + e - 53) (3 - 1024 - 53) - e) with 0 by lia.
  cbn [shr shr_m loc_of_shr_record round_nearest_even].
  rewrite D.
  replace (Z.max (53 + e - 53) (3 - 1024 - 53) - e) with 0 by lia.
  cbn [shr shr_m].
  destruct (Z.leb_spec e (1024 - 53)); [reflexivity | lia].
Qed.

Lemma of_int_pos (q : positive) :
  digits q <= 53 -> B64.of_int (Zpos q) false = canon q.
Proof.
  intros D. pose proof (digits_pos q) as P.
  unfold B64.of_int, binary_normalize, binary_round, shl_align, fexp, SpecFloat.emin, canon.
  fold (digits q).
  replace (Z.max (digits q + 0 - 53) (3 - 1024 - 53) - 0) with (digits q - 53) by lia.
  replace (Z.max (digits q + 0 - 53) (3 - 1024 - 53)) with (digits q - 53) by lia.
  destruct (Z.eq_dec (digits q) 53) as [E53 | N53].
  - rewrite E53. change (53 - 53) with 0. cbv iota beta.
    change (2 ^ 0) with 1. rewrite Z.mul_1_r, Pos2Z.id.
    rewrite round_aux_canonical; [reflexivity | exact E53 | lia].
  - assert (K : exists k, digits q - 53 = Z.neg k /\ 53 - digits q = Z.pos k).
    { destruct (digits q - 53) as [| k | k] eqn:K; try lia.
      exists k. split; [reflexivity | lia]. }
    destruct K as (k & K1 & K2). rewrite K1, K2.
    assert (E : Pos.iter xO q k = Z.to_pos (Z.pos q * 2 ^ Z.pos k)).
    { apply Pos2Z.inj. rewrite iter_xO.
      assert (0 < 2 ^ Z.pos k) by (apply Z.pow_pos_nonneg; lia).
      rewrite Z2Pos.id by lia. reflexivity. }
    rewrite E.
    rewrite round_aux_canonical; [reflexivity | | lia].
    rewrite digits_shift by lia. lia.
Qed.

(** A mantissa of 53 bits followed by [k] zero bits loses exactly those. *)
Lemma round_aux_shift (s : bool) (w k : positive) (e : Z) :
  digits w = 53 -> -1074 <= e + Zpos k <= 971 ->
  binary_round_aux 53 1024 s (Zpos w * 2 ^ Zpos k) e loc_Exact
  = S754_finite s w (e + Zpos k).
Proof.
  intros D E.
  assert (P2 : 0 < 2 ^ Z.pos k) by (apply Z.pow_pos_nonneg; lia).
  assert (M : exists M, Zpos w * 2 ^ Zpos k = Zpos M /\ digits M = 53 + Zpos k).
  { exists (Z.to_pos (Zpos w * 2 ^ Zpos k)). split.
    - rewrite Z2Pos.id by lia. reflexivity.
    - rewrite digits_shift by lia. lia. }
  destruct M as (M & EM & DM).
  unfold binary_round_aux, shr_fexp, fexp, SpecFloat.emin, shr_record_of_loc.
  replace (Zdigits2 (Z.pos w * 2 ^ Z.pos k)) with (53 + Z.pos k)
    by (rewrite EM; symmetry; exact DM).
  replace (Z.max (53 + Z.pos k + e - 53) (3 - 1024 - 53) - e) with (Z.pos k) by lia.
  cbn [shr]. rewrite iter_pos_iter, iter_shr_exact by lia.
  cbn [shr_m loc_of_shr_record round_nearest_even Zdigits2]. fold (digits w).
  rewrite D.
  replace (Z.max (53 + (e + Z.pos k) - 53) (3 - 1024 - 53) - (e + Z.pos k)) with 0 by lia.
  cbn [shr shr_m].
  destruct (Z.leb_spec (e + Z.pos k) (1024 - 53)); [reflexivity | lia].
Qed.

(** The integer [q] written as [q * 2^52] with the exponent -52, as the
    sum or the difference of two doubles of integers has it. *)
Lemma round_scaled (q M : positive) :
  digits q <= 53 -> Zpos M = Zpos q * 2 ^ 52 ->
  binary_round 53 1024 false M (-52) = canon q.
Proof.
  intros D EM. pose proof (digits_pos q) as P.
  assert (DM : digits M = digits q + 52).
  { replace M with (Z.to_pos (Zpos q * 2 ^ 52)) by (rewrite <- EM; apply Pos2Z.id).
    apply digits_shift. lia. }
  unfold binary_round, shl_align, fexp, SpecFloat.emin. fold (digits M). rewrite DM.
  replace (Z.max (digits q + 52 + -52 - 53) (3 - 1024 - 53) - -52)
    with (digits q - 1) by lia.
  assert (NS : (let '(mz, ez) :=
                  match digits q - 1 with
                  | Z.neg d => (Pos.iter xO M d, Z.max (digits q + 52 + -52 - 53) (3 - 1024 - 53))
                  | _ => (M, -52)
                  end in binary_round_aux 53 1024 false (Z.pos mz) ez loc_Exact)
               = binary_round_aux 53 1024 false (Z.pos M) (-52) loc_Exact).
  { destruct (digits q - 1) eqn:K; try reflexivity. lia. }
  rewrite NS. clear NS. unfold canon.
  set (w := Z.to_pos (Z.pos q * 2 ^ (53 - digits q))).
  assert (P2 : 0 < 2 ^ (53 - digits q)) by (apply Z.pow_pos_nonneg; lia).
  assert (Dw : digits w = 53).
  { unfold w. rewrite digits_shift by lia. lia. }
  assert (Ew : Zpos w = Zpos q * 2 ^ (53 - digits q)).
  { unfold w. rewrite Z2Pos.id by lia. reflexivity. }
  destruct (Z.eq_dec (digits q) 1) as [E1 | N1].
  - assert (M = w).
    { apply Pos2Z.inj. rewrite EM, Ew, E1. reflexivity. }
    subst M. rewrite round_aux_canonical by (auto; lia).
    rewrite E1. reflexivity.
  - assert (K : exists k, digits q - 1 = Zpos k).
    { destruct (digits q - 1) as [| k | k] eqn:K; try lia. exists k. reflexivity. }
    destruct K as [k K].
    assert (EMk : Zpos M = Zpos w * 2 ^ Zpos k).
    { rewrite EM, Ew, <- K, <- Z.mul_assoc, <- Z.pow_add_r by lia.
      f_equal. f_equal. lia. }
    rewrite EMk, round_aux_shift by (auto; lia).
    f_equal. lia.
Qed.

Lemma digits_small (q : positive) : Zpos q < 2 ^ 53 -> digits q <= 53.
Proof.
  intros H. pose proof (digits_bounds q) as B.
  assert (digits q - 1 < 53) by (apply (Z.pow_lt_mono_r_iff 2); lia).
  lia.
Qed.

(** An integer below [2^53], written with 52 more bits, is its double. *)
Lemma normalize_scaled (z : Z) :
  0 <= z < 2 ^ 53 ->
  binary_normalize 53 1024 (z * 2 ^ 52) (-52) false = B64.of_int z false.
Proof.
  intros H. destruct z as [| q | q]; [reflexivity | | lia].
  rewrite of_int_pos by (apply digits_small; lia).
  change (Z.pos q * 2 ^ 52) with (Z.pos (q * 4503599627370496)).
  cbn [binary_normalize]. apply round_scaled.
  - apply digits_small. lia.
  - reflexivity.
Qed.

Lemma shl_align_value (m : positive) (e e' : Z) :
  e' <= e -> Zpos (fst (shl_align m e e')) = Zpos m * 2 ^ (e - e').
Proof.
  intros H. unfold shl_align.
  destruct (e' - e) as [| d | d] eqn:K; cbn [fst]; try lia.
  - replace (e - e') with 0 by lia. lia.
  - rewrite iter_xO. f_equal. f_equal. lia.
Qed.

Lemma canon_value (q : positive) :
  digits q <= 53 ->
  Zpos (Z.to_pos (Zpos q * 2 ^ (53 - digits q))) * 2 ^ (digits q - 53 - -52)
  = Zpos q * 2 ^ 52.
Proof.
  intros D. pose proof (digits_pos q).
  assert (0 < 2 ^ (53 - digits q)) by (apply Z.pow_pos_nonneg; lia).
  rewrite Z2Pos.id by lia.
  rewrite <- Z.mul_assoc, <- Z.pow_add_r by lia. f_equal. f_equal. lia.
Qed.

(** Adding 1 to the double of an integer, below [2^53]. *)
Lemma plus_one (a : Z) :
  0 <= a -> a + 1 < 2 ^ 53 ->
  B64.plus (B64.of_int a false) (B64.of_int 1 false) = B64.of_int (a + 1) false.
Proof.
  intros H0 H1. destruct a as [| q | q]; [reflexivity | | lia].
  assert (D : digits q <= 53) by (apply digits_small; lia).
  pose proof (digits_pos q) as P.
  rewrite <- (normalize_scaled (Z.pos q + 1)) by lia.
  rewrite (of_int_pos q) by assumption.
  change (B64.of_int 1 false) with (S754_finite false 4503599627370496 (-52)).
  unfold canon, B64.plus, SFadd. cbv zeta.
  replace (Z.min (digits q - 53) (-52)) with (-52) by lia.
  rewrite !shl_align_value by lia.
  cbn [cond_Zopp]. rewrite canon_value by assumption.
  f_equal. change (-52 - -52) with 0. lia.
Qed.

(** Taking 1 from the double of a positive integer, below [2^53]. *)
Lemma minus_one (a : Z) :
  1 <= a < 2 ^ 53 ->
  B64.minus (B64.of_int a false) (B64.of_int 1 false) = B64.of_int (a - 1) false.
Proof.
  intros H. destruct a as [| q | q]; try lia.
  assert (D : digits q <= 53) by (apply digits_small; lia).
  pose proof (digits_pos q) as P.
  rewrite <- (normalize_scaled (Z.pos q - 1)) by lia.
  rewrite (of_int_pos q) by assumption.
  change (B64.of_int 1 false) with (S754_finite false 4503599627370496 (-52)).
  unfold canon, B64.minus, SFsub. cbv zeta.
  replace (Z.min (digits q - 53) (-52)) with (-52) by lia.
  rewrite !shl_align_value by lia.
  cbn [cond_Zopp]. rewrite canon_value by assumption.
  f_equal. change (-52 - -52) with 0. lia.
Qed.

Lemma canon_mantissa (q : positive) :
  digits q <= 53 ->
  Zpos (Z.to_pos (Zpos q * 2 ^ (53 - digits q))) = Zpos q * 2 ^ (53 - digits q).
Proof.
  intros D. assert (0 < 2 ^ (53 - digits q)) by (apply Z.pow_pos_nonneg; lia).
  rewrite Z2Pos.id by lia. reflexivity.
Qed.

(** The doubles of the integers below [2^53] are ordered as the
    integers. *)
Lemma of_int_leb (a b : Z) :
  0 <= a <= b -> b < 2 ^ 53 ->
  SFleb (B64.of_int a false) (B64.of_int b false) = true.
Proof.
  intros H B. destruct a as [| p | p], b as [| q | q]; try lia; try reflexivity.
  - rewrite of_int_pos by (apply digits_small; lia). reflexivity.
  - assert (Dp : digits p <= 53) by (apply digits_small; lia).
    assert (Dq : digits q <= 53) by (apply digits_small; lia).
    assert (M : digits p <= digits q) by (apply digits_mono; lia).
    rewrite !of_int_pos by assumption.
    apply leb_rank; try reflexivity.
    unfold canon, rank, lex_lt. cbn [fst snd].
    rewrite !canon_mantissa by assumption.
    destruct (Z.eq_dec (digits p) (digits q)) as [E | N].
    + rewrite E. destruct (Z.eq_dec (Z.pos p) (Z.pos q)) as [E' | N'].
      * right. rewrite E'. reflexivity.
      * left. right. split; [reflexivity |]. right. split; [reflexivity |].
        assert (0 < 2 ^ (53 - digits q)) by (apply Z.pow_pos_nonneg; lia).
        nia.
    + left. right. split; [reflexivity |]. left. lia.
Qed.

Lemma of_int_number (a : Z) :
  0 <= a < 2 ^ 53 ->
  B64.of_int a false = S754_zero false
  \/ exists m e, B64.of_int a false = S754_finite false m e.
Proof.
  intros H. destruct a as [| q | q]; try lia.
  - left. reflexivity.
  - right. rewrite of_int_pos by (apply digits_small; lia). unfold canon. eauto.
Qed.

(** What makes a finite double a double. *)
Lemma valid_finite (s : bool) (m : positive) (e : Z) :
  SpecFloat.valid_binary 53 1024 (S754_finite s m e) = true ->
  digits m <= 53 /\ -1074 <= e <= 971 /\ (-1074 < e -> digits m = 53).
Proof.
  unfold SpecFloat.valid_binary, SpecFloat.bounded, canonical_mantissa, fexp, SpecFloat.emin. fold (digits m).
  intros H. apply andb_true_iff in H. destruct H as [A B].
  apply Z.eqb_eq in A. apply Z.leb_le in B. lia.
Qed.

(** The integers at or below a positive double are at or below its
    floor. *)
Lemma floor_ge (k : Z) (m : positive) (e : Z) :
  0 <= k < 2 ^ 53 ->
  SpecFloat.valid_binary 53 1024 (S754_finite false m e) = true -> e < 0 ->
  SFleb (B64.of_int k false) (S754_finite false m e) = true ->
  k <= Z.shiftr (Zpos m) (- e).
Proof.
  intros K V E L. rewrite Z.shiftr_div_pow2 by lia.
  assert (P2 : 0 < 2 ^ (- e)) by (apply Z.pow_pos_nonneg; lia).
  apply Z.div_le_lower_bound; [lia |].
  destruct k as [| q | q]; try lia.
  assert (Dq : digits q <= 53) by (apply digits_small; lia).
  pose proof (digits_pos q) as Pq. pose proof (digits_bounds q) as Bq.
  destruct (valid_finite _ _ _ V) as (Dm & Re & Nm).
  rewrite of_int_pos in L by assumption.
  apply leb_rank in L; try reflexivity.
  unfold canon, rank, lex_lt in L. cbn [fst snd] in L.
  rewrite canon_mantissa in L by assumption.
  assert (C : digits q - 53 < e \/ (digits q - 53 = e /\ Z.pos q * 2 ^ (53 - digits q) <= Z.pos m)).
  { remember (Z.pos q * 2 ^ (53 - digits q)) as A eqn:EA.
    remember (digits q - 53) as d eqn:Ed.
    destruct L as [[L | [_ [L | [L1 L2]]]] | L].
    - lia.
    - left. exact L.
    - right. split; [exact L1 | lia].
    - right. injection L as L1 L2. split; [exact L1 | rewrite L2; lia]. }
  destruct C as [C | [C1 C2]].
  - pose proof (digits_bounds m) as Bm. rewrite Nm in Bm by lia.
    assert (Z.pos q * 2 ^ (- e) < 2 ^ digits q * 2 ^ (- e)) by nia.
    rewrite <- Z.pow_add_r in H by lia.
    assert (2 ^ (digits q + - e) <= 2 ^ 52) by (apply Z.pow_le_mono_r; lia).
    change (2 ^ (53 - 1)) with (2 ^ 52) in Bm. lia.
  - replace (- e) with (53 - digits q) by lia. lia.
Qed.

Lemma of_int_not_negative (z : Z) :
  SFltb (B64.of_int z false) (S754_zero false) = true -> z < 0.
Proof.
  destruct z as [| q | q]; [discriminate | | lia].
  unfold B64.of_int, binary_normalize, binary_round.
  destruct (shl_align q 0 (fexp 53 1024 (Z.pos (digits2_pos q) + 0))) as [mz ez].
  unfold binary_round_aux.
  destruct (shr_fexp 53 1024 (Z.pos mz) ez loc_Exact) as [mrs e'].
  destruct (shr_fexp 53 1024 (round_nearest_even (shr_m mrs) (loc_of_shr_record mrs)) e' loc_Exact)
    as [mrs' e''].
  destruct (shr_m mrs'); try discriminate.
  destruct (e'' <=? 1024 - 53); discriminate.
Qed.

(** A positive double whose exponent is not negative is at least
    [2^52]. *)
Lemma large_double_ge (n : Z) (m : positive) (e : Z) :
  1 <= n <= 2 ^ 52 ->
  SpecFloat.valid_binary 53 1024 (S754_finite false m e) = true -> 0 <= e ->
  SFleb (B64.of_int n false) (S754_finite false m e) = true.
Proof.
  intros N V E. destruct n as [| q | q]; try lia.
  assert (Dq : digits q <= 53) by (apply digits_small; lia).
  pose proof (digits_pos q) as Pq. pose proof (digits_bounds q) as Bq.
  destruct (valid_finite _ _ _ V) as (Dm & Re & Nm).
  pose proof (digits_bounds m) as Bm. rewrite Nm in Bm by lia.
  change (2 ^ (53 - 1)) with (2 ^ 52) in Bm.
  rewrite of_int_pos by assumption.
  apply leb_rank; try reflexivity.
  unfold canon, rank, lex_lt. cbn [fst snd].
  rewrite canon_mantissa by assumption.
  destruct (Z.eq_dec (digits q - 53) e) as [Ee | Ne].
  - assert (digits q = 53) by lia.
    replace (53 - digits q) with 0 by lia. rewrite Z.mul_1_r.
    destruct (Z.eq_dec (Z.pos q) (Z.pos m)) as [Em | Nm'].
    + right. rewrite Ee, Em. reflexivity.
    + left. right. split; [reflexivity |]. right. split; [exact Ee | lia].
  - left. right. split; [reflexivity |]. left. lia.
Qed.

(** The lower index of a coordinate at or above [n - 1] is at or above
    [n], or one more than it is. *)
Lemma lower_next (n : Z) (v : B64.t) :
  1 <= n <= 2 ^ 52 ->
  SpecFloat.valid_binary 53 1024 v = true ->
  SFleb (B64.minus (B64.of_int n false) (B64.of_int 1 false)) v = true ->
  SFleb (B64.of_int n false)
    (if SFltb (B64.floor v) (S754_zero false) then B64.ceil v else B64.floor v) = true
  \/ SFleb (B64.of_int n false)
       (B64.plus (if SFltb (B64.floor v) (S754_zero false) then B64.ceil v else B64.floor v)
          (B64.of_int 1 false)) = true.
Proof.
  intros N V L.
  assert (P53 : 2 ^ 52 < 2 ^ 53) by (apply Z.pow_lt_mono_r; lia).
  rewrite minus_one in L by lia.
  destruct v as [s | s | | s m e].
  - (* zero *)
    right. cbn [B64.floor]. replace (SFltb (S754_zero s) (S754_zero false)) with false
      by (destruct s; reflexivity).
    assert (n = 1).
    { destruct (n - 1) as [| q | q] eqn:K; try lia.
      rewrite of_int_pos in L by (apply digits_small; lia). discriminate. }
    subst n. destruct s; reflexivity.
  - (* infinity *)
    destruct s.
    + destruct (of_int_number (n - 1) ltac:(lia)) as [E | (m & e & E)];
        rewrite E in L; discriminate.
    + left. destruct (of_int_number n ltac:(lia)) as [E | (m & e & E)];
        rewrite E; reflexivity.
  - (* NaN *)
    destruct (of_int_number (n - 1) ltac:(lia)) as [E | (m & e & E)];
      rewrite E in L; discriminate.
  - destruct s.
    + destruct (of_int_number (n - 1) ltac:(lia)) as [E | (m' & e' & E)];
        rewrite E in L; discriminate.
    + cbn [B64.floor B64.ceil]. destruct (Z.leb_spec 0 e) as [E | E].
      * left. replace (SFltb (S754_finite false m e) (S754_zero false)) with false
          by reflexivity.
        apply large_double_ge; assumption.
      * right. unfold B64.signed. cbn [cond_Zopp].
        set (z := Z.shiftr (Z.pos m) (- e)).
        assert (Z0 : 0 <= z) by (apply Z.shiftr_nonneg; lia).
        assert (Zlt : z + 1 < 2 ^ 53).
        { destruct (valid_finite _ _ _ V) as (Dm & _ & _).
          pose proof (digits_bounds m) as Bm.
          assert (Z.pos m < 2 ^ 53).
          { apply Z.lt_le_trans with (2 ^ digits m); [lia |].
            apply Z.pow_le_mono_r; lia. }
          unfold z. rewrite Z.shiftr_div_pow2 by lia.
          assert (2 ^ 1 <= 2 ^ (- e)) by (apply Z.pow_le_mono_r; lia).
          assert (Z.pos m / 2 ^ (- e) <= Z.pos m / 2 ^ 1).
          { apply Z.div_le_compat_l; lia. }
          assert (Z.pos m / 2 ^ 1 < 2 ^ 52).
          { apply Z.div_lt_upper_bound; [lia |].
            change (2 ^ 1 * 2 ^ 52) with (2 ^ 53). lia. }
          lia. }
        destruct (SFltb (B64.of_int z false) (S754_zero false)) eqn:Neg.
        { apply of_int_not_negative in Neg. lia. }
        rewrite plus_one by lia.
        apply of_int_leb; [| lia].
        assert (n - 1 <= z) by (apply floor_ge; try assumption; lia).
        lia.
Qed.

End B64IntFacts.

(** ** Rounding on the doubles *)

Module B64RoundFacts.
Import B64Order B64Int B64IntFacts.
Open Scope Z_scope.

(** One step to the right halves the mantissa. *)
Lemma shr_1_m (mrs : shr_record) :
  0 <= shr_m mrs -> shr_m (shr_1 mrs) = shr_m mrs / 2.
Proof.
  destruct mrs as [m r s]. cbn [shr_m]. intros H.
  destruct m as [| [p | p |] | p]; cbn [shr_1 shr_m]; try lia.
  - reflexivity.
  - apply Z.div_unique with 1; lia.
  - apply Z.div_unique with 0; lia.
  - reflexivity.
Qed.

Lemma iter_shr_m (k : positive) (mrs : shr_record) :
  0 <= shr_m mrs ->
  shr_m (Pos.iter shr_1 mrs k) = shr_m mrs / 2 ^ Zpos k.
Proof.
  intros H. induction k as [| k IH] using Pos.peano_ind.
  - cbn [Pos.iter]. rewrite shr_1_m by exact H. reflexivity.
  - rewrite Pos.iter_succ, shr_1_m, IH.
    + rewrite Pos2Z.inj_succ, Z.pow_succ_r by lia.
      rewrite Z.div_div by (try apply Z.pow_pos_nonneg; lia).
      f_equal. lia.
    + rewrite IH. apply Z.div_pos; [exact H | apply Z.pow_pos_nonneg; lia].
Qed.

Lemma round_nearest_even_bounds (m : Z) (l : location) :
  m <= round_nearest_even m l <= m + 1.
Proof.
  destruct l as [| []]; cbn [round_nearest_even]; try destruct (Z.even m); lia.
Qed.

Lemma shr_none (mrs : shr_record) (e n : Z) : n <= 0 -> shr mrs e n = (mrs, e).
Proof. intros H. destruct n; [reflexivity | lia | reflexivity]. Qed.

Lemma shr_some (mrs : shr_record) (e n : Z) :
  0 < n -> shr mrs e n = (Pos.iter shr_1 mrs (Z.to_pos n), e + n).
Proof.
  intros H. destruct n as [| p | p]; try lia.
  cbn [shr Z.to_pos]. rewrite iter_pos_iter. reflexivity.
Qed.

(** A shift to the right by [n] places divides the mantissa by [2 ^ n]. *)
Lemma shr_m_div (mrs : shr_record) (e n : Z) :
  0 <= shr_m mrs -> 0 <= n ->
  exists mrs' : shr_record,
    shr mrs e n = (mrs', e + n) /\ shr_m mrs' = shr_m mrs / 2 ^ n.
Proof.
  intros Hm Hn. destruct (Z.eq_dec n 0) as [-> | NZ].
  - exists mrs. rewrite Z.add_0_r, Z.div_1_r. split; reflexivity.
  - rewrite shr_some by lia. eexists. split; [reflexivity |].
    rewrite iter_shr_m by exact Hm. rewrite Z2Pos.id by lia. reflexivity.
Qed.

Lemma Zdigits2_bounds (m : Z) :
  0 <= m -> m < 2 ^ Zdigits2 m /\ (0 < m -> 2 ^ (Zdigits2 m - 1) <= m).
Proof.
  intros H. destruct m as [| p | p]; [cbn; lia | | lia].
  cbn [Zdigits2]. fold (digits p). pose proof (digits_bounds p). lia.
Qed.

(** One step to the right: the digit that leaves is remembered, and
    whether any digit but zeros left before it. *)
Lemma shr_1_record (m : Z) (r s : bool) :
  0 <= m ->
  shr_1 (Build_shr_record m r s) = Build_shr_record (m / 2) (Z.odd m) (r || s).
Proof.
  intros H. destruct m as [| [p | p |] | p]; cbn [shr_1 Z.odd]; try lia.
  - reflexivity.
  - f_equal. apply Z.div_unique with 1; lia.
  - f_equal. apply Z.div_unique with 0; lia.
  - reflexivity.
Qed.

(** After [k] steps the record holds the quotient by [2 ^ k], and of
    the remainder its highest digit and whether the rest is zero. *)
Lemma iter_shr_record (k : positive) (m : Z) :
  0 <= m ->
  exists (r s : bool) (t : Z),
    Pos.iter shr_1 (Build_shr_record m false false) k
    = Build_shr_record (m / 2 ^ Zpos k) r s
    /\ 0 <= t < 2 ^ (Zpos k - 1)
    /\ m mod 2 ^ Zpos k = (if r then 2 ^ (Zpos k - 1) else 0) + t
    /\ (s = false <-> t = 0).
Proof.
  intros Hm. induction k as [| k IH] using Pos.peano_ind.
  - cbn [Pos.iter]. rewrite shr_1_record by exact Hm.
    exists (Z.odd m), false, 0. change (2 ^ 1) with 2. change (2 ^ (1 - 1)) with 1.
    split; [reflexivity |]. split; [lia |]. split; [| tauto].
    rewrite Zmod_odd. destruct (Z.odd m); reflexivity.
  - destruct IH as (r & s & t & E & Ht & Hmod & Hs).
    rewrite Pos.iter_succ, E.
    assert (P : 0 < 2 ^ Zpos k) by (apply Z.pow_pos_nonneg; lia).
    rewrite shr_1_record by (apply Z.div_pos; lia).
    rewrite Pos2Z.inj_succ. replace (Z.succ (Zpos k) - 1) with (Zpos k) by lia.
    rewrite Z.pow_succ_r by lia.
    assert (Eq2 : m / 2 ^ Zpos k / 2 = m / (2 * 2 ^ Zpos k)).
    { rewrite Z.div_div by lia. f_equal. lia. }
    set (q := m / 2 ^ Zpos k) in *.
    exists (Z.odd q), (r || s), ((if r then 2 ^ (Zpos k - 1) else 0) + t).
    assert (P1 : 2 ^ Zpos k = 2 * 2 ^ (Zpos k - 1)).
    { rewrite <- Z.pow_succ_r by lia. f_equal. lia. }
    assert (P0 : 0 < 2 ^ (Zpos k - 1)) by (apply Z.pow_pos_nonneg; lia).
    split; [| split; [| split]].
    + rewrite Eq2. reflexivity.
    + destruct r; lia.
    + rewrite <- Hmod.
      pose proof (Z.div_mod m (2 ^ Zpos k) ltac:(lia)) as D1. fold q in D1.
      pose proof (Z.mod_pos_bound m (2 ^ Zpos k) P) as B1.
      pose proof (Z.div_mod q 2 ltac:(lia)) as D2.
      rewrite Zmod_odd in D2.
      symmetry. apply Z.mod_unique with (q / 2); [left; destruct (Z.odd q); lia |].
      destruct (Z.odd q); lia.
    + destruct r; cbn [orb].
      * split; [discriminate | lia].
      * rewrite Z.add_0_l. exact Hs.
Qed.

Lemma nearest_even_exact (m n : Z) :
  0 <= n -> m mod 2 ^ n = 0 -> nearest_even m n = m / 2 ^ n.
Proof.
  intros Hn H. unfold nearest_even. rewrite H.
  assert (0 < 2 ^ n) by (apply Z.pow_pos_nonneg; lia).
  destruct (Z.ltb_spec (2 * 0) (2 ^ n)); [reflexivity | lia].
Qed.

(** What [binary_round_aux] makes of a mantissa that has its digits to
    the right of the exponent [e1] the format gives it: the mantissa
    loses the digits below [e1], one may be added to what is left (the
    nearest integer is taken where the digits were known exactly), and a
    carry into a 54th digit moves the exponent up by one. *)
Lemma round_aux_shape (s : bool) (m e : Z) (l : location) :
  0 <= m ->
  e <= Z.max (Zdigits2 m + e - 53) (-1074) ->
  exists m2 : Z,
    m / 2 ^ (Z.max (Zdigits2 m + e - 53) (-1074) - e) <= m2
      <= m / 2 ^ (Z.max (Zdigits2 m + e - 53) (-1074) - e) + 1
    /\ (l = loc_Exact ->
        m2 = nearest_even m (Z.max (Zdigits2 m + e - 53) (-1074) - e))
    /\ (m2 = 0 /\ binary_round_aux 53 1024 s m e l = S754_zero s
        \/ exists (m3 : positive) (e3 : Z),
             Zpos m3 * 2 ^ (e3 - Z.max (Zdigits2 m + e - 53) (-1074)) = m2
             /\ (e3 = Z.max (Zdigits2 m + e - 53) (-1074)
                 \/ e3 = Z.max (Zdigits2 m + e - 53) (-1074) + 1 /\ Zpos m3 = 2 ^ 52)
             /\ Zpos m3 < 2 ^ 53
             /\ binary_round_aux 53 1024 s m e l
                = if e3 <=? 971 then S754_finite s m3 e3 else S754_infinity s).
Proof.
  set (e1 := Z.max (Zdigits2 m + e - 53) (-1074)). intros Hm HE.
  pose proof (Zdigits2_bounds m Hm) as [DM _].
  assert (P2 : 0 < 2 ^ (e1 - e)) by (apply Z.pow_pos_nonneg; lia).
  assert (H0 : shr_m (shr_record_of_loc m l) = m) by (destruct l as [| []]; reflexivity).
  destruct (shr_m_div (shr_record_of_loc m l) e (e1 - e))
    as (mrs' & Hshr & Hm1); [lia | lia |].
  rewrite H0 in Hm1. replace (e + (e1 - e)) with e1 in Hshr by lia.
  assert (Hnear : l = loc_Exact ->
                  round_nearest_even (m / 2 ^ (e1 - e)) (loc_of_shr_record mrs')
                  = nearest_even m (e1 - e)).
  { intros ->. cbn [shr_record_of_loc] in Hshr. unfold nearest_even. cbv zeta.
    destruct (Z.eq_dec (e1 - e) 0) as [Z0 | NZ].
    - rewrite shr_none in Hshr by lia. injection Hshr as <- _.
      rewrite Z0. change (2 ^ 0) with 1. rewrite Z.mod_1_r. reflexivity.
    - rewrite shr_some in Hshr by lia.
      destruct (iter_shr_record (Z.to_pos (e1 - e)) m Hm)
        as (r & s0 & t & E & Ht & Hmod & Hs).
      rewrite Z2Pos.id in E, Ht, Hmod by lia.
      rewrite E in Hshr. injection Hshr as <- _.
      assert (P1 : 2 ^ (e1 - e) = 2 * 2 ^ (e1 - e - 1)).
      { rewrite <- Z.pow_succ_r by lia. f_equal. lia. }
      rewrite Hmod.
      destruct r, s0; cbn [loc_of_shr_record round_nearest_even].
      + assert (t <> 0) by (intros T; apply Hs in T; discriminate).
        destruct (Z.ltb_spec (2 * (2 ^ (e1 - e - 1) + t)) (2 ^ (e1 - e))); [lia |].
        destruct (Z.ltb_spec (2 ^ (e1 - e)) (2 * (2 ^ (e1 - e - 1) + t))); [| lia].
        reflexivity.
      + assert (t = 0) by (apply Hs; reflexivity).
        destruct (Z.ltb_spec (2 * (2 ^ (e1 - e - 1) + t)) (2 ^ (e1 - e))); [lia |].
        destruct (Z.ltb_spec (2 ^ (e1 - e)) (2 * (2 ^ (e1 - e - 1) + t))); [lia |].
        reflexivity.
      + destruct (Z.ltb_spec (2 * (0 + t)) (2 ^ (e1 - e))); [reflexivity | lia].
      + destruct (Z.ltb_spec (2 * (0 + t)) (2 ^ (e1 - e))); [reflexivity | lia]. }
  set (m1 := m / 2 ^ (e1 - e)) in *.
  assert (Hm1nn : 0 <= m1) by (apply Z.div_pos; lia).
  assert (Hm1lt : m1 < 2 ^ 53).
  { apply Z.div_lt_upper_bound; [exact P2 |].
    rewrite <- Z.pow_add_r by lia.
    eapply Z.lt_le_trans; [exact DM |].
    apply Z.pow_le_mono_r; lia. }
  pose proof (round_nearest_even_bounds m1 (loc_of_shr_record mrs')) as Hm2.
  exists (round_nearest_even m1 (loc_of_shr_record mrs')).
  split; [exact Hm2 |]. split.
  { exact Hnear. }
  unfold binary_round_aux, shr_fexp, fexp, SpecFloat.emin.
  change (3 - 1024 - 53) with (-1074). fold e1. rewrite Hshr, Hm1.
  change (1024 - 53) with 971.
  set (m2 := round_nearest_even m1 (loc_of_shr_record mrs')) in *.
  cbn [shr_record_of_loc].
  destruct m2 as [| p2 | p2] eqn:Em2; [| | lia].
  - left. cbn [Zdigits2]. rewrite shr_none by lia. cbn [shr_m]. split; reflexivity.
  - right. cbn [Zdigits2]. fold (digits p2).
    destruct (Z.eq_dec (Zpos p2) (2 ^ 53)) as [Carry | NoCarry].
    + assert (D2 : digits p2 = 54)
        by (apply digits_unique; rewrite Carry; split; [apply Z.pow_le_mono_r |]; lia).
      rewrite D2. replace (Z.max (54 + e1 - 53) (-1074) - e1) with 1 by lia.
      rewrite Carry. change (2 ^ 53) with (2 * 2 ^ 52).
      cbn [shr SpecFloat.iter_pos]. rewrite shr_1_even by lia.
      cbn [shr_m]. change (2 ^ 52) with (Zpos (Z.to_pos (2 ^ 52))).
      cbv iota.
      exists (Z.to_pos (2 ^ 52)), (e1 + 1).
      replace (e1 + 1 - e1) with 1 by lia.
      split; [reflexivity |]. split; [right; split; reflexivity |].
      split; reflexivity.
    + assert (D2 : digits p2 <= 53) by (apply digits_small; lia).
      rewrite shr_none by lia. cbn [shr_m].
      exists p2, e1. rewrite Z.sub_diag.
      split; [lia |]. split; [left; reflexivity |]. split; [lia | reflexivity].
Qed.

(** [binary_round] first moves the digits of the mantissa to the right
    of the exponent of the format. *)
Lemma round_align (s : bool) (M : positive) (E : Z) :
  exists (mz : positive) (ez : Z),
    binary_round 53 1024 s M E = binary_round_aux 53 1024 s (Zpos mz) ez loc_Exact
    /\ ez <= E /\ Zpos mz = Zpos M * 2 ^ (E - ez)
    /\ ez <= Z.max (digits mz + ez - 53) (-1074)
    /\ Z.min E (-1074) <= ez.
Proof.
  unfold binary_round, shl_align, fexp, SpecFloat.emin. fold (digits M).
  change (3 - 1024 - 53) with (-1074).
  destruct (Z.max (digits M + E - 53) (-1074) - E) as [| d | d] eqn:K.
  - exists M, E. rewrite Z.sub_diag. repeat split; lia.
  - exists M, E. rewrite Z.sub_diag. repeat split; lia.
  - exists (Pos.iter xO M d), (Z.max (digits M + E - 53) (-1074)).
    assert (V : Zpos (Pos.iter xO M d) = Zpos M * 2 ^ Zpos d) by apply iter_xO.
    assert (D : digits (Pos.iter xO M d) = digits M + Zpos d).
    { replace (Pos.iter xO M d) with (Z.to_pos (Zpos M * 2 ^ Zpos d))
        by (rewrite <- V; apply Pos2Z.id).
      apply digits_shift. lia. }
    split; [reflexivity |]. split; [lia |]. split; [| split].
    + rewrite V. f_equal. f_equal. lia.
    + rewrite D. lia.
    + lia.
Qed.

(** Rounding does not go below a double that the rounded value is not
    below: for [c = mc * 2 ^ ec], a double, and [c <= mz * 2 ^ ez]. *)
Lemma round_aux_ge (mc : positive) (ec : Z) (mz : positive) (ez : Z) :
  SpecFloat.valid_binary 53 1024 (S754_finite false mc ec) = true ->
  ez <= Z.max (digits mz + ez - 53) (-1074) ->
  ez <= ec -> Zpos mc * 2 ^ (ec - ez) <= Zpos mz ->
  SFleb (S754_finite false mc ec) (binary_round_aux 53 1024 false (Zpos mz) ez loc_Exact)
  = true.
Proof.
  intros V Hal Hez Hc.
  destruct (valid_finite _ _ _ V) as (Dc & Rc & Nc).
  destruct (round_aux_shape false (Zpos mz) ez loc_Exact ltac:(lia) Hal)
    as (m2 & [Hm2 _] & _ & Hres).
  cbn [Zdigits2] in *. fold (digits mz) in *.
  set (e1 := Z.max (digits mz + ez - 53) (-1074)) in *.
  pose proof (digits_bounds mz) as [Dlo _].
  assert (P1 : 0 < 2 ^ (e1 - ez)) by (apply Z.pow_pos_nonneg; lia).
  assert (HK : e1 <= ec -> Zpos mc * 2 ^ (ec - e1) <= m2).
  { intros H. etransitivity; [| exact Hm2].
    apply Z.div_le_lower_bound; [exact P1 |].
    rewrite Z.mul_comm, <- Z.mul_assoc, <- Z.pow_add_r by lia.
    replace (ec - e1 + (e1 - ez)) with (ec - ez) by lia. exact Hc. }
  destruct Hres as [[Hz _] | (m3 & e3 & Hv & He3 & Hm3 & ->)].
  - exfalso. destruct (Z.le_gt_cases e1 ec) as [H | H].
    + specialize (HK H).
      assert (0 < 2 ^ (ec - e1)) by (apply Z.pow_pos_nonneg; lia). nia.
    + assert (1 <= Zpos mz / 2 ^ (e1 - ez)); [| lia].
      apply Z.div_le_lower_bound; [exact P1 |]. rewrite Z.mul_1_r.
      etransitivity; [| exact Dlo]. apply Z.pow_le_mono_r; lia.
  - destruct (e3 <=? 971); [| reflexivity].
    assert (He3' : e1 <= e3) by lia. clear He3. rename He3' into He3.
    unfold SFleb, SFcompare.
    assert (P3 : 0 < 2 ^ (e3 - e1)) by (apply Z.pow_pos_nonneg; lia).
    destruct (Z.compare_spec ec e3) as [Eq | Lt | Gt].
    + subst e3. specialize (HK He3). rewrite <- Hv in HK.
      assert (Hm : Zpos mc <= Zpos m3) by nia.
      change (Pos.compare_cont Eq mc m3) with (Pos.compare mc m3).
      destruct (Pos.compare_spec mc m3); [reflexivity | reflexivity | lia].
    + reflexivity.
    + exfalso. specialize (HK ltac:(lia)). rewrite <- Hv in HK.
      replace (ec - e1) with ((ec - e3) + (e3 - e1)) in HK by lia.
      rewrite Z.pow_add_r in HK by lia.
      assert (B : 2 ^ 1 <= 2 ^ (ec - e3)) by (apply Z.pow_le_mono_r; lia).
      change (2 ^ 1) with 2 in B.
      pose proof (digits_bounds mc) as [Mlo _].
      rewrite Nc in Mlo by lia. change (2 ^ (53 - 1)) with 4503599627370496 in Mlo.
      change (2 ^ 53) with 9007199254740992 in Hm3.
      assert (Zpos mc * 2 ^ (ec - e3) <= Zpos m3) by nia.
      nia.
Qed.

Lemma round_ge (mc : positive) (ec : Z) (M : positive) (E : Z) :
  SpecFloat.valid_binary 53 1024 (S754_finite false mc ec) = true ->
  E <= ec -> Zpos mc * 2 ^ (ec - E) <= Zpos M ->
  SFleb (S754_finite false mc ec) (binary_round 53 1024 false M E) = true.
Proof.
  intros V HE Hle.
  destruct (round_align false M E) as (mz & ez & -> & Hez & Hmz & Hal & _).
  apply round_aux_ge; [exact V | exact Hal | lia |].
  rewrite Hmz. replace (ec - ez) with ((ec - E) + (E - ez)) by lia.
  rewrite Z.pow_add_r, Z.mul_assoc by lia.
  apply Z.mul_le_mono_nonneg_r; [apply Z.pow_nonneg; lia | exact Hle].
Qed.

(** What [binary_round_aux] returns is a double. *)
Lemma round_aux_valid (s : bool) (m e : Z) (l : location) :
  0 <= m ->
  e <= Z.max (Zdigits2 m + e - 53) (-1074) ->
  SpecFloat.valid_binary 53 1024 (binary_round_aux 53 1024 s m e l) = true.
Proof.
  intros Hm HE.
  destruct (round_aux_shape s m e l Hm HE) as (m2 & Hm2 & _ & Hres).
  pose proof (Zdigits2_bounds m Hm) as [_ Dlo].
  set (e1 := Z.max (Zdigits2 m + e - 53) (-1074)) in *.
  destruct Hres as [[_ ->] | (m3 & e3 & Hv & He3 & Hm3 & ->)]; [reflexivity |].
  destruct (Z.leb_spec e3 971) as [Hr | Hr]; [| reflexivity].
  cbn [SpecFloat.valid_binary]. unfold SpecFloat.bounded, canonical_mantissa, fexp, SpecFloat.emin.
  fold (digits m3). change (3 - 1024 - 53) with (-1074). change (1024 - 53) with 971.
  apply andb_true_iff. split; [| apply Z.leb_le; exact Hr].
  apply Z.eqb_eq.
  destruct He3 as [-> | [-> E52]].
  - rewrite Z.sub_diag, Z.mul_1_r in Hv.
    pose proof (digits_small m3 Hm3) as D3.
    destruct (Z.eq_dec e1 (-1074)) as [Emin | Enorm]; [lia |].
    assert (Hpos : 0 < m).
    { destruct (Z.eq_dec m 0) as [-> | NZ]; [| lia]. cbn [Zdigits2] in e1. lia. }
    specialize (Dlo Hpos).
    assert (H52 : 2 ^ 52 <= Zpos m3).
    { rewrite Hv. etransitivity; [| apply Hm2].
      apply Z.div_le_lower_bound; [apply Z.pow_pos_nonneg; lia |].
      rewrite <- Z.pow_add_r by lia.
      etransitivity; [| exact Dlo]. apply Z.pow_le_mono_r; lia. }
    assert (D53 : digits m3 = 53) by (apply digits_unique; split; [exact H52 | exact Hm3]).
    lia.
  - assert (D53 : digits m3 = 53) by (apply digits_unique; rewrite E52; split; reflexivity).
    lia.
Qed.

(** The quotient of two doubles is a double, whatever its operands. *)
Lemma divide_valid (x y : B64.t) :
  SpecFloat.valid_binary 53 1024 (B64.divide x y) = true.
Proof.
  destruct x as [sx | sx | | sx mx ex]; destruct y as [sy | sy | | sy my ey];
    try reflexivity.
  unfold B64.divide, SFdiv, SFdiv_core_binary, fexp, SpecFloat.emin.
  cbn [Zdigits2]. fold (digits mx) (digits my). change (3 - 1024 - 53) with (-1074).
  set (D := digits mx + ex - (digits my + ey)).
  set (e' := Z.min (Z.max (D - 53) (-1074)) (ex - ey)).
  set (sh := ex - ey - e').
  assert (Hsh : 0 <= sh) by (unfold sh, e'; lia).
  set (m' := match sh with Zpos _ => Z.shiftl (Zpos mx) sh | 0 => Zpos mx | Zneg _ => 0 end).
  assert (Em' : m' = Zpos mx * 2 ^ sh).
  { unfold m'. destruct sh as [| p | p] eqn:Esh; [lia | | lia].
    apply Z.shiftl_mul_pow2. lia. }
  assert (Psh : 0 < 2 ^ sh) by (apply Z.pow_pos_nonneg; lia).
  destruct (Z.div_eucl m' (Zpos my)) as [q r] eqn:Ediv.
  assert (Eq : q = m' / Zpos my) by (unfold Z.div; rewrite Ediv; reflexivity).
  assert (Hq : 0 <= q) by (rewrite Eq; apply Z.div_pos; nia).
  apply round_aux_valid; [exact Hq |].
  destruct (Z.le_gt_cases e' (-1074)) as [Hlow | Hhigh]; [lia |].
  assert (HD : e' <= D - 53) by (unfold e' in *; lia).
  assert (H52 : 2 ^ 52 <= q).
  { rewrite Eq. apply Z.div_le_lower_bound; [lia |].
    pose proof (digits_bounds mx) as [Xlo _]. pose proof (digits_bounds my) as [_ Yhi].
    pose proof (digits_pos mx). pose proof (digits_pos my).
    rewrite Em'.
    assert (Hs : digits my + 52 <= digits mx - 1 + sh) by (unfold sh, D in *; lia).
    assert (A : Zpos my * 2 ^ 52 <= 2 ^ (digits my + 52)).
    { rewrite Z.pow_add_r by lia. apply Z.mul_le_mono_nonneg_r; lia. }
    assert (B : 2 ^ (digits my + 52) <= 2 ^ (digits mx - 1 + sh))
      by (apply Z.pow_le_mono_r; lia).
    assert (C : 2 ^ (digits mx - 1 + sh) <= Zpos mx * 2 ^ sh).
    { rewrite Z.pow_add_r by lia. apply Z.mul_le_mono_nonneg_r; lia. }
    lia. }
  pose proof (Zdigits2_bounds q Hq) as [Qhi _].
  assert (53 <= Zdigits2 q).
  { destruct (Z.le_gt_cases 53 (Zdigits2 q)) as [H | H]; [exact H |].
    assert (2 ^ Zdigits2 q <= 2 ^ 52).
    { apply Z.pow_le_mono_r; lia. }
    lia. }
  lia.
Qed.

(** Rounding does not go above a double that the rounded value is not
    above: for [c = mc * 2 ^ ec], a double, and [M * 2 ^ E <= c]. *)
Lemma round_aux_le (mc : positive) (ec : Z) (M : positive) (E : Z) :
  SpecFloat.valid_binary 53 1024 (S754_finite false mc ec) = true ->
  E <= Z.max (digits M + E - 53) (-1074) ->
  E <= ec -> Zpos M <= Zpos mc * 2 ^ (ec - E) ->
  SFleb (binary_round_aux 53 1024 false (Zpos M) E loc_Exact) (S754_finite false mc ec)
  = true.
Proof.
  intros V Hal HE Hle.
  destruct (valid_finite _ _ _ V) as (Dc & Rc & Nc).
  pose proof (digits_bounds mc) as [_ Mhi].
  assert (Mc : Zpos mc < 2 ^ 53).
  { eapply Z.lt_le_trans; [exact Mhi |]. apply Z.pow_le_mono_r; lia. }
  destruct (round_aux_shape false (Zpos M) E loc_Exact ltac:(lia) Hal)
    as (m2 & [_ Hm2] & Hnear & Hres).
  specialize (Hnear eq_refl).
  cbn [Zdigits2] in *. fold (digits M) in *.
  set (e1 := Z.max (digits M + E - 53) (-1074)) in *.
  pose proof (digits_bounds M) as [Dlo _].
  assert (P1 : 0 < 2 ^ (e1 - E)) by (apply Z.pow_pos_nonneg; lia).
  assert (He1 : e1 <= ec).
  { destruct (Z.le_gt_cases e1 ec) as [H | H]; [exact H | exfalso].
    assert (A : 2 ^ (digits M - 1) <= Zpos mc * 2 ^ (ec - E)) by lia.
    assert (B : Zpos mc * 2 ^ (ec - E) < 2 ^ 53 * 2 ^ (ec - E)).
    { apply Z.mul_lt_mono_pos_r; [apply Z.pow_pos_nonneg; lia | exact Mc]. }
    rewrite <- Z.pow_add_r in B by lia.
    assert (C : 2 ^ (53 + (ec - E)) <= 2 ^ (digits M - 1)) by (apply Z.pow_le_mono_r; lia).
    lia. }
  assert (PK : 0 < 2 ^ (ec - e1)) by (apply Z.pow_pos_nonneg; lia).
  assert (EK : Zpos mc * 2 ^ (ec - E) = 2 ^ (e1 - E) * (Zpos mc * 2 ^ (ec - e1))).
  { replace (ec - E) with ((ec - e1) + (e1 - E)) by lia.
    rewrite Z.pow_add_r by lia. ring. }
  assert (HK : m2 <= Zpos mc * 2 ^ (ec - e1)).
  { assert (H1 : Zpos M / 2 ^ (e1 - E) <= Zpos mc * 2 ^ (ec - e1)).
    { apply Z.div_le_upper_bound; [exact P1 |]. rewrite <- EK. exact Hle. }
    destruct (Z.eq_dec (Zpos M / 2 ^ (e1 - E)) (Zpos mc * 2 ^ (ec - e1))) as [Eq | NEq];
      [| lia].
    rewrite Hnear, nearest_even_exact; [lia | lia |].
    pose proof (Z.div_mod (Zpos M) (2 ^ (e1 - E)) ltac:(lia)) as DMod.
    pose proof (Z.mod_pos_bound (Zpos M) (2 ^ (e1 - E)) P1) as MB.
    rewrite Eq, <- EK in DMod. lia. }
  destruct Hres as [[_ ->] | (m3 & e3 & Hv & He3 & Hm3 & ->)]; [reflexivity |].
  assert (H3 : e3 <= ec).
  { destruct He3 as [-> | [-> E52]]; [exact He1 |].
    destruct (Z.eq_dec e1 ec) as [Eq | NEq]; [exfalso | lia].
    rewrite E52 in Hv. replace (e1 + 1 - e1) with 1 in Hv by lia.
    rewrite Eq, Z.sub_diag, Z.mul_1_r in HK.
    change (2 ^ 52 * 2 ^ 1) with (2 ^ 53) in Hv. lia. }
  rewrite (proj2 (Z.leb_le e3 971)) by lia.
  unfold SFleb, SFcompare.
  destruct (Z.compare_spec e3 ec) as [Eq | Lt | Gt]; [| reflexivity | lia].
  subst e3.
  assert (Hm : Zpos m3 <= Zpos mc) by nia.
  change (Pos.compare_cont Eq m3 mc) with (Pos.compare m3 mc).
  destruct (Pos.compare_spec m3 mc); [reflexivity | reflexivity | lia].
Qed.

Lemma round_le (mc : positive) (ec : Z) (M : positive) (E : Z) :
  SpecFloat.valid_binary 53 1024 (S754_finite false mc ec) = true ->
  E <= ec -> Zpos M <= Zpos mc * 2 ^ (ec - E) ->
  SFleb (binary_round 53 1024 false M E) (S754_finite false mc ec) = true.
Proof.
  intros V HE Hle.
  destruct (round_align false M E) as (mz & ez & -> & Hez & Hmz & Hal & _).
  apply round_aux_le; [exact V | exact Hal | lia |].
  rewrite Hmz. replace (ec - ez) with ((ec - E) + (E - ez)) by lia.
  rewrite Z.pow_add_r, Z.mul_assoc by lia.
  apply Z.mul_le_mono_nonneg_r; [apply Z.pow_nonneg; lia | exact Hle].
Qed.

(** *** Signs *)

Lemma round_aux_plus (m e : Z) (l : location) :
  plus_or_nan (binary_round_aux 53 1024 false m e l) = true.
Proof.
  unfold binary_round_aux.
  destruct (shr_fexp 53 1024 m e l) as [mrs' e'].
  destruct (shr_fexp 53 1024 _ e' loc_Exact) as [mrs'' e''].
  destruct (shr_m mrs''); [reflexivity | | reflexivity].
  destruct (e'' <=? 1024 - 53); reflexivity.
Qed.

Lemma round_plus (m : positive) (e : Z) :
  plus_or_nan (binary_round 53 1024 false m e) = true.
Proof.
  unfold binary_round. destruct (shl_align m e _) as [mz ez]. apply round_aux_plus.
Qed.

Lemma times_self_plus (x : B64.t) : plus_or_nan (B64.times x x) = true.
Proof.
  destruct x as [s | s | | s m e]; cbn [B64.times SFmul]; rewrite ?xorb_nilpotent;
    try reflexivity.
  apply round_aux_plus.
Qed.

Lemma plus_plus (x y : B64.t) :
  plus_or_nan x = true -> plus_or_nan y = true -> plus_or_nan (B64.plus x y) = true.
Proof.
  destruct x as [[] | [] | | [] mx ex]; try discriminate;
    destruct y as [[] | [] | | [] my ey]; try discriminate; intros _ _;
    try reflexivity.
  unfold B64.plus, SFadd, cond_Zopp, binary_normalize. cbv zeta.
  rewrite <- Pos2Z.inj_add. apply round_plus.
Qed.

Lemma root_plus (x : B64.t) : plus_or_nan x = true -> plus_or_nan (B64.root x) = true.
Proof.
  destruct x as [[] | [] | | [] m e]; try discriminate; intros _; try reflexivity.
  unfold B64.root, SFsqrt.
  destruct (SFsqrt_core_binary 53 1024 (Zpos m) e) as [[mz ez] lz].
  apply round_aux_plus.
Qed.

Lemma divide_plus (x y : B64.t) :
  plus_or_nan x = true -> plus_or_nan y = true -> plus_or_nan (B64.divide x y) = true.
Proof.
  destruct x as [[] | [] | | [] mx ex]; try discriminate;
    destruct y as [[] | [] | | [] my ey]; try discriminate; intros _ _;
    try reflexivity.
  unfold B64.divide, SFdiv.
  destruct (SFdiv_core_binary 53 1024 (Zpos mx) ex (Zpos my) ey) as [[mz ez] lz].
  apply round_aux_plus.
Qed.

(** The length of a velocity over [maxVelocity]. *)
Lemma gray_plus (x y a b : B64.t) :
  plus_or_nan
    (B64.divide (B64.root (B64.plus (B64.times x x) (B64.times y y)))
                (B64.root (B64.plus (B64.times a a) (B64.times b b)))) = true.
Proof.
  apply divide_plus; apply root_plus; apply plus_plus; apply times_self_plus.
Qed.

(** Rounding a positive mantissa gives a number. *)
Lemma shr_fexp_nonneg (m e : Z) (l : location) :
  0 <= m -> 0 <= shr_m (fst (shr_fexp 53 1024 m e l)).
Proof.
  intros H. unfold shr_fexp.
  set (n := fexp 53 1024 (Zdigits2 m + e) - e).
  assert (H0 : 0 <= shr_m (shr_record_of_loc m l)) by (destruct l as [| []]; exact H).
  destruct (Z.le_gt_cases 0 n) as [Hn | Hn].
  - destruct (shr_m_div (shr_record_of_loc m l) e n H0 Hn) as (mrs' & E1 & E2).
    rewrite E1. cbn [fst]. rewrite E2. apply Z.div_pos; [exact H0 | apply Z.pow_pos_nonneg; lia].
  - rewrite shr_none by lia. exact H0.
Qed.

Lemma round_aux_number (s : bool) (m e : Z) (l : location) :
  0 <= m -> binary_round_aux 53 1024 s m e l <> S754_nan.
Proof.
  intros H. unfold binary_round_aux.
  pose proof (shr_fexp_nonneg m e l H) as H1.
  destruct (shr_fexp 53 1024 m e l) as [mrs' e']. cbn [fst] in H1.
  pose proof (round_nearest_even_bounds (shr_m mrs') (loc_of_shr_record mrs')) as H2.
  pose proof (shr_fexp_nonneg (round_nearest_even (shr_m mrs') (loc_of_shr_record mrs'))
                e' loc_Exact ltac:(lia)) as H3.
  destruct (shr_fexp 53 1024 _ e' loc_Exact) as [mrs'' e'']. cbn [fst] in H3.
  destruct (shr_m mrs''); [discriminate | | lia].
  destruct (e'' <=? 1024 - 53); discriminate.
Qed.

(** [gray * 0.9] for a [gray] that is a number and not negative. *)
Lemma times_plus_number (x c : B64.t) :
  plus_or_nan x = true -> x <> S754_nan ->
  (exists m e, c = S754_finite false m e) ->
  plus_or_nan (B64.times x c) = true /\ B64.times x c <> S754_nan.
Proof.
  intros Hx Nx (m & e & ->).
  destruct x as [[] | [] | | [] mx ex]; try discriminate; try contradiction.
  - split; [reflexivity | discriminate].
  - split; [reflexivity | discriminate].
  - cbn [B64.times SFmul xorb]. split.
    + apply round_aux_plus.
    + apply round_aux_number. lia.
Qed.

(** A double plus a number that is not negative is not below the
    double. *)
Lemma plus_ge_finite (mc : positive) (ec : Z) (y : B64.t) :
  SpecFloat.valid_binary 53 1024 (S754_finite false mc ec) = true ->
  plus_or_nan y = true -> y <> S754_nan ->
  SFleb (S754_finite false mc ec) (B64.plus (S754_finite false mc ec) y) = true.
Proof.
  intros V Hy Ny.
  destruct y as [[] | [] | | [] my ey]; try discriminate; try contradiction.
  - cbn [B64.plus SFadd]. unfold SFleb, SFcompare.
    rewrite Z.compare_refl. change (Pos.compare_cont Eq mc mc) with (Pos.compare mc mc).
    rewrite Pos.compare_refl. reflexivity.
  - reflexivity.
  - unfold B64.plus, SFadd, cond_Zopp, binary_normalize. cbv zeta.
    rewrite <- Pos2Z.inj_add.
    apply round_ge; [exact V | lia |].
    rewrite Pos2Z.inj_add, shl_align_value by lia. lia.
Qed.

End B64RoundFacts.

(** ** The doubles by their values *)

Module B64ValueFacts.
Import B64Order B64Int B64IntFacts B64RoundFacts.
Open Scope Z_scope.

Lemma scaled_opp (x : B64.t) : scaled (SFopp x) = - scaled x.
Proof. destruct x as [s | s | | [] m e]; cbn; lia. Qed.

Lemma valid_opp (x : B64.t) :
  SpecFloat.valid_binary 53 1024 (SFopp x) = SpecFloat.valid_binary 53 1024 x.
Proof. destruct x; reflexivity. Qed.

Lemma finite_or_zero_opp (x : B64.t) : finite_or_zero (SFopp x) = finite_or_zero x.
Proof. destruct x; reflexivity. Qed.

(** Of two doubles the one with the smaller exponent is the smaller. *)
Lemma scaled_lt_exp (s s' : bool) (ma mb : positive) (ea eb : Z) :
  SpecFloat.valid_binary 53 1024 (S754_finite s ma ea) = true ->
  SpecFloat.valid_binary 53 1024 (S754_finite s' mb eb) = true ->
  ea < eb ->
  Zpos ma * 2 ^ (ea + 1074) < Zpos mb * 2 ^ (eb + 1074).
Proof.
  intros Va Vb H.
  destruct (valid_finite _ _ _ Va) as (Da & Ra & _).
  destruct (valid_finite _ _ _ Vb) as (Db & Rb & Nb).
  pose proof (digits_bounds ma) as [_ Ahi]. pose proof (digits_bounds mb) as [Blo _].
  rewrite Nb in Blo by lia.
  assert (A : Zpos ma < 2 ^ 53).
  { eapply Z.lt_le_trans; [exact Ahi |]. apply Z.pow_le_mono_r; lia. }
  assert (P : 0 < 2 ^ (ea + 1074)) by (apply Z.pow_pos_nonneg; lia).
  replace (eb + 1074) with ((eb - ea - 1) + 1 + (ea + 1074)) by lia.
  rewrite (Z.pow_add_r 2 (eb - ea - 1 + 1) (ea + 1074)),
    (Z.pow_add_r 2 (eb - ea - 1) 1) by lia.
  assert (Q : 1 <= 2 ^ (eb - ea - 1)) by (apply (Z.pow_le_mono_r 2 0); lia).
  change (2 ^ 1) with 2. change (2 ^ (53 - 1)) with 4503599627370496 in Blo.
  change (2 ^ 53) with 9007199254740992 in A.
  set (P' := 2 ^ (ea + 1074)) in *. set (Q' := 2 ^ (eb - ea - 1)) in *.
  assert (S1 : Zpos ma * P' < 9007199254740992 * P') by nia.
  assert (S2 : 9007199254740992 * P' <= Zpos mb * (2 * P')) by nia.
  assert (S3 : Zpos mb * (2 * P') <= Zpos mb * (Q' * (2 * P'))) by nia.
  replace (Q' * 2 * P') with (Q' * (2 * P')) by ring. lia.
Qed.

(** The order of the doubles is the order of their values. *)
Lemma leb_scaled (x y : B64.t) :
  SpecFloat.valid_binary 53 1024 x = true -> SpecFloat.valid_binary 53 1024 y = true ->
  finite_or_zero x = true -> finite_or_zero y = true ->
  SFleb x y = true <-> scaled x <= scaled y.
Proof.
  intros Vx Vy Fx Fy.
  destruct x as [sx | sx | | sx mx ex]; try discriminate;
    destruct y as [sy | sy | | sy my ey]; try discriminate.
  - cbn. split; [lia | reflexivity].
  - assert (0 < Zpos my * 2 ^ (ey + 1074)).
    { destruct (valid_finite _ _ _ Vy) as (_ & R & _).
      apply Z.mul_pos_pos; [lia | apply Z.pow_pos_nonneg; lia]. }
    unfold SFleb, SFcompare, scaled.
    destruct sy; cbn [cond_Zopp]; split; intros; try discriminate; try reflexivity; lia.
  - assert (0 < Zpos mx * 2 ^ (ex + 1074)).
    { destruct (valid_finite _ _ _ Vx) as (_ & R & _).
      apply Z.mul_pos_pos; [lia | apply Z.pow_pos_nonneg; lia]. }
    unfold SFleb, SFcompare, scaled.
    destruct sx; cbn [cond_Zopp]; split; intros; try discriminate; try reflexivity; lia.
  - destruct (valid_finite _ _ _ Vx) as (_ & Rx & _).
    destruct (valid_finite _ _ _ Vy) as (_ & Ry & _).
    assert (Px : 0 < Zpos mx * 2 ^ (ex + 1074))
      by (apply Z.mul_pos_pos; [lia | apply Z.pow_pos_nonneg; lia]).
    assert (Py : 0 < Zpos my * 2 ^ (ey + 1074))
      by (apply Z.mul_pos_pos; [lia | apply Z.pow_pos_nonneg; lia]).
    assert (Pe : 0 < 2 ^ (ex + 1074)) by (apply Z.pow_pos_nonneg; lia).
    unfold SFleb, SFcompare, scaled.
    change (Pos.compare_cont Eq mx my) with (Pos.compare mx my).
    destruct sx, sy; cbn [cond_Zopp].
    + destruct (Z.compare_spec ex ey) as [E | L | G].
      * subst ey. destruct (Pos.compare_spec mx my) as [E' | L' | G']; cbn [CompOpp];
          split; intros; try discriminate; try reflexivity; try nia;
          try (subst my; lia).
      * pose proof (scaled_lt_exp _ _ _ _ _ _ Vx Vy L).
        split; intros; [discriminate | lia].
      * pose proof (scaled_lt_exp _ _ _ _ _ _ Vy Vx G).
        split; intros; [lia | reflexivity].
    + split; intros; [lia | reflexivity].
    + split; intros; [discriminate | lia].
    + destruct (Z.compare_spec ex ey) as [E | L | G].
      * subst ey. destruct (Pos.compare_spec mx my) as [E' | L' | G'];
          split; intros; try discriminate; try reflexivity; try nia;
          try (subst my; lia).
      * pose proof (scaled_lt_exp _ _ _ _ _ _ Vx Vy L).
        split; intros; [lia | reflexivity].
      * pose proof (scaled_lt_exp _ _ _ _ _ _ Vy Vx G).
        split; intros; [discriminate | lia].
Qed.

(** The two bounds of rounding, with the values on one scale. *)
Lemma round_le_scaled (mc : positive) (ec : Z) (M : positive) (E : Z) :
  SpecFloat.valid_binary 53 1024 (S754_finite false mc ec) = true ->
  -1074 <= E ->
  Zpos M * 2 ^ (E + 1074) <= Zpos mc * 2 ^ (ec + 1074) ->
  SFleb (binary_round 53 1024 false M E) (S754_finite false mc ec) = true.
Proof.
  intros V HE Hle.
  destruct (valid_finite _ _ _ V) as (Dc & Rc & Nc).
  destruct (round_align false M E) as (mz & ez & -> & Hez & Hmz & Hal & Hlow).
  assert (Hv : Zpos mz * 2 ^ (ez + 1074) = Zpos M * 2 ^ (E + 1074)).
  { rewrite Hmz, <- Z.mul_assoc, <- Z.pow_add_r by lia. f_equal. f_equal. lia. }
  rewrite <- Hv in Hle.
  pose proof (digits_bounds mz) as [Zlo _]. pose proof (digits_bounds mc) as [_ Chi].
  assert (Mc : Zpos mc < 2 ^ 53).
  { eapply Z.lt_le_trans; [exact Chi |]. apply Z.pow_le_mono_r; lia. }
  assert (Pc : 0 < 2 ^ (ec + 1074)) by (apply Z.pow_pos_nonneg; lia).
  assert (Hec : ez <= ec).
  { destruct (Z.le_gt_cases ez ec) as [H | H]; [exact H | exfalso].
    assert (H52 : 2 ^ 52 <= Zpos mz).
    { etransitivity; [| exact Zlo]. apply Z.pow_le_mono_r; lia. }
    replace (ez + 1074) with ((ez - ec - 1) + (1 + (ec + 1074))) in Hle by lia.
    rewrite (Z.pow_add_r 2 (ez - ec - 1)), (Z.pow_add_r 2 1) in Hle by lia.
    assert (Q : 1 <= 2 ^ (ez - ec - 1)) by (apply (Z.pow_le_mono_r 2 0); lia).
    change (2 ^ 1) with 2 in Hle. change (2 ^ 52) with 4503599627370496 in H52.
    change (2 ^ 53) with 9007199254740992 in Mc.
    set (P' := 2 ^ (ec + 1074)) in *. set (Q' := 2 ^ (ez - ec - 1)) in *.
    assert (S1 : Zpos mc * P' < 9007199254740992 * P') by nia.
    assert (S2 : 9007199254740992 * P' <= Zpos mz * (2 * P')) by nia.
    assert (S3 : Zpos mz * (2 * P') <= Zpos mz * (Q' * (2 * P'))) by nia.
    lia. }
  apply round_aux_le; [exact V | exact Hal | exact Hec |].
  replace (ec + 1074) with ((ec - ez) + (ez + 1074)) in Hle by lia.
  rewrite (Z.pow_add_r 2 (ec - ez) (ez + 1074)), Z.mul_assoc in Hle by lia.
  apply Z.mul_le_mono_pos_r in Hle; [exact Hle | apply Z.pow_pos_nonneg; lia].
Qed.

Lemma round_ge_scaled (mc : positive) (ec : Z) (M : positive) (E : Z) :
  SpecFloat.valid_binary 53 1024 (S754_finite false mc ec) = true ->
  -1074 <= E ->
  Zpos mc * 2 ^ (ec + 1074) <= Zpos M * 2 ^ (E + 1074) ->
  SFleb (S754_finite false mc ec) (binary_round 53 1024 false M E) = true.
Proof.
  intros V HE Hle.
  destruct (valid_finite _ _ _ V) as (Dc & Rc & Nc).
  destruct (round_align false M E) as (mz & ez & -> & Hez & Hmz & Hal & Hlow).
  assert (Hv : Zpos mz * 2 ^ (ez + 1074) = Zpos M * 2 ^ (E + 1074)).
  { rewrite Hmz, <- Z.mul_assoc, <- Z.pow_add_r by lia. f_equal. f_equal. lia. }
  rewrite <- Hv in Hle.
  destruct (Z.le_gt_cases ez ec) as [Hec | Hec].
  - apply round_aux_ge; [exact V | exact Hal | exact Hec |].
    replace (ec + 1074) with ((ec - ez) + (ez + 1074)) in Hle by lia.
    rewrite (Z.pow_add_r 2 (ec - ez) (ez + 1074)), Z.mul_assoc in Hle by lia.
    apply Z.mul_le_mono_pos_r in Hle; [exact Hle | apply Z.pow_pos_nonneg; lia].
  - destruct (round_aux_shape false (Zpos mz) ez loc_Exact ltac:(lia) Hal)
      as (m2 & [Hm2 _] & _ & Hres).
    cbn [Zdigits2] in *. fold (digits mz) in *.
    set (e1 := Z.max (digits mz + ez - 53) (-1074)) in *.
    pose proof (digits_bounds mz) as [Zlo _].
    destruct Hres as [[Hz _] | (m3 & e3 & Hv3 & He3 & Hm3 & ->)].
    + exfalso.
      assert (1 <= Zpos mz / 2 ^ (e1 - ez)); [| lia].
      apply Z.div_le_lower_bound; [apply Z.pow_pos_nonneg; lia |]. rewrite Z.mul_1_r.
      etransitivity; [| exact Zlo]. apply Z.pow_le_mono_r; lia.
    + destruct (e3 <=? 971); [| reflexivity].
      unfold SFleb, SFcompare.
      destruct (Z.compare_spec ec e3) as [HEq | HLt | HGt]; [lia | reflexivity | lia].
Qed.

(** *** Opposites *)

Lemma SFopp_involutive_aux (x : B64.t) : SFopp (SFopp x) = x.
Proof. destruct x as [s | s | | s m e]; cbn; rewrite ?negb_involutive; reflexivity. Qed.

Lemma leb_opp (x y : B64.t) : SFleb (SFopp x) (SFopp y) = SFleb y x.
Proof.
  destruct x as [[] | [] | | [] mx ex]; destruct y as [[] | [] | | [] my ey];
    try reflexivity; unfold SFleb, SFcompare; cbn [SFopp negb];
    change (Pos.compare_cont Eq mx my) with (Pos.compare mx my);
    change (Pos.compare_cont Eq my mx) with (Pos.compare my mx);
    rewrite (Z.compare_antisym ex ey), (Pos.compare_antisym mx my);
    destruct (ex ?= ey); cbn [CompOpp]; try reflexivity;
    destruct (mx ?= my)%positive; reflexivity.
Qed.

Lemma round_opp (s : bool) (M : positive) (E : Z) :
  binary_round 53 1024 (negb s) M E = SFopp (binary_round 53 1024 s M E).
Proof.
  unfold binary_round. destruct (shl_align M E _) as [mz ez].
  unfold binary_round_aux.
  destruct (shr_fexp 53 1024 (Zpos mz) ez loc_Exact) as [mrs' e'].
  destruct (shr_fexp 53 1024 _ e' loc_Exact) as [mrs'' e''].
  destruct (shr_m mrs''); [reflexivity | | reflexivity].
  destruct (e'' <=? 1024 - 53); reflexivity.
Qed.

Lemma normalize_opp (D E : Z) (s0 : bool) :
  binary_normalize 53 1024 (- D) E (negb s0)
  = SFopp (binary_normalize 53 1024 D E s0).
Proof.
  destruct D as [| M | M]; cbn [binary_normalize Z.opp SFopp]; [reflexivity | |].
  - apply (round_opp false).
  - rewrite (round_opp false), SFopp_involutive_aux. reflexivity.
Qed.

(** *** Sums and differences *)

(** What rounding a positive mantissa returns. *)
Lemma round_cases (M : positive) (E : Z) :
  binary_round 53 1024 false M E = S754_zero false
  \/ binary_round 53 1024 false M E = S754_infinity false
  \/ exists m e, binary_round 53 1024 false M E = S754_finite false m e.
Proof.
  pose proof (round_plus M E) as P.
  assert (N : binary_round 53 1024 false M E <> S754_nan).
  { unfold binary_round. destruct (shl_align M E _) as [mz ez].
    apply round_aux_number. lia. }
  destruct (binary_round 53 1024 false M E) as [[] | [] | | [] m e];
    try discriminate; try contradiction; eauto.
Qed.

Lemma round_valid (s : bool) (M : positive) (E : Z) :
  SpecFloat.valid_binary 53 1024 (binary_round 53 1024 s M E) = true.
Proof.
  destruct (round_align s M E) as (mz & ez & -> & _ & _ & Hal & _).
  apply round_aux_valid; [lia | exact Hal].
Qed.

Lemma normalize_valid (D E : Z) (s0 : bool) :
  SpecFloat.valid_binary 53 1024 (binary_normalize 53 1024 D E s0) = true.
Proof. destruct D; [reflexivity | apply round_valid | apply round_valid]. Qed.

(** Rounding keeps on its side of a double, whatever the signs. *)
Lemma normalize_le (D E : Z) (s0 : bool) (c : B64.t) :
  SpecFloat.valid_binary 53 1024 c = true -> finite_or_zero c = true ->
  -1074 <= E ->
  D * 2 ^ (E + 1074) <= scaled c ->
  SFleb (binary_normalize 53 1024 D E s0) c = true.
Proof.
  intros V F HE Hle.
  assert (P : 0 < 2 ^ (E + 1074)) by (apply Z.pow_pos_nonneg; lia).
  destruct c as [sc | sc | | sc mc ec]; try discriminate.
  - cbn [scaled] in Hle. destruct D as [| M | M]; [destruct s0, sc; reflexivity | nia |].
    cbn [binary_normalize]. rewrite (round_opp false).
    destruct (round_cases M E) as [-> | [-> | (m & e & ->)]]; destruct sc; reflexivity.
  - destruct (valid_finite _ _ _ V) as (_ & Rc & _).
    assert (Pc : 0 < Zpos mc * 2 ^ (ec + 1074))
      by (apply Z.mul_pos_pos; [lia | apply Z.pow_pos_nonneg; lia]).
    unfold scaled in Hle.
    destruct D as [| M | M]; cbn [binary_normalize].
    + destruct sc; cbn [cond_Zopp] in Hle; [lia | destruct s0; reflexivity].
    + destruct sc; cbn [cond_Zopp] in Hle; [nia |].
      apply round_le_scaled; [exact V | exact HE | exact Hle].
    + rewrite (round_opp false).
      destruct sc; cbn [cond_Zopp] in Hle.
      * change (S754_finite true mc ec) with (SFopp (S754_finite false mc ec)).
        rewrite leb_opp.
        apply round_ge_scaled; [exact V | exact HE | lia].
      * destruct (round_cases M E) as [-> | [-> | (m & e & ->)]]; reflexivity.
Qed.

Lemma normalize_ge (D E : Z) (s0 : bool) (c : B64.t) :
  SpecFloat.valid_binary 53 1024 c = true -> finite_or_zero c = true ->
  -1074 <= E ->
  scaled c <= D * 2 ^ (E + 1074) ->
  SFleb c (binary_normalize 53 1024 D E s0) = true.
Proof.
  intros V F HE Hle.
  rewrite <- leb_opp, <- normalize_opp.
  apply normalize_le; [rewrite valid_opp; exact V | rewrite finite_or_zero_opp; exact F
                      | exact HE |].
  rewrite scaled_opp. lia.
Qed.

(** The exact sum of two doubles, on the scale of [scaled]. *)
Lemma plus_finite (sx sy : bool) (mx my : positive) (ex ey : Z) :
  B64.plus (S754_finite sx mx ex) (S754_finite sy my ey)
  = binary_normalize 53 1024
      (cond_Zopp sx (Zpos mx * 2 ^ (ex - Z.min ex ey))
       + cond_Zopp sy (Zpos my * 2 ^ (ey - Z.min ex ey)))
      (Z.min ex ey) false.
Proof.
  unfold B64.plus, SFadd. cbv zeta.
  rewrite !shl_align_value by lia. reflexivity.
Qed.

Lemma plus_finite_scaled (sx sy : bool) (mx my : positive) (ex ey : Z) :
  -1074 <= ex -> -1074 <= ey ->
  (cond_Zopp sx (Zpos mx * 2 ^ (ex - Z.min ex ey))
   + cond_Zopp sy (Zpos my * 2 ^ (ey - Z.min ex ey))) * 2 ^ (Z.min ex ey + 1074)
  = scaled (S754_finite sx mx ex) + scaled (S754_finite sy my ey).
Proof.
  intros Hx Hy. unfold scaled.
  replace (ex + 1074) with ((ex - Z.min ex ey) + (Z.min ex ey + 1074)) by lia.
  replace (ey + 1074) with ((ey - Z.min ex ey) + (Z.min ex ey + 1074)) by lia.
  rewrite (Z.pow_add_r 2 (ex - Z.min ex ey)), (Z.pow_add_r 2 (ey - Z.min ex ey)) by lia.
  destruct sx, sy; cbn [cond_Zopp]; ring.
Qed.

Lemma plus_le (x y c : B64.t) :
  SpecFloat.valid_binary 53 1024 x = true -> SpecFloat.valid_binary 53 1024 y = true ->
  SpecFloat.valid_binary 53 1024 c = true ->
  finite_or_zero x = true -> finite_or_zero y = true -> finite_or_zero c = true ->
  scaled x + scaled y <= scaled c ->
  SFleb (B64.plus x y) c = true.
Proof.
  intros Vx Vy Vc Fx Fy Fc H.
  destruct x as [sx | sx | | sx mx ex]; try discriminate;
    destruct y as [sy | sy | | sy my ey]; try discriminate.
  - apply leb_scaled; [destruct sx, sy; reflexivity | exact Vc
                      | destruct sx, sy; reflexivity | exact Fc |].
    destruct sx, sy; exact H.
  - apply leb_scaled; [exact Vy | exact Vc | reflexivity | exact Fc | exact H].
  - change (B64.plus (S754_finite sx mx ex) (S754_zero sy)) with (S754_finite sx mx ex).
    apply leb_scaled; [exact Vx | exact Vc | reflexivity | exact Fc |].
    change (scaled (S754_zero sy)) with 0 in H. lia.
  - destruct (valid_finite _ _ _ Vx) as (_ & Rx & _).
    destruct (valid_finite _ _ _ Vy) as (_ & Ry & _).
    rewrite plus_finite. apply normalize_le; [exact Vc | exact Fc | lia |].
    rewrite plus_finite_scaled by lia. exact H.
Qed.

Lemma plus_ge (x y c : B64.t) :
  SpecFloat.valid_binary 53 1024 x = true -> SpecFloat.valid_binary 53 1024 y = true ->
  SpecFloat.valid_binary 53 1024 c = true ->
  finite_or_zero x = true -> finite_or_zero y = true -> finite_or_zero c = true ->
  scaled c <= scaled x + scaled y ->
  SFleb c (B64.plus x y) = true.
Proof.
  intros Vx Vy Vc Fx Fy Fc H.
  destruct x as [sx | sx | | sx mx ex]; try discriminate;
    destruct y as [sy | sy | | sy my ey]; try discriminate.
  - apply leb_scaled; [exact Vc | destruct sx, sy; reflexivity | exact Fc
                      | destruct sx, sy; reflexivity |].
    destruct sx, sy; exact H.
  - apply leb_scaled; [exact Vc | exact Vy | exact Fc | reflexivity | exact H].
  - change (B64.plus (S754_finite sx mx ex) (S754_zero sy)) with (S754_finite sx mx ex).
    apply leb_scaled; [exact Vc | exact Vx | exact Fc | reflexivity |].
    change (scaled (S754_zero sy)) with 0 in H. lia.
  - destruct (valid_finite _ _ _ Vx) as (_ & Rx & _).
    destruct (valid_finite _ _ _ Vy) as (_ & Ry & _).
    rewrite plus_finite. apply normalize_ge; [exact Vc | exact Fc | lia |].
    rewrite plus_finite_scaled by lia. exact H.
Qed.

Lemma plus_valid (x y : B64.t) :
  SpecFloat.valid_binary 53 1024 x = true -> SpecFloat.valid_binary 53 1024 y = true ->
  SpecFloat.valid_binary 53 1024 (B64.plus x y) = true.
Proof.
  intros Vx Vy.
  destruct x as [[] | [] | | sx mx ex]; destruct y as [[] | [] | | sy my ey];
    try reflexivity; try assumption.
  rewrite plus_finite. apply normalize_valid.
Qed.

Lemma minus_plus_opp (x y : B64.t) : B64.minus x y = B64.plus x (SFopp y).
Proof.
  destruct x as [[] | [] | | sx mx ex]; destruct y as [[] | [] | | sy my ey];
    try reflexivity.
  unfold B64.minus, B64.plus, SFsub, SFadd. cbn [SFopp]. cbv zeta.
  f_equal. destruct sy; cbn [negb cond_Zopp]; lia.
Qed.

(** A double between two finite doubles is finite. *)
Lemma between_finite (lo x hi : B64.t) :
  finite_or_zero lo = true -> finite_or_zero hi = true ->
  SFleb lo x = true -> SFleb x hi = true -> finite_or_zero x = true.
Proof.
  intros Flo Fhi H1 H2.
  destruct x as [sx | [] | | sx mx ex]; try reflexivity;
    destruct lo as [sl | sl | | sl ml el]; try discriminate;
    destruct hi as [sh | sh | | sh mh eh]; try discriminate;
    try (destruct sl; discriminate); destruct sh; discriminate.
Qed.

(** *** Rounding to the nearest *)

Lemma nearest_even_error (m n : Z) :
  0 <= m -> 0 <= n ->
  2 * Z.abs (nearest_even m n * 2 ^ n - m) <= 2 ^ n.
Proof.
  intros Hm Hn. unfold nearest_even. cbv zeta.
  assert (P : 0 < 2 ^ n) by (apply Z.pow_pos_nonneg; lia).
  pose proof (Z.div_mod m (2 ^ n) ltac:(lia)) as D.
  pose proof (Z.mod_pos_bound m (2 ^ n) P) as B.
  destruct (Z.ltb_spec (2 * (m mod 2 ^ n)) (2 ^ n)) as [H1 | H1]; [lia |].
  destruct (Z.ltb_spec (2 ^ n) (2 * (m mod 2 ^ n))) as [H2 | H2]; [lia |].
  destruct (Z.even (m / 2 ^ n)); lia.
Qed.

(** The result of rounding is within half a unit of the last place of
    what was rounded. *)
Lemma round_near (M : positive) (E : Z) :
  -1074 <= E ->
  binary_round 53 1024 false M E = S754_infinity false
  \/ (finite_or_zero (binary_round 53 1024 false M E) = true
      /\ 2 * Z.abs (scaled (binary_round 53 1024 false M E) - Zpos M * 2 ^ (E + 1074))
         <= 2 ^ (Z.max (digits M + E - 53) (-1074) + 1074)).
Proof.
  intros HE.
  destruct (round_align false M E) as (mz & ez & -> & Hez & Hmz & Hal & Hlow).
  assert (Dz : digits mz = digits M + (E - ez)).
  { replace mz with (Z.to_pos (Zpos M * 2 ^ (E - ez))) by (rewrite <- Hmz; apply Pos2Z.id).
    apply digits_shift. lia. }
  assert (Hv : Zpos mz * 2 ^ (ez + 1074) = Zpos M * 2 ^ (E + 1074)).
  { rewrite Hmz, <- Z.mul_assoc, <- Z.pow_add_r by lia. f_equal. f_equal. lia. }
  rewrite <- Hv.
  replace (digits M + E) with (digits mz + ez) by lia.
  destruct (round_aux_shape false (Zpos mz) ez loc_Exact ltac:(lia) Hal)
    as (m2 & _ & Hnear & Hres).
  specialize (Hnear eq_refl).
  cbn [Zdigits2] in *. fold (digits mz) in *.
  set (e1 := Z.max (digits mz + ez - 53) (-1074)) in *.
  pose proof (nearest_even_error (Zpos mz) (e1 - ez) ltac:(lia) ltac:(lia)) as Herr.
  rewrite <- Hnear in Herr.
  assert (Pz : 0 < 2 ^ (ez + 1074)) by (apply Z.pow_pos_nonneg; lia).
  assert (E1 : 2 ^ (e1 + 1074) = 2 ^ (e1 - ez) * 2 ^ (ez + 1074)).
  { rewrite <- Z.pow_add_r by lia. f_equal. lia. }
  assert (Hgoal : 2 * Z.abs (m2 * 2 ^ (e1 + 1074) - Zpos mz * 2 ^ (ez + 1074))
                  <= 2 ^ (e1 + 1074)).
  { rewrite E1.
    replace (m2 * (2 ^ (e1 - ez) * 2 ^ (ez + 1074)) - Zpos mz * 2 ^ (ez + 1074))
      with ((m2 * 2 ^ (e1 - ez) - Zpos mz) * 2 ^ (ez + 1074)) by ring.
    rewrite Z.abs_mul, (Z.abs_eq (2 ^ (ez + 1074))) by lia.
    rewrite Z.mul_assoc. apply Z.mul_le_mono_nonneg_r; [lia | exact Herr]. }
  destruct Hres as [[Hz ->] | (m3 & e3 & Hv3 & He3 & Hm3 & ->)].
  - right. split; [reflexivity |]. cbn [scaled]. rewrite Hz in Hgoal. exact Hgoal.
  - destruct (e3 <=? 971); [right | left; reflexivity].
    split; [reflexivity |]. cbn [scaled cond_Zopp].
    replace (Zpos m3 * 2 ^ (e3 + 1074)) with (m2 * 2 ^ (e1 + 1074)); [exact Hgoal |].
    rewrite <- Hv3, <- Z.mul_assoc, <- Z.pow_add_r by lia. f_equal. f_equal. lia.
Qed.

(** What lies no further from a power of two than half way to its
    neighbours is rounded to it. *)
Lemma round_to_pow2 (ec : Z) (M : positive) (E : Z) :
  -1072 <= ec <= 971 -> -1074 <= E ->
  2 ^ (ec + 1126) - 2 ^ (ec + 1072) <= Zpos M * 2 ^ (E + 1074)
    <= 2 ^ (ec + 1126) + 2 ^ (ec + 1073) ->
  binary_round 53 1024 false M E = S754_finite false 4503599627370496 ec.
Proof.
  intros Hec HE [Hlo Hhi].
  destruct (round_align false M E) as (mz & ez & -> & Hez & Hmz & Hal & Hlow).
  assert (Hv : Zpos mz * 2 ^ (ez + 1074) = Zpos M * 2 ^ (E + 1074)).
  { rewrite Hmz, <- Z.mul_assoc, <- Z.pow_add_r by lia. f_equal. f_equal. lia. }
  rewrite <- Hv in Hlo, Hhi.
  assert (Hez' : -1074 <= ez) by lia.
  clear Hv Hmz Hez Hlow HE.
  destruct (round_aux_shape false (Zpos mz) ez loc_Exact ltac:(lia) Hal)
    as (m2 & _ & Hnear & Hres).
  specialize (Hnear eq_refl).
  cbn [Zdigits2] in *. fold (digits mz) in *.
  pose proof (digits_bounds mz) as [Dlo Dhi]. pose proof (digits_pos mz) as Dpos.
  set (P := 2 ^ (ez + 1074)) in *.
  assert (Pz : 0 < P) by (apply Z.pow_pos_nonneg; lia).
  assert (Xlo : 2 ^ (digits mz - 1 + (ez + 1074)) <= Zpos mz * P).
  { rewrite Z.pow_add_r by lia. apply Z.mul_le_mono_nonneg_r; lia. }
  assert (Xhi : Zpos mz * P < 2 ^ (digits mz + (ez + 1074))).
  { rewrite Z.pow_add_r by lia. apply Z.mul_lt_mono_pos_r; lia. }
  assert (V2 : 2 ^ (ec + 1127) = 2 * 2 ^ (ec + 1126)).
  { rewrite <- Z.pow_succ_r by lia. f_equal. lia. }
  assert (V1 : 2 ^ (ec + 1126) = 2 * 2 ^ (ec + 1125)).
  { rewrite <- Z.pow_succ_r by lia. f_equal. lia. }
  assert (V0 : 2 ^ (ec + 1073) = 2 * 2 ^ (ec + 1072)).
  { rewrite <- Z.pow_succ_r by lia. f_equal. lia. }
  assert (VS : 2 ^ (ec + 1073) < 2 ^ (ec + 1125)) by (apply Z.pow_lt_mono_r; lia).
  assert (PS : 0 < 2 ^ (ec + 1072)) by (apply Z.pow_pos_nonneg; lia).
  destruct (Z.le_gt_cases (2 ^ (ec + 1126)) (Zpos mz * P)) as [Above | Below].
  - (* at or above the power of two *)
    assert (Ed : digits mz + ez = ec + 53).
    { assert (A1 : ec + 1126 < digits mz + (ez + 1074)).
      { apply (Z.pow_lt_mono_r_iff 2); lia. }
      assert (A2 : digits mz - 1 + (ez + 1074) < ec + 1127).
      { apply (Z.pow_lt_mono_r_iff 2); lia. }
      lia. }
    replace (Z.max (digits mz + ez - 53) (-1074)) with ec in * by lia.
    set (N := 2 ^ (ec - ez)) in *.
    assert (PN : 0 < N) by (apply Z.pow_pos_nonneg; lia).
    assert (EV : 2 ^ (ec + 1126) = 4503599627370496 * N * P).
    { unfold N, P. rewrite <- Z.mul_assoc, <- Z.pow_add_r by lia.
      change 4503599627370496 with (2 ^ 52). rewrite <- Z.pow_add_r by lia.
      f_equal. lia. }
    assert (EH : 2 * 2 ^ (ec + 1073) = N * P).
    { unfold N, P. rewrite <- Z.pow_succ_r, <- Z.pow_add_r by lia. f_equal. lia. }
    assert (R1 : 4503599627370496 * N <= Zpos mz) by nia.
    assert (R2 : 2 * (Zpos mz - 4503599627370496 * N) <= N) by nia.
    assert (Q : Zpos mz / N = 4503599627370496).
    { symmetry. apply Z.div_unique with (Zpos mz - 4503599627370496 * N); lia. }
    assert (Rm : Zpos mz mod N = Zpos mz - 4503599627370496 * N).
    { symmetry. apply Z.mod_unique with 4503599627370496; lia. }
    assert (E2 : m2 = 4503599627370496).
    { rewrite Hnear. unfold nearest_even. cbv zeta. fold N. rewrite Q, Rm.
      destruct (Z.ltb_spec (2 * (Zpos mz - 4503599627370496 * N)) N); [reflexivity |].
      destruct (Z.ltb_spec N (2 * (Zpos mz - 4503599627370496 * N))); [lia |].
      reflexivity. }
    destruct Hres as [[Hz _] | (m3 & e3 & Hv3 & He3 & Hm3 & ->)]; [lia |].
    destruct He3 as [-> | [-> E52]].
    + rewrite Z.sub_diag, Z.mul_1_r in Hv3.
      rewrite (proj2 (Z.leb_le ec 971)) by lia.
      f_equal. apply Pos2Z.inj. rewrite Hv3. exact E2.
    + exfalso. replace (ec + 1 - ec) with 1 in Hv3 by lia.
      rewrite E52 in Hv3. change (2 ^ 52 * 2 ^ 1) with 9007199254740992 in Hv3. lia.
  - (* below the power of two *)
    assert (Ed : digits mz + ez = ec + 52).
    { assert (A1 : ec + 1125 < digits mz + (ez + 1074)).
      { apply (Z.pow_lt_mono_r_iff 2); lia. }
      assert (A2 : digits mz - 1 + (ez + 1074) < ec + 1126).
      { apply (Z.pow_lt_mono_r_iff 2); lia. }
      lia. }
    replace (Z.max (digits mz + ez - 53) (-1074)) with (ec - 1) in * by lia.
    set (N := 2 ^ (ec - 1 - ez)) in *.
    assert (PN : 0 < N) by (apply Z.pow_pos_nonneg; lia).
    assert (EV : 2 ^ (ec + 1126) = 9007199254740992 * N * P).
    { unfold N, P. rewrite <- Z.mul_assoc, <- Z.pow_add_r by lia.
      change 9007199254740992 with (2 ^ 53). rewrite <- Z.pow_add_r by lia.
      f_equal. lia. }
    assert (EH : 2 * 2 ^ (ec + 1072) = N * P).
    { unfold N, P. rewrite <- Z.pow_succ_r, <- Z.pow_add_r by lia. f_equal. lia. }
    assert (R1 : Zpos mz < 9007199254740992 * N) by nia.
    assert (R2 : N <= 2 * (Zpos mz - 9007199254740991 * N)) by nia.
    assert (Q : Zpos mz / N = 9007199254740991).
    { symmetry. apply Z.div_unique with (Zpos mz - 9007199254740991 * N); lia. }
    assert (Rm : Zpos mz mod N = Zpos mz - 9007199254740991 * N).
    { symmetry. apply Z.mod_unique with 9007199254740991; lia. }
    assert (E2 : m2 = 9007199254740992).
    { rewrite Hnear. unfold nearest_even. cbv zeta. fold N. rewrite Q, Rm.
      destruct (Z.ltb_spec (2 * (Zpos mz - 9007199254740991 * N)) N); [lia |].
      destruct (Z.ltb_spec N (2 * (Zpos mz - 9007199254740991 * N))); reflexivity. }
    destruct Hres as [[Hz _] | (m3 & e3 & Hv3 & He3 & Hm3 & ->)]; [lia |].
    change (2 ^ 53) with 9007199254740992 in Hm3.
    destruct He3 as [-> | [-> E52]].
    + exfalso. rewrite Z.sub_diag, Z.mul_1_r in Hv3. lia.
    + replace (ec - 1 + 1) with ec by lia.
      rewrite (proj2 (Z.leb_le ec 971)) by lia.
      f_equal. apply Pos2Z.inj. exact E52.
Qed.

(** *** The mix of two equal values *)

Lemma normalize_pos (D E : Z) (s0 : bool) :
  0 < D -> binary_normalize 53 1024 D E s0 = binary_round 53 1024 false (Z.to_pos D) E.
Proof. intros H. destruct D; [lia | reflexivity | lia]. Qed.

(** Halving a double that is not subnormal is exact. *)
Lemma times_half_r (m : positive) (e : Z) :
  digits m = 53 -> -1073 <= e <= 972 ->
  B64.times (S754_finite false m e) (S754_finite false 4503599627370496 (-53))
  = S754_finite false m (e - 1).
Proof.
  intros D He. cbn [B64.times SFmul xorb]. rewrite Pos2Z.inj_mul.
  change (Zpos 4503599627370496) with (2 ^ Zpos 52).
  rewrite round_aux_shift by (try exact D; lia). f_equal. lia.
Qed.

Lemma times_half_l (m : positive) (e : Z) :
  digits m = 53 -> -1073 <= e <= 972 ->
  B64.times (S754_finite false 4503599627370496 (-53)) (S754_finite false m e)
  = S754_finite false m (e - 1).
Proof.
  intros D He. cbn [B64.times SFmul xorb]. rewrite Pos2Z.inj_mul, Z.mul_comm.
  change (Zpos 4503599627370496) with (2 ^ Zpos 52).
  rewrite round_aux_shift by (try exact D; lia). f_equal. lia.
Qed.

(** One minus a double below one: a double within [2 ^ -54] of the
    exact difference, and one itself where the double is in the lowest
    binade. *)
Lemma one_minus_near (mr : positive) (er : Z) :
  SpecFloat.valid_binary 53 1024 (S754_finite false mr er) = true ->
  er <= -53 ->
  exists (ms : positive) (es : Z),
    B64.minus (S754_finite false 4503599627370496 (-52)) (S754_finite false mr er)
    = S754_finite false ms es
    /\ SpecFloat.valid_binary 53 1024 (S754_finite false ms es) = true
    /\ 2 * Z.abs (Zpos ms * 2 ^ (es + 1074) - (2 ^ 1074 - Zpos mr * 2 ^ (er + 1074)))
       <= 2 ^ 1021
    /\ 2 ^ 1021 <= 2 ^ 1074 - Zpos mr * 2 ^ (er + 1074)
    /\ (er = -1074 -> S754_finite false ms es = S754_finite false 4503599627370496 (-52)).
Proof.
  intros V Her.
  destruct (valid_finite _ _ _ V) as (Dr & Rr & Nr).
  pose proof (digits_bounds mr) as [_ Rhi].
  assert (Mr : Zpos mr < 2 ^ 53).
  { eapply Z.lt_le_trans; [exact Rhi |]. apply Z.pow_le_mono_r; lia. }
  rewrite minus_plus_opp. cbn [SFopp negb]. rewrite plus_finite. cbn [cond_Zopp].
  replace (Z.min (-52) er) with er by lia.
  rewrite Z.sub_diag. change (2 ^ 0) with 1. rewrite Z.mul_1_r.
  change 4503599627370496 with (2 ^ 52) at 1. rewrite <- Z.pow_add_r by lia.
  replace (52 + (-52 - er)) with (- er) by lia.
  assert (P53 : 2 ^ 53 <= 2 ^ (- er)) by (apply Z.pow_le_mono_r; lia).
  set (D := 2 ^ (- er) + - Zpos mr).
  assert (HD : 0 < D) by (unfold D; lia).
  rewrite normalize_pos by exact HD.
  assert (ED : Zpos (Z.to_pos D) = D) by (apply Z2Pos.id; exact HD).
  assert (Pe : 0 < 2 ^ (er + 1074)) by (apply Z.pow_pos_nonneg; lia).
  assert (EU : 2 ^ (- er) * 2 ^ (er + 1074) = 2 ^ 1074).
  { rewrite <- Z.pow_add_r by lia. f_equal. lia. }
  assert (W : Zpos (Z.to_pos D) * 2 ^ (er + 1074)
              = 2 ^ 1074 - Zpos mr * 2 ^ (er + 1074)).
  { rewrite ED. unfold D. lia. }
  assert (K1 : 2 ^ 1021 = 2 * 2 ^ 1020) by (rewrite <- Z.pow_succ_r by lia; reflexivity).
  assert (K2 : 2 ^ 1074 = 2 ^ 54 * 2 ^ 1020) by (rewrite <- Z.pow_add_r by lia; reflexivity).
  assert (K0 : 0 < 2 ^ 1020) by (apply Z.pow_pos_nonneg; lia).
  assert (Wlo : 2 ^ 1021 <= Zpos (Z.to_pos D) * 2 ^ (er + 1074)).
  { destruct (Z.eq_dec er (-53)) as [-> | NE].
    - rewrite ED. change (-53 + 1074) with 1021 in *. nia.
    - rewrite W.
      assert (Ple : 2 ^ (er + 1074) <= 2 ^ 1020) by (apply Z.pow_le_mono_r; lia).
      change (2 ^ 53) with 9007199254740992 in Mr.
      change (2 ^ 54) with 18014398509481984 in K2.
      nia. }
  assert (Hone : Zpos 4503599627370496 * 2 ^ (-52 + 1074) = 2 ^ 1074).
  { change (Zpos 4503599627370496) with (2 ^ 52). rewrite <- Z.pow_add_r by lia.
    reflexivity. }
  assert (Dd : digits (Z.to_pos D) <= - er).
  { pose proof (digits_bounds (Z.to_pos D)) as [Dlo _]. rewrite ED in Dlo.
    assert (digits (Z.to_pos D) - 1 < - er); [| lia].
    apply (Z.pow_lt_mono_r_iff 2); [lia | lia | unfold D in *; lia]. }
  assert (Hle1 : SFleb (binary_round 53 1024 false (Z.to_pos D) er)
                   (S754_finite false 4503599627370496 (-52)) = true).
  { apply round_le_scaled; [reflexivity | lia |]. rewrite W, Hone. lia. }
  pose proof (round_valid false (Z.to_pos D) er) as Vres.
  destruct (round_near (Z.to_pos D) er ltac:(lia)) as [Einf | [Fres Herr]].
  { rewrite Einf in Hle1. discriminate. }
  assert (E1 : 2 ^ (Z.max (digits (Z.to_pos D) + er - 53) (-1074) + 1074) <= 2 ^ 1021)
    by (apply Z.pow_le_mono_r; lia).
  destruct (round_cases (Z.to_pos D) er) as [Eres | [Eres | (ms & es & Eres)]].
  - exfalso. rewrite Eres in Herr. cbn [scaled] in Herr. lia.
  - rewrite Eres in Fres. discriminate.
  - exists ms, es. rewrite Eres in *. split; [reflexivity |]. split; [exact Vres |].
    split; [| split].
    + cbn [scaled cond_Zopp] in Herr. rewrite <- W. lia.
    + rewrite <- W. exact Wlo.
    + intros ->. rewrite <- Eres. apply round_to_pow2; [lia | lia |].
      change (-1074 + 1074) with 0 in *. change (2 ^ 0) with 1 in *.
      rewrite Z.mul_1_r in *. rewrite ED. unfold D.
      change (- -1074) with 1074.
      change (-52 + 1126) with 1074. change (-52 + 1072) with 1020.
      change (-52 + 1073) with 1021.
      change (2 ^ 53) with 9007199254740992 in Mr.
      assert (9007199254740992 <= 2 ^ 1020).
      { change 9007199254740992 with (2 ^ 53). apply Z.pow_le_mono_r; lia. }
      lia.
Qed.

(** The mix of 0.5 and 0.5 is 0.5, whatever the ratio between 0 and 1:
    [0.5 * r + (1 - r) * 0.5] as the doubles compute it. *)
Lemma mix_equal_halves (r : B64.t) :
  SpecFloat.valid_binary 53 1024 r = true ->
  SFleb (S754_zero false) r = true ->
  SFleb r (S754_finite false 4503599627370496 (-52)) = true ->
  B64.plus (B64.times (S754_finite false 4503599627370496 (-53)) r)
           (B64.times (B64.minus (S754_finite false 4503599627370496 (-52)) r)
                      (S754_finite false 4503599627370496 (-53)))
  = S754_finite false 4503599627370496 (-53).
Proof.
  intros V H0 H1.
  destruct r as [[] | [] | | [] mr er]; try discriminate; try reflexivity.
  destruct (valid_finite _ _ _ V) as (Dr & Rr & Nr).
  pose proof (digits_bounds mr) as [Rlo Rhi].
  assert (Mr : Zpos mr < 2 ^ 53).
  { eapply Z.lt_le_trans; [exact Rhi |]. apply Z.pow_le_mono_r; lia. }
  assert (Her : er < -52 \/ er = -52 /\ Zpos mr <= 4503599627370496).
  { unfold SFleb, SFcompare in H1.
    destruct (Z.compare_spec er (-52)) as [HEq | HLt | HGt]; [| lia | discriminate].
    right. split; [exact HEq |].
    unfold Z.le. cbn [Z.compare]. unfold Pos.compare.
    intros C. rewrite C in H1. discriminate. }
  destruct (Z.eq_dec er (-52)) as [E52 | N52].
  { subst er. rewrite Nr in Rlo by lia. change (2 ^ (53 - 1)) with 4503599627370496 in Rlo.
    assert (Em : mr = 4503599627370496%positive) by (apply Pos2Z.inj; lia).
    subst mr. reflexivity. }
  assert (Her' : er <= -53) by lia. clear Her.
  destruct (one_minus_near mr er V Her') as (ms & es & Es & Vs & Herr & Wlo & Hlow).
  rewrite Es.
  destruct (valid_finite _ _ _ Vs) as (Ds & Rs & Ns).
  pose proof (digits_bounds ms) as [_ Shi].
  assert (Ms : Zpos ms < 2 ^ 53).
  { eapply Z.lt_le_trans; [exact Shi |]. apply Z.pow_le_mono_r; lia. }
  assert (K1 : 2 ^ 1021 = 2 * 2 ^ 1020) by (rewrite <- Z.pow_succ_r by lia; reflexivity).
  assert (K3 : 2 ^ 1020 = 2 * 2 ^ 1019) by (rewrite <- Z.pow_succ_r by lia; reflexivity).
  assert (K4 : 2 ^ 1074 = 2 * 2 ^ 1073) by (rewrite <- Z.pow_succ_r by lia; reflexivity).
  assert (K0 : 0 < 2 ^ 1019) by (apply Z.pow_pos_nonneg; lia).
  assert (K53 : 2 ^ 53 <= 2 ^ 1019) by (apply Z.pow_le_mono_r; lia).
  assert (Hes : -1074 < es).
  { destruct (Z.eq_dec es (-1074)) as [-> | NE]; [exfalso | lia].
    change (-1074 + 1074) with 0 in Herr. change (2 ^ 0) with 1 in Herr. lia. }
  rewrite times_half_r by lia.
  assert (S2 : Zpos ms * 2 ^ (es + 1074) = 2 * (Zpos ms * 2 ^ (es - 1 + 1074))).
  { replace (es + 1074) with (Z.succ (es - 1 + 1074)) by lia.
    rewrite Z.pow_succ_r by lia. ring. }
  destruct (Z.eq_dec er (-1074)) as [Emin | Enorm].
  - subst er. specialize (Hlow eq_refl). injection Hlow as -> ->.
    assert (Vh : SpecFloat.valid_binary 53 1024
                   (B64.times (S754_finite false 4503599627370496 (-53))
                              (S754_finite false mr (-1074))) = true).
    { cbn [B64.times SFmul xorb]. apply round_aux_valid; [lia |]. lia. }
    assert (Lh : SFleb (B64.times (S754_finite false 4503599627370496 (-53))
                                  (S754_finite false mr (-1074)))
                       (S754_finite false 4503599627370496 (-1074)) = true).
    { cbn [B64.times SFmul xorb]. apply round_aux_le; [reflexivity | lia | lia |].
      rewrite Pos2Z.inj_mul. change (-1074 - (-53 + -1074)) with 53.
      apply Z.mul_le_mono_nonneg_l; lia. }
    assert (Ph : plus_or_nan (B64.times (S754_finite false 4503599627370496 (-53))
                                        (S754_finite false mr (-1074))) = true).
    { cbn [B64.times SFmul xorb]. apply round_aux_plus. }
    destruct (B64.times (S754_finite false 4503599627370496 (-53))
                        (S754_finite false mr (-1074))) as [[] | [] | | [] mh eh];
      try discriminate.
    + reflexivity.
    + destruct (valid_finite _ _ _ Vh) as (Dh & Rh & Nh).
      apply (leb_scaled (S754_finite false mh eh)
               (S754_finite false 4503599627370496 (-1074)) Vh eq_refl eq_refl eq_refl)
        in Lh.
      cbn [scaled cond_Zopp] in Lh.
      change (Zpos 4503599627370496 * 2 ^ (-1074 + 1074)) with (2 ^ 52) in Lh.
      rewrite plus_finite. cbn [cond_Zopp].
      pose proof (plus_finite_scaled false false mh 4503599627370496 eh (-52 - 1)
                    ltac:(lia) ltac:(lia)) as PS.
      cbn [cond_Zopp scaled] in PS.
      change (Zpos 4503599627370496 * 2 ^ (-52 - 1 + 1074)) with (2 ^ 1073) in PS.
      assert (Ph' : 0 < Zpos mh * 2 ^ (eh + 1074))
        by (apply Z.mul_pos_pos; [lia | apply Z.pow_pos_nonneg; lia]).
      set (D := Zpos mh * 2 ^ (eh - Z.min eh (-52 - 1))
                + Zpos 4503599627370496 * 2 ^ (-52 - 1 - Z.min eh (-52 - 1))) in *.
      assert (PE : 0 < 2 ^ (Z.min eh (-52 - 1) + 1074)) by (apply Z.pow_pos_nonneg; lia).
      assert (HD : 0 < D) by nia.
      rewrite normalize_pos by exact HD.
      apply round_to_pow2; [lia | lia |].
      rewrite Z2Pos.id by exact HD. rewrite PS.
      change (-53 + 1126) with 1073. change (-53 + 1072) with 1019.
      change (-53 + 1073) with 1020.
      assert (2 ^ 52 <= 2 ^ 1020) by (apply Z.pow_le_mono_r; lia).
      lia.
  - rewrite Nr in * by lia.
    rewrite times_half_l by lia.
    rewrite plus_finite. cbn [cond_Zopp].
    pose proof (plus_finite_scaled false false mr ms (er - 1) (es - 1)
                  ltac:(lia) ltac:(lia)) as PS.
    cbn [cond_Zopp scaled] in PS.
    assert (R2 : Zpos mr * 2 ^ (er + 1074) = 2 * (Zpos mr * 2 ^ (er - 1 + 1074))).
    { replace (er + 1074) with (Z.succ (er - 1 + 1074)) by lia.
      rewrite Z.pow_succ_r by lia. ring. }
    set (D := Zpos mr * 2 ^ (er - 1 - Z.min (er - 1) (es - 1))
              + Zpos ms * 2 ^ (es - 1 - Z.min (er - 1) (es - 1))) in *.
    assert (PE : 0 < 2 ^ (Z.min (er - 1) (es - 1) + 1074))
      by (apply Z.pow_pos_nonneg; lia).
    assert (Pr : 0 < Zpos mr * 2 ^ (er - 1 + 1074))
      by (apply Z.mul_pos_pos; [lia | apply Z.pow_pos_nonneg; lia]).
    assert (Ps : 0 < Zpos ms * 2 ^ (es - 1 + 1074))
      by (apply Z.mul_pos_pos; [lia | apply Z.pow_pos_nonneg; lia]).
    assert (HD : 0 < D) by nia.
    rewrite normalize_pos by exact HD.
    apply round_to_pow2; [lia | lia |].
    rewrite Z2Pos.id by exact HD. rewrite PS.
    change (-53 + 1126) with 1073. change (-53 + 1072) with 1019.
    change (-53 + 1073) with 1020.
    lia.
Qed.

(** *** The floor of a double between 0 and 3 *)

Lemma floor_cases (x : B64.t) :
  SpecFloat.valid_binary 53 1024 x = true -> finite_or_zero x = true ->
  0 <= scaled x < 3 * 2 ^ 1074 ->
  (B64.floor x = S754_zero true \/ B64.floor x = S754_zero false
   \/ B64.floor x = B64.of_int 1 false \/ B64.floor x = B64.of_int 2 false)
  /\ scaled (B64.floor x) <= scaled x < scaled (B64.floor x) + 2 ^ 1074.
Proof.
  intros V F H.
  assert (PU : 0 < 2 ^ 1074) by (apply Z.pow_pos_nonneg; lia).
  destruct x as [[] | [] | | s m e]; try discriminate.
  - split; [left; reflexivity | cbn [B64.floor scaled]; lia].
  - split; [right; left; reflexivity | cbn [B64.floor scaled]; lia].
  - destruct (valid_finite _ _ _ V) as (Dm & Rm & Nm).
    pose proof (digits_bounds m) as [Mlo _].
    assert (Pe : 0 < 2 ^ (e + 1074)) by (apply Z.pow_pos_nonneg; lia).
    unfold scaled in H. destruct s; cbn [cond_Zopp] in H; [nia |].
    unfold B64.floor.
    destruct (Z.leb_spec 0 e) as [He | He].
    { exfalso. rewrite Nm in Mlo by lia.
      change (2 ^ (53 - 1)) with 4503599627370496 in Mlo.
      assert (2 ^ 1074 <= 2 ^ (e + 1074)) by (apply Z.pow_le_mono_r; lia).
      nia. }
    cbn [B64.signed cond_Zopp]. rewrite Z.shiftr_div_pow2 by lia.
    set (k := Zpos m / 2 ^ (- e)).
    assert (Pn : 0 < 2 ^ (- e)) by (apply Z.pow_pos_nonneg; lia).
    pose proof (Z.div_mod (Zpos m) (2 ^ (- e)) ltac:(lia)) as DM. fold k in DM.
    pose proof (Z.mod_pos_bound (Zpos m) (2 ^ (- e)) Pn) as MB.
    assert (EU : 2 ^ (- e) * 2 ^ (e + 1074) = 2 ^ 1074).
    { rewrite <- Z.pow_add_r by lia. f_equal. lia. }
    assert (Hk0 : 0 <= k) by (apply Z.div_pos; lia).
    assert (Lk : k * 2 ^ 1074 <= Zpos m * 2 ^ (e + 1074)) by nia.
    assert (Uk : Zpos m * 2 ^ (e + 1074) < (k + 1) * 2 ^ 1074) by nia.
    assert (Hk : k = 0 \/ k = 1 \/ k = 2) by nia.
    unfold scaled at 2 3. cbn [cond_Zopp].
    destruct Hk as [-> | [-> | ->]].
    + split; [right; left; reflexivity |].
      change (scaled (B64.of_int 0 false)) with 0. lia.
    + split; [right; right; left; reflexivity |].
      change (scaled (B64.of_int 1 false)) with (2 ^ 52 * 2 ^ (-52 + 1074)).
      rewrite <- Z.pow_add_r by lia. change (52 + (-52 + 1074)) with 1074. lia.
    + split; [right; right; right; reflexivity |].
      change (scaled (B64.of_int 2 false)) with (2 ^ 52 * 2 ^ (-51 + 1074)).
      rewrite <- Z.pow_add_r by lia. change (52 + (-51 + 1074)) with (Z.succ 1074).
      rewrite Z.pow_succ_r by lia. lia.
Qed.

(** *** The two ratios of [vectorField] *)

Lemma scaled_one : scaled (S754_finite false 4503599627370496 (-52)) = 2 ^ 1074.
Proof.
  cbn [scaled cond_Zopp]. change (Zpos 4503599627370496) with (2 ^ 52).
  rewrite <- Z.pow_add_r by lia. reflexivity.
Qed.

(** [p.x - lx] is a double between 0 and 1. *)
Lemma ratio_x (x lx : B64.t) :
  SpecFloat.valid_binary 53 1024 x = true -> finite_or_zero x = true ->
  SpecFloat.valid_binary 53 1024 lx = true -> finite_or_zero lx = true ->
  scaled lx <= scaled x < scaled lx + 2 ^ 1074 ->
  SpecFloat.valid_binary 53 1024 (B64.minus x lx) = true
  /\ SFleb (S754_zero false) (B64.minus x lx) = true
  /\ SFleb (B64.minus x lx) (S754_finite false 4503599627370496 (-52)) = true.
Proof.
  intros Vx Fx Vl Fl H. rewrite minus_plus_opp.
  split; [| split].
  - apply plus_valid; [exact Vx | rewrite valid_opp; exact Vl].
  - apply plus_ge; try assumption; try reflexivity;
      rewrite ?valid_opp, ?finite_or_zero_opp; try assumption.
    rewrite scaled_opp. cbn [scaled]. lia.
  - apply plus_le; try assumption; try reflexivity;
      rewrite ?valid_opp, ?finite_or_zero_opp; try assumption.
    rewrite scaled_opp, scaled_one. lia.
Qed.

(** [1 - p.y + ly] is a double between 0 and 1; [hi] is [1 - ly]. *)
Lemma ratio_y (y ly hi : B64.t) :
  SpecFloat.valid_binary 53 1024 y = true -> finite_or_zero y = true ->
  SpecFloat.valid_binary 53 1024 ly = true -> finite_or_zero ly = true ->
  SpecFloat.valid_binary 53 1024 hi = true -> finite_or_zero hi = true ->
  scaled hi = 2 ^ 1074 - scaled ly ->
  scaled ly <= scaled y < scaled ly + 2 ^ 1074 ->
  SpecFloat.valid_binary 53 1024
    (B64.plus (B64.minus (S754_finite false 4503599627370496 (-52)) y) ly) = true
  /\ SFleb (S754_zero false)
       (B64.plus (B64.minus (S754_finite false 4503599627370496 (-52)) y) ly) = true
  /\ SFleb (B64.plus (B64.minus (S754_finite false 4503599627370496 (-52)) y) ly)
       (S754_finite false 4503599627370496 (-52)) = true.
Proof.
  intros Vy Fy Vl Fl Vh Fh Hhi H. rewrite minus_plus_opp.
  set (t := B64.plus (S754_finite false 4503599627370496 (-52)) (SFopp y)).
  assert (Vt : SpecFloat.valid_binary 53 1024 t = true).
  { apply plus_valid; [reflexivity | rewrite valid_opp; exact Vy]. }
  assert (Lt : SFleb (SFopp ly) t = true).
  { apply plus_ge; try reflexivity;
      rewrite ?valid_opp, ?finite_or_zero_opp; try assumption.
    rewrite !scaled_opp, scaled_one. lia. }
  assert (Ut : SFleb t hi = true).
  { apply plus_le; try reflexivity;
      rewrite ?valid_opp, ?finite_or_zero_opp; try assumption.
    rewrite scaled_opp, scaled_one. lia. }
  assert (Ft : finite_or_zero t = true).
  { apply (between_finite (SFopp ly) t hi); try assumption.
    rewrite finite_or_zero_opp. exact Fl. }
  apply leb_scaled in Lt; try assumption;
    rewrite ?valid_opp, ?finite_or_zero_opp; try assumption.
  apply leb_scaled in Ut; try assumption.
  rewrite scaled_opp in Lt.
  split; [| split].
  - apply plus_valid; assumption.
  - apply plus_ge; try assumption; try reflexivity. cbn [scaled]. lia.
  - apply plus_le; try assumption; try reflexivity. rewrite scaled_one. lia.
Qed.

End B64ValueFacts.

(** ** Degenerate ranges and the coordinate transform, on the doubles *)

Section OnDoubles.
Import B64Order B64OrderFacts B64Facts.
Local Existing Instance binary64 | 0.

(** C5, amended.  When the maximum of a component equals its minimum,
    every value, scaled to the range at load time and scaled back by the
    sampler, is NaN: it is never the minimum. *)
Theorem degenerate_range_is_nan (value lo hi : @num binary64) :
  js_eqb lo hi = true ->
  denormalize (normalize value lo hi) lo hi = nan.
Proof.
  unfold js_eqb. intros H. apply andb_true_iff in H. destruct H as [A B].
  unfold denormalize, normalize.
  change (@sub binary64) with B64.minus. change (@add binary64) with B64.plus.
  change (@mul binary64) with B64.times. change (@div binary64) with B64.divide.
  destruct (minus_equal lo hi A B) as [E | [s E]]; rewrite E.
  - rewrite times_divide_nan. reflexivity.
  - rewrite times_divide_zero. reflexivity.
Qed.

(** The box [processItem] builds has its left and top at 0.  The top
    left corner of such a box goes to the pixel (0, 0) and the bottom
    right corner to the pixel ([canvasWidth], [canvasHeight]). *)
Lemma transform_corners_binary64 (bb : @BoundingBox binary64) :
  box_left bb = of_Z 0 -> box_top bb = of_Z 0 ->
  positive_finite (box_width bb) = true ->
  positive_finite (box_height bb) = true ->
  transform bb (mkPoint (box_left bb) (box_top bb)) = mkPoint (of_Z 0) (of_Z 0)
  /\ transform bb (mkPoint (box_left bb + box_width bb)%js
                           (box_top bb + box_height bb)%js)
     = mkPoint canvasWidth canvasHeight.
Proof.
  destruct bb as [l t w h]. cbn [box_left box_top box_width box_height].
  intros -> -> Hw Hh.
  destruct w as [| | | [|] mw ew]; try discriminate.
  destruct h as [| | | [|] mh eh]; try discriminate.
  unfold transform. cbn [px py box_left box_top box_width box_height].
  split.
  - reflexivity.
  - change (@add binary64) with B64.plus. change (@sub binary64) with B64.minus.
    change (@of_Z binary64 0) with (S754_zero false).
    change (B64.plus (S754_zero false) (S754_finite false mw ew))
      with (S754_finite false mw ew).
    change (B64.plus (S754_zero false) (S754_finite false mh eh))
      with (S754_finite false mh eh).
    change (B64.minus (S754_finite false mw ew) (S754_zero false))
      with (S754_finite false mw ew).
    change (B64.minus (S754_finite false mh eh) (S754_zero false))
      with (S754_finite false mh eh).
    change (@div binary64) with B64.divide. rewrite !divide_self.
    reflexivity.
Qed.

End OnDoubles.

(** ** The corners of the sampler, on the doubles *)

Module B64NumberFacts.
Import B64Order B64OrderFacts B64Facts B64Int B64IntFacts B64RoundFacts B64ValueFacts.
Open Scope Z_scope.

(** Rounding never gives NaN. *)
Lemma normalize_number (D E : Z) (s0 : bool) :
  is_number (binary_normalize 53 1024 D E s0) = true.
Proof.
  destruct D as [| M | M]; cbn [binary_normalize]; [reflexivity | |];
    unfold binary_round; destruct (shl_align M E _) as [mz ez];
    match goal with
    | |- is_number ?r = true =>
        destruct r eqn:R; try reflexivity;
        exfalso; revert R; apply round_aux_number; lia
    end.
Qed.

Lemma of_int_is_number (z : Z) (s : bool) : is_number (B64.of_int z s) = true.
Proof. apply normalize_number. Qed.

Lemma floor_number (x : B64.t) : is_number x = true -> is_number (B64.floor x) = true.
Proof.
  destruct x as [s | s | | s m e]; try (intros; assumption). intros _.
  cbn [B64.floor]. destruct (0 <=? e); [reflexivity | apply of_int_is_number].
Qed.

Lemma ceil_number (x : B64.t) : is_number x = true -> is_number (B64.ceil x) = true.
Proof.
  destruct x as [s | s | | s m e]; try (intros; assumption). intros _.
  cbn [B64.ceil]. destruct (0 <=? e); [reflexivity | apply of_int_is_number].
Qed.

(** A number plus 1 is a number. *)
Lemma plus_one_number (x : B64.t) :
  is_number x = true -> is_number (B64.plus x (B64.of_int 1 false)) = true.
Proof.
  change (B64.of_int 1 false) with (S754_finite false 4503599627370496 (-52)).
  destruct x as [s | s | | s m e]; try discriminate; intros _;
    try (destruct s; reflexivity).
  rewrite plus_finite. apply normalize_number.
Qed.

(** Between numbers, [a < b] is the opposite of [b <= a]. *)
Lemma ltb_negb_leb (x y : B64.t) :
  is_number x = true -> is_number y = true -> SFltb x y = negb (SFleb y x).
Proof.
  intros Hx Hy. destruct (SFleb y x) eqn:L; cbn [negb].
  - destruct (SFltb x y) eqn:E; [| reflexivity].
    exfalso. exact (leb_ltb_absurd _ _ L E).
  - apply not_leb_ltb; assumption.
Qed.

End B64NumberFacts.

Section DoubleCorners.
Import B64Order B64OrderFacts B64NumberFacts.
Local Existing Instance binary64 | 0.
Open Scope Z_scope.

(** On numbers the test of [outside] is that of lying out of the grid. *)
Lemma outside_not_in_grid (env : @Env binary64) (a b : B64.t) :
  is_number a = true -> is_number b = true ->
  outside env a b = negb (in_grid env a b).
Proof.
  intros Ha Hb. unfold outside, in_grid. cbn [ltb leb of_Z binary64].
  rewrite (ltb_negb_leb a (B64.of_int 0 false)), (ltb_negb_leb b (B64.of_int 0 false)),
    (ltb_negb_leb a (B64.of_int (width env) false)),
    (ltb_negb_leb b (B64.of_int (height env) false))
    by (try assumption; apply of_int_is_number).
  destruct (SFleb (B64.of_int 0 false) a), (SFleb (B64.of_int (width env) false) a),
    (SFleb (B64.of_int 0 false) b), (SFleb (B64.of_int (height env) false) b);
    reflexivity.
Qed.

Lemma lower_x_number (p : @Point binary64) :
  is_number (px p) = true -> is_number (lower_x p) = true.
Proof.
  intros H. unfold lower_x. cbn [ltb floor ceil binary64].
  match goal with |- is_number (if ?c then _ else _) = true => destruct c end;
    [apply ceil_number | apply floor_number]; exact H.
Qed.

Lemma lower_y_number (p : @Point binary64) :
  is_number (py p) = true -> is_number (lower_y p) = true.
Proof.
  intros H. unfold lower_y. cbn [ltb floor ceil binary64].
  match goal with |- is_number (if ?c then _ else _) = true => destruct c end;
    [apply ceil_number | apply floor_number]; exact H.
Qed.

(** C3, amended.  For a point whose coordinates are numbers: after the
    substitutions at the boundary, if one of the corners [(lx, ly)],
    [(lx+1, ly)], [(lx, ly+1)], [(lx+1, ly+1)] lies out of
    [[0, width) x [0, height)], [vectorField] returns [undefined]. *)
Theorem vectorField_corner_outside (env : @Env binary64) (p : @Point binary64) :
  is_number (px p) = true -> is_number (py p) = true ->
  in_grid env (lower_x p) (lower_y p)
  && in_grid env (lower_x p + of_Z 1)%js (lower_y p)
  && in_grid env (lower_x p) (lower_y p + of_Z 1)%js
  && in_grid env (lower_x p + of_Z 1)%js (lower_y p + of_Z 1)%js = false ->
  vectorField env p = None.
Proof.
  intros Hx Hy H.
  pose proof (lower_x_number p Hx) as Lx. pose proof (lower_y_number p Hy) as Ly.
  pose proof (plus_one_number _ Lx) as Lx1. pose proof (plus_one_number _ Ly) as Ly1.
  apply vectorField_four_corners. cbn [add of_Z binary64] in *.
  rewrite !outside_not_in_grid by assumption.
  apply andb_false_iff in H. destruct H as [H | H]; [| rewrite H; cbn [negb]; tauto].
  apply andb_false_iff in H. destruct H as [H | H]; [| rewrite H; cbn [negb]; tauto].
  apply andb_false_iff in H. destruct H as [H | H]; rewrite H; cbn [negb]; tauto.
Qed.

End DoubleCorners.

(** ** Exact arithmetic *)

Module ExactFacts.
Import Exact.
Open Scope R_scope.

Lemma Rltb_true (a b : R) : a < b -> Rltb a b = true.
Proof. intros H. unfold Rltb. destruct (Rlt_dec a b); [reflexivity | contradiction]. Qed.

Lemma Rltb_false (a b : R) : b <= a -> Rltb a b = false.
Proof. intros H. unfold Rltb. destruct (Rlt_dec a b); [lra | reflexivity]. Qed.

Lemma Rleb_true (a b : R) : a <= b -> Rleb a b = true.
Proof. intros H. unfold Rleb. destruct (Rle_dec a b); [reflexivity | contradiction]. Qed.

Lemma Rleb_false (a b : R) : b < a -> Rleb a b = false.
Proof. intros H. unfold Rleb. destruct (Rle_dec a b); [lra | reflexivity]. Qed.

Lemma Rleb_iff (a b : R) : Rleb a b = true <-> a <= b.
Proof. unfold Rleb. destruct (Rle_dec a b); split; intros; auto; discriminate. Qed.

Lemma Reqb_true (a b : R) : a = b -> Reqb a b = true.
Proof. intros H. unfold Reqb. destruct (Req_dec_T a b); [reflexivity | contradiction]. Qed.

Lemma Reqb_false (a b : R) : a <> b -> Reqb a b = false.
Proof. intros H. unfold Reqb. destruct (Req_dec_T a b); [contradiction | reflexivity]. Qed.

Lemma Int_part_IZR (z : Z) : Int_part (IZR z) = z.
Proof. symmetry. apply Int_part_spec. lra. Qed.

Lemma Int_part_ge (z : Z) (r : R) : IZR z <= r -> (z <= Int_part r)%Z.
Proof.
  intros H. destruct (base_Int_part r) as [_ B].
  assert (C : IZR (z - 1) < IZR (Int_part r)) by (rewrite minus_IZR; lra).
  apply lt_IZR in C. lia.
Qed.

Lemma floor_le_ceil (r : R) : (Int_part r <= - Int_part (- r))%Z.
Proof.
  destruct (base_Int_part r) as [A _], (base_Int_part (- r)) as [B _].
  apply le_IZR. rewrite opp_IZR. lra.
Qed.

(** The lower indices are integers at or above the floor. *)
Lemma lower_x_fin (a : R) (y : Exact.t) :
  exists z : Z,
    lower_x (N := exact) (mkPoint (Fin a) y) = Fin (IZR z) /\ (Int_part a <= z)%Z.
Proof.
  unfold lower_x. cbn.
  destruct (Rltb (IZR (Int_part a)) 0); eexists; split; try reflexivity.
  apply floor_le_ceil.
Qed.

Lemma lower_y_fin (x : Exact.t) (b : R) :
  exists z : Z,
    lower_y (N := exact) (mkPoint x (Fin b)) = Fin (IZR z) /\ (Int_part b <= z)%Z.
Proof.
  unfold lower_y. cbn.
  destruct (Rltb (IZR (Int_part b)) 0); eexists; split; try reflexivity.
  apply floor_le_ceil.
Qed.

End ExactFacts.

(** ** The sampler in exact arithmetic *)

Section ExactSampler.
Import Exact ExactFacts.
Local Existing Instance exact | 0.
Open Scope R_scope.

Lemma next_index_right (env : @Env exact) (x y : Exact.t) :
  (x >=? of_Z (width env) - of_Z 1)%js = true ->
  (lower_x (mkPoint x y) + of_Z 1 >=? of_Z (width env))%js = true.
Proof.
  destruct x as [| s | a]; cbn; try discriminate.
  - destruct s; [discriminate | reflexivity].
  - intros H. apply Rleb_iff in H.
    destruct (lower_x_fin a y) as (z & E & Hz). rewrite E. cbn.
    apply Rleb_true.
    assert (A : (width env - 1 <= Int_part a)%Z).
    { apply Int_part_ge. rewrite minus_IZR. lra. }
    rewrite <- plus_IZR. apply IZR_le. lia.
Qed.

Lemma next_index_below (env : @Env exact) (x y : Exact.t) :
  (y >=? of_Z (height env) - of_Z 1)%js = true ->
  (lower_y (mkPoint x y) + of_Z 1 >=? of_Z (height env))%js = true.
Proof.
  destruct y as [| s | b]; cbn; try discriminate.
  - destruct s; [discriminate | reflexivity].
  - intros H. apply Rleb_iff in H.
    destruct (lower_y_fin x b) as (z & E & Hz). rewrite E. cbn.
    apply Rleb_true.
    assert (A : (height env - 1 <= Int_part b)%Z).
    { apply Int_part_ge. rewrite minus_IZR. lra. }
    rewrite <- plus_IZR. apply IZR_le. lia.
Qed.

(** In exact arithmetic, whatever the dimensions of the grid. *)
Lemma last_row_or_column_exact (env : @Env exact) (p : @Point exact) :
  (px p >=? of_Z (width env) - of_Z 1)%js = true
  \/ (py p >=? of_Z (height env) - of_Z 1)%js = true ->
  vectorField env p = None.
Proof.
  destruct p as [x y]. cbn [px py]. intros [H | H];
    apply vectorField_four_corners.
  - right; left. apply outside_right. apply next_index_right. exact H.
  - right; right; left. apply outside_below. apply next_index_below. exact H.
Qed.

End ExactSampler.

Section DoubleSampler.
Import B64IntFacts.
Local Existing Instance binary64 | 0.

(** On the doubles, for a grid of at most [2^52] columns and rows. *)
Lemma last_row_or_column_binary64 (env : @Env binary64) (p : @Point binary64) :
  (1 <= width env <= 2 ^ 52)%Z -> (1 <= height env <= 2 ^ 52)%Z ->
  SpecFloat.valid_binary 53 1024 (px p) = true ->
  SpecFloat.valid_binary 53 1024 (py p) = true ->
  (px p >=? of_Z (width env) - of_Z 1)%js = true
  \/ (py p >=? of_Z (height env) - of_Z 1)%js = true ->
  vectorField env p = None.
Proof.
  intros Hw Hh Vx Vy [H | H]; apply vectorField_four_corners.
  - destruct (lower_next (width env) (px p) Hw Vx H) as [A | A].
    + left. apply outside_right. exact A.
    + right; left. apply outside_right. exact A.
  - destruct (lower_next (height env) (py p) Hh Vy H) as [A | A].
    + left. apply outside_below. exact A.
    + right; right; left. apply outside_below. exact A.
Qed.

End DoubleSampler.

(** C10.  A point with [p.x >= width - 1] or [p.y >= height - 1] has no
    sample: the corner reads use [lx + 1] and [ly + 1], which are then
    outside, whatever the substitutions made of [ux] and [uy].  This is
    so in exact arithmetic, and on the doubles for every grid of at most
    [2^52] columns and rows. *)
Theorem vectorField_last_row_or_column :
  (forall (env : @Env exact) (p : @Point exact),
     (px p >=? of_Z (width env) - of_Z 1)%js = true
     \/ (py p >=? of_Z (height env) - of_Z 1)%js = true ->
     vectorField env p = None)
  /\ (forall (env : @Env binary64) (p : @Point binary64),
        (1 <= width env <= 2 ^ 52)%Z -> (1 <= height env <= 2 ^ 52)%Z ->
        SpecFloat.valid_binary 53 1024 (px p) = true ->
        SpecFloat.valid_binary 53 1024 (py p) = true ->
        (px p >=? of_Z (width env) - of_Z 1)%js = true
        \/ (py p >=? of_Z (height env) - of_Z 1)%js = true ->
        vectorField env p = None).
Proof.
  split.
  - exact last_row_or_column_exact.
  - exact last_row_or_column_binary64.
Qed.

(** ** The half field on the doubles *)

Section DoubleHalfField.
Import B64Order B64ValueFacts.
Local Existing Instance binary64 | 0.
Open Scope Z_scope.

(** The mix of two points that are both (0.5, 0.5). *)
Lemma mix_halves (r : @num binary64) :
  SpecFloat.valid_binary 53 1024 r = true ->
  (of_Z 0 <=? r)%js = true -> (r <=? of_Z 1)%js = true ->
  mix (mkPoint (dec 5 1) (dec 5 1)) (mkPoint (dec 5 1) (dec 5 1)) r
  = mkPoint (dec 5 1) (dec 5 1).
Proof.
  intros V H0 H1. unfold mix. cbn [px py].
  f_equal; exact (mix_equal_halves r V H0 H1).
Qed.

(** A double that is a number between 0 and 3. *)
Lemma in_domain_scaled (x : @num binary64) :
  SpecFloat.valid_binary 53 1024 x = true ->
  (of_Z 0 <=? x)%js = true -> (x >=? of_Z 4 - of_Z 1)%js = false ->
  finite_or_zero x = true /\ 0 <= scaled x < 3 * 2 ^ 1074.
Proof.
  intros V H0 H3.
  assert (F : finite_or_zero x = true).
  { destruct x as [s | [] | | s m e]; try reflexivity; discriminate. }
  split; [exact F |]. split.
  - apply (leb_scaled (S754_zero false) x eq_refl V eq_refl F). exact H0.
  - destruct (Z.lt_ge_cases (scaled x) (3 * 2 ^ 1074)) as [L | G]; [exact L | exfalso].
    assert (T : SFleb (S754_finite false 6755399441055744 (-51)) x = true).
    { apply (leb_scaled (S754_finite false 6755399441055744 (-51)) x eq_refl V eq_refl F).
      cbn [scaled cond_Zopp].
      change (Zpos 6755399441055744) with (3 * 2 ^ 51).
      rewrite <- Z.mul_assoc, <- Z.pow_add_r by lia.
      change (51 + (-51 + 1074)) with 1074. exact G. }
    change (SFleb (S754_finite false 6755399441055744 (-51)) x = false) in H3.
    rewrite T in H3. discriminate.
Qed.

(** The two ratios at a point of the domain. *)
Lemma ratios_in_domain (x : B64.t) :
  SpecFloat.valid_binary 53 1024 x = true -> finite_or_zero x = true ->
  0 <= scaled x < 3 * 2 ^ 1074 ->
  (SpecFloat.valid_binary 53 1024 (B64.minus x (B64.floor x)) = true
   /\ SFleb (S754_zero false) (B64.minus x (B64.floor x)) = true
   /\ SFleb (B64.minus x (B64.floor x)) (S754_finite false 4503599627370496 (-52)) = true)
  /\ (SpecFloat.valid_binary 53 1024
        (B64.plus (B64.minus (S754_finite false 4503599627370496 (-52)) x) (B64.floor x))
      = true
      /\ SFleb (S754_zero false)
           (B64.plus (B64.minus (S754_finite false 4503599627370496 (-52)) x) (B64.floor x))
         = true
      /\ SFleb (B64.plus (B64.minus (S754_finite false 4503599627370496 (-52)) x)
                         (B64.floor x))
               (S754_finite false 4503599627370496 (-52)) = true).
Proof.
  intros V F S. destruct (floor_cases x V F S) as [C B].
  destruct C as [E | [E | [E | E]]]; rewrite E in *.
  - split; [apply ratio_x; try assumption; reflexivity |].
    apply (ratio_y x _ (S754_finite false 4503599627370496 (-52)));
      try assumption; try reflexivity.
  - split; [apply ratio_x; try assumption; reflexivity |].
    apply (ratio_y x _ (S754_finite false 4503599627370496 (-52)));
      try assumption; try reflexivity.
  - split; [apply ratio_x; try assumption; reflexivity |].
    apply (ratio_y x _ (S754_zero false)); try assumption; try reflexivity.
  - split; [apply ratio_x; try assumption; reflexivity |].
    apply (ratio_y x _ (S754_finite true 4503599627370496 (-52)));
      try assumption; try reflexivity.
Qed.

(** On the doubles, the half field gives (-5, 5) wherever it has a
    sample at a point whose coordinates are not negative. *)
Lemma half_field_quadrant_binary64 (p v : @Point binary64) :
  SpecFloat.valid_binary 53 1024 (px p) = true ->
  SpecFloat.valid_binary 53 1024 (py p) = true ->
  (of_Z 0 <=? px p)%js = true -> (of_Z 0 <=? py p)%js = true ->
  vectorField half_env p = Some v ->
  v = mkPoint (of_Z (-5)) (of_Z 5).
Proof.
  destruct p as [x y]. cbn [px py]. intros Vx Vy Hx Hy H.
  assert (Nx : (x >=? of_Z 4 - of_Z 1)%js = false).
  { destruct (x >=? of_Z 4 - of_Z 1)%js eqn:E; [| reflexivity].
    rewrite (last_row_or_column_binary64 half_env (mkPoint x y)) in H;
      [discriminate | cbn; lia | cbn; lia | exact Vx | exact Vy | left; exact E]. }
  assert (Ny : (y >=? of_Z 4 - of_Z 1)%js = false).
  { destruct (y >=? of_Z 4 - of_Z 1)%js eqn:E; [| reflexivity].
    rewrite (last_row_or_column_binary64 half_env (mkPoint x y)) in H;
      [discriminate | cbn; lia | cbn; lia | exact Vx | exact Vy | right; exact E]. }
  destruct (in_domain_scaled x Vx Hx Nx) as [Fx Sx].
  destruct (in_domain_scaled y Vy Hy Ny) as [Fy Sy].
  destruct (ratios_in_domain x Vx Fx Sx) as [(Vrx & Rx0 & Rx1) _].
  destruct (ratios_in_domain y Vy Fy Sy) as [_ (Vry & Ry0 & Ry1)].
  pose proof (mix_halves _ Vrx Rx0 Rx1) as Mx.
  pose proof (mix_halves _ Vry Ry0 Ry1) as My.
  destruct (floor_cases x Vx Fx Sx) as [Cx _].
  destruct (floor_cases y Vy Fy Sy) as [Cy _].
  assert (Lx : lower_x (mkPoint x y) = B64.floor x).
  { unfold lower_x. cbn [px floor binary64].
    destruct Cx as [E | [E | [E | E]]]; rewrite E; reflexivity. }
  assert (Ly : lower_y (mkPoint x y) = B64.floor y).
  { unfold lower_y. cbn [py floor binary64].
    destruct Cy as [E | [E | [E | E]]]; rewrite E; reflexivity. }
  unfold vectorField in H. cbv zeta in H. rewrite Lx, Ly in H.
  match type of H with
  | (if ?c then _ else _) = _ => destruct c; [discriminate |]
  end.
  cbn [px py sub add binary64] in H.
  change (@of_Z binary64 1) with (S754_finite false 4503599627370496 (-52)) in H.
  destruct Cx as [Ex | [Ex | [Ex | Ex]]]; destruct Cy as [Ey | [Ey | [Ey | Ey]]];
    rewrite Ex, Ey in *;
    repeat match type of H with
    | context [getXY ?e ?a ?b] =>
        replace (getXY e a b) with (Some (mkPoint (@dec binary64 5 1) (dec 5 1))) in H
          by reflexivity
    end;
    cbv beta iota in H; rewrite Mx, My in H;
    apply (f_equal (fun o => match o with Some q => q | None => v end)) in H;
    cbv beta iota in H; rewrite <- H; reflexivity.
Qed.

(** X16.  On the doubles, every point of the domain at which the half
    field has a sample gets (-5, 5). *)
Lemma half_field_in_domain_binary64 (p v : @Point binary64) :
  SpecFloat.valid_binary 53 1024 (px p) = true ->
  SpecFloat.valid_binary 53 1024 (py p) = true ->
  (of_Z 0 <=? px p)%js = true -> (of_Z 0 <=? py p)%js = true ->
  vectorField half_env p = Some v ->
  v = mkPoint (of_Z (-5)) (of_Z 5).
Proof.
  intros Vx Vy Hx Hy H.
  exact (half_field_quadrant_binary64 p v Vx Vy Hx Hy H).
Qed.

End DoubleHalfField.

Section ExactHalfField.
Import Exact ExactFacts.
Local Existing Instance exact | 0.
Open Scope R_scope.

Lemma Rltb_IZR (a b : Z) : Rltb (IZR a) (IZR b) = (a <? b)%Z.
Proof.
  destruct (Z.ltb_spec a b) as [H | H].
  - apply Rltb_true, IZR_lt, H.
  - apply Rltb_false, IZR_le, H.
Qed.

Lemma Rleb_IZR (a b : Z) : Rleb (IZR a) (IZR b) = (a <=? b)%Z.
Proof.
  destruct (Z.leb_spec a b) as [H | H].
  - apply Rleb_true, IZR_le, H.
  - apply Rleb_false, IZR_lt, H.
Qed.

Lemma index_IZR (k : Z) : (0 <= k)%Z -> Exact.index (Fin (IZR k)) = Some k.
Proof.
  intros H. unfold Exact.index. rewrite Int_part_IZR, Reqb_true by reflexivity.
  destruct (Z.leb_spec 0 k); [reflexivity | lia].
Qed.

Lemma js_get_repeat (c : Exact.t) (n : nat) (k : Z) :
  (0 <= k < Z.of_nat n)%Z -> js_get (repeat c n) (Fin (IZR k)) = c.
Proof.
  intros H. unfold js_get. cbn [to_index exact].
  rewrite index_IZR by lia. rewrite repeat_length.
  destruct (Z.ltb_spec k (Z.of_nat n)); [| lia].
  apply (repeat_spec n c). apply nth_In. rewrite repeat_length. lia.
Qed.

Lemma dec_half : @dec exact 5 1 = Fin (5 / 10).
Proof.
  unfold dec. cbn. rewrite Reqb_false by lra. reflexivity.
Qed.

(** A grid read of the half field: 0.5 twice inside the grid, nothing
    outside. *)
Lemma getXY_half (zx zy : Z) :
  getXY half_env (Fin (IZR zx)) (Fin (IZR zy))
  = if ((zx <? 0) || (4 <=? zx) || (zy <? 0) || (4 <=? zy))%Z
    then None
    else Some (mkPoint (Fin (5 / 10)) (Fin (5 / 10))).
Proof.
  unfold getXY, outside. cbn [width height half_env leb ltb exact of_Z Exact.lt Exact.le].
  rewrite !Rltb_IZR, !Rleb_IZR.
  destruct ((zx <? 0) || (4 <=? zx) || (zy <? 0) || (4 <=? zy))%Z eqn:E;
    [reflexivity |].
  apply orb_false_iff in E. destruct E as [E E4].
  apply orb_false_iff in E. destruct E as [E E3].
  apply orb_false_iff in E. destruct E as [E1 E2].
  apply Z.ltb_ge in E1, E3. apply Z.leb_gt in E2, E4.
  cbn [add mul exact Exact.plus Exact.times vfData half_env].
  rewrite <- !mult_IZR, <- !plus_IZR, <- !mult_IZR, <- !plus_IZR.
  rewrite dec_half, !js_get_repeat by (cbn; lia).
  reflexivity.
Qed.

End ExactHalfField.

(** On the doubles, the samples of the half field at the grid vertices
    that have one. *)
Lemma half_field_vertices_binary64 (zx zy : Z) :
  (0 <= zx <= 2)%Z -> (0 <= zy <= 2)%Z ->
  @vectorField binary64 half_env (mkPoint (of_Z zx) (of_Z zy))
  = Some (mkPoint (of_Z (-5)) (of_Z 5)).
Proof.
  intros Hx Hy.
  assert (Ex : zx = 0%Z \/ zx = 1%Z \/ zx = 2%Z) by lia.
  assert (Ey : zy = 0%Z \/ zy = 1%Z \/ zy = 2%Z) by lia.
  destruct Ex as [-> | [-> | ->]]; destruct Ey as [-> | [-> | ->]]; reflexivity.
Qed.

(** C4, amended.  In the 4 by 4 field whose stored grids are 0.5
    everywhere, with minimum 0 and maximum 10 for both components, on
    the doubles: every point with [p.x >= 0] and [p.y >= 0] at which
    [vectorField] returns a value gets exactly [{x: -5, y: 5}], and so
    does every grid vertex (zx, zy) with [0 <= zx <= 2] and
    [0 <= zy <= 2]. *)
Theorem half_field_samples :
  (forall p v : @Point binary64,
     SpecFloat.valid_binary 53 1024 (px p) = true ->
     SpecFloat.valid_binary 53 1024 (py p) = true ->
     (of_Z 0 <=? px p)%js = true -> (of_Z 0 <=? py p)%js = true ->
     vectorField half_env p = Some v ->
     v = mkPoint (of_Z (-5)) (of_Z 5))
  /\ (forall zx zy : Z,
        (0 <= zx <= 2)%Z -> (0 <= zy <= 2)%Z ->
        @vectorField binary64 half_env (mkPoint (of_Z zx) (of_Z zy))
        = Some (mkPoint (of_Z (-5)) (of_Z 5))).
Proof.
  split.
  - exact half_field_quadrant_binary64.
  - exact half_field_vertices_binary64.
Qed.

(** ** The alpha of a segment, in exact arithmetic *)

Section ExactAlpha.
Import Exact ExactFacts.
Local Existing Instance exact | 0.
Open Scope R_scope.

Lemma root_range (x : Exact.t) :
  root x = NaN \/ root x = Inf false \/ exists r, root x = Fin r /\ 0 <= r.
Proof.
  destruct x as [| s | r]; cbn.
  - left; reflexivity.
  - destruct s; [left | right; left]; reflexivity.
  - destruct (Rltb r 0); [left; reflexivity |].
    right; right. eexists. split; [reflexivity | apply sqrt_pos].
Qed.

(** A square root over a square root is NaN, the positive infinity or a
    real that is not negative. *)
Lemma gray_range (x y : @num exact) :
  (sqrt x / sqrt y)%js = NaN
  \/ (sqrt x / sqrt y)%js = Inf false
  \/ exists g, (sqrt x / sqrt y)%js = Fin g /\ 0 <= g.
Proof.
  cbn [sqrt div exact].
  destruct (root_range x) as [-> | [-> | (a & -> & Ha)]],
           (root_range y) as [-> | [-> | (b & -> & Hb)]]; cbn; auto.
  - right; left. rewrite Rltb_false by assumption. reflexivity.
  - right; right. exists 0. split; [reflexivity | lra].
  - destruct (Req_dec_T b 0) as [-> | Hb0].
    + rewrite Reqb_true by reflexivity.
      destruct (Reqb a 0); [left; reflexivity |].
      right; left. rewrite Rltb_false by assumption. reflexivity.
    + rewrite Reqb_false by assumption.
      right; right. eexists. split; [reflexivity |].
      apply Rmult_le_pos; [assumption |].
      apply Rlt_le, Rinv_0_lt_compat. lra.
Qed.

Lemma dec_tenth : @dec exact 1 1 = Fin (1 / 10).
Proof. unfold dec. cbn. rewrite Reqb_false by lra. reflexivity. Qed.

Lemma dec_nine_tenths : @dec exact 9 1 = Fin (9 / 10).
Proof. unfold dec. cbn. rewrite Reqb_false by lra. reflexivity. Qed.

Lemma gradient_nan : @gradient exact NaN = Throw "This should not be possible!".
Proof.
  unfold gradient, gradient_stops. rewrite dec_half. reflexivity.
Qed.

(** [processItem] computes [maxVelocity] from the two maxima. *)
Lemma processItem_maxVelocity {N : JSNumber} (data : Dataset) :
  maxVelocity (processItem_env data)
  = (sqrt (uMax (processItem_env data) * uMax (processItem_env data)
           + vMax (processItem_env data) * vMax (processItem_env data)))%js.
Proof. reflexivity. Qed.

(** In exact arithmetic: the alpha and its bounds. *)
Lemma segment_alpha_exact (env : @Env exact) (a b q : @Point exact)
    (ctx ctx' : list (@CanvasOp exact)) :
  maxVelocity env = (sqrt (uMax env * uMax env + vMax env * vMax env))%js ->
  vectorField env (midpoint a b) = Some q ->
  onStreamlineAdded env [a; b] ctx = Ret ctx' ->
  exists (c : Color) (gray alpha : num),
    gray = (sqrt (px q * px q + py q * py q) / maxVelocity env)%js
    /\ alpha = (dec 1 1 + gray * dec 9 1)%js
    /\ ctx' = ctx ++ stroke_calls env a b
                       (StyleRgba (col_r c) (col_g c) (col_b c) alpha)
    /\ (dec 1 1 <=? alpha)%js = true
    /\ ((gray <=? of_Z 1)%js = true -> (alpha <=? of_Z 1)%js = true).
Proof.
  intros Hmax Hq Hdraw.
  unfold onStreamlineAdded, drawSegments, drawSegment, getColor in Hdraw.
  unfold midpoint in Hq. rewrite Hq in Hdraw.
  remember (sqrt (px q * px q + py q * py q) / maxVelocity env)%js
    as gray eqn:Egray.
  destruct (gradient gray) as [[c |] | msg] eqn:G; cbn [bind] in Hdraw;
    try discriminate.
  injection Hdraw as <-.
  exists c, gray, (dec 1 1 + gray * dec 9 1)%js.
  split; [reflexivity |]. split; [reflexivity |]. split; [reflexivity |].
  rewrite Hmax in Egray.
  destruct (gray_range (px q * px q + py q * py q)%js
              (uMax env * uMax env + vMax env * vMax env)%js)
    as [E | [E | (g & E & Hg)]]; rewrite <- Egray in E; clear Egray; subst gray.
  - rewrite gradient_nan in G. discriminate.
  - rewrite dec_tenth, dec_nine_tenths. cbn.
    rewrite Reqb_false, Rltb_false by lra. split; [reflexivity | discriminate].
  - rewrite dec_tenth, dec_nine_tenths. cbn. split.
    + apply Rleb_true. lra.
    + intros H1. apply Rleb_iff in H1. apply Rleb_true. lra.
Qed.

End ExactAlpha.

(** At every instance: the style of the segment that is drawn. *)
Lemma segment_style {N : JSNumber} (env : Env) (a b q : Point)
    (ctx ctx' : list CanvasOp) :
  vectorField env (midpoint a b) = Some q ->
  onStreamlineAdded env [a; b] ctx = Ret ctx' ->
  exists c : Color,
    gradient (sqrt (px q * px q + py q * py q) / maxVelocity env)%js = Ret (Some c)
    /\ ctx' = ctx ++ stroke_calls env a b
                       (StyleRgba (col_r c) (col_g c) (col_b c)
                          (dec 1 1 + sqrt (px q * px q + py q * py q) / maxVelocity env
                                     * dec 9 1)%js).
Proof.
  intros Hq Hdraw.
  unfold onStreamlineAdded, drawSegments, drawSegment, getColor in Hdraw.
  unfold midpoint in Hq. rewrite Hq in Hdraw.
  destruct (gradient (sqrt (px q * px q + py q * py q) / maxVelocity env)%js)
    as [[c |] | msg]; cbn [bind] in Hdraw; try discriminate.
  injection Hdraw as <-. exists c. split; reflexivity.
Qed.

(** ** The alpha of a segment, on the doubles *)

Section DoubleAlpha.
Import B64Order B64RoundFacts.
Local Existing Instance binary64 | 0.

Lemma gradient_nan_binary64 :
  @gradient binary64 nan = Throw "This should not be possible!".
Proof. reflexivity. Qed.

Lemma tenth_binary64 : @dec binary64 1 1 = S754_finite false 7205759403792794 (-56).
Proof. reflexivity. Qed.

Lemma nine_tenths_binary64 : @dec binary64 9 1 = S754_finite false 8106479329266893 (-53).
Proof. reflexivity. Qed.

(** On the doubles the alpha of a drawn segment is at least 0.1. *)
Lemma segment_alpha_binary64 (env : @Env binary64) (a b q : @Point binary64)
    (ctx ctx' : list (@CanvasOp binary64)) :
  maxVelocity env = (sqrt (uMax env * uMax env + vMax env * vMax env))%js ->
  vectorField env (midpoint a b) = Some q ->
  onStreamlineAdded env [a; b] ctx = Ret ctx' ->
  (dec 1 1 <=? dec 1 1 + sqrt (px q * px q + py q * py q) / maxVelocity env * dec 9 1)%js
  = true.
Proof.
  intros Hmax Hq Hd.
  destruct (segment_style env a b q ctx ctx' Hq Hd) as (c & Hg & _).
  rewrite Hmax in *.
  remember (sqrt (px q * px q + py q * py q)
            / sqrt (uMax env * uMax env + vMax env * vMax env))%js as gray eqn:Egray.
  assert (Pg : plus_or_nan gray = true) by (rewrite Egray; apply gray_plus).
  assert (Ng : gray <> S754_nan).
  { intros E. rewrite E in Hg. change S754_nan with (@nan binary64) in Hg.
    rewrite gradient_nan_binary64 in Hg. discriminate. }
  rewrite tenth_binary64, nine_tenths_binary64.
  destruct (times_plus_number gray (S754_finite false 8106479329266893 (-53)) Pg Ng)
    as [Py Ny].
  { eexists. eexists. reflexivity. }
  apply (plus_ge_finite 7205759403792794 (-56)); [reflexivity | exact Py | exact Ny].
Qed.

Lemma one_binary64 : @of_Z binary64 1 = S754_finite false 4503599627370496 (-52).
Proof. reflexivity. Qed.

(** The product of the mantissas of a double and of 0.9 has its digits
    to the right of the exponent of the format. *)
Lemma nine_tenths_aligned (mg : positive) (eg : Z) :
  SpecFloat.valid_binary 53 1024 (S754_finite false mg eg) = true ->
  (eg + -53 <= Z.max (B64Int.digits (mg * 8106479329266893) + (eg + -53) - 53) (-1074))%Z.
Proof.
  intros V.
  destruct (B64IntFacts.valid_finite _ _ _ V) as (Dg & Rg & Ng).
  pose proof (B64IntFacts.digits_bounds mg) as [Glo Ghi].
  destruct (Z.eq_dec eg (-1074)) as [Emin | Enorm]; [lia |].
  rewrite Ng in Glo by lia.
  pose proof (B64IntFacts.digits_bounds (mg * 8106479329266893)) as [_ Phi].
  assert (105 <= B64Int.digits (mg * 8106479329266893))%Z; [| lia].
  destruct (Z.le_gt_cases 105 (B64Int.digits (mg * 8106479329266893))) as [H | H];
    [exact H | exfalso].
  assert (2 ^ B64Int.digits (mg * 8106479329266893) <= 2 ^ 104)%Z
    by (apply Z.pow_le_mono_r; lia).
  change (2 ^ (53 - 1))%Z with 4503599627370496%Z in Glo.
  change (2 ^ 104)%Z with (4503599627370496 * 4503599627370496)%Z in *.
  rewrite Pos2Z.inj_mul in Phi. nia.
Qed.

(** A double that is at most 1, times 0.9, is at most 0.9. *)
Lemma times_nine_tenths_le (mg : positive) (eg : Z) :
  SpecFloat.valid_binary 53 1024 (S754_finite false mg eg) = true ->
  SFleb (S754_finite false mg eg) (S754_finite false 4503599627370496 (-52)) = true ->
  SFleb (B64.times (S754_finite false mg eg) (S754_finite false 8106479329266893 (-53)))
        (S754_finite false 8106479329266893 (-53)) = true.
Proof.
  intros V Hle.
  destruct (B64IntFacts.valid_finite _ _ _ V) as (Dg & Rg & Ng).
  pose proof (B64IntFacts.digits_bounds mg) as [Glo Ghi].
  assert (Hg : (eg < -52 \/ eg = -52 /\ Zpos mg <= 4503599627370496)%Z).
  { unfold SFleb, SFcompare in Hle.
    destruct (Z.compare_spec eg (-52)) as [HEq | HLt | HGt]; [| lia | discriminate].
    right. split; [exact HEq |].
    unfold Z.le. cbn [Z.compare]. unfold Pos.compare.
    intros C. rewrite C in Hle. discriminate. }
  assert (Mg : (Zpos mg < 2 ^ 53)%Z).
  { eapply Z.lt_le_trans; [exact Ghi |]. apply Z.pow_le_mono_r; lia. }
  cbn [B64.times SFmul xorb].
  apply round_aux_le.
  - reflexivity.
  - apply nine_tenths_aligned. exact V.
  - lia.
  - rewrite Pos2Z.inj_mul.
    replace (-53 - (eg + -53))%Z with (- eg)%Z by lia.
    rewrite Z.mul_comm. apply Z.mul_le_mono_nonneg_l; [lia |].
    destruct Hg as [Hlt | [-> Hm]].
    + assert (2 ^ 53 <= 2 ^ (- eg))%Z by (apply Z.pow_le_mono_r; lia). lia.
    + exact Hm.
Qed.

(** 0.1 plus a double that is at most 0.9 is at most 1. *)
Lemma tenth_plus_le_one (y : B64.t) :
  SpecFloat.valid_binary 53 1024 y = true ->
  plus_or_nan y = true -> y <> S754_nan ->
  SFleb y (S754_finite false 8106479329266893 (-53)) = true ->
  SFleb (B64.plus (S754_finite false 7205759403792794 (-56)) y)
        (S754_finite false 4503599627370496 (-52)) = true.
Proof.
  intros V Py Ny Hle.
  destruct y as [[] | [] | | [] my ey]; try discriminate; try contradiction.
  - reflexivity.
  - destruct (B64IntFacts.valid_finite _ _ _ V) as (Dy & Ry & Nyy).
    pose proof (B64IntFacts.digits_bounds my) as [_ Yhi].
    assert (My : (Zpos my < 2 ^ 53)%Z).
    { eapply Z.lt_le_trans; [exact Yhi |]. apply Z.pow_le_mono_r; lia. }
    change (2 ^ 53)%Z with 9007199254740992%Z in My.
    assert (Hy : (ey < -53 \/ ey = -53 /\ Zpos my <= 8106479329266893)%Z).
    { unfold SFleb, SFcompare in Hle.
      destruct (Z.compare_spec ey (-53)) as [HEq | HLt | HGt]; [| lia | discriminate].
      right. split; [exact HEq |].
      unfold Z.le. cbn [Z.compare]. unfold Pos.compare.
      intros C. rewrite C in Hle. discriminate. }
    destruct (Z.eq_dec ey (-53)) as [E53 | N53].
    + subst ey. destruct (Z.eq_dec (Zpos my) 8106479329266893) as [Em | Nm].
      * injection Em as ->. reflexivity.
      * unfold B64.plus, SFadd, cond_Zopp, binary_normalize. cbv zeta.
        rewrite <- Pos2Z.inj_add.
        apply round_le; [reflexivity | lia |].
        rewrite Pos2Z.inj_add, !B64IntFacts.shl_align_value by lia.
        change (Z.min (-56) (-53)) with (-56)%Z.
        change (2 ^ (-56 - -56))%Z with 1%Z. change (2 ^ (-53 - -56))%Z with 8%Z.
        change (2 ^ (-52 - -56))%Z with 16%Z. lia.
    + destruct Hy as [Hlt | [? _]]; [| lia].
      unfold B64.plus, SFadd, cond_Zopp, binary_normalize. cbv zeta.
      rewrite <- Pos2Z.inj_add.
      apply round_le; [reflexivity | lia |].
      rewrite Pos2Z.inj_add, !B64IntFacts.shl_align_value by lia.
      destruct (Z.le_gt_cases (-56) ey) as [Hhi | Hlo].
      * replace (Z.min (-56) ey) with (-56)%Z by lia.
        change (2 ^ (-56 - -56))%Z with 1%Z. change (2 ^ (-52 - -56))%Z with 16%Z.
        assert (2 ^ (ey - -56) <= 2 ^ 2)%Z by (apply Z.pow_le_mono_r; lia).
        assert (0 < 2 ^ (ey - -56))%Z by (apply Z.pow_pos_nonneg; lia).
        change (2 ^ 2)%Z with 4%Z in *. nia.
      * replace (Z.min (-56) ey) with ey by lia.
        rewrite Z.sub_diag. change (2 ^ 0)%Z with 1%Z.
        replace (-52 - ey)%Z with (4 + (-56 - ey))%Z by lia.
        rewrite Z.pow_add_r by lia. change (2 ^ 4)%Z with 16%Z.
        assert (2 ^ 1 <= 2 ^ (-56 - ey))%Z by (apply Z.pow_le_mono_r; lia).
        change (2 ^ 1)%Z with 2%Z in *. nia.
Qed.

(** On the doubles the alpha is at most 1 where the gray is. *)
Lemma alpha_le_one_binary64 (env : @Env binary64) (q : @Point binary64) :
  maxVelocity env = (sqrt (uMax env * uMax env + vMax env * vMax env))%js ->
  (sqrt (px q * px q + py q * py q) / maxVelocity env <=? of_Z 1)%js = true ->
  (dec 1 1 + sqrt (px q * px q + py q * py q) / maxVelocity env * dec 9 1 <=? of_Z 1)%js
  = true.
Proof.
  intros Hmax. rewrite Hmax.
  remember (sqrt (px q * px q + py q * py q)
            / sqrt (uMax env * uMax env + vMax env * vMax env))%js as gray eqn:Egray.
  assert (Pg : plus_or_nan gray = true) by (rewrite Egray; apply gray_plus).
  assert (Vg : SpecFloat.valid_binary 53 1024 gray = true)
    by (rewrite Egray; apply divide_valid).
  rewrite tenth_binary64, nine_tenths_binary64, one_binary64. clear Egray.
  intros Hle.
  destruct gray as [[] | [] | | [] mg eg]; try discriminate.
  - reflexivity.
  - pose proof (times_nine_tenths_le mg eg Vg Hle) as Hy.
    apply tenth_plus_le_one; [| | | exact Hy].
    + cbn [mul binary64 B64.times SFmul xorb]. apply round_aux_valid; [lia |].
      apply nine_tenths_aligned. exact Vg.
    + cbn [mul binary64 B64.times SFmul xorb]. apply round_aux_plus.
    + cbn [mul binary64 B64.times SFmul xorb]. apply round_aux_number. lia.
Qed.

End DoubleAlpha.

(** C9, amended.  For a path of two points whose middle has a sample
    [q], a segment that is drawn has the alpha [0.1 + gray * 0.9], where
    [gray] is the length of [q] over [maxVelocity]: so it is at every
    instance.  With [maxVelocity] the square root of
    [uMax * uMax + vMax * vMax], as [processItem] computes it, this
    alpha is at least 0.1, and it is at most 1 when [gray] is: so it is
    in exact arithmetic, and so it is on the doubles. *)
Theorem segment_alpha :
  (forall (N : JSNumber) (env : Env) (a b q : Point) (ctx ctx' : list CanvasOp),
     vectorField env (midpoint a b) = Some q ->
     onStreamlineAdded env [a; b] ctx = Ret ctx' ->
     exists c : Color,
       gradient (sqrt (px q * px q + py q * py q) / maxVelocity env)%js = Ret (Some c)
       /\ ctx' = ctx ++ stroke_calls env a b
                          (StyleRgba (col_r c) (col_g c) (col_b c)
                             (dec 1 1 + sqrt (px q * px q + py q * py q) / maxVelocity env
                                        * dec 9 1)%js))
  /\ (forall (env : @Env exact) (a b q : @Point exact) (ctx ctx' : list (@CanvasOp exact)),
        maxVelocity env = (sqrt (uMax env * uMax env + vMax env * vMax env))%js ->
        vectorField env (midpoint a b) = Some q ->
        onStreamlineAdded env [a; b] ctx = Ret ctx' ->
        exists (c : Color) (gray alpha : num),
          gray = (sqrt (px q * px q + py q * py q) / maxVelocity env)%js
          /\ alpha = (dec 1 1 + gray * dec 9 1)%js
          /\ ctx' = ctx ++ stroke_calls env a b
                             (StyleRgba (col_r c) (col_g c) (col_b c) alpha)
          /\ (dec 1 1 <=? alpha)%js = true
          /\ ((gray <=? of_Z 1)%js = true -> (alpha <=? of_Z 1)%js = true))
  /\ (forall (env : @Env binary64) (a b q : @Point binary64)
             (ctx ctx' : list (@CanvasOp binary64)),
        maxVelocity env = (sqrt (uMax env * uMax env + vMax env * vMax env))%js ->
        vectorField env (midpoint a b) = Some q ->
        onStreamlineAdded env [a; b] ctx = Ret ctx' ->
        (dec 1 1 <=? dec 1 1 + sqrt (px q * px q + py q * py q) / maxVelocity env
                               * dec 9 1)%js = true
        /\ ((sqrt (px q * px q + py q * py q) / maxVelocity env <=? of_Z 1)%js = true ->
            (dec 1 1 + sqrt (px q * px q + py q * py q) / maxVelocity env * dec 9 1
             <=? of_Z 1)%js = true)).
Proof.
  split; [| split].
  - intros N. exact segment_style.
  - exact segment_alpha_exact.
  - intros env a b q ctx ctx' Hmax Hq Hd. split.
    + exact (segment_alpha_binary64 env a b q ctx ctx' Hmax Hq Hd).
    + exact (alpha_le_one_binary64 env q Hmax).
Qed.

(** ** The coordinate transform *)

Section TransformFacts.
Import Exact ExactFacts.
Open Scope R_scope.

Lemma round_fin (r : R) (z : Z) :
  IZR z <= r + / 2 < IZR z + 1 -> Exact.round (Fin r) = Fin (IZR z).
Proof.
  intros H. unfold Exact.round. f_equal. f_equal. symmetry.
  apply Int_part_spec. lra.
Qed.

(** In exact arithmetic the corners of every box of positive width and
    height go to the corners of the canvas. *)
Lemma transform_corners_exact (l t w h : R) :
  0 < w -> 0 < h ->
  transform (N := exact) (mkBox (Fin l) (Fin t) (Fin w) (Fin h))
    (mkPoint (Fin l) (Fin t)) = mkPoint (of_Z 0) (of_Z 0)
  /\ transform (N := exact) (mkBox (Fin l) (Fin t) (Fin w) (Fin h))
       (mkPoint (Fin l + Fin w)%js (Fin t + Fin h)%js)
     = mkPoint canvasWidth canvasHeight.
Proof.
  intros Hw Hh. unfold transform, canvasWidth, canvasHeight.
  cbn [px py box_left box_top box_width box_height
       add sub mul div round of_Z exact
       Exact.plus Exact.minus Exact.opp Exact.times Exact.divide].
  rewrite !Reqb_false by lra.
  cbn [Exact.times].
  split; f_equal; apply round_fin.
  - replace ((l + - l) / w * 1280) with 0 by (field; lra). lra.
  - replace ((t + - t) / h * 720) with 0 by (field; lra). lra.
  - replace ((l + w + - l) / w * 1280) with 1280 by (field; lra). lra.
  - replace ((t + h + - t) / h * 720) with 720 by (field; lra). lra.
Qed.

End TransformFacts.

(** C8.  The transform takes the top left corner of the box to the pixel
    (0, 0) and the bottom right corner to the pixel ([canvasWidth],
    [canvasHeight]): in exact arithmetic for every box of positive width
    and height, and on the doubles for every such box with its left and
    top at 0, as [processItem] builds it. *)
Theorem transform_corners :
  (forall l t w h : R,
     (0 < w)%R -> (0 < h)%R ->
     let bb := mkBox (N := exact) (Exact.Fin l) (Exact.Fin t) (Exact.Fin w) (Exact.Fin h) in
     transform bb (mkPoint (box_left bb) (box_top bb)) = mkPoint (of_Z 0) (of_Z 0)
     /\ transform bb (mkPoint (box_left bb + box_width bb)%js
                              (box_top bb + box_height bb)%js)
        = mkPoint canvasWidth canvasHeight)
  /\ (forall bb : @BoundingBox binary64,
        box_left bb = of_Z 0 -> box_top bb = of_Z 0 ->
        positive_finite (box_width bb) = true ->
        positive_finite (box_height bb) = true ->
        transform bb (mkPoint (box_left bb) (box_top bb)) = mkPoint (of_Z 0) (of_Z 0)
        /\ transform bb (mkPoint (box_left bb + box_width bb)%js
                                 (box_top bb + box_height bb)%js)
           = mkPoint canvasWidth canvasHeight).
Proof.
  split.
  - intros l t w h Hw Hh. exact (transform_corners_exact l t w h Hw Hh).
  - exact transform_corners_binary64.
Qed.

(** ** Evaluating the sampler in exact arithmetic *)

Section ExactEvaluation.
Import Exact ExactFacts.
Local Existing Instance exact | 0.
Open Scope R_scope.

Ltac case_if :=
  match goal with |- context [if ?c then _ else _] => destruct c end.

Lemma floor_IZR (z : Z) : floor (Fin (IZR z)) = Fin (IZR z).
Proof. cbn. rewrite Int_part_IZR. reflexivity. Qed.

Lemma ceil_IZR (z : Z) : ceil (Fin (IZR z)) = Fin (IZR z).
Proof. cbn. rewrite <- opp_IZR, Int_part_IZR, Z.opp_involutive. reflexivity. Qed.

Lemma lower_x_IZR (z : Z) (y : Exact.t) :
  lower_x (mkPoint (Fin (IZR z)) y) = Fin (IZR z).
Proof.
  unfold lower_x. cbn [px]. rewrite floor_IZR, ceil_IZR. case_if; reflexivity.
Qed.

Lemma lower_y_IZR (x : Exact.t) (z : Z) :
  lower_y (mkPoint x (Fin (IZR z))) = Fin (IZR z).
Proof.
  unfold lower_y. cbn [py]. rewrite floor_IZR, ceil_IZR. case_if; reflexivity.
Qed.

Lemma upper_x_IZR (env : @Env exact) (z : Z) (y : Exact.t) :
  upper_x env (mkPoint (Fin (IZR z)) y) = Fin (IZR z).
Proof.
  unfold upper_x. rewrite lower_x_IZR. cbn [px]. rewrite ceil_IZR.
  case_if; reflexivity.
Qed.

Lemma upper_y_IZR (env : @Env exact) (x : Exact.t) (z : Z) :
  upper_y env (mkPoint x (Fin (IZR z))) = Fin (IZR z).
Proof.
  unfold upper_y. rewrite lower_y_IZR. cbn [py]. rewrite ceil_IZR.
  case_if; reflexivity.
Qed.

Lemma outside_IZR (env : @Env exact) (zx zy : Z) :
  outside env (Fin (IZR zx)) (Fin (IZR zy))
  = ((zx <? 0) || (width env <=? zx) || (zy <? 0) || (height env <=? zy))%Z.
Proof.
  unfold outside. cbn [leb ltb exact of_Z Exact.lt Exact.le].
  rewrite !Rltb_IZR, !Rleb_IZR. reflexivity.
Qed.

(** The half field at the vertex (1, 1). *)
Lemma half_field_at_1_1 :
  vectorField half_env (mkPoint (of_Z 1) (of_Z 1))
  = Some (mkPoint (of_Z (-5)) (of_Z 5)).
Proof.
  unfold vectorField. cbn [of_Z exact].
  rewrite lower_x_IZR, lower_y_IZR, upper_x_IZR, upper_y_IZR, outside_IZR.
  cbn [add exact Exact.plus]. rewrite <- !plus_IZR, !getXY_half.
  cbn. f_equal. f_equal; f_equal; lra.
Qed.

Lemma midpoint_0_2 :
  midpoint (mkPoint (of_Z 0) (of_Z 0)) (mkPoint (of_Z 2) (of_Z 2))
  = mkPoint (of_Z 1) (of_Z 1).
Proof.
  unfold midpoint. rewrite dec_half. cbn. f_equal; f_equal; lra.
Qed.

(** The length of (-5, 5) over the length of (10, 10) is one half. *)
Lemma half_field_gray :
  (sqrt (of_Z (-5) * of_Z (-5) + of_Z 5 * of_Z 5) / maxVelocity half_env)%js
  = Fin (1 / 2).
Proof.
  cbn [maxVelocity half_env sqrt div add mul of_Z exact
       Exact.root Exact.plus Exact.times].
  assert (S2 : 0 < R_sqrt.sqrt 2) by (apply sqrt_lt_R0; lra).
  assert (A : R_sqrt.sqrt (-5 * -5 + 5 * 5) = 5 * R_sqrt.sqrt 2).
  { replace (-5 * -5 + 5 * 5) with ((5 * 5) * 2) by lra.
    rewrite sqrt_mult, sqrt_square by lra. reflexivity. }
  assert (B : R_sqrt.sqrt (10 * 10 + 10 * 10) = 10 * R_sqrt.sqrt 2).
  { replace (10 * 10 + 10 * 10) with ((10 * 10) * 2) by lra.
    rewrite sqrt_mult, sqrt_square by lra. reflexivity. }
  rewrite !Rltb_false by lra. cbn [Exact.divide].
  rewrite A, B, Reqb_false by lra.
  f_equal. field. lra.
Qed.

(** The gradient at one half: the second stop, mixed with nothing of the
    first. *)
Lemma gradient_at_half :
  exists c : @Color exact, gradient (Fin (1 / 2)) = Ret (Some c).
Proof.
  unfold gradient, gradient_stops, makeGradient.getColor. rewrite dec_half.
  cbn [leb ltb of_Z exact Exact.le Exact.lt makeGradient.scan stop].
  rewrite (Rleb_false (1 / 2) 0), (Rleb_false 1 (1 / 2)) by lra.
  rewrite (Rleb_true 0 (1 / 2)), (Rltb_false (1 / 2) (5 / 10)) by lra.
  cbn [andb].
  rewrite (Rleb_true (5 / 10) (1 / 2)), (Rltb_true (1 / 2) 1) by lra.
  cbn [andb]. eexists. reflexivity.
Qed.

End ExactEvaluation.

(** ** The segments of a path *)

Section Streamlines.
Context {N : JSNumber}.

Lemma count_strokes_app (a b : list CanvasOp) :
  count_strokes (a ++ b) = (count_strokes a + count_strokes b)%nat.
Proof. unfold count_strokes. rewrite filter_app, length_app. reflexivity. Qed.

Lemma drawSegment_appends (env : Env) (a b : Point) (ctx ctx' : list CanvasOp) :
  drawSegment env a b ctx = Ret ctx' ->
  exists style : Style, ctx' = ctx ++ stroke_calls env a b style.
Proof.
  unfold drawSegment. intros H.
  destruct (getColor env _ _) as [style | msg]; cbn [bind] in H; [| discriminate].
  injection H as <-. exists style. reflexivity.
Qed.

Lemma drawSegments_appends (env : Env) (rest : list Point) :
  forall (prev : Point) (ctx ctx' : list CanvasOp),
    drawSegments env prev rest ctx = Ret ctx' ->
    exists new : list CanvasOp,
      ctx' = ctx ++ new
      /\ List.length new = (6 * List.length rest)%nat
      /\ count_strokes new = List.length rest.
Proof.
  induction rest as [| cur rest IH]; intros prev ctx ctx' H; cbn [drawSegments] in H.
  - injection H as <-. exists []. rewrite app_nil_r. repeat split; reflexivity.
  - destruct (drawSegment env prev cur ctx) as [mid | msg] eqn:E;
      cbn [bind] in H; [| discriminate].
    apply drawSegment_appends in E. destruct E as [style ->].
    apply IH in H. destruct H as [new [-> [Hlen Hcount]]].
    exists (stroke_calls env prev cur style ++ new).
    rewrite app_assoc. split; [reflexivity |].
    rewrite length_app, count_strokes_app, Hlen, Hcount.
    cbn [List.length stroke_calls]. split; [lia | reflexivity].
Qed.

(** X15.  At every instance, a path of [n] points that is drawn to its
    end leaves the calls made before it as they are and adds six calls
    for every pair of consecutive points, one of them a stroke:
    [n - 1] strokes, none for a path of one point or of none. *)
Lemma onStreamlineAdded_appends (env : Env) (points : list Point)
    (ctx ctx' : list CanvasOp) :
  onStreamlineAdded env points ctx = Ret ctx' ->
  exists new : list CanvasOp,
    ctx' = ctx ++ new
    /\ List.length new = (6 * (List.length points - 1))%nat
    /\ count_strokes new = (List.length points - 1)%nat.
Proof.
  destruct points as [| first rest]; cbn [onStreamlineAdded]; intros H.
  - injection H as <-. exists []. rewrite app_nil_r. repeat split; reflexivity.
  - apply drawSegments_appends in H. destruct H as [new [E [Hlen Hcount]]].
    exists new. cbn [List.length]. rewrite Nat.sub_succ, Nat.sub_0_r.
    repeat split; assumption.
Qed.

End Streamlines.

(** ** The claims on concrete inputs *)

Section OnConcreteDoubles.
Local Existing Instance binary64 | 0.

(** C1.  In the field of [ramp_data], whose vertex (1, 1) stores the
    velocity (7, 107) and whose vertex (2, 1) stores (4, 104), the sample
    at the point (1, 1) is [{x: -4, y: 104}]: the value of the vertex to
    the right, not of the vertex itself. *)
Theorem vertex_sample_is_right_neighbour :
  vectorField ramp_env (mkPoint (of_Z 1) (of_Z 1))
  = Some (mkPoint (of_Z (-4)) (of_Z 104))
  /\ vertex_value ramp_env (of_Z 1) (of_Z 1)
     = Some (mkPoint (of_Z (-7)) (of_Z 107))
  /\ vertex_value ramp_env (of_Z 2) (of_Z 1)
     = Some (mkPoint (of_Z (-4)) (of_Z 104)).
Proof. repeat split; reflexivity. Qed.

(** C4 as stated fails on the doubles: at the point
    (-0.5000000000000001, 0.5), left of the grid, the half field has a
    sample, and it is (-4.999999999999999, 4.999999999999999). *)
Lemma half_field_left_of_grid :
  vectorField half_env (mkPoint (- dec 5000000000000001 16)%js (dec 5 1))
  = Some (mkPoint (- dec 4999999999999999 15)%js (dec 4999999999999999 15))
  /\ js_eqb (N := binary64) (- dec 4999999999999999 15)%js (of_Z (-5)) = false
  /\ js_eqb (N := binary64) (dec 4999999999999999 15) (of_Z 5) = false.
Proof. repeat split; reflexivity. Qed.

(** C2 as stated fails: where the middle of the segment has no sample,
    the stroke style is black with alpha 1, not alpha 0. *)
Lemma undefined_midpoint_is_opaque :
  vectorField ramp_env (midpoint (mkPoint (of_Z 3) (of_Z 1)) (mkPoint (of_Z 3) (of_Z 2)))
  = None
  /\ getColor ramp_env (of_Z 3) (dec 15 1) = Ret (StyleLiteral "rgba(0, 0, 0, 1.)")
  /\ midpoint (mkPoint (of_Z 3) (of_Z 1)) (mkPoint (of_Z 3) (of_Z 2))
     = mkPoint (of_Z 3) (dec 15 1)
  /\ style_alpha (N := binary64) (StyleLiteral "rgba(0, 0, 0, 1.)") = Some (of_Z 1)
  /\ js_eqb (N := binary64) (of_Z 1) (of_Z 0) = false.
Proof. repeat split; reflexivity. Qed.

Lemma drawSegment_undefined_midpoint_witness :
  vectorField ramp_env (midpoint (mkPoint (of_Z 3) (of_Z 1)) (mkPoint (of_Z 3) (of_Z 2)))
  = None
  /\ drawSegment ramp_env (mkPoint (of_Z 3) (of_Z 1)) (mkPoint (of_Z 3) (of_Z 2)) []
     = Ret ([] ++ stroke_calls ramp_env (mkPoint (of_Z 3) (of_Z 1))
                    (mkPoint (of_Z 3) (of_Z 2)) (StyleLiteral "rgba(0, 0, 0, 1.)")).
Proof.
  assert (H : vectorField ramp_env
                (midpoint (mkPoint (of_Z 3) (of_Z 1)) (mkPoint (of_Z 3) (of_Z 2)))
              = None) by reflexivity.
  split; [exact H |].
  exact (proj1 (drawSegment_undefined_midpoint ramp_env _ _ [] H)).
Defined.

(** C3 as stated fails: at the point (NaN, 1) of the ramp field the
    corner (lx, ly) = (NaN, 1) does not lie in [[0, 4) x [0, 4)], and
    [vectorField] returns [{x: NaN, y: NaN}]. *)
Lemma nan_corner_has_sample :
  in_grid ramp_env (lower_x (mkPoint nan (of_Z 1))) (lower_y (mkPoint nan (of_Z 1)))
  = false
  /\ vectorField ramp_env (mkPoint nan (of_Z 1)) = Some (mkPoint nan nan).
Proof. split; reflexivity. Qed.

Lemma vectorField_corner_outside_witness :
  in_grid ramp_env (lower_x (mkPoint (dec 35 1) (of_Z 1)) + of_Z 1)%js
    (lower_y (mkPoint (dec 35 1) (of_Z 1))) = false
  /\ vectorField ramp_env (mkPoint (dec 35 1) (of_Z 1)) = None.
Proof.
  assert (H : in_grid ramp_env (lower_x (mkPoint (dec 35 1) (of_Z 1)) + of_Z 1)%js
                (lower_y (mkPoint (dec 35 1) (of_Z 1))) = false)
    by reflexivity.
  split; [exact H |].
  apply vectorField_corner_outside; reflexivity.
Defined.

(** C5 as stated fails: with minimum = maximum = 5 the value 5 comes
    back as NaN, and so does the [x] of every sample of such a field. *)
Lemma degenerate_range_not_minimum :
  denormalize (N := binary64) (normalize (of_Z 5) (of_Z 5) (of_Z 5)) (of_Z 5) (of_Z 5)
  = nan
  /\ js_eqb (N := binary64) nan (of_Z 5) = false
  /\ uMin flat_env = of_Z 5 /\ uMax flat_env = of_Z 5
  /\ vectorField flat_env (mkPoint (of_Z 1) (of_Z 1)) = Some (mkPoint nan (of_Z 4)).
Proof. repeat split; reflexivity. Qed.

Lemma degenerate_range_is_nan_witness :
  js_eqb (N := binary64) (of_Z 5) (of_Z 5) = true
  /\ denormalize (N := binary64) (normalize (of_Z 7) (of_Z 5) (of_Z 5)) (of_Z 5) (of_Z 5)
     = nan.
Proof.
  split; [reflexivity |].
  exact (degenerate_range_is_nan (of_Z 7) (of_Z 5) (of_Z 5) eq_refl).
Defined.

(** Between a black stop at 0 and a white stop at 1, the colour at 0.5
    is the gray (128, 128, 128): 127.5 rounds up. *)
Lemma gradient_black_white_middle :
  makeGradient.getColor (N := binary64)
    [mkStop (of_Z 0) (of_Z 0) (of_Z 0) (of_Z 0);
     mkStop (of_Z 1) (of_Z 255) (of_Z 255) (of_Z 255)] (dec 5 1)
  = Ret (Some (MixColor (of_Z 128) (of_Z 128) (of_Z 128))).
Proof. reflexivity. Qed.

(** At the position of its middle stop the gradient of the program gives
    the colour of that stop, found between the middle stop and the
    last. *)
Lemma gradient_at_middle_stop :
  gradient (N := binary64) (dec 5 1)
  = Ret (Some (MixColor (of_Z 106) (of_Z 168) (of_Z 198)))
  /\ makeGradient.scan (N := binary64) (dec 5 1)
       (mkStop (dec 5 1) (of_Z 106) (of_Z 168) (of_Z 198))
       [mkStop (of_Z 1) (of_Z 226) (of_Z 229) (of_Z 170)]
     = Ret (Some (MixColor (of_Z 106) (of_Z 168) (of_Z 198))).
Proof. split; reflexivity. Qed.

(** On the doubles: the sample of the half field at the middle of the
    segment from (0, 0) to (2, 2), and the calls that draw the segment. *)
Lemma half_field_midpoint_binary64 :
  vectorField half_env (midpoint (mkPoint (of_Z 0) (of_Z 0)) (mkPoint (of_Z 2) (of_Z 2)))
  = Some (mkPoint (of_Z (-5)) (of_Z 5)).
Proof. reflexivity. Qed.

Lemma half_field_segment_binary64 :
  onStreamlineAdded half_env [mkPoint (of_Z 0) (of_Z 0); mkPoint (of_Z 2) (of_Z 2)] []
  = Ret (stroke_calls half_env (mkPoint (of_Z 0) (of_Z 0)) (mkPoint (of_Z 2) (of_Z 2))
           (StyleRgba (of_Z 106) (of_Z 168) (of_Z 198)
              (dec 1 1 + sqrt (of_Z (-5) * of_Z (-5) + of_Z 5 * of_Z 5)
                         / maxVelocity half_env * dec 9 1)%js)).
Proof. reflexivity. Qed.

Lemma gradient_clamps_witness :
  makeGradient.getColor (N := binary64) gradient_stops (of_Z (-3))
  = Ret (Some (StopColor (mkStop (of_Z 0) (of_Z 40) (of_Z 40) (of_Z 40))))
  /\ makeGradient.getColor (N := binary64) gradient_stops (of_Z 7)
     = Ret (Some (StopColor (mkStop (of_Z 1) (of_Z 226) (of_Z 229) (of_Z 170)))).
Proof.
  split.
  - exact (proj1 (gradient_clamps _ _ (of_Z (-3))) eq_refl).
  - exact (proj2 (gradient_clamps _ _ (of_Z 7)) eq_refl).
Defined.

(** C7.  The stops of the program are well formed, and [getColor(NaN)]
    reaches the branch the code declares impossible: it throws.  The
    program gets there from a dataset: in the flat field the sample at
    the middle of the segment from (1, 1) to (2, 2) has NaN for [x],
    the gray of the segment is NaN, and drawing the path throws. *)
Theorem gradient_throws_on_nan :
  well_formed (N := binary64) gradient_stops = true
  /\ makeGradient.getColor (N := binary64) gradient_stops nan
     = Throw "This should not be possible!"
  /\ vectorField flat_env (midpoint (mkPoint (of_Z 1) (of_Z 1)) (mkPoint (of_Z 2) (of_Z 2)))
     = Some (mkPoint nan (dec 75 1))
  /\ onStreamlineAdded flat_env [mkPoint (of_Z 1) (of_Z 1); mkPoint (of_Z 2) (of_Z 2)] []
     = Throw "This should not be possible!".
Proof. repeat split; reflexivity. Qed.

Lemma gradient_returns_on_numbers_witness :
  well_formed (N := binary64) gradient_stops = true
  /\ B64Order.is_number (dec 25 2) = true
  /\ exists c, makeGradient.getColor (N := binary64) gradient_stops (dec 25 2)
               = Ret (Some c).
Proof.
  split; [reflexivity |]. split; [reflexivity |].
  destruct (gradient_returns_on_numbers gradient_stops (dec 25 2) eq_refl eq_refl)
    as [[_ E] | [[_ (first & rest & _ & E)] | (pre & a & b & post & _ & _ & _ & E)]];
    rewrite E; eexists; reflexivity.
Defined.

(** C9 as stated fails: in the field of [gale_data] the sample at the
    middle of the segment from (1, 1) to (2, 2) is (32, 0), [maxVelocity]
    is 20, and the alpha of the segment is above 1. *)
Lemma gale_alpha_above_one :
  vectorField gale_env (midpoint (mkPoint (of_Z 1) (of_Z 1)) (mkPoint (of_Z 2) (of_Z 2)))
  = Some (mkPoint (of_Z 32) (of_Z 0))
  /\ maxVelocity gale_env = of_Z 20
  /\ onStreamlineAdded gale_env [mkPoint (of_Z 1) (of_Z 1); mkPoint (of_Z 2) (of_Z 2)] []
     = Ret (stroke_calls gale_env (mkPoint (of_Z 1) (of_Z 1)) (mkPoint (of_Z 2) (of_Z 2))
              (StyleRgba (of_Z 226) (of_Z 229) (of_Z 170)
                 (dec 1 1 + (of_Z 32 / of_Z 20) * dec 9 1)%js))
  /\ (dec 1 1 + (of_Z 32 / of_Z 20) * dec 9 1 >? of_Z 1)%js = true.
Proof. repeat split; reflexivity. Qed.

Lemma transform_corners_witness :
  transform (boundingBox ramp_env) (mkPoint (of_Z 0) (of_Z 0))
  = mkPoint (of_Z 0) (of_Z 0)
  /\ transform (boundingBox ramp_env) (mkPoint (of_Z 0 + of_Z 4)%js (of_Z 0 + of_Z 4)%js)
     = mkPoint (of_Z 1280) (of_Z 720).
Proof.
  exact (proj2 transform_corners (boundingBox ramp_env) eq_refl eq_refl eq_refl eq_refl).
Defined.

(** A point of the half field between its vertices, on the doubles. *)
Lemma half_field_point :
  SpecFloat.valid_binary 53 1024 (@dec binary64 25 1) = true
  /\ SpecFloat.valid_binary 53 1024 (@dec binary64 5 1) = true
  /\ (of_Z 0 <=? @dec binary64 25 1)%js = true
  /\ (of_Z 0 <=? @dec binary64 5 1)%js = true
  /\ vectorField half_env (mkPoint (dec 25 1) (dec 5 1))
     = Some (mkPoint (of_Z (-5)) (of_Z 5)).
Proof. repeat split; reflexivity. Qed.

Lemma half_field_samples_witness :
  exists v : Point,
    vectorField half_env (mkPoint (dec 25 1) (dec 5 1)) = Some v
    /\ v = mkPoint (of_Z (-5)) (of_Z 5).
Proof.
  destruct half_field_point as (Vx & Vy & Hx & Hy & H).
  exists (mkPoint (of_Z (-5)) (of_Z 5)). split; [exact H |].
  exact (proj1 half_field_samples (mkPoint (dec 25 1) (dec 5 1)) _ Vx Vy Hx Hy H).
Defined.

End OnConcreteDoubles.

Section OnConcreteReals.
Import Exact ExactFacts.
Local Existing Instance exact | 0.
Open Scope R_scope.

Lemma vectorField_last_row_or_column_witness :
  (of_Z 3 >=? of_Z (width half_env) - of_Z 1)%js = true
  /\ vectorField half_env (mkPoint (of_Z 3) (of_Z 0)) = None
  /\ vectorField (N := binary64) ramp_env (mkPoint (dec 35 1) (of_Z 1)) = None.
Proof.
  assert (H : (of_Z 3 >=? of_Z (width half_env) - of_Z 1)%js = true).
  { cbn. apply Rleb_true. lra. }
  split; [exact H |]. split.
  - apply (proj1 vectorField_last_row_or_column half_env (mkPoint (of_Z 3) (of_Z 0))).
    left. exact H.
  - apply (proj2 vectorField_last_row_or_column (ramp_env (N := binary64))
             (mkPoint (N := binary64) (dec 35 1) (of_Z 1)));
      try reflexivity; try (split; discriminate).
    left. reflexivity.
Defined.

Lemma segment_alpha_witness :
  (exists (q : Point) (ctx' : list CanvasOp),
    vectorField half_env (midpoint (mkPoint (of_Z 0) (of_Z 0)) (mkPoint (of_Z 2) (of_Z 2)))
    = Some q
    /\ onStreamlineAdded half_env [mkPoint (of_Z 0) (of_Z 0); mkPoint (of_Z 2) (of_Z 2)] []
       = Ret ctx'
    /\ exists (c : Color) (gray alpha : num),
         gray = (sqrt (px q * px q + py q * py q) / maxVelocity half_env)%js
         /\ alpha = (dec 1 1 + gray * dec 9 1)%js
         /\ ctx' = [] ++ stroke_calls half_env (mkPoint (of_Z 0) (of_Z 0))
                           (mkPoint (of_Z 2) (of_Z 2))
                           (StyleRgba (col_r c) (col_g c) (col_b c) alpha)
         /\ (dec 1 1 <=? alpha)%js = true
         /\ ((gray <=? of_Z 1)%js = true -> (alpha <=? of_Z 1)%js = true))
  /\ (dec 1 1 <=? dec 1 1 + sqrt (of_Z (-5) * of_Z (-5) + of_Z 5 * of_Z 5)
                            / maxVelocity (@half_env binary64) * dec 9 1)%js = true.
Proof.
  split; [| exact (proj1 (proj2 (proj2 segment_alpha) half_env _ _ _ [] _
                            eq_refl half_field_midpoint_binary64
                            half_field_segment_binary64))].
  assert (Hq : vectorField half_env
                 (midpoint (mkPoint (of_Z 0) (of_Z 0)) (mkPoint (of_Z 2) (of_Z 2)))
               = Some (mkPoint (of_Z (-5)) (of_Z 5))).
  { rewrite midpoint_0_2. exact half_field_at_1_1. }
  destruct gradient_at_half as [c Hc].
  assert (Hd : onStreamlineAdded half_env
                 [mkPoint (of_Z 0) (of_Z 0); mkPoint (of_Z 2) (of_Z 2)] []
               = Ret ([] ++ stroke_calls half_env (mkPoint (of_Z 0) (of_Z 0))
                              (mkPoint (of_Z 2) (of_Z 2))
                              (StyleRgba (col_r c) (col_g c) (col_b c)
                                 (dec 1 1 + Fin (1 / 2) * dec 9 1)%js))).
  { unfold onStreamlineAdded, drawSegments, drawSegment, getColor.
    unfold midpoint in Hq. rewrite Hq. cbn [px py].
    rewrite half_field_gray, Hc. reflexivity. }
  eexists. eexists. split; [exact Hq |]. split; [exact Hd |].
  exact (proj1 (proj2 segment_alpha) half_env _ _ _ [] _ eq_refl Hq Hd).
Defined.

End OnConcreteReals.

(** ** Further properties of the code *)

Section DoubleThrows.
Import B64Order B64OrderFacts.
Local Existing Instance binary64 | 0.

Lemma scan_nan_binary64 (rest : list (@GradientStop binary64)) :
  forall from : GradientStop,
    makeGradient.scan nan from rest = Throw "This should not be possible!".
Proof.
  induction rest as [| to rest IH]; intros from; cbn [makeGradient.scan].
  - reflexivity.
  - change (stop from <=? nan)%js with (SFleb (stop from) S754_nan).
    unfold SFleb. rewrite B64OrderFacts.compare_nan_r. cbn [andb]. apply IH.
Qed.

(** X9.  On the doubles NaN is below no stop and at or above none: the
    gradient throws for it, whatever its stops, none among them. *)
Lemma getColor_nan_binary64 (stops : list (@GradientStop binary64)) :
  makeGradient.getColor stops nan = Throw "This should not be possible!".
Proof.
  unfold makeGradient.getColor.
  change (nan <=? of_Z 0)%js with false. change (of_Z 1 <=? nan)%js with false.
  destruct stops as [| from rest]; [reflexivity | apply scan_nan_binary64].
Qed.

(** The gradient of the program returns a colour for every number. *)
Lemma gradient_number (t : @num binary64) :
  is_number t = true -> exists c : Color, gradient t = Ret (Some c).
Proof.
  intros Ht. unfold gradient, makeGradient.getColor.
  destruct (t <=? of_Z 0)%js eqn:H0; [eexists; reflexivity |].
  destruct (of_Z 1 <=? t)%js eqn:H1; [eexists; reflexivity |].
  assert (Hle : SFleb (@of_Z binary64 0) t = true).
  { apply ltb_leb. apply not_leb_ltb; auto. }
  assert (Hlt : SFltb t (@of_Z binary64 1) = true).
  { apply not_leb_ltb; auto. }
  cbn [gradient_stops].
  destruct (scan_finds t
              [mkStop (dec 5 1) (of_Z 106) (of_Z 168) (of_Z 198);
               mkStop (of_Z 1) (of_Z 226) (of_Z 229) (of_Z 170)]
              (mkStop (of_Z 0) (of_Z 40) (of_Z 40) (of_Z 40)) Hle eq_refl Hlt)
    as (pre & a & b & post & _ & _ & _ & S).
  rewrite S. eexists. reflexivity.
Qed.

(** X8.  On the doubles [drawSegment] throws in one case only: the
    middle of the segment has a sample and the gray level of the
    sample is NaN; the error is that of the gradient. *)
Lemma drawSegment_throws_binary64 (env : @Env binary64) (a b : @Point binary64)
    (ctx : list (@CanvasOp binary64)) (msg : string) :
  drawSegment env a b ctx = Throw msg
  <-> msg = "This should not be possible!"%string
      /\ exists q : Point,
           vectorField env (midpoint a b) = Some q
           /\ is_number (sqrt (px q * px q + py q * py q) / maxVelocity env)%js = false.
Proof.
  unfold drawSegment, getColor. fold (midpoint a b).
  destruct (vectorField env (midpoint a b)) as [q |].
  - cbv zeta.
    destruct (is_number (sqrt (px q * px q + py q * py q) / maxVelocity env)%js) eqn:Hn.
    + destruct (gradient_number _ Hn) as [c Hc]. rewrite Hc. cbn [bind]. split.
      * discriminate.
      * intros [_ [q' [E F]]]. injection E as <-. rewrite Hn in F. discriminate.
    + destruct (sqrt (px q * px q + py q * py q) / maxVelocity env)%js eqn:Eg;
        try discriminate.
      change (@gradient binary64 S754_nan) with (@Throw (option (@Color binary64))
                                         "This should not be possible!").
      cbn [bind]. split.
      * intros E. injection E as <-. split; [reflexivity |].
        exists q. split; [reflexivity | rewrite Eg; reflexivity].
      * intros [-> _]. reflexivity.
  - cbn [bind]. split.
    + discriminate.
    + intros [_ [q [E _]]]. discriminate.
Qed.

End DoubleThrows.

Section SaveCanvas.
Open Scope string_scope.

Lemma length_zero (s : string) : String.length s = 0%nat -> s = "".
Proof. destruct s; [reflexivity | discriminate]. Qed.

(** X13.  For an item whose first eight characters are a date, year,
    month and day, with no point among them, the label is the date
    with dashes, whatever follows. *)
Lemma saveCanvas_label_date (y m d rest : string) :
  String.length y = 4%nat -> String.length m = 2%nat -> String.length d = 2%nat ->
  dotless (y ++ m ++ d) = true ->
  saveCanvas_label (y ++ m ++ d ++ rest) = y ++ "-" ++ m ++ "-" ++ d.
Proof.
  intros Hy Hm Hd Hdot.
  destruct y as [| y1 [| y2 [| y3 [| y4 y]]]]; try discriminate.
  destruct m as [| m1 [| m2 m]]; try discriminate.
  destruct d as [| d1 [| d2 d]]; try discriminate.
  cbn [String.length] in Hy, Hm, Hd.
  rewrite (length_zero y), (length_zero m), (length_zero d) in * by lia.
  cbn [append dotless] in Hdot.
  repeat (apply andb_true_iff in Hdot; destruct Hdot as [? Hdot]).
  repeat match goal with
         | H : negb (Ascii.eqb ?c ".") = true |- _ => apply negb_true_iff in H
         end.
  unfold saveCanvas_label. cbn [append before_dot].
  repeat match goal with
         | H : Ascii.eqb ?c "." = false |- _ => rewrite H; clear H
         end.
  destruct rest as [| r rest]; cbn [before_dot].
  - reflexivity.
  - destruct (Ascii.eqb r "."); reflexivity.
Qed.

Lemma saveCanvas_label_date_witness :
  saveCanvas_label ("2019" ++ "01" ++ "31" ++ ".json") = "2019" ++ "-" ++ "01" ++ "-" ++ "31".
Proof.
  apply (saveCanvas_label_date "2019" "01" "31" ".json"); reflexivity.
Defined.

(** X14.  For an item with at most four characters before its first
    point the label is these characters and the two dashes: month and
    day are empty. *)
Lemma saveCanvas_label_short (name rest : string) :
  dotless name = true -> (String.length name <= 4)%nat ->
  saveCanvas_label (name ++ "." ++ rest) = name ++ "--".
Proof.
  intros Hdot Hlen.
  destruct name as [| c1 [| c2 [| c3 [| c4 [| c5 name]]]]];
    cbn [String.length] in Hlen; try lia;
    cbn [dotless] in Hdot;
    repeat (apply andb_true_iff in Hdot; destruct Hdot as [? Hdot]);
    repeat match goal with
           | H : negb (Ascii.eqb ?c ".") = true |- _ => apply negb_true_iff in H
           end;
    unfold saveCanvas_label; cbn [append before_dot];
    repeat match goal with
           | H : Ascii.eqb ?c "." = false |- _ => rewrite H; clear H
           end;
    reflexivity.
Qed.

Lemma saveCanvas_label_short_witness :
  saveCanvas_label ("2019" ++ "." ++ "01.31.json") = "2019" ++ "--".
Proof.
  apply (saveCanvas_label_short "2019" "01.31.json"); [reflexivity | cbn; lia].
Defined.

End SaveCanvas.

Section DoubleExamples.
Local Existing Instance binary64 | 0.

Lemma ramp_segment_binary64 :
  onStreamlineAdded ramp_env [mkPoint (of_Z 5) (of_Z 5); mkPoint (of_Z 7) (of_Z 7)] []
  = Ret ([] ++ stroke_calls ramp_env (mkPoint (of_Z 5) (of_Z 5)) (mkPoint (of_Z 7) (of_Z 7))
                 (StyleLiteral "rgba(0, 0, 0, 1.)")).
Proof. reflexivity. Qed.

Lemma onStreamlineAdded_appends_witness :
  exists new : list CanvasOp,
    [] ++ stroke_calls ramp_env (mkPoint (of_Z 5) (of_Z 5)) (mkPoint (of_Z 7) (of_Z 7))
            (StyleLiteral "rgba(0, 0, 0, 1.)")
    = [] ++ new
    /\ List.length new = (6 * (2 - 1))%nat
    /\ count_strokes new = (2 - 1)%nat.
Proof.
  exact (onStreamlineAdded_appends ramp_env
           [mkPoint (of_Z 5) (of_Z 5); mkPoint (of_Z 7) (of_Z 7)] [] _
           ramp_segment_binary64).
Defined.

(** A point inside the half field, on the doubles. *)
Lemma half_field_inner_point :
  SpecFloat.valid_binary 53 1024 (@dec binary64 13 1) = true
  /\ SpecFloat.valid_binary 53 1024 (@dec binary64 27 1) = true
  /\ (of_Z 0 <=? @dec binary64 13 1)%js = true
  /\ (of_Z 0 <=? @dec binary64 27 1)%js = true
  /\ vectorField half_env (mkPoint (dec 13 1) (dec 27 1))
     = Some (mkPoint (of_Z (-5)) (of_Z 5)).
Proof. repeat split; reflexivity. Qed.

Lemma half_field_in_domain_binary64_witness :
  exists v : Point,
    vectorField half_env (mkPoint (dec 13 1) (dec 27 1)) = Some v
    /\ v = mkPoint (of_Z (-5)) (of_Z 5).
Proof.
  destruct half_field_inner_point as (Vx & Vy & Hx & Hy & H).
  destruct (vectorField half_env (mkPoint (N := binary64) (dec 13 1) (dec 27 1)))
    as [v |] eqn:E; [| discriminate].
  exists v. split; [reflexivity |].
  exact (half_field_in_domain_binary64 (mkPoint (dec 13 1) (dec 27 1)) v Vx Vy Hx Hy E).
Defined.

End DoubleExamples.

(** ** Further properties, on the doubles *)

Module B64PixelFacts.
Import B64Order B64Int B64IntFacts B64RoundFacts B64ValueFacts.
Open Scope Z_scope.

(** The quotient of a positive double by one that is not below it is at
    most 1. *)
Lemma divide_le_one (mx my : positive) (ex ey : Z) :
  SpecFloat.valid_binary 53 1024 (S754_finite false mx ex) = true ->
  SpecFloat.valid_binary 53 1024 (S754_finite false my ey) = true ->
  Zpos mx * 2 ^ (ex + 1074) <= Zpos my * 2 ^ (ey + 1074) ->
  SFleb (B64.divide (S754_finite false mx ex) (S754_finite false my ey))
        (S754_finite false 4503599627370496 (-52)) = true.
Proof.
  intros Vx Vy Hle.
  destruct (valid_finite _ _ _ Vx) as (Dx & Rx & _).
  destruct (valid_finite _ _ _ Vy) as (Dy & Ry & _).
  pose proof (digits_bounds mx) as [Xlo Xhi]. pose proof (digits_bounds my) as [Ylo Yhi].
  pose proof (digits_pos mx) as Px. pose proof (digits_pos my) as Py.
  unfold B64.divide, SFdiv, SFdiv_core_binary, fexp, SpecFloat.emin.
  cbn [Zdigits2 xorb]. fold (digits mx) (digits my). change (3 - 1024 - 53) with (-1074).
  set (D := digits mx + ex - (digits my + ey)).
  set (e' := Z.min (Z.max (D - 53) (-1074)) (ex - ey)).
  set (sh := ex - ey - e').
  assert (Hsh : 0 <= sh) by (unfold sh, e'; lia).
  set (m' := match sh with Zpos _ => Z.shiftl (Zpos mx) sh | 0 => Zpos mx | Zneg _ => 0 end).
  assert (Em' : m' = Zpos mx * 2 ^ sh).
  { unfold m'. destruct sh as [| p | p] eqn:Esh; [lia | | lia].
    apply Z.shiftl_mul_pow2. lia. }
  assert (Psh : 0 < 2 ^ sh) by (apply Z.pow_pos_nonneg; lia).
  (* the operands are ordered, so is the number of their digits *)
  assert (HD : D <= 0).
  { assert (A : 2 ^ (digits mx - 1 + (ex + 1074)) <= Zpos mx * 2 ^ (ex + 1074)).
    { rewrite Z.pow_add_r by lia. apply Z.mul_le_mono_nonneg_r; [| exact Xlo].
      apply Z.pow_nonneg. lia. }
    assert (B : Zpos my * 2 ^ (ey + 1074) < 2 ^ (digits my + (ey + 1074))).
    { rewrite (Z.pow_add_r 2 (digits my) (ey + 1074)) by lia.
      apply Z.mul_lt_mono_pos_r; [| exact Yhi]. apply Z.pow_pos_nonneg; lia. }
    assert (C : digits mx - 1 + (ex + 1074) < digits my + (ey + 1074)).
    { apply (Z.pow_lt_mono_r_iff 2); lia. }
    unfold D. lia. }
  assert (He' : e' <= -53) by (unfold e'; lia).
  assert (Pe' : 0 < 2 ^ (- e')) by (apply Z.pow_pos_nonneg; lia).
  assert (Hm' : m' <= Zpos my * 2 ^ (- e')).
  { rewrite Em'.
    assert (P : 0 < 2 ^ (ey + 1074)) by (apply Z.pow_pos_nonneg; lia).
    assert (SB : 2 ^ sh * 2 ^ (ey + 1074) = 2 ^ (ex + 1074) * 2 ^ (- e')).
    { rewrite <- !Z.pow_add_r by lia. f_equal. unfold sh. lia. }
    apply (Z.mul_le_mono_pos_r _ _ (2 ^ (ey + 1074)) P).
    replace (Zpos mx * 2 ^ sh * 2 ^ (ey + 1074))
      with (Zpos mx * 2 ^ (ex + 1074) * 2 ^ (- e'))
      by (rewrite <- !Z.mul_assoc, SB; reflexivity).
    replace (Zpos my * 2 ^ (- e') * 2 ^ (ey + 1074))
      with (Zpos my * 2 ^ (ey + 1074) * 2 ^ (- e')) by ring.
    apply Z.mul_le_mono_nonneg_r; [lia | exact Hle]. }
  destruct (Z.div_eucl m' (Zpos my)) as [q r] eqn:Ediv.
  assert (Eq : q = m' / Zpos my) by (unfold Z.div; rewrite Ediv; reflexivity).
  assert (Er : r = m' mod Zpos my) by (unfold Z.modulo; rewrite Ediv; reflexivity).
  assert (Hq : 0 <= q) by (rewrite Eq; apply Z.div_pos; nia).
  assert (Hq1 : q <= 2 ^ (- e')).
  { rewrite Eq. apply Z.div_le_upper_bound; [lia |]. lia. }
  pose proof (Zdigits2_bounds q Hq) as [Qhi Qlo].
  assert (Dq : Zdigits2 q <= - e' + 1).
  { destruct (Z.le_gt_cases (Zdigits2 q) (- e' + 1)) as [H | H]; [exact H | exfalso].
    assert (0 < q).
    { destruct (Z.eq_dec q 0) as [-> | NZ]; [cbn [Zdigits2] in H; lia | lia]. }
    specialize (Qlo ltac:(lia)).
    assert (2 ^ (- e' + 1) <= 2 ^ (Zdigits2 q - 1)) by (apply Z.pow_le_mono_r; lia).
    rewrite Z.pow_add_r in * by lia. lia. }
  set (E1 := Z.max (Zdigits2 q + e' - 53) (-1074)).
  assert (HE : e' <= E1).
  { destruct (Z.le_gt_cases e' (-1074)) as [Hlow | Hhigh]; [unfold E1; lia |].
    assert (HD' : e' <= D - 53) by (unfold e' in *; lia).
    assert (H52 : 2 ^ 52 <= q).
    { rewrite Eq. apply Z.div_le_lower_bound; [lia |].
      rewrite Em'.
      assert (Hs : digits my + 52 <= digits mx - 1 + sh) by (unfold sh, D in *; lia).
      assert (A : Zpos my * 2 ^ 52 <= 2 ^ (digits my + 52)).
      { rewrite Z.pow_add_r by lia. apply Z.mul_le_mono_nonneg_r; lia. }
      assert (B : 2 ^ (digits my + 52) <= 2 ^ (digits mx - 1 + sh))
        by (apply Z.pow_le_mono_r; lia).
      assert (C : 2 ^ (digits mx - 1 + sh) <= Zpos mx * 2 ^ sh).
      { rewrite Z.pow_add_r by lia. apply Z.mul_le_mono_nonneg_r; lia. }
      lia. }
    assert (53 <= Zdigits2 q).
    { destruct (Z.le_gt_cases 53 (Zdigits2 q)) as [H | H]; [exact H |].
      assert (2 ^ Zdigits2 q <= 2 ^ 52) by (apply Z.pow_le_mono_r; lia).
      lia. }
    unfold E1. lia. }
  assert (HE1 : E1 <= -52) by (unfold E1; lia).
  destruct (round_aux_shape false q e' (new_location (Zpos my) r) Hq HE)
    as (m2 & [Hm2lo Hm2hi] & Hexact & Hres).
  fold E1 in Hm2lo, Hm2hi, Hexact, Hres.
  set (n := E1 - e') in *.
  assert (Hn : 0 <= n) by (unfold n; lia).
  assert (Pn : 0 < 2 ^ n) by (apply Z.pow_pos_nonneg; lia).
  assert (Split : 2 ^ (- e') = 2 ^ (- E1) * 2 ^ n).
  { rewrite <- Z.pow_add_r by lia. f_equal. unfold n. lia. }
  (* the rounded mantissa is at most that of 1 *)
  assert (Hm2 : m2 <= 2 ^ (- E1)).
  { destruct (Z.eq_dec q (2 ^ (- e'))) as [Eone | None].
    - assert (Hr0 : r = 0).
      { assert (Zpos my * q <= m').
        { rewrite Eq. apply Z.mul_div_le. lia. }
        assert (Em : m' = Zpos my * q) by (rewrite Eone in *; lia).
        rewrite Er, Em, Z.mul_comm. apply Z.mod_mul. lia. }
      assert (Hloc : new_location (Zpos my) r = loc_Exact).
      { rewrite Hr0. unfold new_location, new_location_even, new_location_odd.
        destruct (Z.even (Zpos my)); reflexivity. }
      rewrite (Hexact Hloc). rewrite nearest_even_exact; [| exact Hn |].
      + rewrite Eone, Split. rewrite Z.div_mul by lia. lia.
      + rewrite Eone, Split. apply Z.mod_mul. lia.
    - assert (q / 2 ^ n < 2 ^ (- E1)).
      { apply Z.div_lt_upper_bound; [lia |]. rewrite Z.mul_comm, <- Split. lia. }
      lia. }
  assert (V : SpecFloat.valid_binary 53 1024
                (binary_round_aux 53 1024 false q e' (new_location (Zpos my) r)) = true)
    by (apply round_aux_valid; assumption).
  destruct Hres as [[_ ->] | (m3 & e3 & Hv & He3 & Hm3 & Eres)]; [reflexivity |].
  rewrite Eres in *.
  assert (He3' : e3 <= 971) by lia.
  rewrite (proj2 (Z.leb_le e3 971) He3') in *.
  apply leb_scaled; try reflexivity; [exact V |].
  rewrite scaled_one. unfold scaled. cbn [cond_Zopp].
  destruct (valid_finite _ _ _ V) as (_ & R3 & _).
  assert (P1 : 0 < 2 ^ (E1 + 1074)) by (apply Z.pow_pos_nonneg; unfold E1; lia).
  replace (e3 + 1074) with ((e3 - E1) + (E1 + 1074)) by lia.
  rewrite Z.pow_add_r by (unfold E1 in *; lia).
  rewrite Z.mul_assoc, Hv.
  replace 1074 with (- E1 + (E1 + 1074)) at 2 by lia.
  rewrite (Z.pow_add_r 2 (- E1) (E1 + 1074)) by (unfold E1; lia).
  apply Z.mul_le_mono_nonneg_r; [lia | exact Hm2].
Qed.

(** The double of an integer below [2^53] has the integer for value and
    for subscript. *)
Lemma scaled_of_int (n : Z) :
  0 <= n < 2 ^ 53 -> scaled (B64.of_int n false) = n * 2 ^ 1074.
Proof.
  intros H. destruct n as [| q | q]; [reflexivity | | lia].
  assert (Dq : digits q <= 53) by (apply digits_small; lia).
  pose proof (digits_pos q) as Pq.
  rewrite of_int_pos by exact Dq. unfold canon, scaled. cbn [cond_Zopp].
  rewrite canon_mantissa by exact Dq.
  rewrite <- Z.mul_assoc, <- Z.pow_add_r by lia. f_equal. f_equal. lia.
Qed.

Lemma index_of_int (n : Z) :
  0 <= n < 2 ^ 53 -> B64.index (B64.of_int n false) = Some n.
Proof.
  intros H. destruct n as [| q | q]; [reflexivity | | lia].
  assert (Dq : digits q <= 53) by (apply digits_small; lia).
  pose proof (digits_pos q) as Pq.
  rewrite of_int_pos by exact Dq. unfold canon, B64.index.
  rewrite canon_mantissa by exact Dq.
  assert (P : 0 < 2 ^ (53 - digits q)) by (apply Z.pow_pos_nonneg; lia).
  destruct (Z.leb_spec 0 (digits q - 53)) as [H0 | H0].
  - replace (digits q - 53) with 0 by lia. replace (53 - digits q) with 0 by lia.
    rewrite Z.shiftl_0_r, Z.pow_0_r, Z.mul_1_r. reflexivity.
  - replace (- (digits q - 53)) with (53 - digits q) by lia.
    rewrite Z.land_ones by lia. rewrite Z.mod_mul by lia. cbn [Z.eqb].
    rewrite Z.shiftr_div_pow2 by lia. rewrite Z.div_mul by lia. reflexivity.
Qed.

(** A double of [0, 1] times a double of 53 bits is at most that
    double. *)
Lemma times_le_right (mt : positive) (et : Z) (mc : positive) (ec : Z) :
  SpecFloat.valid_binary 53 1024 (S754_finite false mc ec) = true ->
  digits mc = 53 ->
  Zpos mt * 2 ^ (et + 1074) <= 2 ^ 1074 -> -1074 <= et ->
  SFleb (B64.times (S754_finite false mt et) (S754_finite false mc ec))
        (S754_finite false mc ec) = true
  /\ SpecFloat.valid_binary 53 1024
       (B64.times (S754_finite false mt et) (S754_finite false mc ec)) = true.
Proof.
  intros Vc Dc Ht Het.
  assert (Pt : 0 < 2 ^ (et + 1074)) by (apply Z.pow_pos_nonneg; lia).
  assert (Het0 : et <= 0).
  { destruct (Z.le_gt_cases et 0) as [H | H]; [exact H | exfalso].
    assert (2 ^ 1074 < 2 ^ (et + 1074)) by (apply Z.pow_lt_mono_r; lia).
    nia. }
  assert (Hmt : Zpos mt <= 2 ^ (- et)).
  { apply (Z.mul_le_mono_pos_r _ _ (2 ^ (et + 1074)) Pt).
    rewrite <- Z.pow_add_r by lia.
    replace (- et + (et + 1074)) with 1074 by lia. exact Ht. }
  assert (DM : 53 <= digits (mt * mc)).
  { rewrite <- Dc. apply digits_mono. rewrite Pos2Z.inj_mul. nia. }
  assert (HE : et + ec <= Z.max (digits (mt * mc) + (et + ec) - 53) (-1074)) by lia.
  unfold B64.times, SFmul. cbn [xorb]. split.
  - apply round_aux_le; [exact Vc | exact HE | lia |].
    rewrite Pos2Z.inj_mul. replace (ec - (et + ec)) with (- et) by lia.
    rewrite Z.mul_comm. apply Z.mul_le_mono_nonneg_l; [lia | exact Hmt].
  - apply round_aux_valid; [lia | exact HE].
Qed.

(** [Math.round] of a positive double at or below the integer [c]: the
    double of an integer from 0 to [c]. *)
Lemma round_pixel (my : positive) (ey c : Z) :
  SpecFloat.valid_binary 53 1024 (S754_finite false my ey) = true ->
  0 < c < 2 ^ 52 ->
  SFleb (S754_finite false my ey) (B64.of_int c false) = true ->
  exists n : Z, B64.round (S754_finite false my ey) = B64.of_int n false /\ 0 <= n <= c.
Proof.
  intros Vy Hc Hle.
  destruct (valid_finite _ _ _ Vy) as (Dy & Ry & Ny).
  pose proof (digits_bounds my) as [Ylo Yhi].
  assert (Vc : SpecFloat.valid_binary 53 1024 (B64.of_int c false) = true)
    by apply normalize_valid.
  assert (Fc : finite_or_zero (B64.of_int c false) = true).
  { destruct (of_int_number c ltac:(lia)) as [-> | (m & e & ->)]; reflexivity. }
  apply leb_scaled in Hle; [| exact Vy | exact Vc | reflexivity | exact Fc].
  rewrite scaled_of_int in Hle by lia. unfold scaled in Hle. cbn [cond_Zopp] in Hle.
  assert (P : 0 < 2 ^ (ey + 1074)) by (apply Z.pow_pos_nonneg; lia).
  assert (Hey : ey < 0).
  { destruct (Z.lt_ge_cases ey 0) as [H | H]; [exact H | exfalso].
    rewrite Ny in Ylo by lia.
    assert (2 ^ 1074 <= 2 ^ (ey + 1074)) by (apply Z.pow_le_mono_r; lia).
    assert (2 ^ 52 * 2 ^ 1074 <= Zpos my * 2 ^ (ey + 1074)).
    { apply Z.mul_le_mono_nonneg; lia. }
    assert (c * 2 ^ 1074 < 2 ^ 52 * 2 ^ 1074).
    { apply Z.mul_lt_mono_pos_r; [apply Z.pow_pos_nonneg; lia | lia]. }
    lia. }
  assert (Pe : 0 < 2 ^ (- ey)) by (apply Z.pow_pos_nonneg; lia).
  assert (Hmy : Zpos my <= c * 2 ^ (- ey)).
  { apply (Z.mul_le_mono_pos_r _ _ (2 ^ (ey + 1074)) P).
    rewrite <- Z.mul_assoc, <- Z.pow_add_r by lia.
    replace (- ey + (ey + 1074)) with 1074 by lia. exact Hle. }
  unfold B64.round. rewrite (proj2 (Z.leb_gt 0 ey) Hey).
  eexists. split; [reflexivity |].
  unfold B64.signed. cbn [cond_Zopp].
  rewrite Z.shiftr_div_pow2 by lia.
  replace (- ey + 1) with (1 + - ey) by lia. rewrite Z.pow_add_r by lia.
  change (2 ^ 1) with 2. split.
  - apply Z.div_pos; lia.
  - apply Z.lt_succ_r. apply Z.div_lt_upper_bound; [lia |]. nia.
Qed.

(** One coordinate of [transform], for a box that starts at 0: a point
    from 0 to the width [w] of the box goes to a pixel from 0 to [c]. *)
Lemma pixel_in_range (x w : B64.t) (c : Z) :
  SpecFloat.valid_binary 53 1024 x = true ->
  SpecFloat.valid_binary 53 1024 w = true -> positive_finite w = true ->
  SFleb (S754_zero false) x = true -> SFleb x w = true ->
  0 < c < 2 ^ 52 ->
  exists i : Z,
    B64.index (B64.round (B64.times (B64.divide (B64.minus x (S754_zero false)) w)
                                    (B64.of_int c false))) = Some i
    /\ 0 <= i <= c.
Proof.
  intros Vx Vw Pw H0 Hw Hc.
  destruct w as [| | | [|] mw ew]; try discriminate.
  destruct c as [| qc | qc]; try lia.
  assert (Dqc : digits qc <= 53) by (apply digits_small; lia).
  pose proof (digits_pos qc) as Pqc.
  assert (Ec : B64.of_int (Zpos qc) false = canon qc) by (apply of_int_pos; exact Dqc).
  assert (Vc : SpecFloat.valid_binary 53 1024 (canon qc) = true)
    by (rewrite <- Ec; apply normalize_valid).
  assert (Dc : digits (Z.to_pos (Zpos qc * 2 ^ (53 - digits qc))) = 53).
  { rewrite digits_shift by lia. lia. }
  assert (Zero : exists i : Z, B64.index (S754_zero false) = Some i /\ 0 <= i <= Zpos qc).
  { exists 0. split; [reflexivity | lia]. }
  destruct x as [sx | sx | | sx mx ex]; try discriminate.
  - (* a zero *)
    rewrite Ec. unfold canon. destruct sx; [exists 0; split; [reflexivity | lia] | exact Zero].
  - destruct sx; discriminate.
  - destruct sx; [discriminate |].
    change (B64.minus (S754_finite false mx ex) (S754_zero false))
      with (S754_finite false mx ex).
    apply leb_scaled in Hw; [| exact Vx | exact Vw | reflexivity | reflexivity].
    unfold scaled in Hw. cbn [cond_Zopp] in Hw.
    pose proof (divide_le_one mx mw ex ew Vx Vw Hw) as T1.
    pose proof (divide_valid (S754_finite false mx ex) (S754_finite false mw ew)) as Vt.
    pose proof (divide_plus (S754_finite false mx ex) (S754_finite false mw ew)
                  eq_refl eq_refl) as Pt.
    destruct (B64.divide (S754_finite false mx ex) (S754_finite false mw ew))
      as [st | st | | st mt et]; try discriminate.
    + rewrite Ec. unfold canon. destruct st; [discriminate | exact Zero].
    + destruct st; discriminate.
    + destruct st; [discriminate |].
      destruct (valid_finite _ _ _ Vt) as (_ & Rt & _).
      apply leb_scaled in T1; [| exact Vt | reflexivity | reflexivity | reflexivity].
      rewrite scaled_one in T1. unfold scaled in T1. cbn [cond_Zopp] in T1.
      rewrite Ec. unfold canon in *.
      destruct (times_le_right mt et _ _ Vc Dc T1 ltac:(lia)) as [Y1 Vy].
      pose proof (round_aux_plus (Zpos (mt * Z.to_pos (Zpos qc * 2 ^ (53 - digits qc))))
                    (et + (digits qc - 53)) loc_Exact) as Py.
      change (binary_round_aux 53 1024 false
                (Zpos (mt * Z.to_pos (Zpos qc * 2 ^ (53 - digits qc))))
                (et + (digits qc - 53)) loc_Exact)
        with (B64.times (S754_finite false mt et)
                (S754_finite false (Z.to_pos (Zpos qc * 2 ^ (53 - digits qc)))
                   (digits qc - 53))) in Py.
      destruct (B64.times (S754_finite false mt et)
                  (S754_finite false (Z.to_pos (Zpos qc * 2 ^ (53 - digits qc)))
                     (digits qc - 53)))
        as [sy | sy | | sy my ey]; try discriminate.
      * destruct sy; [discriminate | exact Zero].
      * destruct sy; discriminate.
      * destruct sy; [discriminate |].
        rewrite <- Ec in Y1.
        destruct (round_pixel my ey (Zpos qc) Vy ltac:(lia) Y1) as [n [-> Hn]].
        exists n. split; [apply index_of_int; lia | exact Hn].
Qed.

End B64PixelFacts.

Section DoubleTransform.
Import B64PixelFacts.
Local Existing Instance binary64 | 0.
Open Scope Z_scope.

(** X17.  On the doubles, for a box that starts at (0, 0) as the one
    of [processItem] does, every point of the box goes to a pixel of
    the canvas: both coordinates are whole numbers, from 0 to 1280
    across and from 0 to 720 down. *)
Lemma transform_in_canvas_binary64 (bb : @BoundingBox binary64)
    (p : @Point binary64) :
  box_left bb = of_Z 0 -> box_top bb = of_Z 0 ->
  SpecFloat.valid_binary 53 1024 (box_width bb) = true ->
  positive_finite (box_width bb) = true ->
  SpecFloat.valid_binary 53 1024 (box_height bb) = true ->
  positive_finite (box_height bb) = true ->
  SpecFloat.valid_binary 53 1024 (px p) = true ->
  SpecFloat.valid_binary 53 1024 (py p) = true ->
  (of_Z 0 <=? px p)%js = true -> (px p <=? box_width bb)%js = true ->
  (of_Z 0 <=? py p)%js = true -> (py p <=? box_height bb)%js = true ->
  exists i j : Z,
    to_index (px (transform bb p)) = Some i
    /\ to_index (py (transform bb p)) = Some j
    /\ 0 <= i <= 1280 /\ 0 <= j <= 720.
Proof.
  destruct bb as [l t w h], p as [x y].
  cbn [box_left box_top box_width box_height px py].
  intros -> -> Vw Pw Vh Ph Vx Vy X0 Xw Y0 Yh.
  destruct (pixel_in_range x w 1280 Vx Vw Pw X0 Xw ltac:(lia)) as [i [Ei Hi]].
  destruct (pixel_in_range y h 720 Vy Vh Ph Y0 Yh ltac:(lia)) as [j [Ej Hj]].
  exists i, j. repeat split; try lia; assumption.
Qed.

(** A point of the box of the ramp field, on the doubles. *)
Lemma ramp_box_point :
  box_left (boundingBox (@ramp_env binary64)) = of_Z 0
  /\ box_top (boundingBox (@ramp_env binary64)) = of_Z 0
  /\ SpecFloat.valid_binary 53 1024 (box_width (boundingBox (@ramp_env binary64))) = true
  /\ positive_finite (box_width (boundingBox (@ramp_env binary64))) = true
  /\ SpecFloat.valid_binary 53 1024 (box_height (boundingBox (@ramp_env binary64))) = true
  /\ positive_finite (box_height (boundingBox (@ramp_env binary64))) = true
  /\ SpecFloat.valid_binary 53 1024 (@dec binary64 15 1) = true
  /\ SpecFloat.valid_binary 53 1024 (@of_Z binary64 4) = true
  /\ (of_Z 0 <=? @dec binary64 15 1)%js = true
  /\ (@dec binary64 15 1 <=? box_width (boundingBox (@ramp_env binary64)))%js = true
  /\ (of_Z 0 <=? @of_Z binary64 4)%js = true
  /\ (@of_Z binary64 4 <=? box_height (boundingBox (@ramp_env binary64)))%js = true.
Proof. repeat split; reflexivity. Qed.

Lemma transform_in_canvas_binary64_witness :
  exists i j : Z,
    to_index (px (transform (boundingBox (@ramp_env binary64))
                    (mkPoint (dec 15 1) (of_Z 4)))) = Some i
    /\ to_index (py (transform (boundingBox (@ramp_env binary64))
                       (mkPoint (dec 15 1) (of_Z 4)))) = Some j
    /\ 0 <= i <= 1280 /\ 0 <= j <= 720.
Proof.
  destruct ramp_box_point
    as (H1 & H2 & H3 & H4 & H5 & H6 & H7 & H8 & H9 & H10 & H11 & H12).
  exact (transform_in_canvas_binary64 (boundingBox ramp_env)
           (mkPoint (dec 15 1) (of_Z 4)) H1 H2 H3 H4 H5 H6 H7 H8 H9 H10 H11 H12).
Defined.

End DoubleTransform.

Module B64FloorFacts.
Import B64Order B64OrderFacts B64Int B64IntFacts B64RoundFacts B64ValueFacts B64PixelFacts.
Open Scope Z_scope.

(** [<] on the doubles that are not infinite is the order of the
    values. *)
Lemma ltb_scaled (x y : B64.t) :
  SpecFloat.valid_binary 53 1024 x = true -> SpecFloat.valid_binary 53 1024 y = true ->
  finite_or_zero x = true -> finite_or_zero y = true ->
  SFltb x y = true <-> scaled x < scaled y.
Proof.
  intros Vx Vy Fx Fy.
  assert (Nx : is_number x = true) by (destruct x; try discriminate; reflexivity).
  assert (Ny : is_number y = true) by (destruct y; try discriminate; reflexivity).
  split; intros H.
  - destruct (Z.lt_ge_cases (scaled x) (scaled y)) as [C | C]; [exact C | exfalso].
    apply (proj2 (leb_scaled y x Vy Vx Fy Fx)) in C. exact (leb_ltb_absurd _ _ C H).
  - apply not_leb_ltb; try assumption.
    destruct (SFleb y x) eqn:E; [| reflexivity].
    apply (proj1 (leb_scaled y x Vy Vx Fy Fx)) in E. lia.
Qed.

(** The floor and the ceiling of a double from 0 to below the integer
    [n]: the doubles of two integers [k <= k' <= k + 1], or the zero with
    the sign minus. *)
Lemma floor_ceil_below (x : B64.t) (n : Z) :
  1 <= n <= 2 ^ 52 ->
  SpecFloat.valid_binary 53 1024 x = true ->
  SFleb (S754_zero false) x = true -> SFltb x (B64.of_int n false) = true ->
  exists k k' : Z,
    0 <= k /\ k <= k' /\ k' <= k + 1 /\ k < n /\ k' <= n
    /\ (B64.floor x = B64.of_int k false \/ k = 0 /\ B64.floor x = S754_zero true)
    /\ (B64.ceil x = B64.of_int k' false \/ k' = 0 /\ B64.ceil x = S754_zero true).
Proof.
  intros N V H0 Hn.
  assert (P53 : 2 ^ 52 < 2 ^ 53) by (apply Z.pow_lt_mono_r; lia).
  destruct x as [s | s | | s m e]; try discriminate.
  - exists 0, 0. repeat split; try lia; destruct s; auto.
  - destruct s; [discriminate |].
    destruct (of_int_number n ltac:(lia)) as [E | (m & e & E)]; rewrite E in Hn; discriminate.
  - destruct s; [discriminate |].
    destruct (Z.leb_spec 0 e) as [E | E].
    { exfalso. apply (leb_ltb_absurd _ _ (large_double_ge n m e N V E) Hn). }
    assert (Vn : SpecFloat.valid_binary 53 1024 (B64.of_int n false) = true)
      by apply normalize_valid.
    assert (Fn : finite_or_zero (B64.of_int n false) = true).
    { destruct (of_int_number n ltac:(lia)) as [-> | (m' & e' & ->)]; reflexivity. }
    apply ltb_scaled in Hn; [| exact V | exact Vn | reflexivity | exact Fn].
    rewrite scaled_of_int in Hn by lia. unfold scaled in Hn. cbn [cond_Zopp] in Hn.
    destruct (valid_finite _ _ _ V) as (_ & Re & _).
    assert (P : 0 < 2 ^ (e + 1074)) by (apply Z.pow_pos_nonneg; lia).
    assert (Pe : 0 < 2 ^ (- e)) by (apply Z.pow_pos_nonneg; lia).
    assert (Hm : Zpos m < n * 2 ^ (- e)).
    { apply (Z.mul_lt_mono_pos_r (2 ^ (e + 1074)) _ _ P).
      rewrite <- Z.mul_assoc, <- Z.pow_add_r by lia.
      replace (- e + (e + 1074)) with 1074 by lia. exact Hn. }
    cbn [B64.floor B64.ceil]. rewrite (proj2 (Z.leb_gt 0 e) E).
    unfold B64.signed. cbn [cond_Zopp negb].
    rewrite !Z.shiftr_div_pow2 by lia.
    exists (Zpos m / 2 ^ (- e)), (- (Zneg m / 2 ^ (- e))).
    pose proof (Z.div_mod (Zpos m) (2 ^ (- e)) ltac:(lia)) as D1.
    pose proof (Z.mod_pos_bound (Zpos m) (2 ^ (- e)) Pe) as B1.
    pose proof (Z.div_mod (Zneg m) (2 ^ (- e)) ltac:(lia)) as D2.
    pose proof (Z.mod_pos_bound (Zneg m) (2 ^ (- e)) Pe) as B2.
    assert (Eneg : Zneg m = - Zpos m) by reflexivity.
    set (q1 := Zpos m / 2 ^ (- e)) in *. set (q2 := Zneg m / 2 ^ (- e)) in *.
    set (r1 := Zpos m mod 2 ^ (- e)) in *. set (r2 := Zneg m mod 2 ^ (- e)) in *.
    set (t := 2 ^ (- e)) in *.
    assert (0 <= q1) by nia.
    assert (q1 <= - q2) by nia.
    assert (- q2 <= q1 + 1) by nia.
    assert (q1 < n) by nia.
    assert (- q2 <= n) by nia.
    repeat split; try assumption; left; reflexivity.
Qed.

(** The tests of [outside] on such a double. *)
Lemma index_tests (y : B64.t) (k n : Z) :
  0 <= k < n -> n <= 2 ^ 52 ->
  y = B64.of_int k false \/ k = 0 /\ y = S754_zero true ->
  SFltb y (S754_zero false) = false /\ SFleb (B64.of_int n false) y = false
  /\ B64.plus y (B64.of_int 1 false) = B64.of_int (k + 1) false.
Proof.
  intros K N H.
  assert (P53 : 2 ^ 52 < 2 ^ 53) by (apply Z.pow_lt_mono_r; lia).
  assert (Vn : SpecFloat.valid_binary 53 1024 (B64.of_int n false) = true)
    by apply normalize_valid.
  assert (Fn : finite_or_zero (B64.of_int n false) = true).
  { destruct (of_int_number n ltac:(lia)) as [-> | (m' & e' & ->)]; reflexivity. }
  assert (Vk : SpecFloat.valid_binary 53 1024 (B64.of_int k false) = true)
    by apply normalize_valid.
  assert (Fk : finite_or_zero (B64.of_int k false) = true).
  { destruct (of_int_number k ltac:(lia)) as [-> | (m' & e' & ->)]; reflexivity. }
  assert (L : SFleb (B64.of_int n false) (B64.of_int k false) = false).
  { destruct (SFleb (B64.of_int n false) (B64.of_int k false)) eqn:E; [| reflexivity].
    apply leb_scaled in E; try assumption.
    rewrite !scaled_of_int in E by lia.
    assert (0 < 2 ^ 1074) by (apply Z.pow_pos_nonneg; lia). nia. }
  destruct H as [-> | [-> ->]].
  - split; [| split; [exact L | apply plus_one; lia]].
    destruct (SFltb (B64.of_int k false) (S754_zero false)) eqn:E; [| reflexivity].
    apply of_int_not_negative in E. lia.
  - split; [reflexivity | split; [| reflexivity]].
    destruct (of_int_number n ltac:(lia)) as [E | (m' & e' & E)]; rewrite E in *.
    + discriminate L.
    + reflexivity.
Qed.

End B64FloorFacts.

Section DoubleDomain.
Import B64Order B64OrderFacts B64IntFacts B64FloorFacts.
Local Existing Instance binary64 | 0.
Open Scope Z_scope.

(** A pair of such doubles is inside the grid. *)
Lemma outside_inside (env : @Env binary64) (a b : B64.t) (ka kb : Z) :
  width env <= 2 ^ 52 -> height env <= 2 ^ 52 ->
  0 <= ka < width env -> 0 <= kb < height env ->
  a = B64.of_int ka false \/ ka = 0 /\ a = S754_zero true ->
  b = B64.of_int kb false \/ kb = 0 /\ b = S754_zero true ->
  outside env a b = false.
Proof.
  intros Hw Hh Ka Kb Ea Eb.
  destruct (index_tests a ka (width env) Ka Hw Ea) as (A1 & A2 & _).
  destruct (index_tests b kb (height env) Kb Hh Eb) as (B1 & B2 & _).
  unfold outside. cbn [ltb leb of_Z binary64].
  change (B64.of_int 0 false) with (S754_zero false).
  rewrite A1, A2, B1, B2. reflexivity.
Qed.

(** X18.  On the doubles, for a grid of 2 to [2^52] columns and rows
    and a point whose coordinates are not negative: the sampler has a
    value exactly when [p.x < width - 1] and [p.y < height - 1]. *)
Lemma vectorField_defined_binary64 (env : @Env binary64) (p : @Point binary64) :
  2 <= width env <= 2 ^ 52 -> 2 <= height env <= 2 ^ 52 ->
  SpecFloat.valid_binary 53 1024 (px p) = true ->
  SpecFloat.valid_binary 53 1024 (py p) = true ->
  (of_Z 0 <=? px p)%js = true -> (of_Z 0 <=? py p)%js = true ->
  ((exists v : Point, vectorField env p = Some v)
   <-> (px p <? of_Z (width env) - of_Z 1)%js = true
       /\ (py p <? of_Z (height env) - of_Z 1)%js = true).
Proof.
  destruct p as [x y]. cbn [px py]. intros Hw Hh Vx Vy X0 Y0.
  assert (P53 : 2 ^ 52 < 2 ^ 53) by (apply Z.pow_lt_mono_r; lia).
  cbn [ltb leb sub of_Z binary64] in *.
  change (B64.of_int 0 false) with (S754_zero false) in *.
  rewrite !minus_one by lia.
  split.
  - intros [v Hv].
    assert (Nw : is_number (B64.of_int (width env - 1) false) = true).
    { destruct (of_int_number (width env - 1) ltac:(lia)) as [-> | (m & e & ->)];
        reflexivity. }
    assert (Nh : is_number (B64.of_int (height env - 1) false) = true).
    { destruct (of_int_number (height env - 1) ltac:(lia)) as [-> | (m & e & ->)];
        reflexivity. }
    destruct (SFltb x (B64.of_int (width env - 1) false)) eqn:Ex.
    + destruct (SFltb y (B64.of_int (height env - 1) false)) eqn:Ey; [auto |].
      exfalso.
      apply not_ltb_leb in Ey; [| apply (leb_numbers _ _ Y0) | exact Nh].
      rewrite (last_row_or_column_binary64 env (mkPoint x y)) in Hv;
        [discriminate | lia | lia | exact Vx | exact Vy |].
      right. cbn [px py ltb leb sub of_Z binary64].
      rewrite minus_one by lia. exact Ey.
    + exfalso.
      apply not_ltb_leb in Ex; [| apply (leb_numbers _ _ X0) | exact Nw].
      rewrite (last_row_or_column_binary64 env (mkPoint x y)) in Hv;
        [discriminate | lia | lia | exact Vx | exact Vy |].
      left. cbn [px py ltb leb sub of_Z binary64].
      rewrite minus_one by lia. exact Ex.
  - intros [Hx Hy].
    destruct (floor_ceil_below x (width env - 1) ltac:(lia) Vx X0 Hx)
      as (k & k' & K0 & K1 & K2 & K3 & K4 & Fx & Cx).
    destruct (floor_ceil_below y (height env - 1) ltac:(lia) Vy Y0 Hy)
      as (j & j' & J0 & J1 & J2 & J3 & J4 & Fy & Cy).
    destruct (index_tests _ k (width env) ltac:(lia) ltac:(lia) Fx) as (Fx1 & _ & Fx3).
    destruct (index_tests _ j (height env) ltac:(lia) ltac:(lia) Fy) as (Fy1 & _ & Fy3).
    destruct (index_tests _ k' (width env) ltac:(lia) ltac:(lia) Cx) as (_ & Cx2 & _).
    destruct (index_tests _ j' (height env) ltac:(lia) ltac:(lia) Cy) as (_ & Cy2 & _).
    assert (Elx : lower_x (mkPoint x y) = B64.floor x).
    { unfold lower_x. cbn [px ltb leb floor ceil of_Z binary64].
      change (B64.of_int 0 false) with (S754_zero false).
      rewrite Fx1. reflexivity. }
    assert (Ely : lower_y (mkPoint x y) = B64.floor y).
    { unfold lower_y. cbn [py ltb leb floor ceil of_Z binary64].
      change (B64.of_int 0 false) with (S754_zero false).
      rewrite Fy1. reflexivity. }
    assert (Eux : upper_x env (mkPoint x y) = B64.ceil x).
    { unfold upper_x. cbn [px ltb leb floor ceil of_Z binary64].
      rewrite Cx2. reflexivity. }
    assert (Euy : upper_y env (mkPoint x y) = B64.ceil y).
    { unfold upper_y. cbn [py ltb leb floor ceil of_Z binary64].
      destruct (SFltb (B64.of_int (height env) false) (B64.ceil y)) eqn:E; [| reflexivity].
      apply ltb_leb in E. rewrite E in Cy2. discriminate. }
    unfold vectorField. cbv zeta. rewrite Elx, Ely, Eux, Euy.
    cbn [add of_Z binary64]. rewrite Fx3, Fy3.
    assert (In1 : forall a b ka kb,
               0 <= ka < width env -> 0 <= kb < height env ->
               a = B64.of_int ka false \/ ka = 0 /\ a = S754_zero true ->
               b = B64.of_int kb false \/ kb = 0 /\ b = S754_zero true ->
               outside env a b = false).
    { intros a b ka kb Ka Kb Ea Eb.
      apply (outside_inside env a b ka kb); try assumption; lia. }
    rewrite (In1 _ _ k j) by (try assumption; lia).
    rewrite (In1 _ _ k' j') by (try assumption; lia).
    unfold getXY.
    rewrite (In1 _ _ k j) by (try assumption; lia).
    rewrite (In1 _ _ (k + 1) j) by (try assumption; try lia; left; reflexivity).
    rewrite (In1 _ _ k (j + 1)) by (try assumption; try lia; left; reflexivity).
    rewrite (In1 _ _ (k + 1) (j + 1)) by (try lia; left; reflexivity).
    cbn [orb]. eexists. reflexivity.
Qed.

Lemma vectorField_defined_binary64_witness :
  (exists v : Point, vectorField ramp_env (mkPoint (dec 15 1) (of_Z 1)) = Some v)
  <-> (@dec binary64 15 1 <? of_Z (width ramp_env) - of_Z 1)%js = true
      /\ (@of_Z binary64 1 <? of_Z (height ramp_env) - of_Z 1)%js = true.
Proof.
  apply (vectorField_defined_binary64 ramp_env (mkPoint (dec 15 1) (of_Z 1)));
    try reflexivity; cbn [width height ramp_env processItem_env ramp_data data_u Ni Nj];
    lia.
Defined.

End DoubleDomain.

Module B64ExactFacts.
Import B64Order B64OrderFacts B64Int B64IntFacts B64RoundFacts B64ValueFacts B64PixelFacts.
Open Scope Z_scope.

(** Two positive doubles of one value are one double. *)
Lemma scaled_inj (m m' : positive) (e e' : Z) :
  SpecFloat.valid_binary 53 1024 (S754_finite false m e) = true ->
  SpecFloat.valid_binary 53 1024 (S754_finite false m' e') = true ->
  Zpos m * 2 ^ (e + 1074) = Zpos m' * 2 ^ (e' + 1074) ->
  m = m' /\ e = e'.
Proof.
  intros V V' H.
  destruct (valid_finite _ _ _ V) as (_ & R & _).
  destruct (Z.lt_trichotomy e e') as [L | [E | L]].
  - pose proof (scaled_lt_exp false false m m' e e' V V' L). lia.
  - subst e'. split; [| reflexivity].
    assert (P : 0 < 2 ^ (e + 1074)) by (apply Z.pow_pos_nonneg; lia).
    apply Z.mul_reg_r in H; [| lia]. congruence.
  - pose proof (scaled_lt_exp false false m' m e' e V' V L). lia.
Qed.

(** A double that is at once at or below and at or above a positive
    double is that double. *)
Lemma leb_antisym (r : B64.t) (mc : positive) (ec : Z) :
  SpecFloat.valid_binary 53 1024 r = true ->
  SpecFloat.valid_binary 53 1024 (S754_finite false mc ec) = true ->
  SFleb r (S754_finite false mc ec) = true ->
  SFleb (S754_finite false mc ec) r = true ->
  r = S754_finite false mc ec.
Proof.
  intros Vr Vc L1 L2.
  assert (Fr : finite_or_zero r = true).
  { apply (between_finite (S754_finite false mc ec) r (S754_finite false mc ec));
      try reflexivity; assumption. }
  apply leb_scaled in L1; try assumption; try reflexivity.
  apply leb_scaled in L2; try assumption; try reflexivity.
  destruct (valid_finite _ _ _ Vc) as (_ & Rc & _).
  assert (P : 0 < 2 ^ (ec + 1074)) by (apply Z.pow_pos_nonneg; lia).
  assert (Pc : 0 < Zpos mc * 2 ^ (ec + 1074)) by (apply Z.mul_pos_pos; lia).
  unfold scaled in L1, L2. cbn [cond_Zopp] in L1, L2.
  destruct r as [s | s | | s m e]; try discriminate.
  - lia.
  - destruct (valid_finite _ _ _ Vr) as (_ & Rr & _).
    assert (Pr : 0 < 2 ^ (e + 1074)) by (apply Z.pow_pos_nonneg; lia).
    assert (Pm : 0 < Zpos m * 2 ^ (e + 1074)) by (apply Z.mul_pos_pos; lia).
    destruct s; cbn [cond_Zopp] in L1, L2; [lia |].
    destruct (scaled_inj m mc e ec Vr Vc ltac:(lia)) as [-> ->]. reflexivity.
Qed.

(** Rounding a value that is a double gives that double. *)
Lemma normalize_exact (D E : Z) (s0 : bool) (mc : positive) (ec : Z) :
  SpecFloat.valid_binary 53 1024 (S754_finite false mc ec) = true ->
  -1074 <= E ->
  D * 2 ^ (E + 1074) = Zpos mc * 2 ^ (ec + 1074) ->
  binary_normalize 53 1024 D E s0 = S754_finite false mc ec.
Proof.
  intros Vc HE H.
  apply leb_antisym; [apply normalize_valid | exact Vc | |].
  - apply normalize_le; [exact Vc | reflexivity | exact HE |].
    unfold scaled. cbn [cond_Zopp]. lia.
  - apply normalize_ge; [exact Vc | reflexivity | exact HE |].
    unfold scaled. cbn [cond_Zopp]. lia.
Qed.

Lemma round_aux_exact (M : positive) (E : Z) (mc : positive) (ec : Z) :
  SpecFloat.valid_binary 53 1024 (S754_finite false mc ec) = true ->
  E <= Z.max (digits M + E - 53) (-1074) ->
  E <= ec -> Zpos M = Zpos mc * 2 ^ (ec - E) ->
  binary_round_aux 53 1024 false (Zpos M) E loc_Exact = S754_finite false mc ec.
Proof.
  intros Vc HA HE H.
  apply leb_antisym; [apply round_aux_valid; [lia | exact HA] | exact Vc | |].
  - apply round_aux_le; try assumption. lia.
  - apply round_aux_ge; try assumption. lia.
Qed.

(** A value that is an integer below [2^53] rounds to the double of the
    integer. *)
Lemma of_int_exact (D E n : Z) :
  0 <= n < 2 ^ 53 -> -1074 <= E ->
  D * 2 ^ (E + 1074) = n * 2 ^ 1074 ->
  binary_normalize 53 1024 D E false = B64.of_int n false.
Proof.
  intros N HE H.
  assert (P : 0 < 2 ^ (E + 1074)) by (apply Z.pow_pos_nonneg; lia).
  assert (P' : 0 < 2 ^ 1074) by (apply Z.pow_pos_nonneg; lia).
  destruct n as [| q | q]; [| | lia].
  - assert (D = 0) by nia. subst D. reflexivity.
  - assert (Dq : digits q <= 53) by (apply digits_small; lia).
    pose proof (scaled_of_int (Zpos q) ltac:(lia)) as S.
    pose proof (normalize_valid (Zpos q) 0 false) as V.
    fold (B64.of_int (Zpos q) false) in V.
    rewrite of_int_pos in * by exact Dq. unfold canon in *.
    apply normalize_exact; [exact V | exact HE |].
    unfold scaled in S. cbn [cond_Zopp] in S. lia.
Qed.

(** The doubles of the integers below [2^53]. *)
Lemma of_int_valid (n : Z) : SpecFloat.valid_binary 53 1024 (B64.of_int n false) = true.
Proof. apply normalize_valid. Qed.

Lemma of_int_cases (n : Z) :
  0 <= n < 2 ^ 53 ->
  n = 0 /\ B64.of_int n false = S754_zero false
  \/ exists (m : positive) (e : Z),
       B64.of_int n false = S754_finite false m e
       /\ -52 <= e <= 0 /\ digits m = 53 /\ Zpos m * 2 ^ (e + 1074) = n * 2 ^ 1074.
Proof.
  intros N. destruct n as [| q | q]; [left; split; reflexivity | right | lia].
  assert (Dq : digits q <= 53) by (apply digits_small; lia).
  pose proof (digits_pos q) as Pq.
  pose proof (scaled_of_int (Zpos q) ltac:(lia)) as S.
  rewrite of_int_pos in * by exact Dq. unfold canon in *.
  eexists. eexists. split; [reflexivity |]. split; [lia |]. split.
  - rewrite digits_shift by lia. lia.
  - exact S.
Qed.

(** Sums, products, halves and remainders of integers are exact on the
    doubles, below [2^53]. *)
Lemma plus_int (a b : Z) :
  0 <= a -> 0 <= b -> a + b < 2 ^ 53 ->
  B64.plus (B64.of_int a false) (B64.of_int b false) = B64.of_int (a + b) false.
Proof.
  intros A B H.
  destruct (of_int_cases a ltac:(lia)) as [[-> Ea] | (ma & ea & Ea & Ra & Da & Sa)];
    destruct (of_int_cases b ltac:(lia)) as [[-> Eb] | (mb & eb & Eb & Rb & Db & Sb)].
  - reflexivity.
  - rewrite Ea. cbn [Z.add]. rewrite Eb. reflexivity.
  - rewrite Z.add_0_r, Eb, Ea. reflexivity.
  - rewrite Ea, Eb, plus_finite. apply of_int_exact; [lia | lia |].
    rewrite plus_finite_scaled by lia. unfold scaled. cbn [cond_Zopp]. lia.
Qed.

Lemma times_int (a b : Z) :
  0 <= a < 2 ^ 53 -> 0 <= b < 2 ^ 53 -> a * b < 2 ^ 53 ->
  B64.times (B64.of_int a false) (B64.of_int b false) = B64.of_int (a * b) false.
Proof.
  intros A B H.
  assert (P' : 0 < 2 ^ 1074) by (apply Z.pow_pos_nonneg; lia).
  destruct (of_int_cases a A) as [[-> Ea] | (ma & ea & Ea & Ra & Da & Sa)];
    destruct (of_int_cases b B) as [[-> Eb] | (mb & eb & Eb & Rb & Db & Sb)].
  - reflexivity.
  - rewrite Ea. cbn [Z.mul]. rewrite Eb. reflexivity.
  - rewrite Z.mul_0_r, Ea, Eb. reflexivity.
  - idtac.
    assert (Pa : 0 < a) by (destruct (Z.eq_dec a 0) as [-> | NZ]; [nia | lia]).
    assert (Pb : 0 < b) by (destruct (Z.eq_dec b 0) as [-> | NZ]; [nia | lia]).
    destruct (of_int_cases (a * b) ltac:(nia)) as [[E0 _] | (mc & ec & Ec & Rc & Dc & Sc)];
      [nia |].
    pose proof (of_int_valid (a * b)) as Vc.
    rewrite Ea, Eb, Ec in *. unfold B64.times, SFmul. cbn [xorb].
    pose proof (digits_bounds ma) as [Alo Ahi]. pose proof (digits_bounds mb) as [Blo Bhi].
    rewrite Da in Alo, Ahi. rewrite Db in Blo, Bhi.
    change (2 ^ (53 - 1)) with (2 ^ 52) in Alo, Blo.
    assert (DM : 105 <= digits (ma * mb)).
    { destruct (Z.le_gt_cases 105 (digits (ma * mb))) as [L | L]; [exact L | exfalso].
      pose proof (digits_bounds (ma * mb)) as [_ Mhi].
      assert (2 ^ digits (ma * mb) <= 2 ^ 104) by (apply Z.pow_le_mono_r; lia).
      rewrite Pos2Z.inj_mul in Mhi.
      assert (2 ^ 52 * 2 ^ 52 <= Zpos ma * Zpos mb) by (apply Z.mul_le_mono_nonneg; lia).
      change (2 ^ 52 * 2 ^ 52) with (2 ^ 104) in *. lia. }
    (* the values *)
    assert (Pea : 0 < 2 ^ (ea + 1074)) by (apply Z.pow_pos_nonneg; lia).
    assert (Peb : 0 < 2 ^ (eb + 1074)) by (apply Z.pow_pos_nonneg; lia).
    assert (Sab : Zpos ma * Zpos mb * 2 ^ (ea + eb + 1074) = Zpos mc * 2 ^ (ec + 1074)).
    { apply (Z.mul_reg_r _ _ (2 ^ 1074)); [lia |].
      rewrite <- !Z.mul_assoc, <- Z.pow_add_r by lia.
      replace (ea + eb + 1074 + 1074) with ((ea + 1074) + (eb + 1074)) by lia.
      rewrite Z.pow_add_r by lia.
      replace (Zpos ma * (Zpos mb * (2 ^ (ea + 1074) * 2 ^ (eb + 1074))))
        with ((Zpos ma * 2 ^ (ea + 1074)) * (Zpos mb * 2 ^ (eb + 1074))) by ring.
      rewrite Sa, Sb.
      replace (Zpos mc * (2 ^ (ec + 1074) * 2 ^ 1074))
        with ((Zpos mc * 2 ^ (ec + 1074)) * 2 ^ 1074) by ring.
      rewrite Sc. ring. }
    assert (HE : ea + eb <= ec).
    { destruct (Z.le_gt_cases (ea + eb) ec) as [L | L]; [exact L | exfalso].
      pose proof (digits_bounds mc) as [Clo Chi]. rewrite Dc in Clo, Chi.
      change (2 ^ (53 - 1)) with (2 ^ 52) in Clo.
      assert (Pec : 0 < 2 ^ (ec + 1074)) by (apply Z.pow_pos_nonneg; lia).
      assert (S2 : 2 ^ (ea + eb + 1074) = 2 ^ (ea + eb - ec) * 2 ^ (ec + 1074)).
      { rewrite <- Z.pow_add_r by lia. f_equal. lia. }
      rewrite S2, Z.mul_assoc in Sab. apply Z.mul_reg_r in Sab; [| lia].
      assert (2 ^ 1 <= 2 ^ (ea + eb - ec)) by (apply Z.pow_le_mono_r; lia).
      change (2 ^ 1) with 2 in *.
      assert (2 ^ 52 * 2 ^ 52 <= Zpos ma * Zpos mb) by (apply Z.mul_le_mono_nonneg; lia).
      change (2 ^ 52 * 2 ^ 52) with (2 ^ 104) in *.
      assert (2 ^ 53 < 2 ^ 104) by (apply Z.pow_lt_mono_r; lia).
      nia. }
    apply round_aux_exact; [exact Vc | lia | exact HE |].
    rewrite Pos2Z.inj_mul.
    assert (Pe : 0 < 2 ^ (ea + eb + 1074)) by (apply Z.pow_pos_nonneg; lia).
    apply (Z.mul_reg_r _ _ (2 ^ (ea + eb + 1074))); [lia |].
    rewrite Sab, <- Z.mul_assoc, <- Z.pow_add_r by lia.
    f_equal. f_equal. lia.
Qed.

Lemma half_int (w : Z) :
  0 <= w < 2 ^ 53 -> w mod 2 = 0 ->
  B64.divide (B64.of_int w false) (B64.of_int 2 false) = B64.of_int (w / 2) false.
Proof.
  intros W Hw.
  assert (Ew : w = 2 * (w / 2)) by (apply Z.div_exact; [lia | exact Hw]).
  assert (P' : 0 < 2 ^ 1074) by (apply Z.pow_pos_nonneg; lia).
  change (B64.of_int 2 false) with (S754_finite false 4503599627370496 (-51)).
  destruct (of_int_cases w W) as [[-> Ea] | (mw & e1 & Ea & Ra & Da & Sa)].
  - reflexivity.
  - assert (Ph : 0 < w / 2).
    { destruct (Z.eq_dec (w / 2) 0) as [E0 | NZ]; [| lia].
      rewrite E0 in Ew. subst w. nia. }
    destruct (of_int_cases (w / 2) ltac:(lia)) as [[E0 _] | (mc & ec & Ec & Rc & Dc & Sc)];
      [lia |].
    pose proof (of_int_valid (w / 2)) as Vc.
    rewrite Ea, Ec in *.
    unfold B64.divide, SFdiv, SFdiv_core_binary, fexp, SpecFloat.emin.
    cbn [Zdigits2 xorb]. fold (digits mw) (digits 4503599627370496).
    change (digits 4503599627370496) with 53. rewrite Da.
    change (3 - 1024 - 53) with (-1074).
    replace (Z.min (Z.max (53 + e1 - (53 + -51) - 53) (-1074)) (e1 - -51))
      with (e1 - 2) by lia.
    replace (e1 - -51 - (e1 - 2)) with 53 by lia.
    rewrite Z.shiftl_mul_pow2 by lia.
    change (Zpos 4503599627370496) with (2 ^ 52).
    destruct (Z.div_eucl (Zpos mw * 2 ^ 53) (2 ^ 52)) as [q r] eqn:Ediv.
    assert (Eq : q = Zpos mw * 2 ^ 53 / 2 ^ 52) by (unfold Z.div; rewrite Ediv; reflexivity).
    assert (Er : r = (Zpos mw * 2 ^ 53) mod 2 ^ 52)
      by (unfold Z.modulo; rewrite Ediv; reflexivity).
    change (2 ^ 53) with (2 * 2 ^ 52) in Eq, Er.
    rewrite Z.mul_assoc in Eq, Er.
    rewrite Z.div_mul in Eq by (apply Z.pow_nonzero; lia).
    rewrite Z.mod_mul in Er by (apply Z.pow_nonzero; lia).
    subst q r.
    change (new_location (2 ^ 52) 0) with loc_Exact.
    change (Zpos mw * 2) with (Zpos (mw * 2)).
    pose proof (digits_bounds mw) as [Alo Ahi]. rewrite Da in Alo, Ahi.
    assert (DM : digits (mw * 2) = 54).
    { apply digits_unique. rewrite Pos2Z.inj_mul.
      change (2 ^ (54 - 1)) with (2 ^ 52 * 2). change (2 ^ 54) with (2 ^ 53 * 2).
      change (2 ^ (53 - 1)) with (2 ^ 52) in Alo. lia. }
    assert (Pe1 : 0 < 2 ^ (e1 + 1074)) by (apply Z.pow_pos_nonneg; lia).
    assert (Pec : 0 < 2 ^ (ec + 1074)) by (apply Z.pow_pos_nonneg; lia).
    (* the value of the quotient *)
    assert (Sq : Zpos (mw * 2) * 2 ^ (e1 - 2 + 1074) = Zpos mc * 2 ^ (ec + 1074)).
    { rewrite Sc. apply (Z.mul_reg_l _ _ 2); [lia |].
      replace (2 * (w / 2 * 2 ^ 1074)) with (w * 2 ^ 1074) by lia.
      rewrite <- Sa, Pos2Z.inj_mul.
      replace (e1 + 1074) with (1 + (e1 - 2 + 1074) + 1) by lia.
      set (X := e1 - 2 + 1074). assert (0 <= X) by (unfold X; lia).
      rewrite (Z.pow_add_r 2 (1 + X) 1), (Z.pow_add_r 2 1 X) by lia.
      change (2 ^ 1) with 2. ring. }
    assert (HE : e1 - 2 <= ec).
    { destruct (Z.le_gt_cases (e1 - 2) ec) as [L | L]; [exact L | exfalso].
      pose proof (digits_bounds mc) as [Clo Chi]. rewrite Dc in Clo, Chi.
      change (2 ^ (53 - 1)) with (2 ^ 52) in Clo.
      assert (S2 : 2 ^ (e1 - 2 + 1074) = 2 ^ (e1 - 2 - ec) * 2 ^ (ec + 1074)).
      { rewrite <- Z.pow_add_r by lia. f_equal. lia. }
      rewrite S2, Z.mul_assoc in Sq. apply Z.mul_reg_r in Sq; [| lia].
      assert (2 ^ 1 <= 2 ^ (e1 - 2 - ec)) by (apply Z.pow_le_mono_r; lia).
      change (2 ^ 1) with 2 in *. rewrite Pos2Z.inj_mul in Sq.
      change (2 ^ (53 - 1)) with (2 ^ 52) in Alo.
      change (2 ^ 53) with (2 * 2 ^ 52) in Chi. nia. }
    apply round_aux_exact; [exact Vc | lia | exact HE |].
    assert (Pe : 0 < 2 ^ (e1 - 2 + 1074)) by (apply Z.pow_pos_nonneg; lia).
    apply (Z.mul_reg_r _ _ (2 ^ (e1 - 2 + 1074))); [lia |].
    rewrite Sq, <- Z.mul_assoc, <- Z.pow_add_r by lia.
    f_equal. f_equal. lia.
Qed.

Lemma rem_int (a w : Z) :
  0 <= a < 2 ^ 53 -> 0 < w < 2 ^ 53 ->
  B64.remainder (B64.of_int a false) (B64.of_int w false) = B64.of_int (a mod w) false.
Proof.
  intros A W.
  assert (P' : 0 < 2 ^ 1074) by (apply Z.pow_pos_nonneg; lia).
  pose proof (Z.mod_pos_bound a w ltac:(lia)) as Bm.
  destruct (of_int_cases w ltac:(lia)) as [[E0 _] | (mw & ew & Ew & Rw & Dw & Sw)];
    [lia |].
  destruct (of_int_cases a A) as [[-> Ea] | (ma & ea & Ea & Ra & Da & Sa)].
  - rewrite Ea, Ew. reflexivity.
  - rewrite Ea, Ew. unfold B64.remainder. cbv zeta.
    rewrite !Z.shiftl_mul_pow2 by lia. cbn [cond_Zopp].
    set (e := Z.min ea ew).
    assert (Pe : 0 < 2 ^ (e + 1074)) by (apply Z.pow_pos_nonneg; unfold e; lia).
    assert (Pn : 0 < 2 ^ (- e)) by (apply Z.pow_pos_nonneg; unfold e; lia).
    assert (Xa : Zpos ma * 2 ^ (ea - e) = a * 2 ^ (- e)).
    { apply (Z.mul_reg_r _ _ (2 ^ (e + 1074))); [lia |].
      rewrite <- !Z.mul_assoc, <- !Z.pow_add_r by (unfold e; lia).
      replace (ea - e + (e + 1074)) with (ea + 1074) by lia.
      replace (- e + (e + 1074)) with 1074 by lia. exact Sa. }
    assert (Xw : Zpos mw * 2 ^ (ew - e) = w * 2 ^ (- e)).
    { apply (Z.mul_reg_r _ _ (2 ^ (e + 1074))); [lia |].
      rewrite <- !Z.mul_assoc, <- !Z.pow_add_r by (unfold e; lia).
      replace (ew - e + (e + 1074)) with (ew + 1074) by lia.
      replace (- e + (e + 1074)) with 1074 by lia. exact Sw. }
    rewrite Xa, Xw.
    rewrite Z.rem_mod_nonneg by nia.
    rewrite Z.mul_mod_distr_r by lia.
    apply of_int_exact; [lia | unfold e; lia |].
    rewrite <- Z.mul_assoc, <- Z.pow_add_r by (unfold e; lia).
    replace (- e + (e + 1074)) with 1074 by lia. reflexivity.
Qed.

End B64ExactFacts.

(** ** The loading loops, at every instance *)

Section LoaderLoops.
Context {N : JSNumber}.
Variable data : Dataset.
Variables w bound : Z.

(** What the loops need of the arithmetic: a cell written in its turn
    extends the array by its two values. *)
Hypothesis cell_appends :
  forall (vf : list num) (y x : Z),
    (0 <= x < w)%Z -> (0 <= y)%Z -> (y * w + x < bound)%Z ->
    Z.of_nat (List.length vf) = (2 * (y * w + x))%Z ->
    fill_cell data w vf y x
    = vf ++ [shifted_value (data_u data) w x y; shifted_value (data_v data) w x y].

Lemma loops_step (vf : list num) (y x : Z) :
  (0 <= x < w)%Z -> (0 <= y)%Z -> (y * w + x < bound)%Z ->
  filled data w (y * w + x) vf ->
  filled data w (y * w + x + 1) (fill_cell data w vf y x).
Proof.
  intros Hx Hy Hb [Hlen Hold].
  rewrite cell_appends by assumption.
  split.
  - rewrite length_app. cbn [List.length]. lia.
  - intros x' y' Hx' Hy' Hlt.
    destruct (Z.eq_dec (y' * w + x') (y * w + x)) as [E | NE].
    + assert (Ey : y' = y) by nia. subst y'.
      assert (Ex : x' = x) by lia. subst x'.
      replace (Z.to_nat (2 * (y * w + x))) with (List.length vf) by lia.
      split.
      * apply nth_middle.
      * replace (Z.to_nat (2 * (y * w + x) + 1)) with (S (List.length vf)) by lia.
        change (vf ++ [?a; ?b]) with (vf ++ [a] ++ [b]).
        rewrite app_assoc.
        replace (S (List.length vf))
          with (List.length (vf ++ [shifted_value (data_u data) w x y])).
        -- apply nth_middle.
        -- rewrite length_app. cbn. lia.
    + destruct (Hold x' y' Hx' Hy') as [Hu Hv]; [lia |].
      assert (Hnn : (0 <= y' * w)%Z) by nia.
      rewrite !app_nth1 by lia. split; assumption.
Qed.

Lemma loops_row (y : Z) (n a : nat) (vf : list num) :
  (0 <= y)%Z -> (Z.of_nat (a + n) <= w)%Z -> (y * w + Z.of_nat (a + n) <= bound)%Z ->
  filled data w (y * w + Z.of_nat a) vf ->
  filled data w (y * w + Z.of_nat (a + n))
    (fold_left (fun vf x => fill_cell data w vf y x) (map Z.of_nat (seq a n)) vf).
Proof.
  intros Hy. revert a vf.
  induction n as [| n IH]; intros a vf Hle Hb Hf.
  - rewrite Nat.add_0_r. exact Hf.
  - cbn [seq map fold_left].
    replace (a + S n)%nat with (S a + n)%nat in * by lia.
    apply IH; [lia | lia |].
    replace (y * w + Z.of_nat (S a))%Z with (y * w + Z.of_nat a + 1)%Z by lia.
    apply loops_step; [lia | exact Hy | lia | exact Hf].
Qed.

Lemma loops_rows (n b : nat) (vf : list num) :
  (0 < w)%Z -> (Z.of_nat (b + n) * w <= bound)%Z ->
  filled data w (Z.of_nat b * w) vf ->
  filled data w (Z.of_nat (b + n) * w)
    (fold_left
       (fun vf y => fold_left (fun vf x => fill_cell data w vf y x) (counter w) vf)
       (map Z.of_nat (seq b n)) vf).
Proof.
  intros Hpos. revert b vf.
  induction n as [| n IH]; intros b vf Hb Hf.
  - rewrite Nat.add_0_r. exact Hf.
  - cbn [seq map fold_left].
    replace (b + S n)%nat with (S b + n)%nat in * by lia.
    apply IH; [exact Hb |].
    replace (Z.of_nat (S b) * w)%Z
      with (Z.of_nat b * w + Z.of_nat (0 + Z.to_nat w))%Z by lia.
    apply loops_row; [lia | lia | nia |].
    replace (Z.of_nat b * w + Z.of_nat 0)%Z with (Z.of_nat b * w)%Z by lia.
    exact Hf.
Qed.

Lemma loops_filled (h : Z) :
  (0 < w)%Z -> (0 <= h)%Z -> (h * w <= bound)%Z ->
  filled data w (h * w) (fill_vfData data w h).
Proof.
  intros Hpos Hh Hb. unfold fill_vfData, counter.
  replace h with (Z.of_nat (0 + Z.to_nat h)) at 1 by lia.
  apply loops_rows; [exact Hpos | lia |].
  split.
  - reflexivity.
  - intros x y Hx Hy Hlt. nia.
Qed.

End LoaderLoops.

Section DoubleLoader.
Import B64Order B64IntFacts B64PixelFacts B64ExactFacts.
Local Existing Instance binary64 | 0.
Open Scope Z_scope.

(** On the doubles the index arithmetic of the loops is exact, for a
    grid of fewer than [2^50] cells. *)
Lemma fill_cell_appends_binary64 (data : @Dataset binary64) (w : Z)
    (vf : list (@num binary64)) (y x : Z) :
  w mod 2 = 0 -> w < 2 ^ 50 ->
  0 <= x < w -> 0 <= y -> y * w + x < 2 ^ 50 ->
  Z.of_nat (List.length vf) = 2 * (y * w + x) ->
  fill_cell data w vf y x
  = vf ++ [shifted_value (data_u data) w x y; shifted_value (data_v data) w x y].
Proof.
  intros Hw Hwb Hx Hy Hb Hlen.
  assert (P50 : 2 ^ 50 * 8 = 2 ^ 53) by reflexivity.
  assert (P50' : 0 < 2 ^ 50) by reflexivity.
  assert (Hyw : 0 <= y * w) by nia.
  assert (Hyb : y < 2 ^ 50) by nia.
  assert (Hh : 0 <= w / 2 < w) by (split; [apply Z.div_pos; lia | apply Z.div_lt; lia]).
  pose proof (Z.mod_pos_bound (x + w / 2) w ltac:(lia)) as Hm.
  unfold fill_cell, shifted_value. cbv zeta.
  cbn [of_Z add mul div rem binary64].
  rewrite (times_int y w) by lia.
  rewrite (plus_int (y * w) x) by lia.
  rewrite (times_int (y * w + x) 2) by lia.
  rewrite (plus_int ((y * w + x) * 2) 0), (plus_int ((y * w + x) * 2) 1) by lia.
  rewrite (half_int w) by (try assumption; lia).
  rewrite (plus_int x (w / 2)) by lia.
  rewrite (rem_int (x + w / 2) w) by lia.
  rewrite (plus_int (y * w) ((x + w / 2) mod w)) by lia.
  replace ((y * w + x) * 2 + 0) with (2 * (y * w + x)) by lia.
  replace ((y * w + x) * 2 + 1) with (2 * (y * w + x) + 1) by lia.
  set (a := normalize _ _ _). set (b := normalize _ _ _).
  assert (S1 : js_set vf (B64.of_int (2 * (y * w + x)) false) a = vf ++ [a]).
  { unfold js_set. cbn [to_index binary64]. rewrite index_of_int by lia.
    cbv zeta. rewrite (proj2 (Z.ltb_ge _ _)) by lia.
    replace (Z.to_nat (2 * (y * w + x)) - List.length vf)%nat with 0%nat by lia.
    reflexivity. }
  rewrite S1.
  unfold js_set. cbn [to_index binary64]. rewrite index_of_int by lia.
  cbv zeta. rewrite length_app. cbn [List.length].
  rewrite (proj2 (Z.ltb_ge _ _)) by lia.
  replace (Z.to_nat (2 * (y * w + x) + 1) - (List.length vf + 1))%nat with 0%nat by lia.
  cbn [repeat app]. rewrite <- app_assoc. reflexivity.
Qed.

Lemma fill_vfData_filled_binary64 (data : @Dataset binary64) (w h : Z) :
  w mod 2 = 0 -> 0 < w -> 0 <= h -> w < 2 ^ 50 -> h * w < 2 ^ 50 ->
  filled data w (h * w) (fill_vfData data w h).
Proof.
  intros Hw Hpos Hh Hwb Hb.
  apply (loops_filled data w (h * w)); try assumption; try lia.
  intros vf y x Hx Hy Hlt Hlen.
  apply fill_cell_appends_binary64; try assumption; lia.
Qed.

Lemma getXY_loaded_binary64 (data : @Dataset binary64) (x y : Z) :
  Ni (data_u data) mod 2 = 0 ->
  Ni (data_u data) * (Nj (data_u data) - 1) < 2 ^ 50 ->
  0 <= x < Ni (data_u data) -> 0 <= y < Nj (data_u data) - 1 ->
  getXY (processItem_env data) (of_Z x) (of_Z y)
  = Some (mkPoint (shifted_value (data_u data) (Ni (data_u data)) x y)
                  (shifted_value (data_v data) (Ni (data_u data)) x y)).
Proof.
  intros Hw Hb Hx Hy.
  set (w := Ni (data_u data)) in *. set (h := Nj (data_u data) - 1) in *.
  assert (P50 : 2 ^ 50 * 8 = 2 ^ 53) by reflexivity.
  assert (P50' : 2 ^ 50 * 4 = 2 ^ 52) by reflexivity.
  assert (Hwb : w < 2 ^ 50) by nia.
  assert (Hhb : h < 2 ^ 50) by nia.
  destruct (fill_vfData_filled_binary64 data w h Hw ltac:(lia) ltac:(lia) Hwb
              ltac:(lia)) as [Hlen Hcells].
  destruct (Hcells x y Hx ltac:(lia) ltac:(nia)) as [Hu Hv].
  assert (Hc : y * w + x < h * w) by nia.
  unfold getXY. cbn [of_Z binary64].
  rewrite (outside_inside (processItem_env data) (B64.of_int x false)
             (B64.of_int y false) x y)
    by (cbn [width height processItem_env]; fold w h; try lia; left; reflexivity).
  cbv zeta. cbn [vfData width processItem_env]. fold w h.
  cbn [of_Z add mul binary64].
  rewrite (times_int y w) by nia.
  rewrite (plus_int x (y * w)) by nia.
  rewrite (times_int (x + y * w) 2) by nia.
  rewrite (plus_int ((x + y * w) * 2) 1) by nia.
  replace ((x + y * w) * 2) with (2 * (y * w + x)) by lia.
  unfold js_get. cbn [to_index binary64]. rewrite !index_of_int by nia.
  rewrite !(proj2 (Z.ltb_lt _ _)) by nia.
  rewrite Hu, Hv. reflexivity.
Qed.

(** X19.  On the doubles, for a dataset of even width and fewer than
    [2^50] cells, the loops store two values for every cell of the
    field and nothing else, and [getXY] at the column [x] of the row
    [y] reads the values of the source at the column
    [(x + width / 2) mod width] of the same row, scaled to their
    ranges. *)
Lemma fill_vfData_shifted_binary64 (data : @Dataset binary64) (x y : Z) :
  Ni (data_u data) mod 2 = 0 ->
  Ni (data_u data) * (Nj (data_u data) - 1) < 2 ^ 50 ->
  0 <= x < Ni (data_u data) -> 0 <= y < Nj (data_u data) - 1 ->
  Z.of_nat (List.length (vfData (processItem_env data)))
  = 2 * (Ni (data_u data) * (Nj (data_u data) - 1))
  /\ getXY (processItem_env data) (of_Z x) (of_Z y)
     = Some (mkPoint (shifted_value (data_u data) (Ni (data_u data)) x y)
                     (shifted_value (data_v data) (Ni (data_u data)) x y)).
Proof.
  intros Hw Hb Hx Hy. split.
  - assert (P50 : 2 ^ 50 * 8 = 2 ^ 53) by reflexivity.
    destruct (fill_vfData_filled_binary64 data (Ni (data_u data)) (Nj (data_u data) - 1)
                Hw ltac:(lia) ltac:(lia) ltac:(nia) ltac:(lia)) as [Hlen _].
    cbn [vfData processItem_env]. rewrite Hlen. lia.
  - apply getXY_loaded_binary64; assumption.
Qed.

Lemma fill_vfData_shifted_binary64_witness :
  Z.of_nat (List.length (vfData (processItem_env (N := binary64) ramp_data)))
  = 2 * (4 * (5 - 1))
  /\ getXY (processItem_env (N := binary64) ramp_data) (of_Z 1) (of_Z 2)
     = Some (mkPoint (shifted_value (data_u ramp_data) 4 1 2)
                     (shifted_value (data_v ramp_data) 4 1 2)).
Proof.
  apply (fill_vfData_shifted_binary64 ramp_data 1 2);
    cbn [Ni Nj data_u ramp_data]; try reflexivity; lia.
Defined.

End DoubleLoader.

Module B64HalfFacts.
Import B64Order B64OrderFacts B64Int B64IntFacts B64RoundFacts B64ValueFacts.
Import B64PixelFacts B64ExactFacts.
Open Scope Z_scope.

(** The doubles of the halves [n / 2], for [n] below [2^53]. *)
Lemma of_half_cases (n : Z) :
  0 < n < 2 ^ 53 ->
  exists (m : positive) (e : Z),
    binary_normalize 53 1024 n (-1) false = S754_finite false m e
    /\ SpecFloat.valid_binary 53 1024 (S754_finite false m e) = true
    /\ -53 <= e <= -1 /\ digits m = 53
    /\ Zpos m * 2 ^ (e + 1074) = n * 2 ^ 1073.
Proof.
  intros N. destruct n as [| q | q]; try lia.
  assert (Dq : digits q <= 53) by (apply digits_small; lia).
  pose proof (digits_pos q) as Pq.
  assert (P : 0 < 2 ^ (53 - digits q)) by (apply Z.pow_pos_nonneg; lia).
  set (m := Z.to_pos (Zpos q * 2 ^ (53 - digits q))).
  set (e := digits q - 54).
  assert (Em : Zpos m = Zpos q * 2 ^ (53 - digits q)) by (unfold m; apply canon_mantissa, Dq).
  assert (Dm : digits m = 53) by (unfold m; rewrite digits_shift by lia; lia).
  assert (V : SpecFloat.valid_binary 53 1024 (S754_finite false m e) = true).
  { unfold SpecFloat.valid_binary, SpecFloat.bounded, canonical_mantissa, fexp,
      SpecFloat.emin.
    fold (digits m). rewrite Dm. apply andb_true_iff. split.
    - apply Z.eqb_eq. unfold e. lia.
    - apply Z.leb_le. unfold e. lia. }
  assert (S : Zpos m * 2 ^ (e + 1074) = Zpos q * 2 ^ 1073).
  { rewrite Em, <- Z.mul_assoc, <- Z.pow_add_r by (unfold e; lia).
    f_equal. f_equal. unfold e. lia. }
  exists m, e. split; [| split; [exact V | split; [unfold e; lia | split; [exact Dm | exact S]]]].
  apply normalize_exact; [exact V | lia |].
  rewrite S. reflexivity.
Qed.

(** A value that is a half rounds to the double of the half. *)
Lemma of_half_exact (D E n : Z) :
  0 < n < 2 ^ 53 -> -1074 <= E ->
  D * 2 ^ (E + 1074) = n * 2 ^ 1073 ->
  binary_normalize 53 1024 D E false = binary_normalize 53 1024 n (-1) false.
Proof.
  intros N HE H.
  destruct (of_half_cases n N) as (m & e & -> & V & _ & _ & S).
  apply normalize_exact; [exact V | exact HE | lia].
Qed.

(** Half an odd integer. *)
Lemma half_odd (w : Z) :
  0 < w < 2 ^ 52 ->
  B64.divide (B64.of_int w false) (B64.of_int 2 false)
  = binary_normalize 53 1024 w (-1) false.
Proof.
  intros W.
  assert (P52 : 2 ^ 52 * 2 = 2 ^ 53) by reflexivity.
  assert (P' : 0 < 2 ^ 1073) by (apply Z.pow_pos_nonneg; lia).
  change (B64.of_int 2 false) with (S754_finite false 4503599627370496 (-51)).
  destruct (of_int_cases w ltac:(lia)) as [[E0 _] | (mw & e1 & Ea & Ra & Da & Sa)]; [lia |].
  destruct (of_half_cases w ltac:(lia)) as (mc & ec & Ec & Vc & Rc & Dc & Sc).
  rewrite Ea, Ec.
  unfold B64.divide, SFdiv, SFdiv_core_binary, fexp, SpecFloat.emin.
  cbn [Zdigits2 xorb]. fold (digits mw) (digits 4503599627370496).
  change (digits 4503599627370496) with 53. rewrite Da.
  change (3 - 1024 - 53) with (-1074).
  replace (Z.min (Z.max (53 + e1 - (53 + -51) - 53) (-1074)) (e1 - -51))
    with (e1 - 2) by lia.
  replace (e1 - -51 - (e1 - 2)) with 53 by lia.
  rewrite Z.shiftl_mul_pow2 by lia.
  change (Zpos 4503599627370496) with (2 ^ 52).
  destruct (Z.div_eucl (Zpos mw * 2 ^ 53) (2 ^ 52)) as [q r] eqn:Ediv.
  assert (Eq : q = Zpos mw * 2 ^ 53 / 2 ^ 52) by (unfold Z.div; rewrite Ediv; reflexivity).
  assert (Er : r = (Zpos mw * 2 ^ 53) mod 2 ^ 52)
    by (unfold Z.modulo; rewrite Ediv; reflexivity).
  change (2 ^ 53) with (2 * 2 ^ 52) in Eq, Er.
  rewrite Z.mul_assoc in Eq, Er.
  rewrite Z.div_mul in Eq by (apply Z.pow_nonzero; lia).
  rewrite Z.mod_mul in Er by (apply Z.pow_nonzero; lia).
  subst q r.
  change (new_location (2 ^ 52) 0) with loc_Exact.
  change (Zpos mw * 2) with (Zpos (mw * 2)).
  pose proof (digits_bounds mw) as [Alo Ahi]. rewrite Da in Alo, Ahi.
  change (2 ^ (53 - 1)) with (2 ^ 52) in Alo.
  assert (DM : digits (mw * 2) = 54).
  { apply digits_unique. rewrite Pos2Z.inj_mul.
    change (2 ^ (54 - 1)) with (2 ^ 52 * 2). change (2 ^ 54) with (2 ^ 53 * 2). lia. }
  assert (Pe1 : 0 < 2 ^ (e1 + 1074)) by (apply Z.pow_pos_nonneg; lia).
  assert (Pec : 0 < 2 ^ (ec + 1074)) by (apply Z.pow_pos_nonneg; lia).
  assert (Sq : Zpos (mw * 2) * 2 ^ (e1 - 2 + 1074) = Zpos mc * 2 ^ (ec + 1074)).
  { rewrite Sc. apply (Z.mul_reg_l _ _ 2); [lia |].
    replace (2 * (w * 2 ^ 1073)) with (w * 2 ^ 1074)
      by (change (2 ^ 1074) with (2 * 2 ^ 1073); ring).
    rewrite <- Sa, Pos2Z.inj_mul.
    replace (e1 + 1074) with (1 + (e1 - 2 + 1074) + 1) by lia.
    set (X := e1 - 2 + 1074). assert (0 <= X) by (unfold X; lia).
    rewrite (Z.pow_add_r 2 (1 + X) 1), (Z.pow_add_r 2 1 X) by lia.
    change (2 ^ 1) with 2. ring. }
  assert (HE : e1 - 2 <= ec).
  { destruct (Z.le_gt_cases (e1 - 2) ec) as [L | L]; [exact L | exfalso].
    pose proof (digits_bounds mc) as [Clo Chi]. rewrite Dc in Clo, Chi.
    change (2 ^ (53 - 1)) with (2 ^ 52) in Clo.
    assert (S2 : 2 ^ (e1 - 2 + 1074) = 2 ^ (e1 - 2 - ec) * 2 ^ (ec + 1074)).
    { rewrite <- Z.pow_add_r by lia. f_equal. lia. }
    rewrite S2, Z.mul_assoc in Sq. apply Z.mul_reg_r in Sq; [| lia].
    assert (2 ^ 1 <= 2 ^ (e1 - 2 - ec)) by (apply Z.pow_le_mono_r; lia).
    change (2 ^ 1) with 2 in *. rewrite Pos2Z.inj_mul in Sq.
    change (2 ^ 53) with (2 * 2 ^ 52) in Chi. nia. }
  apply round_aux_exact; [exact Vc | lia | exact HE |].
  assert (Pe : 0 < 2 ^ (e1 - 2 + 1074)) by (apply Z.pow_pos_nonneg; lia).
  apply (Z.mul_reg_r _ _ (2 ^ (e1 - 2 + 1074))); [lia |].
  rewrite Sq, <- Z.mul_assoc, <- Z.pow_add_r by lia.
  f_equal. f_equal. lia.
Qed.

(** An integer plus a half. *)
Lemma plus_int_half (a n : Z) :
  0 <= a -> 0 < n -> 2 * a + n < 2 ^ 53 ->
  B64.plus (B64.of_int a false) (binary_normalize 53 1024 n (-1) false)
  = binary_normalize 53 1024 (2 * a + n) (-1) false.
Proof.
  intros A N H.
  destruct (of_half_cases n ltac:(lia)) as (mn & en & En & Vn & Rn & Dn & Sn).
  destruct (of_int_cases a ltac:(lia)) as [[-> Ea] | (ma & ea & Ea & Ra & Da & Sa)].
  - rewrite Ea, En. cbn [Z.mul Z.add]. rewrite En. reflexivity.
  - rewrite Ea, En, plus_finite. apply of_half_exact; [lia | lia |].
    rewrite plus_finite_scaled by lia. unfold scaled. cbn [cond_Zopp].
    rewrite Sa, Sn. change (2 ^ 1074) with (2 * 2 ^ 1073). ring.
Qed.

(** The remainder of a half by an integer. *)
Lemma rem_half (a w : Z) :
  0 < a < 2 ^ 53 -> 0 < w < 2 ^ 52 -> 0 < a mod (2 * w) ->
  B64.remainder (binary_normalize 53 1024 a (-1) false) (B64.of_int w false)
  = binary_normalize 53 1024 (a mod (2 * w)) (-1) false.
Proof.
  intros A W Hpos.
  assert (P52 : 2 ^ 52 * 2 = 2 ^ 53) by reflexivity.
  assert (P' : 0 < 2 ^ 1073) by (apply Z.pow_pos_nonneg; lia).
  pose proof (Z.mod_pos_bound a (2 * w) ltac:(lia)) as Bm.
  destruct (of_int_cases w ltac:(lia)) as [[E0 _] | (mw & ew & Ew & Rw & Dw & Sw)];
    [lia |].
  destruct (of_half_cases a A) as (ma & ea & Ea & Va & Ra & Da & Sa).
  rewrite Ea, Ew. unfold B64.remainder. cbv zeta.
  rewrite !Z.shiftl_mul_pow2 by lia. cbn [cond_Zopp].
  set (e := Z.min ea ew).
  assert (He : -53 <= e <= -1) by (unfold e; lia).
  assert (Pe : 0 < 2 ^ (e + 1074)) by (apply Z.pow_pos_nonneg; lia).
  assert (Pn : 0 < 2 ^ (- e - 1)) by (apply Z.pow_pos_nonneg; lia).
  assert (Xa : Zpos ma * 2 ^ (ea - e) = a * 2 ^ (- e - 1)).
  { apply (Z.mul_reg_r _ _ (2 ^ (e + 1074))); [lia |].
    rewrite <- !Z.mul_assoc, <- !Z.pow_add_r by (unfold e; lia).
    replace (ea - e + (e + 1074)) with (ea + 1074) by lia.
    replace (- e - 1 + (e + 1074)) with 1073 by lia. exact Sa. }
  assert (Xw : Zpos mw * 2 ^ (ew - e) = 2 * w * 2 ^ (- e - 1)).
  { apply (Z.mul_reg_r _ _ (2 ^ (e + 1074))); [lia |].
    rewrite <- !Z.mul_assoc, <- !Z.pow_add_r by (unfold e; lia).
    replace (ew - e + (e + 1074)) with (ew + 1074) by lia.
    replace (- e - 1 + (e + 1074)) with 1073 by lia.
    rewrite Sw. change (2 ^ 1074) with (2 * 2 ^ 1073). ring. }
  rewrite Xa, Xw.
  rewrite Z.rem_mod_nonneg by nia.
  rewrite Z.mul_mod_distr_r by lia.
  apply of_half_exact; [lia | lia |].
  rewrite <- Z.mul_assoc, <- Z.pow_add_r by lia.
  replace (- e - 1 + (e + 1074)) with 1073 by lia. reflexivity.
Qed.

(** Half an odd integer is no subscript. *)
Lemma index_half_odd (n : Z) :
  0 < n < 2 ^ 53 -> n mod 2 = 1 ->
  B64.index (binary_normalize 53 1024 n (-1) false) = None.
Proof.
  intros N Hodd.
  destruct (of_half_cases n N) as (m & e & -> & V & R & D & S).
  unfold B64.index.
  rewrite (proj2 (Z.leb_gt 0 e)) by lia.
  rewrite Z.land_ones by lia.
  destruct (Z.eqb_spec (Zpos m mod 2 ^ (- e)) 0) as [E0 | NE]; [exfalso | reflexivity].
  apply Z.mod_divide in E0; [| apply Z.pow_nonzero; lia].
  destruct E0 as [k Ek].
  assert (P : 0 < 2 ^ (e + 1074)) by (apply Z.pow_pos_nonneg; lia).
  rewrite Ek, <- Z.mul_assoc, <- Z.pow_add_r in S by lia.
  replace (- e + (e + 1074)) with 1074 in S by lia.
  change (2 ^ 1074) with (2 * 2 ^ 1073) in S.
  assert (P' : 0 < 2 ^ 1073) by (apply Z.pow_pos_nonneg; lia).
  rewrite Z.mul_assoc in S. apply Z.mul_reg_r in S; [| lia].
  rewrite <- S, Z.mod_mul in Hodd by lia. discriminate.
Qed.

(** The key [k] of line 66 for an odd width: half an odd integer. *)
Lemma odd_key_binary64 (w x y : Z) :
  w mod 2 = 1 -> 0 < w < 2 ^ 50 -> 0 <= x < w -> 0 <= y -> y * w + x < 2 ^ 50 ->
  B64.index
    (B64.plus (B64.times (B64.of_int y false) (B64.of_int w false))
       (B64.remainder
          (B64.plus (B64.of_int x false)
             (B64.divide (B64.of_int w false) (B64.of_int 2 false)))
          (B64.of_int w false))) = None.
Proof.
  intros Hw W Hx Hy Hb.
  assert (P50 : 2 ^ 50 * 8 = 2 ^ 53) by reflexivity.
  assert (P50' : 2 ^ 50 * 4 = 2 ^ 52) by reflexivity.
  assert (Hyw : 0 <= y * w) by nia.
  assert (Hyb : y < 2 ^ 50) by nia.
  pose proof (Z.mod_pos_bound (2 * x + w) (2 * w) ltac:(lia)) as Bm.
  assert (Odd : (2 * x + w) mod (2 * w) mod 2 = 1).
  { pose proof (Z.div_mod (2 * x + w) (2 * w) ltac:(lia)) as D.
    replace ((2 * x + w) mod (2 * w))
      with (w + (x - w * ((2 * x + w) / (2 * w))) * 2) by lia.
    rewrite Z.mod_add by lia. exact Hw. }
  assert (Pos : 0 < (2 * x + w) mod (2 * w)).
  { destruct (Z.eq_dec ((2 * x + w) mod (2 * w)) 0) as [E | NE]; [| lia].
    rewrite E in Odd. discriminate. }
  rewrite (times_int y w) by lia.
  rewrite (half_odd w) by lia.
  rewrite (plus_int_half x w) by lia.
  rewrite (rem_half (2 * x + w) w) by (try assumption; lia).
  rewrite (plus_int_half (y * w) ((2 * x + w) mod (2 * w))) by lia.
  apply index_half_odd; [lia |].
  replace (2 * (y * w) + (2 * x + w) mod (2 * w))
    with ((2 * x + w) mod (2 * w) + y * w * 2) by lia.
  rewrite Z.mod_add by lia. exact Odd.
Qed.

End B64HalfFacts.

(** ** The loading loops when no key is a subscript *)

Section NanLoops.
Context {N : JSNumber}.
Variable data : Dataset.
Variables w bound : Z.

Hypothesis cell_nans :
  forall (vf : list num) (y x : Z),
    (0 <= x < w)%Z -> (0 <= y)%Z -> (y * w + x < bound)%Z ->
    Z.of_nat (List.length vf) = (2 * (y * w + x))%Z ->
    fill_cell data w vf y x = vf ++ [nan; nan].

Lemma nans_row (y : Z) (n a : nat) :
  (0 <= y)%Z -> (Z.of_nat (a + n) <= w)%Z -> (y * w + Z.of_nat (a + n) <= bound)%Z ->
  fold_left (fun vf x => fill_cell data w vf y x) (map Z.of_nat (seq a n))
    (repeat nan (Z.to_nat (2 * (y * w + Z.of_nat a))))
  = repeat nan (Z.to_nat (2 * (y * w + Z.of_nat (a + n)))).
Proof.
  intros Hy. revert a.
  induction n as [| n IH]; intros a Hle Hb.
  - rewrite Nat.add_0_r. reflexivity.
  - cbn [seq map fold_left].
    assert (Hyw : (0 <= y * w)%Z) by nia.
    rewrite cell_nans by (try rewrite repeat_length; lia).
    replace (repeat nan (Z.to_nat (2 * (y * w + Z.of_nat a))) ++ [nan; nan])
      with (repeat nan (Z.to_nat (2 * (y * w + Z.of_nat (S a))))).
    + rewrite IH by lia. f_equal. lia.
    + replace (Z.to_nat (2 * (y * w + Z.of_nat (S a))))
        with (Z.to_nat (2 * (y * w + Z.of_nat a)) + 2)%nat by lia.
      rewrite repeat_app. reflexivity.
Qed.

Lemma nans_rows (n b : nat) :
  (0 < w)%Z -> (Z.of_nat (b + n) * w <= bound)%Z ->
  fold_left
    (fun vf y => fold_left (fun vf x => fill_cell data w vf y x) (counter w) vf)
    (map Z.of_nat (seq b n)) (repeat nan (Z.to_nat (2 * (Z.of_nat b * w))))
  = repeat nan (Z.to_nat (2 * (Z.of_nat (b + n) * w))).
Proof.
  intros Hpos. revert b.
  induction n as [| n IH]; intros b Hb.
  - rewrite Nat.add_0_r. reflexivity.
  - cbn [seq map fold_left].
    pose proof (nans_row (Z.of_nat b) (Z.to_nat w) 0 ltac:(lia) ltac:(lia) ltac:(nia)) as R.
    replace (Z.of_nat b * w + Z.of_nat 0)%Z with (Z.of_nat b * w)%Z in R by lia.
    fold (counter w) in R. rewrite R.
    replace (Z.of_nat b * w + Z.of_nat (0 + Z.to_nat w))%Z
      with (Z.of_nat (S b) * w)%Z by lia.
    rewrite IH by (replace (S b + n)%nat with (b + S n)%nat by lia; exact Hb).
    f_equal. f_equal. lia.
Qed.

Lemma nans_filled (h : Z) :
  (0 < w)%Z -> (Z.of_nat (Z.to_nat h) * w <= bound)%Z ->
  fill_vfData data w h = repeat nan (2 * (Z.to_nat h * Z.to_nat w)).
Proof.
  intros Hpos Hb. unfold fill_vfData.
  change (fold_left
            (fun vf y => fold_left (fun vf x => fill_cell data w vf y x) (counter w) vf)
            (map Z.of_nat (seq 0 (Z.to_nat h)))
            (repeat nan (Z.to_nat (2 * (Z.of_nat 0 * w))))
          = repeat nan (2 * (Z.to_nat h * Z.to_nat w))).
  rewrite (nans_rows (Z.to_nat h) 0 Hpos) by exact Hb.
  f_equal. cbn [Nat.add].
  rewrite Z2Nat.inj_mul, Z2Nat.inj_mul, Nat2Z.id by lia. reflexivity.
Qed.

End NanLoops.

Section DoubleOddWidth.
Import B64Order B64IntFacts B64PixelFacts B64ExactFacts B64HalfFacts.
Local Existing Instance binary64 | 0.
Open Scope Z_scope.

(** On the doubles, for an odd width, a cell is stored as two NaN. *)
Lemma fill_cell_odd_binary64 (data : @Dataset binary64) (w : Z)
    (vf : list (@num binary64)) (y x : Z) :
  w mod 2 = 1 -> 0 < w < 2 ^ 50 ->
  0 <= x < w -> 0 <= y -> y * w + x < 2 ^ 50 ->
  Z.of_nat (List.length vf) = 2 * (y * w + x) ->
  fill_cell data w vf y x = vf ++ [nan; nan].
Proof.
  intros Hw Hwb Hx Hy Hb Hlen.
  assert (P50 : 2 ^ 50 * 8 = 2 ^ 53) by reflexivity.
  assert (Hyw : 0 <= y * w) by nia.
  assert (Hyb : y < 2 ^ 50) by nia.
  unfold fill_cell. cbv zeta.
  unfold js_get at 1 2. cbn [of_Z add mul div rem to_index binary64].
  rewrite (odd_key_binary64 w x y) by (try assumption; lia).
  change (normalize (N := binary64) nan ?lo ?hi) with (@nan binary64).
  rewrite (times_int y w) by lia.
  rewrite (plus_int (y * w) x) by lia.
  rewrite (times_int (y * w + x) 2) by lia.
  rewrite (plus_int ((y * w + x) * 2) 0), (plus_int ((y * w + x) * 2) 1) by lia.
  replace ((y * w + x) * 2 + 0) with (2 * (y * w + x)) by lia.
  replace ((y * w + x) * 2 + 1) with (2 * (y * w + x) + 1) by lia.
  assert (S1 : js_set vf (B64.of_int (2 * (y * w + x)) false) nan = vf ++ [nan]).
  { unfold js_set. cbn [to_index binary64]. rewrite index_of_int by lia.
    cbv zeta. rewrite (proj2 (Z.ltb_ge _ _)) by lia.
    replace (Z.to_nat (2 * (y * w + x)) - List.length vf)%nat with 0%nat by lia.
    reflexivity. }
  rewrite S1.
  unfold js_set. cbn [to_index binary64]. rewrite index_of_int by lia.
  cbv zeta. rewrite length_app. cbn [List.length].
  rewrite (proj2 (Z.ltb_ge _ _)) by lia.
  replace (Z.to_nat (2 * (y * w + x) + 1) - (List.length vf + 1))%nat with 0%nat by lia.
  cbn [repeat app]. rewrite <- app_assoc. reflexivity.
Qed.

Lemma fill_vfData_odd_binary64 (data : @Dataset binary64) (w h : Z) :
  w mod 2 = 1 -> 0 < w -> w * h < 2 ^ 50 ->
  fill_vfData data w h = repeat nan (2 * (Z.to_nat h * Z.to_nat w)).
Proof.
  intros Hw Hpos Hb.
  destruct (Z.le_gt_cases h 0) as [Hh | Hh].
  - unfold fill_vfData, counter. replace (Z.to_nat h) with 0%nat by lia. reflexivity.
  - assert (Hwb : w < 2 ^ 50) by nia.
    apply (nans_filled data w (h * w)); [| exact Hpos | lia].
    intros vf y x Hx Hy Hlt Hlen.
    apply fill_cell_odd_binary64; try assumption; lia.
Qed.

Lemma js_get_nans_binary64 (n : nat) (k : B64.t) :
  js_get (N := binary64) (repeat nan n) k = nan.
Proof.
  unfold js_get. cbn [to_index binary64]. destruct (B64.index k) as [i |]; [| reflexivity].
  destruct (i <? _)%Z; [| reflexivity]. apply nth_repeat.
Qed.

(** Where every stored value is NaN, so is every sample. *)
Lemma vectorField_nans_binary64 (env : @Env binary64) (n : nat) (p v : Point) :
  vfData env = repeat nan n ->
  vectorField env p = Some v -> v = mkPoint nan nan.
Proof.
  intros Hvf H. unfold vectorField in H. cbv zeta in H.
  destruct (outside env (lower_x p) (lower_y p) || outside env (upper_x env p) (upper_y env p));
    [discriminate |].
  unfold getXY in H. rewrite Hvf, !js_get_nans_binary64 in H.
  repeat match type of H with
         | context [if ?c then _ else _] => destruct c; try discriminate
         end.
  apply (f_equal (fun o => match o with Some q => q | None => v end)) in H.
  cbv beta iota in H. rewrite <- H. reflexivity.
Qed.

(** X20.  On the doubles, a dataset with an odd number of columns and
    fewer than [2^50] cells cannot be drawn: every key of line 66 is
    an integer and a half, every stored value NaN, and a segment is
    stroked in opaque black where its middle has no sample and throws
    where it has one. *)
Lemma odd_width_segment_binary64 (data : @Dataset binary64) (a b : Point)
    (ctx : list CanvasOp) :
  Ni (data_u data) mod 2 = 1 -> 0 < Ni (data_u data) ->
  Ni (data_u data) * (Nj (data_u data) - 1) < 2 ^ 50 ->
  drawSegment (processItem_env data) a b ctx
  = match vectorField (processItem_env data) (midpoint a b) with
    | None =>
        Ret (ctx ++ stroke_calls (processItem_env data) a b
                      (StyleLiteral "rgba(0, 0, 0, 1.)"))
    | Some _ => Throw "This should not be possible!"
    end.
Proof.
  intros Hw Hpos Hb. unfold drawSegment, getColor. fold (midpoint a b).
  destruct (vectorField (processItem_env data) (midpoint a b)) as [v |] eqn:E.
  - apply (vectorField_nans_binary64 _ (2 * (Z.to_nat (Nj (data_u data) - 1)
                                              * Z.to_nat (Ni (data_u data))))) in E.
    + subst v. reflexivity.
    + cbn [vfData processItem_env]. apply fill_vfData_odd_binary64; assumption.
  - reflexivity.
Qed.

Lemma odd_width_segment_binary64_witness :
  drawSegment (processItem_env (N := binary64) odd_data)
    (mkPoint (of_Z 0) (of_Z 0)) (mkPoint (of_Z 1) (of_Z 1)) []
  = match vectorField (processItem_env odd_data)
            (midpoint (mkPoint (of_Z 0) (of_Z 0)) (mkPoint (of_Z 1) (of_Z 1))) with
    | None =>
        Ret ([] ++ stroke_calls (processItem_env odd_data)
                     (mkPoint (of_Z 0) (of_Z 0)) (mkPoint (of_Z 1) (of_Z 1))
                     (StyleLiteral "rgba(0, 0, 0, 1.)"))
    | Some _ => Throw "This should not be possible!"
    end.
Proof.
  apply (odd_width_segment_binary64 odd_data);
    cbn [Ni Nj data_u odd_data]; try reflexivity; lia.
Defined.

End DoubleOddWidth.

Module B64VertexFacts.
Import B64Order B64OrderFacts B64Facts B64Int B64IntFacts B64RoundFacts B64ValueFacts.
Import B64PixelFacts B64FloorFacts B64ExactFacts.
Open Scope Z_scope.

(** The double of an integer is its own floor and its own ceiling. *)
Lemma floor_ceil_of_int (n : Z) :
  0 <= n < 2 ^ 53 ->
  B64.floor (B64.of_int n false) = B64.of_int n false
  /\ B64.ceil (B64.of_int n false) = B64.of_int n false.
Proof.
  intros N.
  destruct (of_int_cases n N) as [[-> E] | (m & e & E & R & D & S)].
  - split; reflexivity.
  - rewrite E. cbn [B64.floor B64.ceil].
    destruct (Z.leb_spec 0 e) as [H | H]; [split; reflexivity |].
    assert (P : 0 < 2 ^ (e + 1074)) by (apply Z.pow_pos_nonneg; lia).
    assert (Pe : 0 < 2 ^ (- e)) by (apply Z.pow_pos_nonneg; lia).
    assert (Em : Zpos m = n * 2 ^ (- e)).
    { apply (Z.mul_reg_r _ _ (2 ^ (e + 1074))); [lia |].
      rewrite <- Z.mul_assoc, <- Z.pow_add_r by lia.
      replace (- e + (e + 1074)) with 1074 by lia. exact S. }
    unfold B64.signed. cbn [cond_Zopp negb].
    rewrite !Z.shiftr_div_pow2 by lia.
    change (Zneg m) with (- Zpos m). rewrite Em.
    rewrite <- Z.mul_opp_l, !Z.div_mul by lia.
    rewrite Z.opp_involutive, <- E. split; reflexivity.
Qed.

Lemma minus_int_self (n : Z) :
  0 <= n < 2 ^ 53 ->
  B64.minus (B64.of_int n false) (B64.of_int n false) = S754_zero false.
Proof.
  intros N.
  destruct (of_int_cases n N) as [[-> E] | (m & e & E & _)].
  - reflexivity.
  - rewrite E. apply minus_self_finite.
Qed.

(** [1 - y + y] is 1 for an integer [y]. *)
Lemma one_minus_plus (n : Z) :
  0 <= n < 2 ^ 52 ->
  B64.plus (B64.minus (B64.of_int 1 false) (B64.of_int n false)) (B64.of_int n false)
  = B64.of_int 1 false.
Proof.
  intros N.
  assert (P52 : 2 ^ 52 * 2 = 2 ^ 53) by reflexivity.
  assert (P' : 0 < 2 ^ 1074) by (apply Z.pow_pos_nonneg; lia).
  destruct (of_int_cases n ltac:(lia)) as [[-> E] | (m & e & E & R & D & S)].
  - reflexivity.
  - assert (Pn : 0 < n) by (destruct (Z.eq_dec n 0) as [-> | NZ]; [nia | lia]).
    rewrite E.
    change (B64.of_int 1 false) with (S754_finite false 4503599627370496 (-52)).
    rewrite minus_plus_opp. cbn [SFopp]. rewrite plus_finite.
    match goal with
    | |- context [binary_normalize 53 1024 ?d ?e0 false] =>
        set (D0 := d); set (E0 := e0)
    end.
    assert (V : D0 * 2 ^ (E0 + 1074) = (1 - n) * 2 ^ 1074).
    { unfold D0, E0. rewrite plus_finite_scaled by lia. unfold scaled.
      cbn [cond_Zopp negb]. rewrite S. change (Zpos 4503599627370496 * 2 ^ (-52 + 1074)) with (2 ^ 1074). ring. }
    clearbody D0.
    assert (PE : 0 < 2 ^ (E0 + 1074)) by (apply Z.pow_pos_nonneg; unfold E0; lia).
    destruct (Z.eq_dec n 1) as [-> | N1].
    + assert (D0 = 0) by nia. rewrite H. cbn [binary_normalize].
      rewrite <- E. reflexivity.
    + (* the difference is minus the double of [n - 1] *)
      assert (Eneg : binary_normalize 53 1024 D0 E0 false
                     = SFopp (B64.of_int (n - 1) false)).
      { replace D0 with (- (- D0)) by lia.
        change false with (negb true) at 1. rewrite normalize_opp. f_equal.
        assert (Dpos : 0 < - D0) by nia.
        destruct (- D0) as [| q | q] eqn:Eq; try lia.
        change (binary_normalize 53 1024 (Zpos q) E0 true)
          with (binary_normalize 53 1024 (Zpos q) E0 false).
        apply of_int_exact; [lia | unfold E0; lia |]. rewrite <- Eq. lia. }
      rewrite Eneg.
      destruct (of_int_cases (n - 1) ltac:(lia))
        as [[E1 _] | (m1 & e1 & E1 & R1 & D1 & S1)]; [lia |].
      rewrite E1. cbn [SFopp]. rewrite plus_finite.
      apply (of_int_exact _ _ 1); [lia | lia |].
      rewrite plus_finite_scaled by lia. unfold scaled. cbn [cond_Zopp negb].
      rewrite S, S1. ring.
Qed.

(** 1 times a positive double, and a positive double times 1. *)
Lemma times_one (m : positive) (e : Z) :
  SpecFloat.valid_binary 53 1024 (S754_finite false m e) = true ->
  B64.times (B64.of_int 1 false) (S754_finite false m e) = S754_finite false m e
  /\ B64.times (S754_finite false m e) (B64.of_int 1 false) = S754_finite false m e.
Proof.
  intros V.
  change (B64.of_int 1 false) with (S754_finite false 4503599627370496 (-52)).
  pose proof (digits_pos m) as Pm. pose proof (digits_bounds m) as [Mlo Mhi].
  assert (DM : 53 <= digits (4503599627370496 * m)).
  { change 53 with (digits 4503599627370496). apply digits_mono.
    rewrite Pos2Z.inj_mul. nia. }
  assert (DM' : 53 <= digits (m * 4503599627370496)).
  { change 53 with (digits 4503599627370496). apply digits_mono.
    rewrite Pos2Z.inj_mul. nia. }
  unfold B64.times, SFmul. cbn [xorb]. split.
  - apply round_aux_exact; [exact V | lia | lia |].
    rewrite Pos2Z.inj_mul. replace (e - (-52 + e)) with 52 by lia.
    change (2 ^ 52) with (Zpos 4503599627370496). ring.
  - apply round_aux_exact; [exact V | lia | lia |].
    rewrite Pos2Z.inj_mul. replace (e - (e + -52)) with 52 by lia.
    change (2 ^ 52) with (Zpos 4503599627370496). ring.
Qed.

Lemma positive_point_cases (p : @Point binary64) :
  positive_point p = true ->
  exists (m m' : positive) (e e' : Z),
    p = mkPoint (N := binary64) (S754_finite false m e) (S754_finite false m' e')
    /\ SpecFloat.valid_binary 53 1024 (S754_finite false m e) = true
    /\ SpecFloat.valid_binary 53 1024 (S754_finite false m' e') = true.
Proof.
  unfold positive_point. intros H.
  apply andb_prop in H. destruct H as [H V'].
  apply andb_prop in H. destruct H as [H F'].
  apply andb_prop in H. destruct H as [F V].
  destruct p as [[| | | [] m e] [| | | [] m' e']]; try discriminate.
  exists m, m', e, e'. auto.
Qed.

(** The two interpolations of [vectorField] at a vertex: the ratio along
    [x] is 0 and the ratio along [y] is 1. *)
Lemma mix_at_vertex_binary64 (tl tr bl br : @Point binary64) :
  positive_point tl = true -> positive_point tr = true ->
  positive_point bl = true -> positive_point br = true ->
  mix (mix tl tr (S754_zero false)) (mix bl br (S754_zero false)) (B64.of_int 1 false)
  = tr.
Proof.
  intros H1 H2 H3 H4.
  destruct (positive_point_cases _ H1) as (m1 & m2 & e1 & e2 & -> & _ & _).
  destruct (positive_point_cases _ H2) as (m3 & m4 & e3 & e4 & -> & V3 & V4).
  destruct (positive_point_cases _ H3) as (m5 & m6 & e5 & e6 & -> & _ & _).
  destruct (positive_point_cases _ H4) as (m7 & m8 & e7 & e8 & -> & V7 & V8).
  unfold mix. cbn [px py add sub mul of_Z binary64].
  change (B64.minus (B64.of_int 1 false) (S754_zero false)) with (B64.of_int 1 false).
  change (B64.minus (B64.of_int 1 false) (B64.of_int 1 false)) with (S754_zero false).
  rewrite !(proj1 (times_one _ _ V3)), !(proj1 (times_one _ _ V4)).
  rewrite !(proj1 (times_one _ _ V7)), !(proj1 (times_one _ _ V8)).
  change (B64.times (S754_finite false m1 e1) (S754_zero false)) with (S754_zero false).
  change (B64.times (S754_finite false m2 e2) (S754_zero false)) with (S754_zero false).
  change (B64.times (S754_finite false m5 e5) (S754_zero false)) with (S754_zero false).
  change (B64.times (S754_finite false m6 e6) (S754_zero false)) with (S754_zero false).
  change (B64.plus (S754_zero false) (S754_finite false m3 e3))
    with (S754_finite false m3 e3).
  change (B64.plus (S754_zero false) (S754_finite false m4 e4))
    with (S754_finite false m4 e4).
  change (B64.plus (S754_zero false) (S754_finite false m7 e7))
    with (S754_finite false m7 e7).
  change (B64.plus (S754_zero false) (S754_finite false m8 e8))
    with (S754_finite false m8 e8).
  rewrite !(proj2 (times_one _ _ V3)), !(proj2 (times_one _ _ V4)).
  reflexivity.
Qed.

End B64VertexFacts.

Section DoubleVertex.
Import B64Order B64OrderFacts B64Facts B64Int B64IntFacts B64RoundFacts B64ValueFacts.
Import B64PixelFacts B64FloorFacts B64ExactFacts B64VertexFacts.
Open Scope Z_scope.

(** X21.  On the doubles, at every vertex (zx, zy) whose four corner
    reads are pairs of positive doubles, the sample is the value stored
    at the vertex to its right, (zx + 1, zy). *)
Lemma vertex_sample_binary64 (env : @Env binary64) (zx zy : Z) :
  0 <= zx -> zx + 1 < width env -> width env <= 2 ^ 52 ->
  0 <= zy -> zy + 1 < height env -> height env <= 2 ^ 52 ->
  positive_read env zx zy = true -> positive_read env (zx + 1) zy = true ->
  positive_read env zx (zy + 1) = true -> positive_read env (zx + 1) (zy + 1) = true ->
  vectorField env (mkPoint (of_Z zx) (of_Z zy))
  = vertex_value env (of_Z (zx + 1)) (of_Z zy).
Proof.
  intros X0 X1 Hw Y0 Y1 Hh Ptl Ptr Pbl Pbr.
  assert (P53 : 2 ^ 52 < 2 ^ 53) by (apply Z.pow_lt_mono_r; lia).
  unfold positive_read in *.
  destruct (getXY env (of_Z zx) (of_Z zy)) as [tl |] eqn:Htl; [| discriminate].
  destruct (getXY env (of_Z (zx + 1)) (of_Z zy)) as [tr |] eqn:Htr; [| discriminate].
  destruct (getXY env (of_Z zx) (of_Z (zy + 1))) as [bl |] eqn:Hbl; [| discriminate].
  destruct (getXY env (of_Z (zx + 1)) (of_Z (zy + 1))) as [br |] eqn:Hbr;
    [| discriminate].
  unfold vertex_value. rewrite Htr. cbn [option_map].
  cbn [of_Z binary64] in *.
  destruct (floor_ceil_of_int zx ltac:(lia)) as [Fx Cx].
  destruct (floor_ceil_of_int zy ltac:(lia)) as [Fy Cy].
  destruct (index_tests (B64.of_int zx false) zx (width env) ltac:(lia) Hw
              (or_introl eq_refl)) as (Ax1 & Ax2 & Ax3).
  destruct (index_tests (B64.of_int zy false) zy (height env) ltac:(lia) Hh
              (or_introl eq_refl)) as (Ay1 & Ay2 & Ay3).
  assert (Elx : lower_x (mkPoint (N := binary64) (B64.of_int zx false) (B64.of_int zy false))
                = B64.of_int zx false).
  { unfold lower_x. cbn [px ltb leb floor ceil of_Z binary64].
    change (B64.of_int 0 false) with (S754_zero false).
    rewrite Fx, Ax1. reflexivity. }
  assert (Ely : lower_y (mkPoint (N := binary64) (B64.of_int zx false) (B64.of_int zy false))
                = B64.of_int zy false).
  { unfold lower_y. cbn [py ltb leb floor ceil of_Z binary64].
    change (B64.of_int 0 false) with (S754_zero false).
    rewrite Fy, Ay1. reflexivity. }
  assert (Eux : upper_x env (mkPoint (N := binary64) (B64.of_int zx false) (B64.of_int zy false))
                = B64.of_int zx false).
  { unfold upper_x. rewrite Elx. cbn [px ltb leb floor ceil of_Z binary64].
    rewrite Cx, Ax2. reflexivity. }
  assert (Euy : upper_y env (mkPoint (N := binary64) (B64.of_int zx false) (B64.of_int zy false))
                = B64.of_int zy false).
  { unfold upper_y. rewrite Ely. cbn [py ltb leb floor ceil of_Z binary64].
    rewrite Cy.
    match goal with |- (if ?c then _ else _) = _ => destruct c end; reflexivity. }
  assert (Hin : outside (N := binary64) env (B64.of_int zx false) (B64.of_int zy false)
                = false).
  { apply (outside_inside env _ _ zx zy); try lia; left; reflexivity. }
  unfold vectorField. cbv zeta. rewrite Elx, Ely, Eux, Euy, Hin.
  cbn [orb add sub of_Z binary64 px py]. rewrite Ax3, Ay3, Htl, Htr, Hbl, Hbr.
  rewrite minus_int_self by lia. rewrite one_minus_plus by lia.
  rewrite mix_at_vertex_binary64 by assumption.
  reflexivity.
Qed.

Lemma vertex_sample_binary64_witness :
  vectorField (N := binary64) ramp_env (mkPoint (of_Z 1) (of_Z 1))
  = vertex_value ramp_env (of_Z 2) (of_Z 1).
Proof.
  apply (vertex_sample_binary64 ramp_env 1 1); try reflexivity;
    cbn [width height ramp_env processItem_env ramp_data data_u Ni Nj]; lia.
Defined.

End DoubleVertex.

(** ** The whole domain of the sampler, on the doubles *)

Module B64AxisFacts.
Import B64Order B64OrderFacts B64Facts B64Int B64IntFacts B64RoundFacts B64ValueFacts.
Import B64PixelFacts B64FloorFacts B64ExactFacts B64Axis.
Open Scope Z_scope.

Lemma index_below_passes (n : Z) (a : B64.t) :
  n <= 2 ^ 52 -> index_below n a -> passes n a.
Proof.
  intros N [-> | (k & K & H)].
  - split; [reflexivity |]. destruct (B64.of_int n false) as [| [] | |[]]; reflexivity.
  - destruct (index_tests a k n K N H) as (A & B & _). split; assumption.
Qed.

Lemma index_below_next (n : Z) (a : B64.t) :
  n <= 2 ^ 52 -> index_below (n - 1) a ->
  index_below n (B64.plus a (B64.of_int 1 false)).
Proof.
  intros N [-> | (k & K & H)].
  - left. reflexivity.
  - right. exists (k + 1). split; [lia |]. left.
    destruct (index_tests a k n ltac:(lia) N H) as (_ & _ & C). exact C.
Qed.

(** The double of minus a positive integer is negative. *)
Lemma of_int_negative (q : Z) (s : bool) :
  1 <= q < 2 ^ 53 -> SFltb (B64.of_int (- q) s) (S754_zero false) = true.
Proof.
  intros Q.
  assert (E : B64.of_int (- q) s = SFopp (B64.of_int q false)).
  { unfold B64.of_int. rewrite <- (negb_involutive s) at 1. rewrite normalize_opp.
    f_equal. destruct q; try lia. reflexivity. }
  rewrite E.
  destruct (of_int_cases q ltac:(lia)) as [[Z0 _] | (m & e & -> & _)]; [lia |].
  reflexivity.
Qed.

(** A valid negative double at or below -1, and one above -1. *)
Lemma negative_cases (m : positive) (e : Z) :
  SpecFloat.valid_binary 53 1024 (S754_finite true m e) = true ->
  (SFltb (B64.of_int (-1) false) (S754_finite true m e) = true
   <-> e < 0 /\ Zpos m < 2 ^ (- e)).
Proof.
  intros V.
  destruct (valid_finite _ _ _ V) as (Dm & Re & _).
  assert (V1 : SpecFloat.valid_binary 53 1024 (B64.of_int (-1) false) = true)
    by apply of_int_valid.
  rewrite (ltb_scaled _ _ V1 V) by reflexivity.
  change (scaled (B64.of_int (-1) false)) with (- 2 ^ 1074).
  unfold scaled. cbn [cond_Zopp].
  assert (P : 0 < 2 ^ (e + 1074)) by (apply Z.pow_pos_nonneg; lia).
  destruct (Z.ltb_spec e 0) as [E | E].
  - assert (Pe : 0 < 2 ^ (- e)) by (apply Z.pow_pos_nonneg; lia).
    assert (S : 2 ^ (- e) * 2 ^ (e + 1074) = 2 ^ 1074).
    { rewrite <- Z.pow_add_r by lia. f_equal. lia. }
    split.
    + intros H. split; [exact E |]. nia.
    + intros [_ H]. nia.
  - split; [| lia]. intros H. exfalso.
    assert (2 ^ 1074 <= 2 ^ (e + 1074)) by (apply Z.pow_le_mono_r; lia).
    nia.
Qed.

(** Along an axis of [n] cells, at NaN and at every double above -1 and
    below [n - 1]: the lower index and the ceiling are indices of the
    grid, and the lower index is not the last one. *)
Lemma axis_inside (x : B64.t) (n : Z) :
  2 <= n <= 2 ^ 52 ->
  SpecFloat.valid_binary 53 1024 x = true ->
  is_number x = false
  \/ SFltb (B64.of_int (-1) false) x = true
     /\ SFltb x (B64.of_int (n - 1) false) = true ->
  index_below (n - 1) (lower x) /\ index_below n (B64.ceil x).
Proof.
  intros N V H. unfold lower.
  destruct x as [s | s | | s m e].
  - destruct H as [H | _]; [discriminate |].
    split; right; exists 0; (split; [lia |]); unfold whole; destruct s; auto.
  - destruct H as [H | [H1 H2]]; [discriminate |].
    destruct s; [discriminate H1 |].
    exfalso. destruct (B64.of_int (n - 1) false) as [| [] | | []]; discriminate H2.
  - split; left; reflexivity.
  - destruct H as [H | [H1 H2]]; [discriminate |].
    destruct s.
    + apply (negative_cases m e V) in H1. destruct H1 as [E Hm].
      assert (Pe : 0 < 2 ^ (- e)) by (apply Z.pow_pos_nonneg; lia).
      cbn [B64.floor B64.ceil]. rewrite (proj2 (Z.leb_gt 0 e) E).
      unfold B64.signed. cbn [cond_Zopp negb].
      rewrite !Z.shiftr_div_pow2 by lia.
      change (- Zpos m) with (Zneg m).
      rewrite (Z.div_small (Zpos m)) by lia.
      assert (F : Zneg m / 2 ^ (- e) = -1).
      { symmetry. apply (Z.div_unique _ _ _ (2 ^ (- e) - Zpos m)); lia. }
      rewrite F.
      change (SFltb (B64.of_int (-1) true) (S754_zero false)) with true. cbv iota.
      change (B64.of_int (- 0) true) with (S754_zero true).
      split; right; exists 0; (split; [lia |]); unfold whole; auto.
    + destruct (floor_ceil_below (S754_finite false m e) (n - 1) ltac:(lia) V eq_refl H2)
        as (k & k' & K0 & K1 & K2 & K3 & K4 & Fx & Cx).
      destruct (index_tests _ k n ltac:(lia) ltac:(lia) Fx) as (T & _ & _).
      rewrite T. split; right; [exists k | exists k']; (split; [lia |]); assumption.
Qed.

(** At every other number, the lower index or the one after it fails a
    test of [outside]. *)
Lemma axis_outside (x : B64.t) (n : Z) :
  2 <= n <= 2 ^ 52 ->
  SpecFloat.valid_binary 53 1024 x = true ->
  is_number x = true ->
  SFltb (B64.of_int (-1) false) x = false
  \/ SFltb x (B64.of_int (n - 1) false) = false ->
  SFltb (lower x) (S754_zero false) = true
  \/ SFleb (B64.of_int n false) (lower x) = true
  \/ SFleb (B64.of_int n false) (B64.plus (lower x) (B64.of_int 1 false)) = true.
Proof.
  intros N V Hx [H | H].
  - left. unfold lower.
    destruct x as [s | s | | s m e]; try discriminate.
    + destruct s; [reflexivity | vm_compute in H; discriminate H].
    + destruct s; [| exfalso; revert H; clear;
                     change (B64.of_int (-1) false)
                       with (S754_finite true 4503599627370496 (-52));
                     discriminate].
      destruct (valid_finite _ _ _ V) as (Dm & Re & _).
      pose proof (digits_bounds m) as [_ Mhi].
      assert (M53 : Zpos m < 2 ^ 53).
      { apply (Z.lt_le_trans _ _ _ Mhi). apply Z.pow_le_mono_r; lia. }
      cbn [B64.floor B64.ceil].
      destruct (Z.leb_spec 0 e) as [E | E]; [reflexivity |].
      assert (Pe : 0 < 2 ^ (- e)) by (apply Z.pow_pos_nonneg; lia).
      assert (Hm : 2 ^ (- e) <= Zpos m).
      { destruct (Z.lt_ge_cases (Zpos m) (2 ^ (- e))) as [C | C]; [| lia].
        rewrite (proj2 (negative_cases m e V) (conj E C)) in H. discriminate. }
      unfold B64.signed. cbn [cond_Zopp negb].
      rewrite !Z.shiftr_div_pow2 by lia.
      change (- Zpos m) with (Zneg m).
      assert (Q : 1 <= Zpos m / 2 ^ (- e) < 2 ^ 53).
      { split.
        - apply Z.div_le_lower_bound; lia.
        - apply Z.div_lt_upper_bound; nia. }
      assert (Q' : 1 <= - (Zneg m / 2 ^ (- e)) < 2 ^ 53).
      { pose proof (Z.div_mod (Zneg m) (2 ^ (- e)) ltac:(lia)) as D2.
        pose proof (Z.mod_pos_bound (Zneg m) (2 ^ (- e)) Pe) as B2.
        assert (Eneg : Zneg m = - Zpos m) by reflexivity.
        split; nia. }
      rewrite <- (Z.opp_involutive (Zneg m / 2 ^ (- e))).
      rewrite !of_int_negative by assumption. reflexivity.
  - right.
    assert (L : SFleb (B64.minus (B64.of_int n false) (B64.of_int 1 false)) x = true).
    { rewrite minus_one by lia. apply not_ltb_leb; [exact Hx | | exact H].
      destruct (of_int_number (n - 1) ltac:(lia)) as [-> | (m & e & ->)]; reflexivity. }
    exact (lower_next n x ltac:(lia) V L).
Qed.

End B64AxisFacts.

Section DoubleWholeDomain.
Import B64Order B64OrderFacts B64IntFacts B64FloorFacts B64Axis B64AxisFacts.
Local Existing Instance binary64 | 0.
Open Scope Z_scope.

Lemma passes_outside (env : @Env binary64) (a b : B64.t) :
  passes (width env) a -> passes (height env) b -> outside env a b = false.
Proof.
  intros [A1 A2] [B1 B2]. unfold outside. cbn [ltb leb of_Z binary64].
  change (B64.of_int 0 false) with (S754_zero false).
  rewrite A1, A2, B1, B2. reflexivity.
Qed.

Lemma lower_x_lower (p : @Point binary64) : lower_x p = lower (px p).
Proof. reflexivity. Qed.

Lemma lower_y_lower (p : @Point binary64) : lower_y p = lower (py p).
Proof. reflexivity. Qed.

(** A sample needs each coordinate to be NaN or to lie above -1 and
    below the last index of its axis. *)
Lemma sample_inside (env : @Env binary64) (p v : @Point binary64) :
  2 <= width env <= 2 ^ 52 -> 2 <= height env <= 2 ^ 52 ->
  SpecFloat.valid_binary 53 1024 (px p) = true ->
  SpecFloat.valid_binary 53 1024 (py p) = true ->
  vectorField env p = Some v ->
  (is_number (px p) = false
   \/ SFltb (B64.of_int (-1) false) (px p) = true
      /\ SFltb (px p) (B64.of_int (width env - 1) false) = true)
  /\ (is_number (py p) = false
      \/ SFltb (B64.of_int (-1) false) (py p) = true
         /\ SFltb (py p) (B64.of_int (height env - 1) false) = true).
Proof.
  intros Hw Hh Vx Vy Hv. split.
  - destruct (is_number (px p)) eqn:Nx; [| left; reflexivity]. right.
    destruct (SFltb (B64.of_int (-1) false) (px p)) eqn:A;
      destruct (SFltb (px p) (B64.of_int (width env - 1) false)) eqn:B; auto;
      exfalso;
      (assert (O : outside env (lower_x p) (lower_y p) = true
                   \/ outside env (lower_x p + of_Z 1)%js (lower_y p) = true);
       [| rewrite vectorField_four_corners in Hv by tauto; discriminate]);
      rewrite lower_x_lower; unfold outside; cbn [ltb leb add of_Z binary64];
      change (B64.of_int 0 false) with (S754_zero false);
      (destruct (axis_outside (px p) (width env) Hw Vx Nx) as [T | [T | T]];
       [auto | rewrite T | rewrite T | rewrite T]);
      rewrite ?orb_true_r; cbn [orb]; auto.
  - destruct (is_number (py p)) eqn:Ny; [| left; reflexivity]. right.
    destruct (SFltb (B64.of_int (-1) false) (py p)) eqn:A;
      destruct (SFltb (py p) (B64.of_int (height env - 1) false)) eqn:B; auto;
      exfalso;
      (assert (O : outside env (lower_x p) (lower_y p) = true
                   \/ outside env (lower_x p) (lower_y p + of_Z 1)%js = true);
       [| rewrite vectorField_four_corners in Hv by tauto; discriminate]);
      rewrite lower_y_lower; unfold outside; cbn [ltb leb add of_Z binary64];
      change (B64.of_int 0 false) with (S754_zero false);
      (destruct (axis_outside (py p) (height env) Hh Vy Ny) as [T | [T | T]];
       [auto | rewrite T | rewrite T | rewrite T]);
      rewrite ?orb_true_r; cbn [orb]; auto.
Qed.

(** And there the sampler has one. *)
Lemma inside_sample (env : @Env binary64) (p : @Point binary64) :
  2 <= width env <= 2 ^ 52 -> 2 <= height env <= 2 ^ 52 ->
  SpecFloat.valid_binary 53 1024 (px p) = true ->
  SpecFloat.valid_binary 53 1024 (py p) = true ->
  (is_number (px p) = false
   \/ SFltb (B64.of_int (-1) false) (px p) = true
      /\ SFltb (px p) (B64.of_int (width env - 1) false) = true) ->
  (is_number (py p) = false
   \/ SFltb (B64.of_int (-1) false) (py p) = true
      /\ SFltb (py p) (B64.of_int (height env - 1) false) = true) ->
  exists v : Point, vectorField env p = Some v.
Proof.
  intros Hw Hh Vx Vy Hx Hy.
  destruct (axis_inside (px p) (width env) Hw Vx Hx) as [Lx Cx].
  destruct (axis_inside (py p) (height env) Hh Vy Hy) as [Ly Cy].
  pose proof (index_below_next (width env) _ ltac:(lia) Lx) as Lx1.
  pose proof (index_below_next (height env) _ ltac:(lia) Ly) as Ly1.
  assert (Lx' : index_below (width env) (lower (px p))).
  { destruct Lx as [E | (k & K & E)]; [left; exact E | right; exists k; split; [lia | exact E]]. }
  assert (Ly' : index_below (height env) (lower (py p))).
  { destruct Ly as [E | (k & K & E)]; [left; exact E | right; exists k; split; [lia | exact E]]. }
  apply index_below_passes in Lx', Ly', Lx1, Ly1, Cx, Cy; try lia.
  assert (Eux : upper_x env p = B64.ceil (px p)).
  { unfold upper_x. cbn [ltb leb floor ceil of_Z binary64].
    rewrite (proj2 Cx). reflexivity. }
  assert (Euy : upper_y env p = B64.ceil (py p)).
  { unfold upper_y. cbn [ltb leb floor ceil of_Z binary64].
    destruct (SFltb (B64.of_int (height env) false) (B64.ceil (py p))) eqn:E;
      [| reflexivity].
    apply ltb_leb in E. rewrite (proj2 Cy) in E. discriminate. }
  unfold vectorField. cbv zeta. rewrite Eux, Euy, lower_x_lower, lower_y_lower.
  cbn [add of_Z binary64].
  rewrite !passes_outside by assumption.
  unfold getXY. rewrite !passes_outside by assumption.
  cbn [orb]. eexists. reflexivity.
Qed.

(** X2.  On the doubles, for a grid of 2 to [2^52] columns and rows:
    the sampler has a value exactly at the points each of whose
    coordinates is NaN or lies above -1 and below the last index of
    its axis. *)
Lemma vectorField_domain_binary64 (env : @Env binary64) (p : @Point binary64) :
  2 <= width env <= 2 ^ 52 -> 2 <= height env <= 2 ^ 52 ->
  SpecFloat.valid_binary 53 1024 (px p) = true ->
  SpecFloat.valid_binary 53 1024 (py p) = true ->
  ((exists v : Point, vectorField env p = Some v)
   <-> (is_number (px p) = false
        \/ (of_Z (-1) <? px p)%js = true
           /\ (px p <? of_Z (width env) - of_Z 1)%js = true)
       /\ (is_number (py p) = false
           \/ (of_Z (-1) <? py p)%js = true
              /\ (py p <? of_Z (height env) - of_Z 1)%js = true)).
Proof.
  intros Hw Hh Vx Vy.
  assert (P53 : 2 ^ 52 < 2 ^ 53) by (apply Z.pow_lt_mono_r; lia).
  cbn [ltb leb sub of_Z binary64]. rewrite !minus_one by lia.
  split.
  - intros [v Hv]. exact (sample_inside env p v Hw Hh Vx Vy Hv).
  - intros [Hx Hy]. exact (inside_sample env p Hw Hh Vx Vy Hx Hy).
Qed.

Lemma vectorField_domain_binary64_witness :
  (exists v : Point, vectorField ramp_env (mkPoint (- dec 5 1)%js nan) = Some v)
  <-> (is_number (- @dec binary64 5 1)%js = false
       \/ (of_Z (-1) <? - @dec binary64 5 1)%js = true
          /\ (- @dec binary64 5 1 <? of_Z (width ramp_env) - of_Z 1)%js = true)
      /\ (is_number (@nan binary64) = false
          \/ (@of_Z binary64 (-1) <? nan)%js = true
             /\ (@nan binary64 <? of_Z (height ramp_env) - of_Z 1)%js = true).
Proof.
  apply (vectorField_domain_binary64 ramp_env (mkPoint (- dec 5 1)%js nan));
    try reflexivity; cbn [width height ramp_env processItem_env ramp_data data_u Ni Nj];
    lia.
Defined.

End DoubleWholeDomain.

(** ** Degenerate ranges through the sampler, on the doubles *)

Module B64FlatFacts.
Import B64Order B64OrderFacts B64Facts.
Local Existing Instance binary64 | 0.

(** A product or a sum with NaN or an infinity is NaN or an infinity. *)
Lemma times_not_finite_l (a b : B64.t) :
  finite_or_zero a = false -> finite_or_zero (B64.times a b) = false.
Proof.
  destruct a as [sa | sa | | sa ma ea]; try discriminate; intros _;
    destruct b as [sb | sb | | sb mb eb]; reflexivity.
Qed.

Lemma plus_not_finite_l (a b : B64.t) :
  finite_or_zero a = false -> finite_or_zero (B64.plus a b) = false.
Proof.
  destruct a as [sa | sa | | sa ma ea]; try discriminate; intros _;
    destruct b as [sb | sb | | sb mb eb]; try reflexivity;
    destruct sa, sb; reflexivity.
Qed.

(** With the maximum equal to the minimum, the value stored for the cell
    is NaN or an infinity. *)
Lemma normalize_flat_binary64 (value lo hi : B64.t) :
  js_eqb lo hi = true -> finite_or_zero (normalize value lo hi) = false.
Proof.
  unfold js_eqb. intros H. apply andb_true_iff in H. destruct H as [A B].
  unfold normalize. cbn [sub div binary64].
  destruct (minus_equal lo hi A B) as [E | [s E]]; rewrite E;
    destruct (B64.minus value lo) as [sa | sa | | sa ma ea]; reflexivity.
Qed.

(** And what is made of it, or of NaN, is NaN after it is scaled back. *)
Lemma denormalize_flat_binary64 (r lo hi : B64.t) :
  js_eqb lo hi = true -> finite_or_zero r = false -> denormalize r lo hi = nan.
Proof.
  unfold js_eqb. intros H Hr. apply andb_true_iff in H. destruct H as [A B].
  unfold denormalize. cbn [add sub mul nan binary64].
  destruct (minus_equal lo hi A B) as [E | [s E]]; rewrite E;
    destruct r as [sa | sa | | sa ma ea]; try discriminate;
    destruct lo as [sb | sb | | sb mb eb]; reflexivity.
Qed.

(** The interpolation takes NaN and the infinities of its first corner
    to the result. *)
Lemma mix_not_finite_x (a b : @Point binary64) (r : B64.t) :
  finite_or_zero (px a) = false -> finite_or_zero (px (mix a b r)) = false.
Proof.
  intros H. unfold mix. cbn [px add mul binary64].
  apply plus_not_finite_l, times_not_finite_l, H.
Qed.

Lemma mix_not_finite_y (a b : @Point binary64) (r : B64.t) :
  finite_or_zero (py a) = false -> finite_or_zero (py (mix a b r)) = false.
Proof.
  intros H. unfold mix. cbn [py add mul binary64].
  apply plus_not_finite_l, times_not_finite_l, H.
Qed.

End B64FlatFacts.

Module B64KeyFacts.
Import B64Order B64OrderFacts B64Facts B64Int B64IntFacts B64RoundFacts B64ValueFacts.
Import B64PixelFacts B64FloorFacts B64ExactFacts B64Axis.
Open Scope Z_scope.

Lemma whole_plus (a z : B64.t) (k c : Z) :
  0 <= k -> 0 <= c -> k + c < 2 ^ 53 ->
  whole k a -> whole c z -> whole (k + c) (B64.plus a z).
Proof.
  intros K C H [-> | [-> ->]] [-> | [-> ->]].
  - left. apply plus_int; assumption.
  - rewrite Z.add_0_r.
    destruct (of_int_cases k ltac:(lia)) as [[-> E] | (m & e & E & _)];
      left; rewrite E; reflexivity.
  - cbn [Z.add].
    destruct (of_int_cases c ltac:(lia)) as [[-> E] | (m & e & E & _)];
      left; rewrite E; reflexivity.
  - right. split; reflexivity.
Qed.

Lemma whole_times (a : B64.t) (k w : Z) :
  0 <= k -> 1 <= w < 2 ^ 53 -> k * w < 2 ^ 53 ->
  whole k a -> whole (k * w) (B64.times a (B64.of_int w false)).
Proof.
  intros K W H [-> | [-> ->]].
  - left. apply times_int; nia.
  - right. split; [reflexivity |].
    destruct (of_int_cases w ltac:(lia)) as [[W0 _] | (m & e & -> & _)]; [lia |].
    reflexivity.
Qed.

Lemma whole_index (a : B64.t) (k : Z) :
  0 <= k < 2 ^ 53 -> whole k a -> B64.index a = Some k.
Proof.
  intros K [-> | [-> ->]]; [apply index_of_int; exact K | reflexivity].
Qed.

(** The two keys of [getXY] at a corner of whole indices. *)
Lemma corner_keys (a b : B64.t) (k j w : Z) :
  0 <= k -> 0 <= j -> 1 <= w -> w < 2 ^ 52 -> k + j * w < 2 ^ 50 ->
  whole k a -> whole j b ->
  B64.index (B64.times (B64.plus a (B64.times b (B64.of_int w false)))
               (B64.of_int 2 false))
  = Some (2 * (k + j * w))
  /\ B64.index (B64.plus (B64.times (B64.plus a (B64.times b (B64.of_int w false)))
                            (B64.of_int 2 false))
                  (B64.of_int 1 false))
     = Some (2 * (k + j * w) + 1).
Proof.
  intros K J W1 W2 H Ha Hb.
  assert (P50 : 2 ^ 50 * 8 = 2 ^ 53) by reflexivity.
  assert (P52 : 2 ^ 52 * 2 = 2 ^ 53) by reflexivity.
  pose proof (whole_times b j w J ltac:(lia) ltac:(nia) Hb) as Hz.
  pose proof (whole_plus a _ k (j * w) K ltac:(nia) ltac:(nia) Ha Hz) as Hs.
  pose proof (whole_times _ (k + j * w) 2 ltac:(nia) ltac:(lia) ltac:(nia) Hs) as Ht.
  replace ((k + j * w) * 2) with (2 * (k + j * w)) in Ht by lia.
  split.
  - apply whole_index; [nia | exact Ht].
  - destruct (index_tests _ (2 * (k + j * w)) (2 ^ 52) ltac:(nia) ltac:(lia) Ht)
      as (_ & _ & E).
    rewrite E. apply index_of_int. nia.
Qed.

End B64KeyFacts.

Section DoubleFlat.
Import B64Order B64OrderFacts B64IntFacts B64FloorFacts B64Axis B64AxisFacts.
Import B64KeyFacts B64FlatFacts.
Local Existing Instance binary64 | 0.
Open Scope Z_scope.

(** The read at a corner of whole indices is the read at the integers. *)
Lemma getXY_whole (env : @Env binary64) (a b : B64.t) (k j : Z) :
  width env <= 2 ^ 52 -> height env <= 2 ^ 52 ->
  0 <= k < width env -> 0 <= j < height env ->
  width env * height env < 2 ^ 50 ->
  whole k a -> whole j b ->
  getXY env a b = getXY env (of_Z k) (of_Z j).
Proof.
  intros Hw Hh K J H Ha Hb.
  assert (B : k + j * width env < 2 ^ 50) by nia.
  assert (W2 : width env < 2 ^ 52).
  { assert (2 ^ 50 < 2 ^ 52) by (apply Z.pow_lt_mono_r; lia). nia. }
  unfold getXY. cbn [of_Z binary64].
  rewrite (outside_inside env a b k j) by assumption.
  rewrite (outside_inside env (B64.of_int k false) (B64.of_int j false) k j)
    by (try assumption; left; reflexivity).
  cbv zeta. unfold js_get. cbn [to_index add mul of_Z binary64].
  destruct (corner_keys a b k j (width env) ltac:(lia) ltac:(lia) ltac:(lia) W2 B Ha Hb)
    as [E1 E2].
  destruct (corner_keys (B64.of_int k false) (B64.of_int j false) k j (width env)
              ltac:(lia) ltac:(lia) ltac:(lia) W2 B (or_introl eq_refl)
              (or_introl eq_refl)) as [F1 F2].
  rewrite E1, E2, F1, F2. reflexivity.
Qed.

(** At a NaN index the read is NaN twice. *)
Lemma getXY_nan (env : @Env binary64) (a b : B64.t) (q : Point) :
  a = S754_nan \/ b = S754_nan ->
  getXY env a b = Some q -> q = mkPoint nan nan.
Proof.
  intros H G. unfold getXY in G.
  destruct (outside env a b); [discriminate |].
  cbv zeta in G. cbn [add mul of_Z binary64] in G.
  assert (E : B64.times (B64.plus a (B64.times b (B64.of_int (width env) false)))
                (B64.of_int 2 false) = S754_nan).
  { destruct H as [-> | ->].
    - reflexivity.
    - destruct (B64.of_int (width env) false) as [| [] | | []];
        destruct a as [[] | [] | | []]; reflexivity. }
  rewrite E in G.
  apply (f_equal (fun o => match o with Some r => r | None => q end)) in G.
  cbv beta iota in G. rewrite <- G. reflexivity.
Qed.

(** What [vectorField] returns is made of its top left read. *)
Lemma sample_of_corner (env : @Env binary64) (p v : @Point binary64) :
  vectorField env p = Some v ->
  exists (tl a b : Point) (rx ry : B64.t),
    getXY env (lower_x p) (lower_y p) = Some tl
    /\ px v = (- denormalize (px (mix (mix tl a rx) b ry)) (uMin env) (uMax env))%js
    /\ py v = denormalize (py (mix (mix tl a rx) b ry)) (vMin env) (vMax env).
Proof.
  intros H. unfold vectorField in H. cbv zeta in H.
  match type of H with (if ?c then _ else _) = _ => destruct c; [discriminate |] end.
  destruct (getXY env (lower_x p) (lower_y p)) as [tl |]; [| discriminate].
  destruct (getXY env (lower_x p + of_Z 1)%js (lower_y p)) as [tr |]; [| discriminate].
  destruct (getXY env (lower_x p) (lower_y p + of_Z 1)%js) as [bl |]; [| discriminate].
  destruct (getXY env (lower_x p + of_Z 1)%js (lower_y p + of_Z 1)%js) as [br |];
    [| discriminate].
  apply (f_equal (fun o => match o with Some r => r | None => v end)) in H.
  cbv beta iota in H. subst v.
  eexists tl, tr, _, _, _. split; [reflexivity |]. split; reflexivity.
Qed.

(** In a field loaded from a component whose minimum is its maximum,
    what a corner reads for the component is NaN or an infinity. *)
Lemma flat_read (data : @Dataset binary64) (a b : B64.t) (q : Point) :
  2 <= Ni (data_u data) -> 3 <= Nj (data_u data) ->
  Ni (data_u data) * (Nj (data_u data) - 1) < 2 ^ 50 ->
  Ni (data_u data) mod 2 = 0 ->
  index_below (Ni (data_u data)) a -> index_below (Nj (data_u data) - 1) b ->
  getXY (processItem_env data) a b = Some q ->
  (js_eqb (minimum (data_u data)) (maximum (data_u data)) = true ->
   finite_or_zero (px q) = false)
  /\ (js_eqb (minimum (data_v data)) (maximum (data_v data)) = true ->
      finite_or_zero (py q) = false).
Proof.
  intros Hw Hh Hb Hev Ia Ib G.
  assert (P50 : 2 ^ 50 * 4 = 2 ^ 52) by reflexivity.
  destruct Ia as [Ea | (k & K & Ha)].
  { rewrite (getXY_nan _ a b q (or_introl Ea) G). split; reflexivity. }
  destruct Ib as [Eb | (j & J & Hj)].
  { rewrite (getXY_nan _ a b q (or_intror Eb) G). split; reflexivity. }
  rewrite (getXY_whole _ a b k j) in G;
    try assumption; cbn [width height processItem_env]; try nia.
  rewrite getXY_loaded_binary64 in G by assumption.
  apply (f_equal (fun o => match o with Some r => r | None => q end)) in G.
  cbv beta iota in G. subst q. cbn [px py]. unfold shifted_value.
  split; intros F; apply normalize_flat_binary64; exact F.
Qed.

(** X7.  On the doubles, in the field of a dataset of 2 columns and 3
    rows at least and fewer than [2^50] cells: when the minimum of [u]
    is its maximum, the [x] of every sample is NaN, and when the
    minimum of [v] is its maximum, the [y] of every sample is NaN. *)
Lemma flat_range_sample_binary64 (data : @Dataset binary64) (p v : @Point binary64) :
  2 <= Ni (data_u data) -> 3 <= Nj (data_u data) ->
  Ni (data_u data) * (Nj (data_u data) - 1) < 2 ^ 50 ->
  SpecFloat.valid_binary 53 1024 (px p) = true ->
  SpecFloat.valid_binary 53 1024 (py p) = true ->
  vectorField (processItem_env data) p = Some v ->
  (js_eqb (minimum (data_u data)) (maximum (data_u data)) = true -> px v = nan)
  /\ (js_eqb (minimum (data_v data)) (maximum (data_v data)) = true -> py v = nan).
Proof.
  intros Hw Hh Hb Vx Vy H.
  assert (P50 : 2 ^ 50 * 4 = 2 ^ 52) by reflexivity.
  destruct (Z.eq_dec (Ni (data_u data) mod 2) 0) as [Hev | Hodd].
  2: { assert (Hodd' : Ni (data_u data) mod 2 = 1).
       { pose proof (Z.mod_pos_bound (Ni (data_u data)) 2 ltac:(lia)). lia. }
       rewrite (vectorField_nans_binary64 (processItem_env data)
                  (2 * (Z.to_nat (Nj (data_u data) - 1) * Z.to_nat (Ni (data_u data))))
                  p v); [split; reflexivity | | exact H].
       cbn [vfData processItem_env].
       apply fill_vfData_odd_binary64; [exact Hodd' | lia | exact Hb]. }
  destruct (sample_inside (processItem_env data) p v) as [Ix Iy];
    try assumption; cbn [width height processItem_env]; try nia.
  cbn [width height processItem_env] in Ix, Iy.
  destruct (axis_inside (px p) (Ni (data_u data)) ltac:(nia) Vx Ix) as [Lx _].
  destruct (axis_inside (py p) (Nj (data_u data) - 1) ltac:(nia) Vy Iy) as [Ly _].
  assert (Lx' : index_below (Ni (data_u data)) (lower (px p))).
  { destruct Lx as [E | (k & K & E)]; [left; exact E | right; exists k; split; [lia | exact E]]. }
  assert (Ly' : index_below (Nj (data_u data) - 1) (lower (py p))).
  { destruct Ly as [E | (k & K & E)]; [left; exact E | right; exists k; split; [lia | exact E]]. }
  destruct (sample_of_corner _ p v H) as (tl & a & b & rx & ry & G & Ex & Ey).
  rewrite lower_x_lower, lower_y_lower in G.
  destruct (flat_read data _ _ tl Hw Hh Hb Hev Lx' Ly' G) as [Fu Fv].
  cbn [uMin uMax vMin vMax processItem_env] in Ex, Ey.
  split; intros F.
  - rewrite Ex, denormalize_flat_binary64; [reflexivity | exact F |].
    apply mix_not_finite_x, mix_not_finite_x, Fu, F.
  - rewrite Ey. apply denormalize_flat_binary64; [exact F |].
    apply mix_not_finite_y, mix_not_finite_y, Fv, F.
Qed.

(** A point of the flat field, on the doubles. *)
Lemma flat_field_point :
  SpecFloat.valid_binary 53 1024 (@dec binary64 15 1) = true
  /\ SpecFloat.valid_binary 53 1024 (@dec binary64 5 1) = true
  /\ js_eqb (minimum (data_u (@flat_data binary64))) (maximum (data_u flat_data)) = true
  /\ vectorField flat_env (mkPoint (dec 15 1) (dec 5 1))
     = Some (mkPoint nan (dec 35 1)).
Proof. repeat split; reflexivity. Qed.

Lemma flat_range_sample_binary64_witness :
  exists v : Point,
    vectorField flat_env (mkPoint (dec 15 1) (dec 5 1)) = Some v /\ px v = nan.
Proof.
  destruct flat_field_point as (Vx & Vy & F & H).
  exists (mkPoint nan (dec 35 1)). split; [exact H |].
  apply (proj1 (flat_range_sample_binary64 flat_data (mkPoint (dec 15 1) (dec 5 1)) _
                  ltac:(cbn [flat_data data_u Ni Nj]; lia)
                  ltac:(cbn [flat_data data_u Ni Nj]; lia)
                  ltac:(cbn [flat_data data_u Ni Nj]; lia)
                  Vx Vy H)).
  exact F.
Defined.

End DoubleFlat.
